(** * Superpage reservation manager (sys/vm/vm_reserv.c)

    A shallow embedding of the reservation module: the population map and
    its word-level bit operations, the reservation records and the LRU
    queues, the populate / depopulate / break engine, the allocator
    front-ends, reclaim, rename and the aging scan, followed by the
    properties proved about them.

    The model follows one kernel thread built with INVARIANTS: every
    KASSERT, MPASS and mtx_assert is evaluated, and a failing one ends
    the run with [EPanic].  Mutexes record whether the running thread,
    another thread or nobody owns them; a blocking acquisition of a mutex
    owned by another thread never returns in a one-thread run and is
    reported as [EBlocked]. *)

From Stdlib Require Import ZArith List Lia Bool.
From stdpp Require Import base list.
Import ListNotations.

Local Open Scope Z_scope.

(** ** Machine integers *)

Definition u64 (x : Z) : Z := x mod 2 ^ 64.
Definition u32 (x : Z) : Z := x mod 2 ^ 32.
Definition u16 (x : Z) : Z := x mod 2 ^ 16.
Definition u8 (x : Z) : Z := x mod 2 ^ 8.
(** Conversion to int8_t / long: two's complement wrap-around. *)
Definition s8 (x : Z) : Z := (x + 2 ^ 7) mod 2 ^ 8 - 2 ^ 7.
Definition s64 (x : Z) : Z := (x + 2 ^ 63) mod 2 ^ 64 - 2 ^ 63.

(** [~x] on an unsigned long. *)
Definition not64 (x : Z) : Z := u64 (Z.lnot x).

(** ffsl(3): one plus the index of the least significant set bit of a
    long, or 0 when no bit is set. *)
Fixpoint ffs_from (x : Z) (k : Z) (n : nat) : Z :=
  match n with
  | O => 0
  | S n' => if Z.testbit x k then k + 1 else ffs_from x (k + 1) n'
  end.

Definition ffsl (x : Z) : Z := ffs_from x 0 64.

(** ** Constants *)

(** Modelled from the spec: PAGE_SHIFT and VM_LEVEL_0_ORDER come from the
    machine headers (machine/param.h, machine/vmparam.h), which are not
    part of the module; the spec fixes N = 512 small pages of 4096 bytes
    per 2 MiB superpage. *)
Definition PAGE_SHIFT : Z := 12.
Definition VM_LEVEL_0_ORDER : Z := 9.

Definition PAGE_SIZE : Z := Z.shiftl 1 PAGE_SHIFT.
Definition PAGE_MASK : Z := PAGE_SIZE - 1.

Definition VM_LEVEL_0_NPAGES : Z := Z.shiftl 1 VM_LEVEL_0_ORDER.
Definition VM_LEVEL_0_SHIFT : Z := VM_LEVEL_0_ORDER + PAGE_SHIFT.
Definition VM_LEVEL_0_SIZE : Z := Z.shiftl 1 VM_LEVEL_0_SHIFT.

(** NBBY * sizeof(u_long) on an LP64 machine. *)
Definition NBPOPMAP : Z := 64.
(** howmany(VM_LEVEL_0_NPAGES, NBPOPMAP) *)
Definition NPOPMAP : Z := (VM_LEVEL_0_NPAGES + (NBPOPMAP - 1)) / NBPOPMAP.

Definition VM_RESERV_F_ACTIVE : Z := 1.
Definition VM_RESERV_F_INACTIVE : Z := 2.
Definition VM_RESERV_F_PARTPOP : Z :=
  Z.lor VM_RESERV_F_ACTIVE VM_RESERV_F_INACTIVE.
Definition VM_RESERV_F_MARKER : Z := 4.

Definition RV_INIT : Z := 2.
Definition RV_POP_STEP : Z := 1.
Definition RV_DEPOP_STEP : Z := 1.
Definition RV_DEC : Z := 1.
Definition RV_ACT_MAX : Z := 64.

Definition RV_LOCK_COUNT : Z := 256.

Definition VM_FREEPOOL_DEFAULT : Z := 0.

(** ** Population map *)

(** popmap[k]; [None] when k is outside the array. *)
Definition popmap_word (popmap : list Z) (k : Z) : option Z :=
  if (0 <=? k) && (k <? NPOPMAP) then popmap !! Z.to_nat k else None.

(** popmap[k] = w, for k inside the array. *)
Definition popmap_store (popmap : list Z) (k : Z) (w : Z) : list Z :=
  <[Z.to_nat k := w]> popmap.

Definition popmap_clear (popmap : list Z) (i : Z) : option (list Z) :=
  match popmap_word popmap (i / NBPOPMAP) with
  | Some w =>
      Some (popmap_store popmap (i / NBPOPMAP)
              (Z.land w (not64 (Z.shiftl 1 (i mod NBPOPMAP)))))
  | None => None
  end.

Definition popmap_set (popmap : list Z) (i : Z) : option (list Z) :=
  match popmap_word popmap (i / NBPOPMAP) with
  | Some w =>
      Some (popmap_store popmap (i / NBPOPMAP)
              (Z.lor w (Z.shiftl 1 (i mod NBPOPMAP))))
  | None => None
  end.

Definition popmap_is_clear (popmap : list Z) (i : Z) : option bool :=
  match popmap_word popmap (i / NBPOPMAP) with
  | Some w => Some (Z.land w (Z.shiftl 1 (i mod NBPOPMAP)) =? 0)
  | None => None
  end.

Definition popmap_is_set (popmap : list Z) (i : Z) : option bool :=
  match popmap_word popmap (i / NBPOPMAP) with
  | Some w => Some (negb (Z.land w (Z.shiftl 1 (i mod NBPOPMAP)) =? 0))
  | None => None
  end.

(** ** Records *)

(** A [vm_reserv_t]: the statically allocated scan marker, or the n-th
    element of [vm_reserv_array]. *)
Inductive rvref : Type := Marker | Rv (n : nat).

#[global] Instance rvref_eq_dec : EqDecision rvref.
Proof. solve_decision. Defined.

(** struct vm_reserv.  The two intrusive links (partpopq, objq) are
    represented by the lists that thread through them, see [state].
    Objects are named by their index in the object table, pages by their
    physical address; [None] is NULL. *)
Record vm_reserv : Type := mk_vm_reserv {
  rv_object : option nat;
  rv_pindex : Z;
  rv_pages : option Z;
  rv_seq : Z;
  rv_popcnt : Z;
  rv_actcnt : Z;
  rv_flags : Z;
  rv_popmap : list Z
}.

Definition set_rv_object (o : option nat) (r : vm_reserv) : vm_reserv :=
  mk_vm_reserv o (rv_pindex r) (rv_pages r) (rv_seq r) (rv_popcnt r)
    (rv_actcnt r) (rv_flags r) (rv_popmap r).
Definition set_rv_pindex (p : Z) (r : vm_reserv) : vm_reserv :=
  mk_vm_reserv (rv_object r) p (rv_pages r) (rv_seq r) (rv_popcnt r)
    (rv_actcnt r) (rv_flags r) (rv_popmap r).
Definition set_rv_pages (p : option Z) (r : vm_reserv) : vm_reserv :=
  mk_vm_reserv (rv_object r) (rv_pindex r) p (rv_seq r) (rv_popcnt r)
    (rv_actcnt r) (rv_flags r) (rv_popmap r).
Definition set_rv_seq (q : Z) (r : vm_reserv) : vm_reserv :=
  mk_vm_reserv (rv_object r) (rv_pindex r) (rv_pages r) q (rv_popcnt r)
    (rv_actcnt r) (rv_flags r) (rv_popmap r).
Definition set_rv_popcnt (c : Z) (r : vm_reserv) : vm_reserv :=
  mk_vm_reserv (rv_object r) (rv_pindex r) (rv_pages r) (rv_seq r) c
    (rv_actcnt r) (rv_flags r) (rv_popmap r).
Definition set_rv_actcnt (c : Z) (r : vm_reserv) : vm_reserv :=
  mk_vm_reserv (rv_object r) (rv_pindex r) (rv_pages r) (rv_seq r)
    (rv_popcnt r) c (rv_flags r) (rv_popmap r).
Definition set_rv_flags (f : Z) (r : vm_reserv) : vm_reserv :=
  mk_vm_reserv (rv_object r) (rv_pindex r) (rv_pages r) (rv_seq r)
    (rv_popcnt r) (rv_actcnt r) f (rv_popmap r).
Definition set_rv_popmap (pm : list Z) (r : vm_reserv) : vm_reserv :=
  mk_vm_reserv (rv_object r) (rv_pindex r) (rv_pages r) (rv_seq r)
    (rv_popcnt r) (rv_actcnt r) (rv_flags r) pm.

Inductive objtype : Type :=
| OBJT_DEFAULT | OBJT_SWAP | OBJT_VNODE | OBJT_DEVICE
| OBJT_PHYS | OBJT_DEAD | OBJT_SG | OBJT_MGTDEVICE.

#[global] Instance objtype_eq_dec : EqDecision objtype.
Proof. solve_decision. Defined.

(** The fields of struct vm_page this module reads. *)
Record vm_page : Type := mk_vm_page {
  phys_addr : Z;
  m_object : option nat;
  m_pindex : Z
}.

(** The fields of struct vm_object this module reads, its reservation
    list [rvq], and whether the running thread holds its write lock. *)
Record vm_object : Type := mk_vm_object {
  o_size : Z;
  o_pg_color : Z;
  o_type : objtype;
  o_backing_object : option nat;
  o_memq : list vm_page;
  o_rvq : list rvref;
  o_wlocked : bool
}.

Definition set_o_rvq (q : list rvref) (o : vm_object) : vm_object :=
  mk_vm_object (o_size o) (o_pg_color o) (o_type o) (o_backing_object o)
    (o_memq o) q (o_wlocked o).

(** A mutex as seen by the running thread. *)
Inductive mtx : Type := MtxUnowned | MtxOwned | MtxOther.

(** What leaves the module or is observed through the sequence counter:
    calls into the physical allocator, stores to a page's size hint, and
    the stores that [vm_reserv_set_object] brackets. *)
Inductive event : Type :=
| EvSeqWriteBegin (rv : rvref)
| EvSeqWriteEnd (rv : rvref)
| EvStoreObject (rv : rvref) (o : option nat)
| EvStorePindex (rv : rvref) (p : Z)
| EvStorePsind (m : Z) (v : Z)
| EvPhysAllocPages (pool order : Z) (m : option Z)
| EvPhysAllocContig (npages low high alignment boundary : Z) (m : option Z)
| EvPhysFreePages (m : Z) (order : Z)
| EvPhysFreeContig (m : Z) (npages : Z).

(** The module's globals, the object table, and the size hint of the
    first small page of every superpage frame ([psind], indexed by
    physical address >> VM_LEVEL_0_SHIFT: the only pages whose hint the
    module touches). *)
Record state : Type := mk_state {
  vm_reserv_array : list vm_reserv;
  scan_marker : vm_reserv;
  vm_rvlru_active : list rvref;
  vm_rvlru_inactive : list rvref;
  vm_objects : list vm_object;
  psind : list Z;
  rv_lock : list mtx;
  vm_page_queue_free_mtx : mtx;
  vm_reserv_broken : Z;
  vm_reserv_freed : Z;
  vm_reserv_reclaimed : Z;
  trace : list event
}.

Definition set_vm_reserv_array (a : list vm_reserv) (s : state) : state :=
  mk_state a (scan_marker s) (vm_rvlru_active s) (vm_rvlru_inactive s)
    (vm_objects s) (psind s) (rv_lock s) (vm_page_queue_free_mtx s)
    (vm_reserv_broken s) (vm_reserv_freed s) (vm_reserv_reclaimed s)
    (trace s).
Definition set_scan_marker (r : vm_reserv) (s : state) : state :=
  mk_state (vm_reserv_array s) r (vm_rvlru_active s) (vm_rvlru_inactive s)
    (vm_objects s) (psind s) (rv_lock s) (vm_page_queue_free_mtx s)
    (vm_reserv_broken s) (vm_reserv_freed s) (vm_reserv_reclaimed s)
    (trace s).
Definition set_vm_rvlru_active (q : list rvref) (s : state) : state :=
  mk_state (vm_reserv_array s) (scan_marker s) q (vm_rvlru_inactive s)
    (vm_objects s) (psind s) (rv_lock s) (vm_page_queue_free_mtx s)
    (vm_reserv_broken s) (vm_reserv_freed s) (vm_reserv_reclaimed s)
    (trace s).
Definition set_vm_rvlru_inactive (q : list rvref) (s : state) : state :=
  mk_state (vm_reserv_array s) (scan_marker s) (vm_rvlru_active s) q
    (vm_objects s) (psind s) (rv_lock s) (vm_page_queue_free_mtx s)
    (vm_reserv_broken s) (vm_reserv_freed s) (vm_reserv_reclaimed s)
    (trace s).
Definition set_vm_objects (o : list vm_object) (s : state) : state :=
  mk_state (vm_reserv_array s) (scan_marker s) (vm_rvlru_active s)
    (vm_rvlru_inactive s) o (psind s) (rv_lock s)
    (vm_page_queue_free_mtx s) (vm_reserv_broken s) (vm_reserv_freed s)
    (vm_reserv_reclaimed s) (trace s).
Definition set_psind (p : list Z) (s : state) : state :=
  mk_state (vm_reserv_array s) (scan_marker s) (vm_rvlru_active s)
    (vm_rvlru_inactive s) (vm_objects s) p (rv_lock s)
    (vm_page_queue_free_mtx s) (vm_reserv_broken s) (vm_reserv_freed s)
    (vm_reserv_reclaimed s) (trace s).
Definition set_rv_lock (l : list mtx) (s : state) : state :=
  mk_state (vm_reserv_array s) (scan_marker s) (vm_rvlru_active s)
    (vm_rvlru_inactive s) (vm_objects s) (psind s) l
    (vm_page_queue_free_mtx s) (vm_reserv_broken s) (vm_reserv_freed s)
    (vm_reserv_reclaimed s) (trace s).
Definition set_vm_page_queue_free_mtx (m : mtx) (s : state) : state :=
  mk_state (vm_reserv_array s) (scan_marker s) (vm_rvlru_active s)
    (vm_rvlru_inactive s) (vm_objects s) (psind s) (rv_lock s) m
    (vm_reserv_broken s) (vm_reserv_freed s) (vm_reserv_reclaimed s)
    (trace s).
Definition set_vm_reserv_broken (c : Z) (s : state) : state :=
  mk_state (vm_reserv_array s) (scan_marker s) (vm_rvlru_active s)
    (vm_rvlru_inactive s) (vm_objects s) (psind s) (rv_lock s)
    (vm_page_queue_free_mtx s) c (vm_reserv_freed s)
    (vm_reserv_reclaimed s) (trace s).
Definition set_vm_reserv_freed (c : Z) (s : state) : state :=
  mk_state (vm_reserv_array s) (scan_marker s) (vm_rvlru_active s)
    (vm_rvlru_inactive s) (vm_objects s) (psind s) (rv_lock s)
    (vm_page_queue_free_mtx s) (vm_reserv_broken s) c
    (vm_reserv_reclaimed s) (trace s).
Definition set_vm_reserv_reclaimed (c : Z) (s : state) : state :=
  mk_state (vm_reserv_array s) (scan_marker s) (vm_rvlru_active s)
    (vm_rvlru_inactive s) (vm_objects s) (psind s) (rv_lock s)
    (vm_page_queue_free_mtx s) (vm_reserv_broken s) (vm_reserv_freed s) c
    (trace s).
Definition set_trace (t : list event) (s : state) : state :=
  mk_state (vm_reserv_array s) (scan_marker s) (vm_rvlru_active s)
    (vm_rvlru_inactive s) (vm_objects s) (psind s) (rv_lock s)
    (vm_page_queue_free_mtx s) (vm_reserv_broken s) (vm_reserv_freed s)
    (vm_reserv_reclaimed s) t.

(** ** The monad of kernel code: state and abnormal termination *)

Inductive error : Type :=
| EPanic    (* a KASSERT, MPASS or mtx_assert failed, or a mutex recursed *)
| EQueue    (* a queue(3) macro applied to an element that is not linked
               as the macro requires: the links are overwritten *)
| EFault    (* access through NULL or outside an array *)
| EBlocked  (* waits for another thread *)
| EFuel.    (* iteration bound of the model exceeded *)

Inductive res (A : Type) : Type :=
| Ok (a : A)
| Err (e : error).
Arguments Ok {A} a.
Arguments Err {A} e.

Definition M (A : Type) : Type := state -> res (A * state).

Definition ret {A : Type} (a : A) : M A := fun s => Ok (a, s).

Definition bind {A B : Type} (m : M A) (f : A -> M B) : M B :=
  fun s => match m s with
           | Ok (a, s') => f a s'
           | Err e => Err e
           end.

Definition fail {A : Type} (e : error) : M A := fun _ => Err e.

Definition get : M state := fun s => Ok (s, s).
Definition modify (f : state -> state) : M unit := fun s => Ok (tt, f s).

Definition lift {A : Type} (r : res A) : M A :=
  fun s => match r with Ok a => Ok (a, s) | Err e => Err e end.

Definition res_of_option {A : Type} (e : error) (o : option A) : res A :=
  match o with Some a => Ok a | None => Err e end.

Declare Scope kern_scope.
Delimit Scope kern_scope with kern.
Notation "x <- c1 ;; c2" := (bind c1 (fun x => c2))
  (at level 100, c1 at next level, right associativity) : kern_scope.
Notation "c1 ;; c2" := (bind c1 (fun _ => c2))
  (at level 100, right associativity) : kern_scope.
Local Open Scope kern_scope.

Definition KASSERT (b : bool) : M unit :=
  if b then ret tt else fail EPanic.

Definition emit (e : event) : M unit :=
  modify (fun s => set_trace (trace s ++ [e]) s).

(** Bind in [res], for the loops that work on local variables. *)
Definition rbind {A B : Type} (r : res A) (f : A -> res B) : res B :=
  match r with Ok a => f a | Err e => Err e end.

(** *** Memory *)

Definition load_rv (rv : rvref) : M vm_reserv :=
  fun s =>
    match rv with
    | Marker => Ok (scan_marker s, s)
    | Rv n => match vm_reserv_array s !! n with
              | Some r => Ok (r, s)
              | None => Err EFault
              end
    end.

Definition store_rv (rv : rvref) (r : vm_reserv) : M unit :=
  fun s =>
    match rv with
    | Marker => Ok (tt, set_scan_marker r s)
    | Rv n => match vm_reserv_array s !! n with
              | Some _ =>
                  Ok (tt, set_vm_reserv_array (<[n := r]> (vm_reserv_array s)) s)
              | None => Err EFault
              end
    end.

Definition load_obj (o : nat) : M vm_object :=
  fun s => match vm_objects s !! o with
           | Some ob => Ok (ob, s)
           | None => Err EFault
           end.

Definition store_obj (o : nat) (ob : vm_object) : M unit :=
  fun s => match vm_objects s !! o with
           | Some _ => Ok (tt, set_vm_objects (<[o := ob]> (vm_objects s)) s)
           | None => Err EFault
           end.

(** m->psind for the first page of a superpage frame. *)
Definition psind_index (m : Z) : option nat :=
  if (0 <=? m) && (m mod VM_LEVEL_0_SIZE =? 0)
  then Some (Z.to_nat (Z.shiftr m VM_LEVEL_0_SHIFT))
  else None.

Definition load_psind (m : Z) : M Z :=
  fun s => match psind_index m with
           | Some k => match psind s !! k with
                       | Some v => Ok (v, s)
                       | None => Err EFault
                       end
           | None => Err EFault
           end.

Definition store_psind (m : Z) (v : Z) : M unit :=
  fun s => match psind_index m with
           | Some k =>
               match psind s !! k with
               | Some _ =>
                   Ok (tt, set_trace (trace s ++ [EvStorePsind m v])
                             (set_psind (<[k := v]> (psind s)) s))
               | None => Err EFault
               end
           | None => Err EFault
           end.

(** *** Mutexes *)

(** Modelled from the spec: sys/mutex.h is not part of the module.  The
    locks are plain, non-recursive mutexes: mtx_lock by the owner panics,
    mtx_lock of a mutex owned by another thread waits, mtx_trylock never
    waits, mtx_unlock and mtx_assert(MA_OWNED) require ownership. *)
Definition mtx_lock_st (m : mtx) : res mtx :=
  match m with
  | MtxUnowned => Ok MtxOwned
  | MtxOwned => Err EPanic
  | MtxOther => Err EBlocked
  end.

Definition mtx_trylock_st (m : mtx) : bool * mtx :=
  match m with
  | MtxUnowned => (true, MtxOwned)
  | MtxOwned => (false, MtxOwned)
  | MtxOther => (false, MtxOther)
  end.

Definition mtx_unlock_st (m : mtx) : res mtx :=
  match m with
  | MtxOwned => Ok MtxUnowned
  | _ => Err EPanic
  end.

Definition mtx_owned (m : mtx) : bool :=
  match m with MtxOwned => true | _ => false end.

(** mtx_lock(&vm_page_queue_free_mtx) and friends. *)
Definition free_mtx_lock : M unit :=
  fun s => match mtx_lock_st (vm_page_queue_free_mtx s) with
           | Ok m => Ok (tt, set_vm_page_queue_free_mtx m s)
           | Err e => Err e
           end.

Definition free_mtx_unlock : M unit :=
  fun s => match mtx_unlock_st (vm_page_queue_free_mtx s) with
           | Ok m => Ok (tt, set_vm_page_queue_free_mtx m s)
           | Err e => Err e
           end.

Definition free_mtx_assert_owned : M unit :=
  fun s => if mtx_owned (vm_page_queue_free_mtx s) then Ok (tt, s)
           else Err EPanic.

(** RV_LOCKPTR(rv): the index into rv_lock[].  The scan marker is not an
    element of the reservation array and has no lock. *)
Definition RV_LOCKPTR (rv : rvref) : option nat :=
  match rv with
  | Marker => None
  | Rv n => Some (Z.to_nat (Z.of_nat n mod RV_LOCK_COUNT))
  end.

Definition load_lock (rv : rvref) : M (nat * mtx) :=
  fun s => match RV_LOCKPTR rv with
           | Some k => match rv_lock s !! k with
                       | Some m => Ok ((k, m), s)
                       | None => Err EFault
                       end
           | None => Err EFault
           end.

Definition vm_reserv_lock (rv : rvref) : M unit :=
  km <- load_lock rv ;;
  m' <- lift (mtx_lock_st (snd km)) ;;
  modify (fun s => set_rv_lock (<[fst km := m']> (rv_lock s)) s).

Definition vm_reserv_trylock (rv : rvref) : M bool :=
  km <- load_lock rv ;;
  modify (fun s =>
            set_rv_lock (<[fst km := snd (mtx_trylock_st (snd km))]> (rv_lock s)) s) ;;
  ret (fst (mtx_trylock_st (snd km))).

Definition vm_reserv_unlock (rv : rvref) : M unit :=
  km <- load_lock rv ;;
  m' <- lift (mtx_unlock_st (snd km)) ;;
  modify (fun s => set_rv_lock (<[fst km := m']> (rv_lock s)) s).

Definition vm_reserv_assert_locked (rv : rvref) : M unit :=
  km <- load_lock rv ;;
  KASSERT (mtx_owned (snd km)).

(** Modelled from the spec: vm_object.h is not part of the module; the
    object write-lock is an external lock, seen here as a flag of the
    object. *)
Definition VM_OBJECT_ASSERT_WLOCKED (object : nat) : M unit :=
  ob <- load_obj object ;;
  KASSERT (o_wlocked ob).

(** *** Queues *)

(** Modelled from the spec: sys/queue.h is not part of the module.  A
    TAILQ or LIST is the list of the elements linked on it, head first.
    An element has one link field per queue family, so it is on at most
    one LRU queue and on at most one object's list; the macros that
    insert require the element to be unlinked, the macros that remove or
    follow a link require it to be linked. *)
Inductive lruq : Type := Active | Inactive.

Definition lru (q : lruq) (s : state) : list rvref :=
  match q with
  | Active => vm_rvlru_active s
  | Inactive => vm_rvlru_inactive s
  end.

Definition set_lru (q : lruq) (l : list rvref) (s : state) : state :=
  match q with
  | Active => set_vm_rvlru_active l s
  | Inactive => set_vm_rvlru_inactive l s
  end.

Definition inb (x : rvref) (l : list rvref) : bool :=
  if in_dec rvref_eq_dec x l then true else false.

Definition on_lru (rv : rvref) (s : state) : bool :=
  inb rv (vm_rvlru_active s) || inb rv (vm_rvlru_inactive s).

Definition on_objq (rv : rvref) (s : state) : bool :=
  existsb (fun ob => inb rv (o_rvq ob)) (vm_objects s).

Fixpoint insert_before (listelm elm : rvref) (l : list rvref) : list rvref :=
  match l with
  | [] => []
  | y :: l' =>
      if decide (listelm = y) then elm :: y :: l'
      else y :: insert_before listelm elm l'
  end.

Fixpoint next_of (elm : rvref) (l : list rvref) : option rvref :=
  match l with
  | [] => None
  | y :: l' => if decide (elm = y) then head l' else next_of elm l'
  end.

Definition TAILQ_FIRST (q : lruq) : M (option rvref) :=
  fun s => Ok (head (lru q s), s).

Definition TAILQ_NEXT (q : lruq) (elm : rvref) : M (option rvref) :=
  fun s => if inb elm (lru q s) then Ok (next_of elm (lru q s), s)
           else Err EQueue.

Definition TAILQ_REMOVE (q : lruq) (elm : rvref) : M unit :=
  fun s => if inb elm (lru q s)
           then Ok (tt, set_lru q (remove rvref_eq_dec elm (lru q s)) s)
           else Err EQueue.

Definition TAILQ_INSERT_TAIL (q : lruq) (elm : rvref) : M unit :=
  fun s => if on_lru elm s then Err EQueue
           else Ok (tt, set_lru q (lru q s ++ [elm]) s).

Definition TAILQ_INSERT_HEAD (q : lruq) (elm : rvref) : M unit :=
  fun s => if on_lru elm s then Err EQueue
           else Ok (tt, set_lru q (elm :: lru q s) s).

Definition TAILQ_INSERT_BEFORE (listelm elm : rvref) : M unit :=
  fun s =>
    if on_lru elm s then Err EQueue
    else if inb listelm (vm_rvlru_active s)
    then Ok (tt, set_vm_rvlru_active
                   (insert_before listelm elm (vm_rvlru_active s)) s)
    else if inb listelm (vm_rvlru_inactive s)
    then Ok (tt, set_vm_rvlru_inactive
                   (insert_before listelm elm (vm_rvlru_inactive s)) s)
    else Err EQueue.

(** LIST_FIRST(&object->rvq) *)
Definition LIST_FIRST (object : nat) : M (option rvref) :=
  ob <- load_obj object ;;
  ret (head (o_rvq ob)).

(** LIST_INSERT_HEAD(&object->rvq, rv, objq) *)
Definition LIST_INSERT_HEAD (object : nat) (rv : rvref) : M unit :=
  s <- get ;;
  if on_objq rv s then fail EQueue
  else ob <- load_obj object ;;
       store_obj object (set_o_rvq (rv :: o_rvq ob) ob).

(** LIST_REMOVE(rv, objq): unlinks rv from the list it is on. *)
Definition LIST_REMOVE (rv : rvref) : M unit :=
  s <- get ;;
  if on_objq rv s
  then modify (fun s =>
         set_vm_objects
           ((fun ob => set_o_rvq (remove rvref_eq_dec rv (o_rvq ob)) ob)
              <$> vm_objects s) s)
  else fail EQueue.

(** *** Collaborators *)

(** Modelled from the spec: sys/seq.h is not part of the module.  The
    counter is a plain integer with a two-write begin/end protocol; a
    reader waits while it is odd and its snapshot is consistent when the
    counter still has the value read. *)
Definition seq_write_begin (rv : rvref) : M unit :=
  r <- load_rv rv ;;
  store_rv rv (set_rv_seq (u32 (rv_seq r + 1)) r) ;;
  emit (EvSeqWriteBegin rv).

Definition seq_write_end (rv : rvref) : M unit :=
  r <- load_rv rv ;;
  store_rv rv (set_rv_seq (u32 (rv_seq r + 1)) r) ;;
  emit (EvSeqWriteEnd rv).

Definition seq_read (rv : rvref) : M Z :=
  r <- load_rv rv ;;
  if Z.odd (rv_seq r) then fail EBlocked else ret (rv_seq r).

Definition seq_consistent (rv : rvref) (oldseq : Z) : M bool :=
  r <- load_rv rv ;;
  ret (rv_seq r =? oldseq).

(** Modelled from the spec: the small-page allocator (vm_phys.c) is an
    external collaborator; its calls are recorded in the trace, and the
    page an allocation returns is chosen by the caller of the model. *)
Definition vm_phys_free_pages (m : option Z) (order : Z) : M unit :=
  match m with
  | Some pa => emit (EvPhysFreePages pa order)
  | None => fail EFault
  end.

Definition vm_phys_free_contig (m : Z) (npages : Z) : M unit :=
  emit (EvPhysFreeContig m npages).

Definition vm_phys_alloc_pages (pool order : Z) (m : option Z)
  : M (option Z) :=
  emit (EvPhysAllocPages pool order m) ;; ret m.

Definition vm_phys_alloc_contig (npages low high alignment boundary : Z)
    (m : option Z) : M (option Z) :=
  emit (EvPhysAllocContig npages low high alignment boundary m) ;; ret m.

(** Modelled from the spec: machine/atomic.h is not part of the module.
    atomic_add_long(p, v) on a long counter. *)
Definition atomic_add_long (x v : Z) : Z := s64 (x + v).

(** ** The reservation engine *)

Definition is_null {A : Type} (o : option A) : bool :=
  match o with Some _ => false | None => true end.

(** &m[k] in vm_page_array, for a page m inside a superpage frame. *)
Definition page_at (m : Z) (k : Z) : Z := m + k * PAGE_SIZE.

(** m - base, in pages. *)
Definition page_diff (m base : Z) : Z := (m - base) / PAGE_SIZE.

Definition vm_reserv_set_object (rv : rvref) (object : option nat)
    (pindex : Z) : M unit :=
  vm_reserv_assert_locked rv ;;
  seq_write_begin rv ;;
  match object with
  | Some o =>
      VM_OBJECT_ASSERT_WLOCKED o ;;
      r <- load_rv rv ;;
      store_rv rv (set_rv_pindex pindex r) ;;
      emit (EvStorePindex rv pindex)
  | None => ret tt
  end ;;
  r <- load_rv rv ;;
  store_rv rv (set_rv_object object r) ;;
  emit (EvStoreObject rv object) ;;
  seq_write_end rv.

(** (flags & VM_RESERV_F_PARTPOP) != 0 &&
    (flags & VM_RESERV_F_PARTPOP) != VM_RESERV_F_PARTPOP *)
Definition one_partpop_flag (f : Z) : bool :=
  negb (Z.land f VM_RESERV_F_PARTPOP =? 0) &&
  negb (Z.land f VM_RESERV_F_PARTPOP =? VM_RESERV_F_PARTPOP).

Definition vm_reserv_lru_dequeue (rv : rvref) : M unit :=
  r <- load_rv rv ;;
  KASSERT (one_partpop_flag (rv_flags r)) ;;
  KASSERT (Z.land (rv_flags r) VM_RESERV_F_MARKER =? 0) ;;
  (if negb (Z.land (rv_flags r) VM_RESERV_F_INACTIVE =? 0)
   then TAILQ_REMOVE Inactive rv
   else TAILQ_REMOVE Active rv) ;;
  r <- load_rv rv ;;
  store_rv rv
    (set_rv_flags (u8 (Z.land (rv_flags r) (Z.lnot VM_RESERV_F_PARTPOP))) r).

Definition vm_reserv_update_lru (rv : rvref) (advance : Z) : M unit :=
  vm_reserv_assert_locked rv ;;
  r <- load_rv rv ;;
  if rv_popcnt r =? VM_LEVEL_0_NPAGES then
    KASSERT (one_partpop_flag (rv_flags r)) ;;
    free_mtx_lock ;;
    vm_reserv_lru_dequeue rv ;;
    free_mtx_unlock
  else if rv_popcnt r =? 0 then
    vm_reserv_set_object rv None (rv_pindex r) ;;
    free_mtx_lock ;;
    LIST_REMOVE rv ;;
    vm_reserv_lru_dequeue rv ;;
    vm_phys_free_pages (rv_pages r) VM_LEVEL_0_ORDER ;;
    free_mtx_unlock ;;
    modify (fun s =>
      set_vm_reserv_freed (atomic_add_long (vm_reserv_freed s) 1) s)
  else if Z.land (rv_flags r) VM_RESERV_F_ACTIVE =? 0 then
    store_rv rv (set_rv_actcnt RV_INIT r) ;;
    free_mtx_lock ;;
    (if negb (Z.land (rv_flags r) VM_RESERV_F_INACTIVE =? 0)
     then vm_reserv_lru_dequeue rv
     else ret tt) ;;
    TAILQ_INSERT_TAIL Active rv ;;
    r1 <- load_rv rv ;;
    store_rv rv
      (set_rv_flags (u8 (Z.lor (rv_flags r1) VM_RESERV_F_ACTIVE)) r1) ;;
    free_mtx_unlock
  else
    store_rv rv (set_rv_actcnt (s8 (rv_actcnt r + advance)) r) ;;
    r1 <- load_rv rv ;;
    if RV_ACT_MAX <? rv_actcnt r1
    then store_rv rv (set_rv_actcnt RV_ACT_MAX r1)
    else ret tt.

Definition vm_reserv_depopulate (rv : rvref) (index : Z) : M unit :=
  vm_reserv_assert_locked rv ;;
  r <- load_rv rv ;;
  KASSERT (negb (is_null (rv_object r))) ;;
  b <- lift (res_of_option EFault (popmap_is_set (rv_popmap r) index)) ;;
  KASSERT b ;;
  KASSERT (0 <? rv_popcnt r) ;;
  pm <- lift (res_of_option EFault (popmap_clear (rv_popmap r) index)) ;;
  store_rv rv (set_rv_popcnt (u16 (rv_popcnt r - 1)) (set_rv_popmap pm r)) ;;
  (if rv_popcnt r =? VM_LEVEL_0_NPAGES then
     m <- lift (res_of_option EFault (rv_pages r)) ;;
     p <- load_psind m ;;
     KASSERT ((p =? 1) && (Z.land (rv_flags r) VM_RESERV_F_PARTPOP =? 0)) ;;
     store_psind m 0
   else ret tt) ;;
  vm_reserv_update_lru rv RV_DEPOP_STEP.

Definition vm_reserv_populate (rv : rvref) (index : Z) : M unit :=
  vm_reserv_assert_locked rv ;;
  r <- load_rv rv ;;
  KASSERT (negb (is_null (rv_object r))) ;;
  b <- lift (res_of_option EFault (popmap_is_clear (rv_popmap r) index)) ;;
  KASSERT b ;;
  KASSERT (rv_popcnt r <? VM_LEVEL_0_NPAGES) ;;
  m <- lift (res_of_option EFault (rv_pages r)) ;;
  p <- load_psind m ;;
  KASSERT (p =? 0) ;;
  pm <- lift (res_of_option EFault (popmap_set (rv_popmap r) index)) ;;
  store_rv rv (set_rv_popcnt (u16 (rv_popcnt r + 1)) (set_rv_popmap pm r)) ;;
  (if u16 (rv_popcnt r + 1) =? VM_LEVEL_0_NPAGES
   then store_psind m 1
   else ret tt) ;;
  vm_reserv_update_lru rv RV_POP_STEP.

Definition vm_reserv_from_page (m : Z) : rvref :=
  Rv (Z.to_nat (Z.shiftr m VM_LEVEL_0_SHIFT)).

Definition vm_reserv_has_pindex (r : vm_reserv) (pindex : Z) : bool :=
  Z.land (u64 (pindex - rv_pindex r)) (not64 (VM_LEVEL_0_NPAGES - 1)) =? 0.

(** VM_RESERV_INDEX(object, pindex) *)
Definition VM_RESERV_INDEX (ob : vm_object) (pindex : Z) : Z :=
  Z.land (u64 (o_pg_color ob + pindex)) (VM_LEVEL_0_NPAGES - 1).

(** *** vm_reserv_break *)

Notation "x <-- c1 ;; c2" := (rbind c1 (fun x => c2))
  (at level 100, c1 at next level, right associativity) : kern_scope.

(** while (++i < NPOPMAP) { lo = ffsl(~popmap[i]); if (lo == 0) { popmap[i]
    = 0; popcnt -= NBPOPMAP; } else break; }   Result: i, lo, popmap,
    popcnt at the exit of the loop. *)
Fixpoint break_skip_full (n : nat) (i lo : Z) (popmap : list Z) (popcnt : Z)
  : res (Z * Z * list Z * Z) :=
  match n with
  | O => Err EFuel
  | S n' =>
      let i := i + 1 in
      if i <? NPOPMAP then
        w <-- res_of_option EFault (popmap_word popmap i) ;;
        let lo := ffsl (not64 w) in
        if lo =? 0
        then break_skip_full n' i lo (popmap_store popmap i 0)
               (u16 (popcnt - NBPOPMAP))
        else Ok (i, lo, popmap, popcnt)
      else Ok (i, lo, popmap, popcnt)
  end.

(** do hi = ffsl(popmap[i]); while (hi == 0 && ++i < NPOPMAP);
    Result: i and hi at the exit of the loop. *)
Fixpoint break_find_one (n : nat) (i : Z) (popmap : list Z) : res (Z * Z) :=
  match n with
  | O => Err EFuel
  | S n' =>
      w <-- res_of_option EFault (popmap_word popmap i) ;;
      let hi := ffsl w in
      if hi =? 0 then
        let i := i + 1 in
        if i <? NPOPMAP then break_find_one n' i popmap else Ok (i, hi)
      else Ok (i, hi)
  end.

(** Find the next 0 bit:
    lo = ffsl(~(((1UL << hi) - 1) | popmap[i]));
    if (lo == 0) { popmap[i] = 0; popcnt -= NBPOPMAP - hi; while ...;
                   if (i == NPOPMAP) break; hi = 0; }
    Result: i, lo, hi, popmap, popcnt, and whether the outer loop is left
    by the break. *)
Definition break_find_zero (i hi : Z) (popmap : list Z) (popcnt : Z)
  : res (Z * Z * Z * list Z * Z * bool) :=
  w <-- res_of_option EFault (popmap_word popmap i) ;;
  let lo := ffsl (not64 (Z.lor (u64 (u64 (Z.shiftl 1 hi) - 1)) w)) in
  if lo =? 0 then
    sk <-- break_skip_full (Z.to_nat NPOPMAP) i lo
             (popmap_store popmap i 0)
             (u16 (popcnt - (NBPOPMAP - hi))) ;;
    let '(i, lo, popmap, popcnt) := sk in
    Ok (i, lo, 0, popmap, popcnt, i =? NPOPMAP)
  else Ok (i, lo, hi, popmap, popcnt, false).

(** if (lo > 0) { popmap[i] &= ~((1UL << lo) - 1); popcnt -= lo - hi; }
    with lo in ordinary bit numbering. *)
Definition break_clear_low (i lo hi : Z) (popmap : list Z) (popcnt : Z)
  : res (list Z * Z) :=
  if 0 <? lo then
    w <-- res_of_option EFault (popmap_word popmap i) ;;
    Ok (popmap_store popmap i
          (Z.land w (not64 (u64 (u64 (Z.shiftl 1 lo) - 1)))),
        u16 (popcnt - (lo - hi)))
  else Ok (popmap, popcnt).

(** The do ... while (i < NPOPMAP) loop of vm_reserv_break on its local
    variables and the two fields it updates.  [freed] collects the
    arguments (begin_zeroes, length) of the vm_phys_free_contig calls. *)
Fixpoint break_loop (n : nat) (i hi : Z) (popmap : list Z) (popcnt : Z)
    (freed : list (Z * Z)) : res (list Z * Z * list (Z * Z)) :=
  match n with
  | O => Err EFuel
  | S n' =>
      st <-- break_find_zero i hi popmap popcnt ;;
      let '(i, lo, hi, popmap, popcnt, brk) := st in
      if brk then Ok (popmap, popcnt, freed)
      else if negb (0 <? lo) then Err EPanic
      else
        let lo := lo - 1 in
        pc <-- break_clear_low i lo hi popmap popcnt ;;
        let '(popmap, popcnt) := pc in
        let begin_zeroes := NBPOPMAP * i + lo in
        ih <-- break_find_one (Z.to_nat NPOPMAP) i popmap ;;
        let '(i, hi) := ih in
        let hi := if negb (i =? NPOPMAP) then hi - 1 else hi in
        let freed :=
          freed ++ [(begin_zeroes, NBPOPMAP * i + hi - begin_zeroes)] in
        if i <? NPOPMAP then break_loop n' i hi popmap popcnt freed
        else Ok (popmap, popcnt, freed)
  end.

(** vm_phys_free_contig(&rv->pages[begin_zeroes], length), once per entry
    of [l], in order. *)
Fixpoint free_contig_all (pages : option Z) (l : list (Z * Z)) : M unit :=
  match l with
  | [] => ret tt
  | (b, n) :: l' =>
      base <- lift (res_of_option EFault pages) ;;
      vm_phys_free_contig (page_at base b) n ;;
      free_contig_all pages l'
  end.

Definition vm_reserv_break (rv : rvref) (m : option Z) : M unit :=
  free_mtx_assert_owned ;;
  vm_reserv_assert_locked rv ;;
  r <- load_rv rv ;;
  KASSERT (negb (is_null (rv_object r))) ;;
  KASSERT (Z.land (rv_flags r) VM_RESERV_F_PARTPOP =? 0) ;;
  LIST_REMOVE rv ;;
  vm_reserv_set_object rv None (rv_pindex r) ;;
  match m with
  | Some pa =>
      base <- lift (res_of_option EFault (rv_pages r)) ;;
      let i := page_diff pa base in
      r1 <- load_rv rv ;;
      b <- lift (res_of_option EFault (popmap_is_clear (rv_popmap r1) i)) ;;
      KASSERT b ;;
      pm <- lift (res_of_option EFault (popmap_set (rv_popmap r1) i)) ;;
      store_rv rv
        (set_rv_popcnt (u16 (rv_popcnt r1 + 1)) (set_rv_popmap pm r1))
  | None => ret tt
  end ;;
  r2 <- load_rv rv ;;
  out <- lift (break_loop (S (Z.to_nat VM_LEVEL_0_NPAGES)) 0 0
                 (rv_popmap r2) (rv_popcnt r2) []) ;;
  store_rv rv
    (set_rv_popcnt (snd (fst out)) (set_rv_popmap (fst (fst out)) r2)) ;;
  free_contig_all (rv_pages r2) (snd out) ;;
  KASSERT (snd (fst out) =? 0) ;;
  modify (fun s =>
    set_vm_reserv_broken (atomic_add_long (vm_reserv_broken s) 1) s).

(** *** vm_reserv_break_all *)

Definition same_lock (a b : rvref) : bool :=
  bool_decide (RV_LOCKPTR a = RV_LOCKPTR b).

(** From the label quick to the unlock: returns the reservation whose
    lock is held at the end. *)
Fixpoint break_all_quick (n : nat) (object : nat) (rv : rvref) : M rvref :=
  match n with
  | O => fail EFuel
  | S n' =>
      r <- load_rv rv ;;
      KASSERT (bool_decide (rv_object r = Some object)) ;;
      (if negb (Z.land (rv_flags r) VM_RESERV_F_PARTPOP =? 0)
       then vm_reserv_lru_dequeue rv
       else ret tt) ;;
      vm_reserv_break rv None ;;
      next <- LIST_FIRST object ;;
      match next with
      | Some nx =>
          if same_lock nx rv then break_all_quick n' object nx else ret rv
      | None => ret rv
      end
  end.

Fixpoint break_all_loop (n : nat) (object : nat) : M unit :=
  match n with
  | O => fail EFuel
  | S n' =>
      first <- LIST_FIRST object ;;
      match first with
      | None => ret tt
      | Some rv =>
          ok <- vm_reserv_trylock rv ;;
          sel <- (if ok then ret (Some rv)
                  else
                    free_mtx_unlock ;;
                    vm_reserv_lock rv ;;
                    free_mtx_lock ;;
                    next <- LIST_FIRST object ;;
                    if bool_decide (next = Some rv) then ret (Some rv)
                    else
                      match next with
                      | Some nx =>
                          if same_lock nx rv then ret (Some nx)
                          else vm_reserv_unlock rv ;; ret None
                      | None => fail EFault
                      end) ;;
          match sel with
          | None => break_all_loop n' object
          | Some rv1 =>
              last <- break_all_quick n object rv1 ;;
              vm_reserv_unlock last ;;
              break_all_loop n' object
          end
      end
  end.

Definition vm_reserv_break_all (object : nat) : M unit :=
  VM_OBJECT_ASSERT_WLOCKED object ;;
  free_mtx_lock ;;
  ob <- load_obj object ;;
  break_all_loop (S (length (o_rvq ob))) object ;;
  free_mtx_unlock.

(** *** vm_reserv_free_page and the queries *)

Definition vm_reserv_free_page (m : vm_page) : M bool :=
  match m_object m with
  | Some o => VM_OBJECT_ASSERT_WLOCKED o
  | None => ret tt
  end ;;
  let rv := vm_reserv_from_page (phys_addr m) in
  r <- load_rv rv ;;
  if is_null (rv_object r) then ret false
  else
    vm_reserv_lock rv ;;
    r1 <- load_rv rv ;;
    base <- lift (res_of_option EFault (rv_pages r1)) ;;
    vm_reserv_depopulate rv (page_diff (phys_addr m) base) ;;
    vm_reserv_unlock rv ;;
    ret true.

Definition vm_reserv_is_page_free (m : Z) : M bool :=
  r <- load_rv (vm_reserv_from_page m) ;;
  if is_null (rv_object r) then ret false
  else
    base <- lift (res_of_option EFault (rv_pages r)) ;;
    lift (res_of_option EFault
            (popmap_is_clear (rv_popmap r) (page_diff m base))).

Definition vm_reserv_level (m : Z) : M Z :=
  r <- load_rv (vm_reserv_from_page m) ;;
  ret (if is_null (rv_object r) then -1 else 0).

Definition vm_reserv_level_iffullpop (m : Z) : M Z :=
  r <- load_rv (vm_reserv_from_page m) ;;
  ret (if rv_popcnt r =? VM_LEVEL_0_NPAGES then 0 else -1).

Definition vm_reserv_size (level : Z) : Z :=
  if level =? 0 then VM_LEVEL_0_SIZE
  else if level =? -1 then PAGE_SIZE
  else 0.

(** *** Reclaim *)

Definition vm_reserv_reclaim (rv : rvref) : M unit :=
  vm_reserv_assert_locked rv ;;
  r <- load_rv rv ;;
  KASSERT (negb (Z.land (rv_flags r) VM_RESERV_F_PARTPOP =? 0)) ;;
  vm_reserv_lru_dequeue rv ;;
  vm_reserv_break rv None ;;
  modify (fun s =>
    set_vm_reserv_reclaimed (s64 (vm_reserv_reclaimed s + 1)) s).

(** The body of either TAILQ_FOREACH_SAFE loop of
    vm_reserv_reclaim_inactive for a reservation [rv] that is not a
    marker: [false] stands for goto restart. *)
Definition reclaim_candidate (rv : rvref) (flag : Z) : M bool :=
  ok <- vm_reserv_trylock rv ;;
  go <- (if ok then ret true
         else
           free_mtx_unlock ;;
           vm_reserv_lock rv ;;
           r <- load_rv rv ;;
           if Z.land (rv_flags r) flag =? 0
           then vm_reserv_unlock rv ;; ret false
           else free_mtx_lock ;; ret true) ;;
  if go then vm_reserv_reclaim rv ;; vm_reserv_unlock rv ;; ret true
  else ret false.

Definition is_marker (s : state) (rv : rvref) : bool :=
  match rv with
  | Marker => negb (Z.land (rv_flags (scan_marker s)) VM_RESERV_F_MARKER =? 0)
  | Rv n =>
      match vm_reserv_array s !! n with
      | Some r => negb (Z.land (rv_flags r) VM_RESERV_F_MARKER =? 0)
      | None => false
      end
  end.

Fixpoint vm_reserv_reclaim_inactive_from (n : nat) : M bool :=
  match n with
  | O => fail EFuel
  | S n' =>
      s <- get ;;
      match vm_rvlru_inactive s with
      | rv :: _ =>
          done <- reclaim_candidate rv VM_RESERV_F_INACTIVE ;;
          if done then ret true else vm_reserv_reclaim_inactive_from n'
      | [] =>
          match List.filter (fun rv => negb (is_marker s rv))
                  (vm_rvlru_active s) with
          | rv :: _ =>
              done <- reclaim_candidate rv VM_RESERV_F_ACTIVE ;;
              if done then ret true else vm_reserv_reclaim_inactive_from n'
          | [] => ret false
          end
      end
  end.

(** A restart follows a blocking lock acquisition, which does not return
    in a one-thread run, so one round is all that can be observed. *)
Definition vm_reserv_reclaim_inactive : M bool :=
  free_mtx_assert_owned ;;
  vm_reserv_reclaim_inactive_from 2.

(** *** vm_reserv_rename *)

Definition vm_reserv_rename (m : Z) (new_object old_object : nat)
    (old_object_offset : Z) : M unit :=
  VM_OBJECT_ASSERT_WLOCKED new_object ;;
  let rv := vm_reserv_from_page m in
  r <- load_rv rv ;;
  if bool_decide (rv_object r = Some old_object) then
    vm_reserv_lock rv ;;
    r1 <- load_rv rv ;;
    (if bool_decide (rv_object r1 = Some old_object) then
       free_mtx_lock ;;
       LIST_REMOVE rv ;;
       LIST_INSERT_HEAD new_object rv ;;
       free_mtx_unlock ;;
       vm_reserv_set_object rv (Some new_object)
         (u64 (rv_pindex r1 - old_object_offset))
     else ret tt) ;;
    vm_reserv_unlock rv
  else ret tt.

(** *** vm_reserv_scan *)

Definition s32 (x : Z) : Z := (x + 2 ^ 31) mod 2 ^ 32 - 2 ^ 31.

(** The part of a queue that starts at [elm]. *)
Fixpoint from_elem (elm : rvref) (l : list rvref) : list rvref :=
  match l with
  | [] => []
  | y :: l' => if decide (elm = y) then l else from_elem elm l'
  end.

(** TAILQ_FOREACH_FROM_SAFE over the entries [l] that remain to be
    visited; the body unlinks at most the entry it is visiting, so the
    saved successor stays valid.  Returns rv at the exit of the loop and
    what is left of target. *)
Fixpoint scan_loop (l : list rvref) (target : Z) : M (option rvref * Z) :=
  match l with
  | [] => ret (None, target)
  | rv :: tmp =>
      if target =? 0 then ret (Some rv, target)
      else
        r <- load_rv rv ;;
        if negb (Z.land (rv_flags r) VM_RESERV_F_MARKER =? 0)
        then scan_loop tmp target
        else
          ok <- vm_reserv_trylock rv ;;
          if negb ok then scan_loop tmp target
          else
            target1 <-
              (if rv_actcnt r - RV_DEC <=? 0 then
                 vm_reserv_lru_dequeue rv ;;
                 TAILQ_INSERT_TAIL Inactive rv ;;
                 r1 <- load_rv rv ;;
                 store_rv rv
                   (set_rv_actcnt 0
                      (set_rv_flags
                         (u8 (Z.lor (rv_flags r1) VM_RESERV_F_INACTIVE)) r1)) ;;
                 ret (s32 (target - 1))
               else
                 store_rv rv (set_rv_actcnt (s8 (rv_actcnt r - RV_DEC)) r) ;;
                 ret target) ;;
            vm_reserv_unlock rv ;;
            scan_loop tmp target1
  end.

Definition vm_reserv_scan (target : Z) : M unit :=
  let marker := Marker in
  free_mtx_lock ;;
  rv <- TAILQ_NEXT Active marker ;;
  s <- get ;;
  out <- scan_loop (match rv with
                    | Some x => from_elem x (vm_rvlru_active s)
                    | None => vm_rvlru_active s
                    end) target ;;
  TAILQ_REMOVE Active marker ;;
  match fst out with
  | Some rv1 => TAILQ_INSERT_BEFORE rv1 marker
  | None => TAILQ_INSERT_HEAD Active marker
  end ;;
  free_mtx_unlock.

(** ** Allocator front-ends *)

(** How a look at a neighbouring page ends: goto found with the
    reservation locked, return (NULL), or go on with a value. *)
Inductive stage (A : Type) : Type :=
| StFound (rv : rvref)
| StNull
| StGo (a : A).
Arguments StFound {A} rv.
Arguments StNull {A}.
Arguments StGo {A} a.

(** TAILQ_NEXT(m, listq) on the object's memq; pages are told apart by
    their physical address.  The outer [None]: m is not on the list. *)
Fixpoint memq_next (m : vm_page) (l : list vm_page)
  : option (option vm_page) :=
  match l with
  | [] => None
  | y :: l' =>
      if phys_addr m =? phys_addr y then Some (head l') else memq_next m l'
  end.

(** (pa & (alignment - 1)) != 0 *)
Definition misaligned (pa alignment : Z) : bool :=
  negb (Z.land pa (u64 (alignment - 1)) =? 0).

(** ((pa ^ (pa + size - 1)) & ~(boundary - 1)) != 0 *)
Definition crosses (pa size boundary : Z) : bool :=
  negb (Z.land (Z.lxor pa (u64 (pa + size - 1)))
          (not64 (u64 (boundary - 1))) =? 0).

(** object->type == OBJT_VNODE || (object->backing_object != NULL &&
    object->backing_object->type == OBJT_VNODE) *)
Definition vnode_backed (ob : vm_object) : M bool :=
  if bool_decide (o_type ob = OBJT_VNODE) then ret true
  else match o_backing_object ob with
       | Some b => bo <- load_obj b ;;
                   ret (bool_decide (o_type bo = OBJT_VNODE))
       | None => ret false
       end.

(** The for (;;) loop over the reservation of mpred.  In a one-thread run
    the sequence counter cannot change between seq_read and
    seq_consistent, so the loop body runs once; the retry is reported as
    [EBlocked]. *)
Definition probe_mpred (object : nat) (pindex first : Z) (mpred : vm_page)
  : M (stage unit) :=
  let rv := vm_reserv_from_page (phys_addr mpred) in
  seq <- seq_read rv ;;
  r <- load_rv rv ;;
  if bool_decide (rv_object r = Some object) then
    if vm_reserv_has_pindex r pindex then
      vm_reserv_lock rv ;;
      c <- seq_consistent rv seq ;;
      if c then ret (StFound rv) else vm_reserv_unlock rv ;; fail EBlocked
    else
      let leftcap := u64 (rv_pindex r + VM_LEVEL_0_NPAGES) in
      c <- seq_consistent rv seq ;;
      if c then (if first <? leftcap then ret StNull else ret (StGo tt))
      else fail EBlocked
  else
    let leftcap := u64 (m_pindex mpred + 1) in
    c <- seq_consistent rv seq ;;
    if c then (if first <? leftcap then ret StNull else ret (StGo tt))
    else fail EBlocked.

(** The for (;;) loop over the reservation of msucc: goes on with
    rightcap. *)
Definition probe_msucc (object : nat) (pindex : Z) (msucc : vm_page)
  : M (stage Z) :=
  let rv := vm_reserv_from_page (phys_addr msucc) in
  seq <- seq_read rv ;;
  r <- load_rv rv ;;
  if bool_decide (rv_object r = Some object) then
    if vm_reserv_has_pindex r pindex then
      vm_reserv_lock rv ;;
      c <- seq_consistent rv seq ;;
      if c then ret (StFound rv) else vm_reserv_unlock rv ;; fail EBlocked
    else
      c <- seq_consistent rv seq ;;
      if c then ret (StGo (rv_pindex r)) else fail EBlocked
  else
    c <- seq_consistent rv seq ;;
    if c then ret (StGo (m_pindex msucc)) else fail EBlocked.

(** if (mpred != NULL) { ... msucc = TAILQ_NEXT(mpred, listq); } else
    msucc = TAILQ_FIRST(&object->memq); *)
Definition look_left (object : nat) (ob : vm_object) (pindex first : Z)
    (mpred : option vm_page) : M (stage (option vm_page)) :=
  match mpred with
  | Some mp =>
      KASSERT (bool_decide (m_object mp = Some object)) ;;
      KASSERT (m_pindex mp <? pindex) ;;
      st <- probe_mpred object pindex first mp ;;
      match st with
      | StFound rv => ret (StFound rv)
      | StNull => ret StNull
      | StGo _ =>
          msucc <- lift (res_of_option EQueue (memq_next mp (o_memq ob))) ;;
          ret (StGo msucc)
      end
  | None => ret (StGo (head (o_memq ob)))
  end.

(** for (i = 0; i < NPOPMAP; i++) KASSERT(rv->popmap[i] == 0) *)
Fixpoint popmap_assert_zero (n : nat) (i : Z) (popmap : list Z) : M unit :=
  match n with
  | O => ret tt
  | S n' =>
      w <- lift (res_of_option EFault (popmap_word popmap i)) ;;
      KASSERT (w =? 0) ;;
      popmap_assert_zero n' (i + 1) popmap
  end.

(** Binds the free reservation of the page run at [m] to (object, first):
    the statements from vm_reserv_lock to the popmap assertions, shared
    by both front-ends. *)
Definition bind_new_reserv (object : nat) (first : Z) (m : Z) : M rvref :=
  let rv := vm_reserv_from_page m in
  vm_reserv_lock rv ;;
  r <- load_rv rv ;;
  KASSERT (bool_decide (rv_pages r = Some m)) ;;
  KASSERT (is_null (rv_object r)) ;;
  free_mtx_lock ;;
  LIST_INSERT_HEAD object rv ;;
  free_mtx_unlock ;;
  vm_reserv_set_object rv (Some object) first ;;
  r1 <- load_rv rv ;;
  KASSERT (rv_popcnt r1 =? 0) ;;
  KASSERT (Z.land (rv_flags r1) VM_RESERV_F_PARTPOP =? 0) ;;
  popmap_assert_zero (Z.to_nat NPOPMAP) 0 (rv_popmap r1) ;;
  ret rv.

(** for (i = 0; i < n; i++) vm_reserv_populate(rv, index + i); *)
Fixpoint populate_range (n : nat) (rv : rvref) (index : Z) : M unit :=
  match n with
  | O => ret tt
  | S n' => vm_reserv_populate rv index ;; populate_range n' rv (index + 1)
  end.

(** for (i = 0; i < npages; i++) if (popmap_is_set(rv->popmap, index + i))
    goto lost;   [true]: some bit is set. *)
Fixpoint any_set (n : nat) (popmap : list Z) (index : Z) : res bool :=
  match n with
  | O => Ok false
  | S n' =>
      b <-- res_of_option EFault (popmap_is_set popmap index) ;;
      if b then Ok true else any_set n' popmap (index + 1)
  end.

(** vm_reserv_alloc_page from the label found. *)
Definition vm_reserv_alloc_page_found (ob : vm_object) (pindex : Z)
    (rv : rvref) : M (option Z) :=
  let index := VM_RESERV_INDEX ob pindex in
  r <- load_rv rv ;;
  b <- lift (res_of_option EFault (popmap_is_set (rv_popmap r) index)) ;;
  if b then vm_reserv_unlock rv ;; ret None
  else
    vm_reserv_populate rv index ;;
    vm_reserv_unlock rv ;;
    base <- lift (res_of_option EFault (rv_pages r)) ;;
    ret (Some (page_at base index)).

(** [phys] is the page vm_phys_alloc_pages returns if it is called. *)
Definition vm_reserv_alloc_page (object : nat) (pindex : Z)
    (mpred : option vm_page) (phys : option Z) : M (option Z) :=
  VM_OBJECT_ASSERT_WLOCKED object ;;
  ob <- load_obj object ;;
  if (pindex <? VM_RESERV_INDEX ob pindex) || (o_size ob <=? pindex)
  then ret None
  else
    let first := u64 (pindex - VM_RESERV_INDEX ob pindex) in
    l <- look_left object ob pindex first mpred ;;
    match l with
    | StFound rv => vm_reserv_alloc_page_found ob pindex rv
    | StNull => ret None
    | StGo msucc =>
        r <- match msucc with
             | Some ms =>
                 KASSERT (pindex <? m_pindex ms) ;;
                 st <- probe_msucc object pindex ms ;;
                 match st with
                 | StFound rv => ret (StFound rv)
                 | StNull => ret StNull
                 | StGo rightcap =>
                     if rightcap <? u64 (first + VM_LEVEL_0_NPAGES)
                     then ret StNull else ret (StGo tt)
                 end
             | None => ret (StGo tt)
             end ;;
        match r with
        | StFound rv => vm_reserv_alloc_page_found ob pindex rv
        | StNull => ret None
        | StGo _ =>
            vn <- (if o_size ob <? u64 (first + VM_LEVEL_0_NPAGES)
                   then vnode_backed ob else ret false) ;;
            if vn then ret None
            else
              free_mtx_lock ;;
              m <- vm_phys_alloc_pages VM_FREEPOOL_DEFAULT
                     VM_LEVEL_0_ORDER phys ;;
              free_mtx_unlock ;;
              match m with
              | None => ret None
              | Some pa =>
                  rv <- bind_new_reserv object first pa ;;
                  let index := VM_RESERV_INDEX ob pindex in
                  vm_reserv_populate rv index ;;
                  vm_reserv_unlock rv ;;
                  ret (Some (page_at pa index))
              end
        end
    end.

(** vm_reserv_alloc_contig from the label found. *)
Definition vm_reserv_alloc_contig_found (ob : vm_object)
    (pindex npages low high alignment boundary : Z) (rv : rvref)
  : M (option Z) :=
  let size := u64 (Z.shiftl npages PAGE_SHIFT) in
  let index := VM_RESERV_INDEX ob pindex in
  if VM_LEVEL_0_NPAGES <? u64 (index + npages)
  then vm_reserv_unlock rv ;; ret None
  else
    r <- load_rv rv ;;
    base <- lift (res_of_option EFault (rv_pages r)) ;;
    let m := page_at base index in
    let pa := m in
    if (pa <? low) || (high <? u64 (pa + size)) || misaligned pa alignment
       || crosses pa size boundary
    then vm_reserv_unlock rv ;; ret None
    else
      b <- lift (any_set (Z.to_nat npages) (rv_popmap r) index) ;;
      if b then vm_reserv_unlock rv ;; ret None
      else
        populate_range (Z.to_nat npages) rv index ;;
        vm_reserv_unlock rv ;;
        ret (Some m).

(** The do ... while (allocpages >= VM_LEVEL_0_NPAGES) loop. *)
Fixpoint alloc_contig_fill (n : nat) (object : nat) (m first npages
    allocpages index : Z) (m_ret : option Z) : M (option Z) :=
  match n with
  | O => fail EFuel
  | S n' =>
      rv <- bind_new_reserv object first m ;;
      let k := Z.min (VM_LEVEL_0_NPAGES - index) npages in
      populate_range (Z.to_nat k) rv index ;;
      vm_reserv_unlock rv ;;
      let npages := u64 (npages - k) in
      let m_ret1 := match m_ret with
                    | None => Some (page_at m index)
                    | Some _ => m_ret
                    end in
      let index := match m_ret with None => 0 | Some _ => index end in
      let m := page_at m VM_LEVEL_0_NPAGES in
      let first := u64 (first + VM_LEVEL_0_NPAGES) in
      let allocpages := u64 (allocpages - VM_LEVEL_0_NPAGES) in
      if VM_LEVEL_0_NPAGES <=? allocpages
      then alloc_contig_fill n' object m first npages allocpages index m_ret1
      else ret m_ret1
  end.

(** [phys] is the page vm_phys_alloc_contig returns if it is called. *)
Definition vm_reserv_alloc_contig (object : nat)
    (pindex npages low high alignment boundary : Z)
    (mpred : option vm_page) (phys : option Z) : M (option Z) :=
  VM_OBJECT_ASSERT_WLOCKED object ;;
  KASSERT (negb (npages =? 0)) ;;
  ob <- load_obj object ;;
  if (pindex <? VM_RESERV_INDEX ob pindex)
     || (o_size ob <? u64 (pindex + npages))
  then ret None
  else
    let pa := u64 (Z.shiftl (VM_RESERV_INDEX ob pindex) PAGE_SHIFT) in
    if misaligned pa alignment then ret None
    else
      let size := u64 (Z.shiftl npages PAGE_SHIFT) in
      if crosses pa size boundary then ret None
      else
        let first := u64 (pindex - VM_RESERV_INDEX ob pindex) in
        l <- look_left object ob pindex first mpred ;;
        match l with
        | StFound rv =>
            vm_reserv_alloc_contig_found ob pindex npages low high
              alignment boundary rv
        | StNull => ret None
        | StGo msucc =>
            let minpages := u64 (VM_RESERV_INDEX ob pindex + npages) in
            let maxpages :=
              Z.land (u64 (minpages + (VM_LEVEL_0_NPAGES - 1)))
                (not64 (VM_LEVEL_0_NPAGES - 1)) in
            r <- match msucc with
                 | Some ms =>
                     KASSERT (pindex <? m_pindex ms) ;;
                     st <- probe_msucc object pindex ms ;;
                     match st with
                     | StFound rv => ret (StFound rv)
                     | StNull => ret StNull
                     | StGo rightcap =>
                         if rightcap <? u64 (first + maxpages) then
                           if maxpages =? VM_LEVEL_0_NPAGES then ret StNull
                           else ret (StGo minpages)
                         else ret (StGo maxpages)
                     end
                 | None => ret (StGo maxpages)
                 end ;;
            match r with
            | StFound rv =>
                vm_reserv_alloc_contig_found ob pindex npages low high
                  alignment boundary rv
            | StNull => ret None
            | StGo allocpages0 =>
                vn <- (if o_size ob <? u64 (first + maxpages)
                       then vnode_backed ob else ret false) ;;
                if vn && (maxpages =? VM_LEVEL_0_NPAGES) then ret None
                else
                  let allocpages := if vn then minpages else allocpages0 in
                  free_mtx_lock ;;
                  m <- vm_phys_alloc_contig allocpages low high
                         (Z.max alignment VM_LEVEL_0_SIZE)
                         (if VM_LEVEL_0_SIZE <? boundary then boundary else 0)
                         phys ;;
                  free_mtx_unlock ;;
                  match m with
                  | None => ret None
                  | Some pa0 =>
                      alloc_contig_fill
                        (S (Z.to_nat (allocpages / VM_LEVEL_0_NPAGES)))
                        object pa0 first npages allocpages
                        (VM_RESERV_INDEX ob pindex) None
                  end
            end
        end.

(** *** vm_reserv_reclaim_contig *)

(** while (lo == 0 && ++i < NPOPMAP) lo = ffsl(~rv->popmap[i]);
    Result: i and lo at the exit of the loop. *)
Fixpoint reclaim_next_free (n : nat) (i lo : Z) (popmap : list Z)
  : res (Z * Z) :=
  match n with
  | O => Err EFuel
  | S n' =>
      if lo =? 0 then
        let i := i + 1 in
        if i <? NPOPMAP then
          w <-- res_of_option EFault (popmap_word popmap i) ;;
          reclaim_next_free n' i (ffsl (not64 w)) popmap
        else Ok (i, lo)
      else Ok (i, lo)
  end.

(** (NBPOPMAP * i + hi - next_free) * PAGE_SIZE >= size, in unsigned long
    arithmetic. *)
Definition run_fits (i hi next_free size : Z) : bool :=
  size <=? u64 ((NBPOPMAP * i + hi - next_free) * PAGE_SIZE).

(** while (hi == 0 && ++i < NPOPMAP) {
      if ((NBPOPMAP * i - next_free) * PAGE_SIZE >= size) {
        vm_reserv_reclaim(rv); return (TRUE); }
      hi = ffsl(rv->popmap[i]); }
    Result: i and hi at the exit of the loop, and whether it was left to
    reclaim the reservation. *)
Fixpoint reclaim_next_used (n : nat) (i hi next_free size : Z)
    (popmap : list Z) : res (Z * Z * bool) :=
  match n with
  | O => Err EFuel
  | S n' =>
      if hi =? 0 then
        let i := i + 1 in
        if i <? NPOPMAP then
          if run_fits i 0 next_free size then Ok (i, hi, true)
          else
            w <-- res_of_option EFault (popmap_word popmap i) ;;
            reclaim_next_used n' i (ffsl w) next_free size popmap
        else Ok (i, hi, false)
      else Ok (i, hi, false)
  end.

(** The do ... while (i < NPOPMAP) loop of vm_reserv_reclaim_contig on a
    reservation whose first page is [base]: [true] when the loop is left
    to reclaim the reservation, [false] when it is left for the next
    reservation of the queue. *)
Fixpoint reclaim_contig_search (n : nat) (i hi : Z) (base : Z)
    (popmap : list Z) (size low high alignment boundary : Z) : res bool :=
  match n with
  | O => Err EFuel
  | S n' =>
      w <-- res_of_option EFault (popmap_word popmap i) ;;
      let lo := ffsl (not64 (Z.lor (u64 (u64 (Z.shiftl 1 hi) - 1)) w)) in
      il <-- reclaim_next_free (Z.to_nat NPOPMAP) i lo popmap ;;
      let '(i, lo) := il in
      if i =? NPOPMAP then Ok false
      else
        let lo := lo - 1 in
        let next_free := NBPOPMAP * i + lo in
        let pa := page_at base next_free in
        if pa <? low then Err EPanic
        else if high <? u64 (pa + size) then Ok false
        else if misaligned pa alignment || crosses pa size boundary then
          let hi := lo + 1 in
          let '(i, hi) := if NBPOPMAP <=? hi then (i + 1, 0) else (i, hi) in
          if i <? NPOPMAP
          then reclaim_contig_search n' i hi base popmap size low high
                 alignment boundary
          else Ok false
        else
          w <-- res_of_option EFault (popmap_word popmap i) ;;
          let hi := ffsl (Z.land w (not64 (u64 (u64 (Z.shiftl 1 lo) - 1)))) in
          ih <-- reclaim_next_used (Z.to_nat NPOPMAP) i hi next_free size
                   popmap ;;
          let '(i, hi, fits) := ih in
          if fits then Ok true
          else
            let hi := if negb (i =? NPOPMAP) then hi - 1 else hi in
            if run_fits i hi next_free size then Ok true
            else if i <? NPOPMAP
            then reclaim_contig_search n' i hi base popmap size low high
                   alignment boundary
            else Ok false
  end.

(** TAILQ_FOREACH(rv, &vm_rvlru_inactive, partpopq) { ... } over the
    entries [l] of the queue. *)
Fixpoint reclaim_contig_queue (l : list rvref)
    (size low high alignment boundary : Z) : M bool :=
  match l with
  | [] => ret false
  | rv :: l' =>
      r <- load_rv rv ;;
      base <- lift (res_of_option EFault (rv_pages r)) ;;
      let pa := page_at base (VM_LEVEL_0_NPAGES - 1) in
      if u64 (pa + PAGE_SIZE - size) <? low
      then reclaim_contig_queue l' size low high alignment boundary
      else
        let pa := page_at base 0 in
        if high <? u64 (pa + size)
        then reclaim_contig_queue l' size low high alignment boundary
        else
          let low_index :=
            s32 (Z.shiftr (u64 (low + PAGE_MASK - pa)) PAGE_SHIFT) in
          let i :=
            if pa <? low then s32 (u64 low_index / NBPOPMAP) else 0 in
          let hi :=
            if pa <? low then s32 (u64 low_index mod NBPOPMAP) else 0 in
          take <- lift (reclaim_contig_search
                          (S (Z.to_nat VM_LEVEL_0_NPAGES)) i hi base
                          (rv_popmap r) size low high alignment boundary) ;;
          if take then vm_reserv_reclaim rv ;; ret true
          else reclaim_contig_queue l' size low high alignment boundary
  end.

(** vm_reserv_reclaim_contig past its first statement. *)
Definition reclaim_contig_scan (npages low high alignment boundary : Z)
  : M bool :=
  free_mtx_assert_owned ;;
  if VM_LEVEL_0_NPAGES - 1 <? npages then ret false
  else
    let size := u64 (Z.shiftl npages PAGE_SHIFT) in
    s <- get ;;
    reclaim_contig_queue (vm_rvlru_inactive s) size low high alignment
      boundary.

(** The function opens with MPASS(0), an assertion that fails whenever
    it is evaluated. *)
Definition vm_reserv_reclaim_contig (npages low high alignment boundary : Z)
  : M bool :=
  KASSERT false ;;
  reclaim_contig_scan npages low high alignment boundary.

(** ** Bootstrap *)

Definition zero_reserv : vm_reserv :=
  mk_vm_reserv None 0 None 0 0 0 0 (replicate (Z.to_nat NPOPMAP) 0).

(** The state vm_reserv_startup leaves: a zeroed reservation array of
    howmany(high_water, VM_LEVEL_0_SIZE) elements, empty queues, zero
    counters; [objs] is the object table and every size hint is 0. *)
Definition vm_reserv_startup (high_water : Z) (objs : list vm_object)
  : state :=
  let n := Z.to_nat ((high_water + (VM_LEVEL_0_SIZE - 1)) / VM_LEVEL_0_SIZE) in
  mk_state (replicate n zero_reserv) zero_reserv [] [] objs
    (replicate n 0) [] MtxUnowned 0 0 0 [].

(** while (paddr + VM_LEVEL_0_SIZE <= seg->end) { ... } *)
Fixpoint init_seg (n : nat) (paddr seg_end : Z) : M unit :=
  match n with
  | O => ret tt
  | S n' =>
      if paddr + VM_LEVEL_0_SIZE <=? seg_end then
        let rv := vm_reserv_from_page paddr in
        r <- load_rv rv ;;
        store_rv rv (set_rv_pages (Some paddr) r) ;;
        init_seg n' (paddr + VM_LEVEL_0_SIZE) seg_end
      else ret tt
  end.

Fixpoint init_segs (segs : list (Z * Z)) : M unit :=
  match segs with
  | [] => ret tt
  | (seg_start, seg_end) :: segs' =>
      let paddr :=
        Z.land (seg_start + (VM_LEVEL_0_SIZE - 1))
          (Z.lnot (VM_LEVEL_0_SIZE - 1)) in
      init_seg (Z.to_nat ((seg_end - paddr) / VM_LEVEL_0_SIZE)) paddr seg_end ;;
      init_segs segs'
  end.

(** [segs] is vm_phys_segs: the list of physical segments [start, end). *)
Definition vm_reserv_init (segs : list (Z * Z)) : M unit :=
  init_segs segs ;;
  modify (set_rv_lock (replicate (Z.to_nat RV_LOCK_COUNT) MtxUnowned)) ;;
  m <- load_rv Marker ;;
  store_rv Marker
    (set_rv_flags (Z.lor VM_RESERV_F_MARKER VM_RESERV_F_ACTIVE)
       (set_rv_object None m)) ;;
  TAILQ_INSERT_HEAD Active Marker.

(** ** Observations used in the statements *)

(** The record a [vm_reserv_t] points to. *)
Definition rv_at (s : state) (rv : rvref) : option vm_reserv :=
  match rv with
  | Marker => Some (scan_marker s)
  | Rv n => vm_reserv_array s !! n
  end.

Definition is_psind_store (e : event) : bool :=
  match e with EvStorePsind _ _ => true | _ => false end.

(** The stores to a size hint performed so far, oldest first. *)
Definition psind_writes (s : state) : list event :=
  List.filter is_psind_store (trace s).

(** Bit k of a population map; bits outside the map read as clear. *)
Definition popmap_bit (popmap : list Z) (k : Z) : bool :=
  match popmap_word popmap (k / NBPOPMAP) with
  | Some w => Z.testbit w (k mod NBPOPMAP)
  | None => false
  end.

(** The number of k in [lo, lo + n) with f k. *)
Fixpoint count_bits (f : Z -> bool) (lo : Z) (n : nat) : Z :=
  match n with
  | O => 0
  | S n' => (if f lo then 1 else 0) + count_bits f (lo + 1) n'
  end.

Definition popcount (popmap : list Z) : Z :=
  count_bits (popmap_bit popmap) 0 (Z.to_nat VM_LEVEL_0_NPAGES).

(** The population map is an array of NPOPMAP unsigned longs. *)
Definition popmap_typed (popmap : list Z) : Prop :=
  length popmap = Z.to_nat NPOPMAP /\
  Forall (fun w => 0 <= w < 2 ^ 64) popmap.

(** The final state of a run, for building states from operations. *)
Definition exec {A : Type} (m : M A) (s : state) : state :=
  match m s with
  | Ok (_, s') => s'
  | Err _ => s
  end.

(** [s'] has the size hints and the size-hint stores of [s]. *)
Definition psind_frame (s s' : state) : Prop :=
  psind s' = psind s /\ psind_writes s' = psind_writes s.

(** A computation that never stores to a size hint. *)
Definition keeps_psind {A : Type} (m : M A) : Prop :=
  forall s a s', m s = Ok (a, s') -> psind_frame s s'.

(** The store that promotes a reservation whose popcnt goes from
    [popcnt] to [popcnt']: 1 to the size hint of its first page, when the
    reservation was not full and now is. *)
Definition promotion (pages : option Z) (popcnt popcnt' : Z) : list event :=
  match pages with
  | Some m =>
      if (popcnt <? VM_LEVEL_0_NPAGES) && (popcnt' =? VM_LEVEL_0_NPAGES)
      then [EvStorePsind m 1] else []
  | None => []
  end.

(** The store that demotes it: 0 to the size hint of its first page, when
    the reservation was full and no longer is. *)
Definition demotion (pages : option Z) (popcnt popcnt' : Z) : list event :=
  match pages with
  | Some m =>
      if (popcnt =? VM_LEVEL_0_NPAGES) && (popcnt' <? VM_LEVEL_0_NPAGES)
      then [EvStorePsind m 0] else []
  | None => []
  end.

(** The stores [f] assigns to the reservations between the states [s]
    and [s'], in the order of the reservation array. *)
Definition size_hint_stores (f : option Z -> Z -> Z -> list event)
    (s s' : state) : list event :=
  concat (zip_with (fun r r' => f (rv_pages r) (rv_popcnt r) (rv_popcnt r'))
            (vm_reserv_array s) (vm_reserv_array s')).

(** One store of 1 for every reservation that is full in [s'] and was not
    in [s]. *)
Definition promotions : state -> state -> list event :=
  size_hint_stores promotion.

(** One store of 0 for every reservation that was full in [s] and is not
    in [s']. *)
Definition demotions : state -> state -> list event :=
  size_hint_stores demotion.

(** The size hints [ps] after the stores of [l], oldest first. *)
Definition psind_after (l : list event) (ps : list Z) : list Z :=
  fold_left (fun ps e =>
               match e with
               | EvStorePsind m v =>
                   match psind_index m with
                   | Some k => <[k := v]> ps
                   | None => ps
                   end
               | _ => ps
               end) l ps.

(** ** Effects of the LRU procedures, as state transformers *)

(** The queue a flag word names for vm_reserv_lru_dequeue. *)
Definition queue_of (flags : Z) : lruq :=
  if Z.land flags VM_RESERV_F_INACTIVE =? 0 then Active else Inactive.

(** flags & ~VM_RESERV_F_PARTPOP *)
Definition clear_partpop (flags : Z) : Z :=
  u8 (Z.land flags (Z.lnot VM_RESERV_F_PARTPOP)).

(** Slot n of the array replaced by [r]. *)
Definition put_rv (n : nat) (r : vm_reserv) (s : state) : state :=
  set_vm_reserv_array (<[n := r]> (vm_reserv_array s)) s.

(** Reservation n, whose record is [r], taken off the queue its flags
    name, with both queue flags cleared. *)
Definition dequeued (n : nat) (r : vm_reserv) (s : state) : state :=
  match queue_of (rv_flags r) with
  | Active =>
      put_rv n (set_rv_flags (clear_partpop (rv_flags r)) r)
        (set_vm_rvlru_active
           (remove rvref_eq_dec (Rv n) (vm_rvlru_active s)) s)
  | Inactive =>
      put_rv n (set_rv_flags (clear_partpop (rv_flags r)) r)
        (set_vm_rvlru_inactive
           (remove rvref_eq_dec (Rv n) (vm_rvlru_inactive s)) s)
  end.

(** Reservation n unlinked from every object's list. *)
Definition unlinked (n : nat) (s : state) : state :=
  set_vm_objects
    ((fun ob => set_o_rvq (remove rvref_eq_dec (Rv n) (o_rvq ob)) ob)
       <$> vm_objects s) s.

(** The record after vm_reserv_set_object(rv, NULL, ...). *)
Definition unbound (r : vm_reserv) : vm_reserv :=
  set_rv_seq (u32 (u32 (rv_seq r + 1) + 1)) (set_rv_object None r).

(** also the events it leaves *)
Definition unbind_events (n : nat) : list event :=
  [EvSeqWriteBegin (Rv n); EvStoreObject (Rv n) None; EvSeqWriteEnd (Rv n)].

(** actcnt += advance, capped at RV_ACT_MAX. *)
Definition bump_actcnt (actcnt advance : Z) : Z :=
  if RV_ACT_MAX <? s8 (actcnt + advance) then RV_ACT_MAX
  else s8 (actcnt + advance).

(** Reservation n, whose record is [r], made active: taken off the
    inactive queue if it was there, appended to the active queue, with
    actcnt = RV_INIT. *)
Definition activated (n : nat) (r : vm_reserv) (s : state) : state :=
  if Z.land (rv_flags r) VM_RESERV_F_INACTIVE =? 0 then
    put_rv n
      (set_rv_flags (u8 (Z.lor (rv_flags r) VM_RESERV_F_ACTIVE))
         (set_rv_actcnt RV_INIT r))
      (set_vm_rvlru_active (vm_rvlru_active s ++ [Rv n]) s)
  else
    put_rv n
      (set_rv_flags
         (u8 (Z.lor (clear_partpop (rv_flags r)) VM_RESERV_F_ACTIVE))
         (set_rv_actcnt RV_INIT r))
      (set_vm_rvlru_active (vm_rvlru_active s ++ [Rv n])
         (set_vm_rvlru_inactive
            (remove rvref_eq_dec (Rv n) (vm_rvlru_inactive s)) s)).

(** ** Runs of clear bits

    The maximal runs of clear bits of [f] in [lo, lo + n), as pairs
    (start, length) in increasing order.  [cur] is the start of the run
    that is open at [lo], if any. *)
Fixpoint zero_runs (f : Z -> bool) (lo : Z) (n : nat) (cur : option Z)
  : list (Z * Z) :=
  match n with
  | O => match cur with Some b => [(b, lo - b)] | None => [] end
  | S n' =>
      if f lo then
        match cur with Some b => [(b, lo - b)] | None => [] end
        ++ zero_runs f (lo + 1) n' None
      else
        zero_runs f (lo + 1) n'
          (Some (match cur with Some b => b | None => lo end))
  end.

(** The maximal runs of clear bits of a population map. *)
Definition clear_runs (popmap : list Z) : list (Z * Z) :=
  zero_runs (popmap_bit popmap) 0 (Z.to_nat VM_LEVEL_0_NPAGES) None.

(** The same from position p up to the end of the map. *)
Definition runs_from (f : Z -> bool) (p : Z) (cur : option Z)
  : list (Z * Z) :=
  zero_runs f p (Z.to_nat (VM_LEVEL_0_NPAGES - p)) cur.

(** The number of set bits from position p up to the end of the map. *)
Definition count_from (f : Z -> bool) (p : Z) : Z :=
  count_bits f p (Z.to_nat (VM_LEVEL_0_NPAGES - p)).

(** An empty population map. *)
Definition popmap_zero : list Z := replicate (Z.to_nat NPOPMAP) 0.

(** [fst run, fst run + snd run) is a maximal run of clear bits of the
    map: inside the map, not empty, all clear, and bounded on either side
    by a set bit or by an end of the map. *)
Definition maximal_clear_run (f : Z -> bool) (run : Z * Z) : Prop :=
  0 <= fst run /\ 0 < snd run /\
  fst run + snd run <= VM_LEVEL_0_NPAGES /\
  (forall k, fst run <= k < fst run + snd run -> f k = false) /\
  (fst run = 0 \/ f (fst run - 1) = true) /\
  (fst run + snd run = VM_LEVEL_0_NPAGES \/ f (fst run + snd run) = true).

(** The vm_phys_free_contig calls for a list of runs of a reservation
    whose first page is [base]. *)
Definition free_events (base : Z) (runs : list (Z * Z)) : list event :=
  map (fun run => EvPhysFreeContig (page_at base (fst run)) (snd run)) runs.

(** The state after vm_reserv_break of reservation n, whose record was
    [r], when [runs] are the runs of pages it frees. *)
Definition broken (n : nat) (r : vm_reserv) (base : Z)
    (runs : list (Z * Z)) (s : state) : state :=
  set_vm_reserv_broken (atomic_add_long (vm_reserv_broken s) 1)
    (set_trace (trace s ++ unbind_events n ++ free_events base runs)
       (put_rv n (set_rv_popcnt 0 (set_rv_popmap popmap_zero (unbound r)))
          (unlinked n s))).

(** What is known of the run of clear bits that is open at position p,
    if any: where it starts, and that it cannot be extended downwards. *)
Definition open_ok (f : Z -> bool) (p : Z) (cur : option Z) : Prop :=
  match cur with
  | Some b => 0 <= b < p /\ (forall k, b <= k < p -> f k = false) /\
              (b = 0 \/ f (b - 1) = true)
  | None => p = 0 \/ f (p - 1) = true
  end.

(** ** Reaching the label found *)

(** vm_reserv_alloc_page and vm_reserv_alloc_contig reach the label found
    with reservation [rv] locked, in state [s1]: through the page before
    pindex, or through the page after it. *)
Definition reaches_found (object : nat) (ob : vm_object) (pindex : Z)
    (mpred : option vm_page) (s : state) (rv : rvref) (s1 : state) : Prop :=
  let first := u64 (pindex - VM_RESERV_INDEX ob pindex) in
  look_left object ob pindex first mpred s = Ok (StFound rv, s1) \/
  exists ms s0,
    look_left object ob pindex first mpred s = Ok (StGo (Some ms), s0) /\
    (pindex <? m_pindex ms) = true /\
    probe_msucc object pindex ms s0 = Ok (StFound rv, s1).

(** ** Preconditions of the engine *)

(** The shard lock of reservation n is held by the running thread. *)
Definition shard_locked (n : nat) (s : state) : Prop :=
  exists k, RV_LOCKPTR (Rv n) = Some k /\ rv_lock s !! k = Some MtxOwned.

(** The queue flags agree with the LRU queues and with the population
    count: the marker flag is clear, ACTIVE and INACTIVE say on which
    queue the reservation is, a partially populated reservation has
    exactly one of them, an empty or full one has none. *)
Definition lru_consistent (n : nat) (r : vm_reserv) (s : state) : Prop :=
  Z.land (rv_flags r) VM_RESERV_F_MARKER = 0 /\
  (Z.land (rv_flags r) VM_RESERV_F_ACTIVE <> 0 <->
   In (Rv n) (vm_rvlru_active s)) /\
  (Z.land (rv_flags r) VM_RESERV_F_INACTIVE <> 0 <->
   In (Rv n) (vm_rvlru_inactive s)) /\
  (0 < rv_popcnt r < VM_LEVEL_0_NPAGES ->
   one_partpop_flag (rv_flags r) = true) /\
  (rv_popcnt r = 0 \/ rv_popcnt r = VM_LEVEL_0_NPAGES ->
   Z.land (rv_flags r) VM_RESERV_F_PARTPOP = 0).

(** rv->pages is the first page of a superpage frame whose size hint
    is v. *)
Definition size_hint (r : vm_reserv) (s : state) (v : Z) : Prop :=
  exists m k, rv_pages r = Some m /\ psind_index m = Some k /\
    psind s !! k = Some v.

(** What vm_reserv_populate(rv, index) needs of the state. *)
Definition populate_pre (n : nat) (index : Z) (s : state) : Prop :=
  exists r,
    vm_reserv_array s !! n = Some r /\
    shard_locked n s /\
    vm_page_queue_free_mtx s = MtxUnowned /\
    rv_object r <> None /\
    popmap_is_clear (rv_popmap r) index = Some true /\
    0 <= rv_popcnt r < VM_LEVEL_0_NPAGES /\
    size_hint r s 0 /\
    lru_consistent n r s.





(** ** Example states

    A machine with four superpage frames of physical memory in one
    segment and four anonymous objects of 1024 pages (the last one with
    page colour 5), each write-locked by the running thread. *)

Definition obj_anon (size color : Z) : vm_object :=
  mk_vm_object size color OBJT_DEFAULT None [] [] true.

Definition s_boot : state :=
  vm_reserv_startup (4 * VM_LEVEL_0_SIZE)
    [obj_anon 1024 0; obj_anon 1024 0; obj_anon 1024 0; obj_anon 1024 5].

(** After vm_reserv_init. *)
Definition s_init : state :=
  exec (vm_reserv_init [(0, 4 * VM_LEVEL_0_SIZE)]) s_boot.

(** After vm_reserv_alloc_page(object 0, pindex 0, NULL) got the first
    frame: reservation 0 holds one page and is on the active queue. *)
Definition s_one_page : state :=
  exec (vm_reserv_alloc_page 0 0 None (Some 0)) s_init.

(** The same with the shard lock of reservation 0 held. *)
Definition s_one_page_locked : state :=
  exec (vm_reserv_lock (Rv 0)) s_one_page.

(** After vm_reserv_alloc_contig(object 0, pindex 0, npages 512, ...) got
    the first frame: reservation 0 is fully populated. *)
Definition s_full : state :=
  exec (vm_reserv_alloc_contig 0 0 512 0 (2 ^ 40) 1 0 None (Some 0)) s_init.

(** After vm_reserv_break_all(object 0) in that state. *)
Definition s_full_broken : state := exec (vm_reserv_break_all 0) s_full.

(** Three reservations in use: object 0 holds two pages of frame 0,
    objects 1 and 2 one page each of frames 1 and 2. *)
Definition s_three : state :=
  exec (vm_reserv_alloc_page 2 0 None (Some (2 * VM_LEVEL_0_SIZE)))
    (exec (vm_reserv_alloc_page 1 0 None (Some VM_LEVEL_0_SIZE))
       (exec (vm_reserv_alloc_contig 0 0 2 0 (2 ^ 40) 1 0 None (Some 0))
          s_init)).

(** After two sweeps of vm_reserv_scan with target 1. *)
Definition s_swept : state :=
  exec (vm_reserv_scan 1) (exec (vm_reserv_scan 1) s_three).

(** After the page of object 2 was freed: the scan marker is the last
    entry of the active queue, behind reservation 0. *)
Definition s_marker_last : state :=
  exec (vm_reserv_free_page
          (mk_vm_page (2 * VM_LEVEL_0_SIZE) (Some 2%nat) 0)) s_swept.

(** Reservation 0 one page short of full (slots 0..510 of object 0), its
    shard lock held. *)
Definition s_almost_full : state :=
  exec (vm_reserv_lock (Rv 0))
    (exec (vm_reserv_alloc_contig 0 0 511 0 (2 ^ 40) 1 0 None (Some 0))
       s_init).

(** Reservation 0 fully populated, its shard lock held. *)
Definition s_full_locked : state := exec (vm_reserv_lock (Rv 0)) s_full.

(** The bound reservation 0 of [s_one_page], taken off the active queue
    with both locks held, as vm_reserv_reclaim has it when it calls
    vm_reserv_break. *)
Definition s_dequeued : state :=
  exec (vm_reserv_lru_dequeue (Rv 0)) (exec free_mtx_lock s_one_page_locked).

(** Reservation 0 holds the page at pindex 1 of object 0, and the page is
    on the object's list of resident pages. *)
Definition s_resident : state :=
  let s := exec (vm_reserv_alloc_page 0 1 None (Some 0)) s_init in
  set_vm_objects
    (<[0%nat := mk_vm_object 1024 0 OBJT_DEFAULT None
                  [mk_vm_page (page_at 0 1) (Some 0%nat) 1] [Rv 0] true]>
       (vm_objects s)) s.




(** ** Preconditions of vm_reserv_rename *)

(** What vm_reserv_rename(m, new_object, old_object, ...) needs of the
    state: the reservation of m exists, new_object is write-locked, and
    when the reservation belongs to old_object its shard lock and the
    free-queue lock can be taken and it is linked on an object's list. *)
Definition rename_pre (m : Z) (new_object old_object : nat) (s : state)
  : Prop :=
  let n := Z.to_nat (Z.shiftr m VM_LEVEL_0_SHIFT) in
  exists r obn,
    vm_reserv_array s !! n = Some r /\
    vm_objects s !! new_object = Some obn /\
    o_wlocked obn = true /\
    (rv_object r = Some old_object ->
     (exists k, RV_LOCKPTR (Rv n) = Some k /\
        rv_lock s !! k = Some MtxUnowned) /\
     vm_page_queue_free_mtx s = MtxUnowned /\
     on_objq (Rv n) s = true).

(** ** Invariants of the reservation array *)

(** Every element of the reservation array satisfies P, which may depend
    on the element's index. *)
Definition array_inv (P : nat -> vm_reserv -> Prop) (s : state) : Prop :=
  forall k r, vm_reserv_array s !! k = Some r -> P k r.

(** A computation that keeps such an invariant whenever it returns. *)
Definition preserves (P : nat -> vm_reserv -> Prop) {A : Type} (m : M A)
  : Prop :=
  forall s a s', array_inv P s -> m s = Ok (a, s') -> array_inv P s'.

(** A record whose population map is an array of NPOPMAP unsigned longs
    and whose popcnt is the number of set bits of the map. *)
Definition rec_ok (r : vm_reserv) : Prop :=
  popmap_typed (rv_popmap r) /\ rv_popcnt r = popcount (rv_popmap r).

Definition population_ok (s : state) : Prop :=
  array_inv (fun _ => rec_ok) s.

(** The pages field of element n is NULL or the first page of the n-th
    superpage frame. *)
Definition frame_ok (n : nat) (r : vm_reserv) : Prop :=
  rv_pages r = None \/ rv_pages r = Some (Z.of_nat n * VM_LEVEL_0_SIZE).

(** The sequence counter is even: no write of object and pindex is in
    progress. *)
Definition seq_even (r : vm_reserv) : Prop := Z.even (rv_seq r) = true.


(** ** Physical segments *)

(** The superpage frame k, [k * VM_LEVEL_0_SIZE, (k + 1) * VM_LEVEL_0_SIZE),
    lies wholly inside the physical segment [start, end). *)
Definition frame_in_segment (k : nat) (seg : Z * Z) : bool :=
  (fst seg <=? Z.of_nat k * VM_LEVEL_0_SIZE) &&
  ((Z.of_nat k + 1) * VM_LEVEL_0_SIZE <=? snd seg).

(** ** The population of the reservations *)

(** Pages and popcnt of every reservation: what the promotions and
    demotions between two states depend on. *)
Definition population (s : state) : list (option Z * Z) :=
  (fun r => (rv_pages r, rv_popcnt r)) <$> vm_reserv_array s.

Definition stores_of (f : option Z -> Z -> Z -> list event)
    (p p' : list (option Z * Z)) : list event :=
  concat (zip_with (fun v v' => f (fst v) (snd v) (snd v')) p p').

(** A computation that stores to no size hint and changes neither a
    size hint nor pages or popcnt of any reservation. *)
Definition quiet {A : Type} (m : M A) : Prop :=
  forall s a s', m s = Ok (a, s') ->
    psind_frame s s' /\ population s' = population s.

(** Between [s] and [s'] the stores to the size hints were those of [l],
    and the size hints changed accordingly. *)
Definition stored (l : list event) (s s' : state) : Prop :=
  psind_writes s' = psind_writes s ++ l /\
  psind s' = psind_after l (psind s).

(** A computation whose stores to the size hints, run from a state that
    satisfies G, are those [f] assigns to the reservations, and which
    keeps the length of the reservation array. *)
Definition stores_by (f : option Z -> Z -> Z -> list event)
    (G : state -> Prop) {A : Type} (m : M A) : Prop :=
  forall s a s', G s -> m s = Ok (a, s') ->
    stored (size_hint_stores f s s') s s' /\
    length (vm_reserv_array s') = length (vm_reserv_array s).

(** * Properties *)

(** ** The monad *)

Lemma bind_ok {A B : Type} (m : M A) (f : A -> M B) s a s1 :
  m s = Ok (a, s1) -> bind m f s = f a s1.
Proof. intros H. unfold bind. rewrite H. reflexivity. Qed.

Lemma bind_inv {A B : Type} (m : M A) (f : A -> M B) s b s' :
  bind m f s = Ok (b, s') ->
  exists a s1, m s = Ok (a, s1) /\ f a s1 = Ok (b, s').
Proof.
  unfold bind. destruct (m s) as [[a s1]|e]; [|discriminate].
  intros H. exists a, s1. split; [reflexivity|exact H].
Qed.

Lemma ret_inv {A : Type} (a b : A) s s' :
  ret a s = Ok (b, s') -> b = a /\ s' = s.
Proof. unfold ret. intros H. inversion H. split; reflexivity. Qed.

Lemma KASSERT_inv b s u s' :
  KASSERT b s = Ok (u, s') -> b = true /\ s' = s.
Proof.
  unfold KASSERT. destruct b; [|discriminate].
  intros H. apply ret_inv in H as [_ ->]. split; reflexivity.
Qed.

Lemma KASSERT_ok s : KASSERT true s = Ok (tt, s).
Proof. reflexivity. Qed.

Lemma lift_inv {A : Type} (r : res A) s a s' :
  lift r s = Ok (a, s') -> r = Ok a /\ s' = s.
Proof.
  unfold lift. destruct r; [|discriminate].
  intros H. inversion H. split; reflexivity.
Qed.

Lemma load_obj_ok s o ob :
  vm_objects s !! o = Some ob -> load_obj o s = Ok (ob, s).
Proof. intros H. unfold load_obj. rewrite H. reflexivity. Qed.

Lemma VM_OBJECT_ASSERT_WLOCKED_ok s o ob :
  vm_objects s !! o = Some ob -> o_wlocked ob = true ->
  VM_OBJECT_ASSERT_WLOCKED o s = Ok (tt, s).
Proof.
  intros H Hw. unfold VM_OBJECT_ASSERT_WLOCKED.
  rewrite (bind_ok _ _ _ _ _ (load_obj_ok _ _ _ H)). rewrite Hw. reflexivity.
Qed.

(** ** Requests below the first reservation boundary *)

(** C7. A call of vm_reserv_alloc_page or vm_reserv_alloc_contig (made
    with the object write-locked and, for the latter, npages != 0) whose
    pindex is smaller than its index within the reservation,
    VM_RESERV_INDEX(object, pindex) -- so that first = pindex - index would
    wrap around -- returns NULL and leaves the whole state as it was. *)
Theorem alloc_below_first_boundary_fails :
  forall s object ob pindex mpred phys,
    vm_objects s !! object = Some ob ->
    o_wlocked ob = true ->
    pindex < VM_RESERV_INDEX ob pindex ->
    vm_reserv_alloc_page object pindex mpred phys s = Ok (None, s) /\
    forall npages low high alignment boundary,
      npages <> 0 ->
      vm_reserv_alloc_contig object pindex npages low high alignment
        boundary mpred phys s = Ok (None, s).
Proof.
  intros s object ob pindex mpred phys Hob Hw Hlt.
  assert (Hc : (pindex <? VM_RESERV_INDEX ob pindex) = true)
    by (apply Z.ltb_lt; exact Hlt).
  split.
  - unfold vm_reserv_alloc_page.
    rewrite (bind_ok _ _ _ _ _ (VM_OBJECT_ASSERT_WLOCKED_ok _ _ _ Hob Hw)).
    rewrite (bind_ok _ _ _ _ _ (load_obj_ok _ _ _ Hob)).
    rewrite Hc. reflexivity.
  - intros npages low high alignment boundary Hn.
    unfold vm_reserv_alloc_contig.
    rewrite (bind_ok _ _ _ _ _ (VM_OBJECT_ASSERT_WLOCKED_ok _ _ _ Hob Hw)).
    assert (Hk : negb (npages =? 0) = true)
      by (apply negb_true_iff, Z.eqb_neq; exact Hn).
    rewrite Hk. rewrite (bind_ok _ _ _ _ _ (KASSERT_ok s)).
    rewrite (bind_ok _ _ _ _ _ (load_obj_ok _ _ _ Hob)).
    rewrite Hc. reflexivity.
Qed.

(** Object 3 has page colour 5, so pindex 0 lies below the first
    reservation boundary of the object. *)
Lemma alloc_below_first_boundary_fails_witness :
  vm_reserv_alloc_page 3 0 None (Some 0) s_init = Ok (None, s_init) /\
  vm_reserv_alloc_contig 3 0 4 0 (2 ^ 40) 1 0 None (Some 0) s_init
  = Ok (None, s_init).
Proof.
  destruct (alloc_below_first_boundary_fails s_init 3 (obj_anon 1024 5) 0
              None (Some 0)) as [Hpage Hcontig];
    [reflexivity | reflexivity | reflexivity |].
  split; [exact Hpage|]. apply Hcontig. discriminate.
Defined.

(** ** Operations that leave the size hints alone *)

Lemma psind_frame_refl s : psind_frame s s.
Proof. split; reflexivity. Qed.

Lemma psind_frame_trans a b c :
  psind_frame a b -> psind_frame b c -> psind_frame a c.
Proof. intros [H1 H2] [H3 H4]. split; congruence. Qed.

Lemma psind_writes_emit s e :
  is_psind_store e = false ->
  psind_writes (set_trace (trace s ++ [e]) s) = psind_writes s.
Proof.
  intros He. unfold psind_writes. simpl.
  rewrite List.filter_app. simpl. rewrite He. apply app_nil_r.
Qed.

Create HintDb keeps.

Lemma keeps_ret {A : Type} (a : A) : keeps_psind (ret a).
Proof. intros s b s' H. apply ret_inv in H as [_ ->]. apply psind_frame_refl. Qed.

Lemma keeps_fail {A : Type} e : keeps_psind (@fail A e).
Proof. intros s b s' H. discriminate. Qed.

Lemma keeps_bind {A B : Type} (m : M A) (f : A -> M B) :
  keeps_psind m -> (forall a, keeps_psind (f a)) -> keeps_psind (bind m f).
Proof.
  intros Hm Hf s b s' H. apply bind_inv in H as (a & s1 & H1 & H2).
  eapply psind_frame_trans; [eapply Hm|eapply Hf]; eassumption.
Qed.

Lemma keeps_lift {A : Type} (r : res A) : keeps_psind (lift r).
Proof. intros s a s' H. apply lift_inv in H as [_ ->]. apply psind_frame_refl. Qed.

Lemma keeps_KASSERT b : keeps_psind (KASSERT b).
Proof. intros s a s' H. apply KASSERT_inv in H as [_ ->]. apply psind_frame_refl. Qed.

Lemma keeps_get : keeps_psind get.
Proof. intros s a s' H. inversion H. apply psind_frame_refl. Qed.

Lemma keeps_modify (f : state -> state) :
  (forall s, psind_frame s (f s)) -> keeps_psind (modify f).
Proof. intros Hf s a s' H. inversion H. apply Hf. Qed.

Lemma keeps_emit e : is_psind_store e = false -> keeps_psind (emit e).
Proof.
  intros He. apply keeps_modify. intros s. split; [reflexivity|].
  apply psind_writes_emit, He.
Qed.

Lemma keeps_load_rv rv : keeps_psind (load_rv rv).
Proof.
  intros s a s' H. unfold load_rv in H.
  destruct rv; [|destruct (_ !! _)]; inversion H; apply psind_frame_refl.
Qed.

Lemma keeps_store_rv rv r : keeps_psind (store_rv rv r).
Proof.
  intros s a s' H. unfold store_rv in H.
  destruct rv; [|destruct (_ !! _)]; inversion H; split; reflexivity.
Qed.

Lemma keeps_load_obj o : keeps_psind (load_obj o).
Proof.
  intros s a s' H. unfold load_obj in H.
  destruct (_ !! _); inversion H; apply psind_frame_refl.
Qed.

Lemma keeps_store_obj o ob : keeps_psind (store_obj o ob).
Proof.
  intros s a s' H. unfold store_obj in H.
  destruct (_ !! _); inversion H; split; reflexivity.
Qed.

Lemma keeps_load_psind m : keeps_psind (load_psind m).
Proof.
  intros s a s' H. unfold load_psind in H.
  destruct (psind_index m); [destruct (_ !! _)|]; inversion H.
  apply psind_frame_refl.
Qed.

Lemma keeps_free_mtx_lock : keeps_psind free_mtx_lock.
Proof.
  intros s a s' H. unfold free_mtx_lock in H.
  destruct (mtx_lock_st _); inversion H; split; reflexivity.
Qed.

Lemma keeps_free_mtx_unlock : keeps_psind free_mtx_unlock.
Proof.
  intros s a s' H. unfold free_mtx_unlock in H.
  destruct (mtx_unlock_st _); inversion H; split; reflexivity.
Qed.

Lemma keeps_free_mtx_assert_owned : keeps_psind free_mtx_assert_owned.
Proof.
  intros s a s' H. unfold free_mtx_assert_owned in H.
  destruct (mtx_owned _); inversion H; apply psind_frame_refl.
Qed.

Lemma keeps_load_lock rv : keeps_psind (load_lock rv).
Proof.
  intros s a s' H. unfold load_lock in H.
  destruct (RV_LOCKPTR rv); [destruct (_ !! _)|]; inversion H.
  apply psind_frame_refl.
Qed.

Lemma keeps_TAILQ_FIRST q : keeps_psind (TAILQ_FIRST q).
Proof. intros s a s' H. inversion H. apply psind_frame_refl. Qed.

Lemma keeps_TAILQ_NEXT q elm : keeps_psind (TAILQ_NEXT q elm).
Proof.
  intros s a s' H. unfold TAILQ_NEXT in H.
  destruct (inb _ _); inversion H; apply psind_frame_refl.
Qed.

Lemma keeps_TAILQ_REMOVE q elm : keeps_psind (TAILQ_REMOVE q elm).
Proof.
  intros s a s' H. unfold TAILQ_REMOVE in H.
  destruct (inb _ _); inversion H; destruct q; split; reflexivity.
Qed.

Lemma keeps_TAILQ_INSERT_TAIL q elm : keeps_psind (TAILQ_INSERT_TAIL q elm).
Proof.
  intros s a s' H. unfold TAILQ_INSERT_TAIL in H.
  destruct (on_lru _ _); inversion H; destruct q; split; reflexivity.
Qed.

Lemma keeps_TAILQ_INSERT_HEAD q elm : keeps_psind (TAILQ_INSERT_HEAD q elm).
Proof.
  intros s a s' H. unfold TAILQ_INSERT_HEAD in H.
  destruct (on_lru _ _); inversion H; destruct q; split; reflexivity.
Qed.

Lemma keeps_TAILQ_INSERT_BEFORE listelm elm :
  keeps_psind (TAILQ_INSERT_BEFORE listelm elm).
Proof.
  intros s a s' H. unfold TAILQ_INSERT_BEFORE in H.
  destruct (on_lru _ _); [discriminate|].
  destruct (inb _ _); [inversion H; split; reflexivity|].
  destruct (inb _ _); inversion H; split; reflexivity.
Qed.

#[local] Hint Resolve keeps_ret keeps_fail keeps_lift keeps_KASSERT keeps_get
  keeps_load_rv keeps_store_rv keeps_load_obj keeps_store_obj
  keeps_load_psind keeps_free_mtx_lock keeps_free_mtx_unlock
  keeps_free_mtx_assert_owned keeps_load_lock keeps_TAILQ_FIRST
  keeps_TAILQ_NEXT keeps_TAILQ_REMOVE keeps_TAILQ_INSERT_TAIL
  keeps_TAILQ_INSERT_HEAD keeps_TAILQ_INSERT_BEFORE : keeps.

(** Splits a computation along its binds and branches and closes the
    leaves with the [keeps] hints. *)
Ltac keeps_step :=
  match goal with
  | |- keeps_psind (bind _ _) => apply keeps_bind; [|intros]
  | |- keeps_psind (if ?b then _ else _) => destruct b
  | |- keeps_psind (match ?x with _ => _ end) => destruct x
  | |- keeps_psind (emit _) => apply keeps_emit; reflexivity
  | |- keeps_psind (modify _) =>
      apply keeps_modify; intros; split; reflexivity
  | |- keeps_psind _ => solve [auto with keeps]
  end.

Ltac keeps := repeat keeps_step.

Lemma keeps_vm_reserv_lock rv : keeps_psind (vm_reserv_lock rv).
Proof. unfold vm_reserv_lock. keeps. Qed.

Lemma keeps_vm_reserv_trylock rv : keeps_psind (vm_reserv_trylock rv).
Proof. unfold vm_reserv_trylock. keeps. Qed.

Lemma keeps_vm_reserv_unlock rv : keeps_psind (vm_reserv_unlock rv).
Proof. unfold vm_reserv_unlock. keeps. Qed.

Lemma keeps_vm_reserv_assert_locked rv :
  keeps_psind (vm_reserv_assert_locked rv).
Proof. unfold vm_reserv_assert_locked. keeps. Qed.

Lemma keeps_VM_OBJECT_ASSERT_WLOCKED o :
  keeps_psind (VM_OBJECT_ASSERT_WLOCKED o).
Proof. unfold VM_OBJECT_ASSERT_WLOCKED. keeps. Qed.

Lemma keeps_LIST_FIRST o : keeps_psind (LIST_FIRST o).
Proof. unfold LIST_FIRST. keeps. Qed.

Lemma keeps_LIST_INSERT_HEAD o rv : keeps_psind (LIST_INSERT_HEAD o rv).
Proof. unfold LIST_INSERT_HEAD. keeps. Qed.

Lemma keeps_LIST_REMOVE rv : keeps_psind (LIST_REMOVE rv).
Proof. unfold LIST_REMOVE. keeps. Qed.

Lemma keeps_seq_write_begin rv : keeps_psind (seq_write_begin rv).
Proof. unfold seq_write_begin. keeps. Qed.

Lemma keeps_seq_write_end rv : keeps_psind (seq_write_end rv).
Proof. unfold seq_write_end. keeps. Qed.

Lemma keeps_vm_phys_free_pages m order :
  keeps_psind (vm_phys_free_pages m order).
Proof. unfold vm_phys_free_pages. keeps. Qed.

Lemma keeps_vm_phys_free_contig m n : keeps_psind (vm_phys_free_contig m n).
Proof. unfold vm_phys_free_contig. keeps. Qed.

#[local] Hint Resolve keeps_vm_reserv_lock keeps_vm_reserv_trylock
  keeps_vm_reserv_unlock keeps_vm_reserv_assert_locked
  keeps_VM_OBJECT_ASSERT_WLOCKED keeps_LIST_FIRST keeps_LIST_INSERT_HEAD
  keeps_LIST_REMOVE keeps_seq_write_begin keeps_seq_write_end
  keeps_vm_phys_free_pages keeps_vm_phys_free_contig : keeps.

Lemma keeps_vm_reserv_set_object rv object pindex :
  keeps_psind (vm_reserv_set_object rv object pindex).
Proof. unfold vm_reserv_set_object. keeps. Qed.

Lemma keeps_vm_reserv_lru_dequeue rv : keeps_psind (vm_reserv_lru_dequeue rv).
Proof. unfold vm_reserv_lru_dequeue. keeps. Qed.

#[local] Hint Resolve keeps_vm_reserv_set_object keeps_vm_reserv_lru_dequeue
  : keeps.

Lemma keeps_vm_reserv_update_lru rv advance :
  keeps_psind (vm_reserv_update_lru rv advance).
Proof. unfold vm_reserv_update_lru. keeps. Qed.

Lemma keeps_free_contig_all pages l : keeps_psind (free_contig_all pages l).
Proof.
  induction l as [|[b n] l IH]; simpl; [apply keeps_ret|]. keeps.
Qed.

#[local] Hint Resolve keeps_vm_reserv_update_lru keeps_free_contig_all : keeps.

Lemma keeps_vm_reserv_break rv m : keeps_psind (vm_reserv_break rv m).
Proof. unfold vm_reserv_break. keeps. Qed.

#[local] Hint Resolve keeps_vm_reserv_break : keeps.

Lemma keeps_break_all_quick n object :
  forall rv, keeps_psind (break_all_quick n object rv).
Proof.
  induction n as [|n IH]; intros rv; simpl; [apply keeps_fail|].
  keeps; try apply IH.
Qed.

#[local] Hint Resolve keeps_break_all_quick : keeps.

Lemma keeps_break_all_loop n object : keeps_psind (break_all_loop n object).
Proof.
  induction n as [|n IH]; simpl; [apply keeps_fail|].
  keeps.
Qed.

#[local] Hint Resolve keeps_break_all_loop : keeps.

Lemma keeps_vm_reserv_break_all object :
  keeps_psind (vm_reserv_break_all object).
Proof. unfold vm_reserv_break_all. keeps. Qed.

Lemma keeps_vm_reserv_reclaim rv : keeps_psind (vm_reserv_reclaim rv).
Proof. unfold vm_reserv_reclaim. keeps. Qed.

#[local] Hint Resolve keeps_vm_reserv_reclaim : keeps.

Lemma keeps_reclaim_candidate rv flag :
  keeps_psind (reclaim_candidate rv flag).
Proof. unfold reclaim_candidate. keeps. Qed.

#[local] Hint Resolve keeps_reclaim_candidate : keeps.

Lemma keeps_vm_reserv_reclaim_inactive_from n :
  keeps_psind (vm_reserv_reclaim_inactive_from n).
Proof.
  induction n as [|n IH]; simpl; [apply keeps_fail|].
  keeps.
Qed.

#[local] Hint Resolve keeps_vm_reserv_reclaim_inactive_from : keeps.

Lemma keeps_vm_reserv_reclaim_inactive :
  keeps_psind vm_reserv_reclaim_inactive.
Proof. unfold vm_reserv_reclaim_inactive. keeps. Qed.

Lemma keeps_vm_reserv_rename m new_object old_object off :
  keeps_psind (vm_reserv_rename m new_object old_object off).
Proof. unfold vm_reserv_rename. keeps. Qed.

Lemma keeps_scan_loop l : forall target, keeps_psind (scan_loop l target).
Proof.
  induction l as [|rv l IH]; intros target; simpl; [apply keeps_ret|].
  keeps; try apply IH.
Qed.

#[local] Hint Resolve keeps_scan_loop : keeps.

Lemma keeps_vm_reserv_scan target : keeps_psind (vm_reserv_scan target).
Proof. unfold vm_reserv_scan. keeps. Qed.

Lemma keeps_vm_reserv_init segs : keeps_psind (vm_reserv_init segs).
Proof.
  unfold vm_reserv_init.
  assert (Hseg : forall n paddr e, keeps_psind (init_seg n paddr e)).
  { induction n as [|n IH]; intros; simpl; [apply keeps_ret|]. keeps; try apply IH. }
  assert (Hsegs : keeps_psind (init_segs segs)).
  { induction segs as [|[a b] l IH]; simpl; [apply keeps_ret|].
    keeps; try apply Hseg. }
  keeps.
Qed.

(** ** The remaining operations *)

Lemma keeps_vm_reserv_is_page_free m : keeps_psind (vm_reserv_is_page_free m).
Proof. unfold vm_reserv_is_page_free. keeps. Qed.

Lemma keeps_vm_reserv_level m : keeps_psind (vm_reserv_level m).
Proof. unfold vm_reserv_level. keeps. Qed.

Lemma keeps_vm_reserv_level_iffullpop m :
  keeps_psind (vm_reserv_level_iffullpop m).
Proof. unfold vm_reserv_level_iffullpop. keeps. Qed.

Lemma keeps_reclaim_contig_queue l size low high alignment boundary :
  keeps_psind (reclaim_contig_queue l size low high alignment boundary).
Proof.
  induction l as [|rv l IH]; cbn [reclaim_contig_queue]; [apply keeps_ret|].
  keeps; try apply IH.
Qed.

Lemma keeps_reclaim_contig_scan npages low high alignment boundary :
  keeps_psind (reclaim_contig_scan npages low high alignment boundary).
Proof.
  unfold reclaim_contig_scan. keeps. apply keeps_reclaim_contig_queue.
Qed.

Lemma keeps_vm_reserv_reclaim_contig npages low high alignment boundary :
  keeps_psind (vm_reserv_reclaim_contig npages low high alignment boundary).
Proof.
  unfold vm_reserv_reclaim_contig. keeps. apply keeps_reclaim_contig_scan.
Qed.

(** ** The allocator front-ends and vm_reserv_free_page *)

Lemma keeps_seq_read rv : keeps_psind (seq_read rv).
Proof. unfold seq_read. keeps. Qed.

Lemma keeps_seq_consistent rv seq : keeps_psind (seq_consistent rv seq).
Proof. unfold seq_consistent. keeps. Qed.

Lemma keeps_vnode_backed ob : keeps_psind (vnode_backed ob).
Proof. unfold vnode_backed. keeps. Qed.

#[local] Hint Resolve keeps_seq_read keeps_seq_consistent keeps_vnode_backed
  : keeps.

Lemma keeps_probe_mpred object pindex first mpred :
  keeps_psind (probe_mpred object pindex first mpred).
Proof. unfold probe_mpred. keeps. Qed.

Lemma keeps_probe_msucc object pindex msucc :
  keeps_psind (probe_msucc object pindex msucc).
Proof. unfold probe_msucc. keeps. Qed.

#[local] Hint Resolve keeps_probe_mpred keeps_probe_msucc : keeps.

Lemma keeps_look_left object ob pindex first mpred :
  keeps_psind (look_left object ob pindex first mpred).
Proof. unfold look_left. keeps. Qed.

Lemma keeps_popmap_assert_zero n : forall i popmap,
  keeps_psind (popmap_assert_zero n i popmap).
Proof.
  induction n as [|n IH]; intros; cbn [popmap_assert_zero]; [apply keeps_ret|].
  keeps; try apply IH.
Qed.

#[local] Hint Resolve keeps_look_left keeps_popmap_assert_zero : keeps.

Lemma keeps_bind_new_reserv object first m :
  keeps_psind (bind_new_reserv object first m).
Proof. unfold bind_new_reserv. keeps. Qed.

Lemma keeps_vm_phys_alloc_pages pool order m :
  keeps_psind (vm_phys_alloc_pages pool order m).
Proof. unfold vm_phys_alloc_pages. keeps. Qed.

Lemma keeps_vm_phys_alloc_contig npages low high alignment boundary m :
  keeps_psind (vm_phys_alloc_contig npages low high alignment boundary m).
Proof. unfold vm_phys_alloc_contig. keeps. Qed.

#[local] Hint Resolve keeps_bind_new_reserv keeps_vm_phys_alloc_pages
  keeps_vm_phys_alloc_contig : keeps.

(** ** Inversion of the primitives *)

Lemma get_inv s a s' : get s = Ok (a, s') -> a = s /\ s' = s.
Proof. intros H. inversion H. split; reflexivity. Qed.

Lemma modify_inv f s u s' : modify f s = Ok (u, s') -> s' = f s.
Proof. intros H. inversion H. reflexivity. Qed.

Lemma emit_inv e s u s' :
  emit e s = Ok (u, s') -> s' = set_trace (trace s ++ [e]) s.
Proof. intros H. inversion H. reflexivity. Qed.

Lemma load_rv_inv n s r s' :
  load_rv (Rv n) s = Ok (r, s') ->
  vm_reserv_array s !! n = Some r /\ s' = s.
Proof.
  unfold load_rv. destruct (_ !! _); [|discriminate].
  intros H. inversion H. split; reflexivity.
Qed.

Lemma store_rv_inv n r s u s' :
  store_rv (Rv n) r s = Ok (u, s') ->
  (n < length (vm_reserv_array s))%nat /\
  s' = set_vm_reserv_array (<[n := r]> (vm_reserv_array s)) s.
Proof.
  unfold store_rv. destruct (_ !! _) eqn:E; [|discriminate].
  intros H. inversion H. split; [|reflexivity].
  eapply lookup_lt_Some, E.
Qed.

Lemma load_obj_inv o s ob s' :
  load_obj o s = Ok (ob, s') -> vm_objects s !! o = Some ob /\ s' = s.
Proof.
  unfold load_obj. destruct (_ !! _); [|discriminate].
  intros H. inversion H. split; reflexivity.
Qed.

Lemma store_obj_inv o ob s u s' :
  store_obj o ob s = Ok (u, s') ->
  (o < length (vm_objects s))%nat /\
  s' = set_vm_objects (<[o := ob]> (vm_objects s)) s.
Proof.
  unfold store_obj. destruct (_ !! _) eqn:E; [|discriminate].
  intros H. inversion H. split; [|reflexivity].
  eapply lookup_lt_Some, E.
Qed.

Lemma load_psind_inv m s v s' :
  load_psind m s = Ok (v, s') ->
  exists k, psind_index m = Some k /\ psind s !! k = Some v /\ s' = s.
Proof.
  unfold load_psind. destruct (psind_index m) as [k|]; [|discriminate].
  destruct (_ !! _) eqn:E; [|discriminate].
  intros H. inversion H. subst. exists k. auto.
Qed.

Lemma store_psind_inv m v s u s' :
  store_psind m v s = Ok (u, s') ->
  exists k, psind_index m = Some k /\ (k < length (psind s))%nat /\
    s' = set_trace (trace s ++ [EvStorePsind m v])
           (set_psind (<[k := v]> (psind s)) s).
Proof.
  unfold store_psind. destruct (psind_index m) as [k|]; [|discriminate].
  destruct (_ !! _) eqn:E; [|discriminate].
  intros H. inversion H. subst. exists k.
  split; [reflexivity|]. split; [|reflexivity]. eapply lookup_lt_Some, E.
Qed.

Lemma free_mtx_lock_inv s u s' :
  free_mtx_lock s = Ok (u, s') ->
  vm_page_queue_free_mtx s = MtxUnowned /\
  s' = set_vm_page_queue_free_mtx MtxOwned s.
Proof.
  unfold free_mtx_lock. destruct (vm_page_queue_free_mtx s) eqn:E;
    simpl; intros H; inversion H. split; reflexivity.
Qed.

Lemma free_mtx_unlock_inv s u s' :
  free_mtx_unlock s = Ok (u, s') ->
  vm_page_queue_free_mtx s = MtxOwned /\
  s' = set_vm_page_queue_free_mtx MtxUnowned s.
Proof.
  unfold free_mtx_unlock. destruct (vm_page_queue_free_mtx s) eqn:E;
    simpl; intros H; inversion H. split; reflexivity.
Qed.

Lemma free_mtx_assert_owned_inv s u s' :
  free_mtx_assert_owned s = Ok (u, s') ->
  vm_page_queue_free_mtx s = MtxOwned /\ s' = s.
Proof.
  unfold free_mtx_assert_owned.
  destruct (vm_page_queue_free_mtx s) eqn:E; simpl; intros H; inversion H.
  split; reflexivity.
Qed.

Lemma vm_reserv_assert_locked_inv rv s u s' :
  vm_reserv_assert_locked rv s = Ok (u, s') ->
  (exists k, RV_LOCKPTR rv = Some k /\ rv_lock s !! k = Some MtxOwned) /\
  s' = s.
Proof.
  unfold vm_reserv_assert_locked, load_lock. intros H.
  apply bind_inv in H as ([k m] & s1 & H1 & H2).
  destruct (RV_LOCKPTR rv) as [k'|]; [|discriminate].
  destruct (_ !! _) eqn:E; [|discriminate].
  inversion H1; subst. apply KASSERT_inv in H2 as [Hm ->].
  destruct m; try discriminate. split; [|reflexivity]. exists k. auto.
Qed.

Lemma vm_reserv_lock_inv rv s u s' :
  vm_reserv_lock rv s = Ok (u, s') ->
  exists k, RV_LOCKPTR rv = Some k /\ rv_lock s !! k = Some MtxUnowned /\
    s' = set_rv_lock (<[k := MtxOwned]> (rv_lock s)) s.
Proof.
  unfold vm_reserv_lock, load_lock. intros H.
  apply bind_inv in H as ([k m] & s1 & H1 & H2).
  destruct (RV_LOCKPTR rv) as [k'|]; [|discriminate].
  destruct (_ !! _) eqn:E; [|discriminate].
  inversion H1; subst.
  apply bind_inv in H2 as (m' & s2 & H2 & H3).
  apply lift_inv in H2 as [H2 ->]. apply modify_inv in H3.
  destruct m; try discriminate. inversion H2; subst.
  exists k. auto.
Qed.

Lemma vm_reserv_unlock_inv rv s u s' :
  vm_reserv_unlock rv s = Ok (u, s') ->
  exists k, RV_LOCKPTR rv = Some k /\ rv_lock s !! k = Some MtxOwned /\
    s' = set_rv_lock (<[k := MtxUnowned]> (rv_lock s)) s.
Proof.
  unfold vm_reserv_unlock, load_lock. intros H.
  apply bind_inv in H as ([k m] & s1 & H1 & H2).
  destruct (RV_LOCKPTR rv) as [k'|]; [|discriminate].
  destruct (_ !! _) eqn:E; [|discriminate].
  inversion H1; subst.
  apply bind_inv in H2 as (m' & s2 & H2 & H3).
  apply lift_inv in H2 as [H2 ->]. apply modify_inv in H3.
  destruct m; try discriminate. inversion H2; subst.
  exists k. auto.
Qed.

Lemma TAILQ_REMOVE_inv q elm s u s' :
  TAILQ_REMOVE q elm s = Ok (u, s') ->
  In elm (lru q s) /\
  s' = set_lru q (remove rvref_eq_dec elm (lru q s)) s.
Proof.
  unfold TAILQ_REMOVE, inb. destruct (in_dec _ _ _); [|discriminate].
  intros H. inversion H. auto.
Qed.

Lemma on_lru_false rv s :
  on_lru rv s = false <->
  ~ In rv (vm_rvlru_active s) /\ ~ In rv (vm_rvlru_inactive s).
Proof.
  unfold on_lru, inb.
  destruct (in_dec _ _ _), (in_dec _ _ _); simpl; split; intros H;
    try discriminate; try tauto.
Qed.

Lemma TAILQ_INSERT_TAIL_inv q elm s u s' :
  TAILQ_INSERT_TAIL q elm s = Ok (u, s') ->
  on_lru elm s = false /\ s' = set_lru q (lru q s ++ [elm]) s.
Proof.
  unfold TAILQ_INSERT_TAIL. destruct (on_lru _ _); [discriminate|].
  intros H. inversion H. auto.
Qed.

Lemma LIST_REMOVE_inv rv s u s' :
  LIST_REMOVE rv s = Ok (u, s') ->
  on_objq rv s = true /\
  s' = set_vm_objects
         ((fun ob => set_o_rvq (remove rvref_eq_dec rv (o_rvq ob)) ob)
            <$> vm_objects s) s.
Proof.
  unfold LIST_REMOVE. intros H.
  apply bind_inv in H as (a & s1 & H1 & H2).
  apply get_inv in H1 as [-> ->].
  destruct (on_objq rv s); [|discriminate].
  apply modify_inv in H2. auto.
Qed.

Lemma vm_phys_free_pages_inv m order s u s' :
  vm_phys_free_pages m order s = Ok (u, s') ->
  exists pa, m = Some pa /\
    s' = set_trace (trace s ++ [EvPhysFreePages pa order]) s.
Proof.
  unfold vm_phys_free_pages. destruct m as [pa|]; [|discriminate].
  intros H. apply emit_inv in H. exists pa. auto.
Qed.

(** Extension point of [minv] for the operations proved later. *)
Ltac minv_ext H := fail.

(** Takes a successful run apart along its binds; each primitive leaves
    the facts it checked and the state it produced. *)
Ltac minv H :=
  lazymatch type of H with
  | bind _ _ _ = Ok _ =>
      let a := fresh "a" in
      let s1 := fresh "s" in
      let H1 := fresh "H" in
      apply bind_inv in H as (a & s1 & H1 & H); minv H1; minv H
  | ret _ _ = Ok _ => apply ret_inv in H as [? ?]; subst
  | KASSERT _ _ = Ok _ => apply KASSERT_inv in H as [H ?]; subst
  | lift _ _ = Ok _ => apply lift_inv in H as [H ?]; subst
  | get _ = Ok _ => apply get_inv in H as [? ?]; subst
  | modify _ _ = Ok _ => apply modify_inv in H; subst
  | emit _ _ = Ok _ => apply emit_inv in H; subst
  | load_rv (Rv _) _ = Ok _ => apply load_rv_inv in H as [H ?]; subst
  | store_rv (Rv _) _ _ = Ok _ => apply store_rv_inv in H as [H ?]; subst
  | load_obj _ _ = Ok _ => apply load_obj_inv in H as [H ?]; subst
  | store_obj _ _ _ = Ok _ => apply store_obj_inv in H as [H ?]; subst
  | load_psind _ _ = Ok _ =>
      let k := fresh "k" in
      let Hk := fresh "Hk" in
      apply load_psind_inv in H as (k & Hk & H & ?); subst
  | store_psind _ _ _ = Ok _ =>
      let k := fresh "k" in
      let Hk := fresh "Hk" in
      apply store_psind_inv in H as (k & Hk & H & ?); subst
  | free_mtx_lock _ = Ok _ => apply free_mtx_lock_inv in H as [H ?]; subst
  | free_mtx_unlock _ = Ok _ => apply free_mtx_unlock_inv in H as [H ?]; subst
  | free_mtx_assert_owned _ = Ok _ =>
      apply free_mtx_assert_owned_inv in H as [H ?]; subst
  | vm_reserv_assert_locked _ _ = Ok _ =>
      apply vm_reserv_assert_locked_inv in H as [H ?]; subst
  | vm_reserv_lock _ _ = Ok _ =>
      let k := fresh "k" in
      let Hk := fresh "Hk" in
      apply vm_reserv_lock_inv in H as (k & Hk & H & ?); subst
  | vm_reserv_unlock _ _ = Ok _ =>
      let k := fresh "k" in
      let Hk := fresh "Hk" in
      apply vm_reserv_unlock_inv in H as (k & Hk & H & ?); subst
  | TAILQ_REMOVE _ _ _ = Ok _ => apply TAILQ_REMOVE_inv in H as [H ?]; subst
  | TAILQ_INSERT_TAIL _ _ _ = Ok _ =>
      apply TAILQ_INSERT_TAIL_inv in H as [H ?]; subst
  | LIST_REMOVE _ _ = Ok _ => apply LIST_REMOVE_inv in H as [H ?]; subst
  | vm_phys_free_pages _ _ _ = Ok _ =>
      let pa := fresh "pa" in
      apply vm_phys_free_pages_inv in H as (pa & H & ?); subst
  | fail _ _ = Ok _ => discriminate H
  | (if ?b then _ else _) _ = Ok _ =>
      let E := fresh "E" in destruct b eqn:E; minv H
  | _ => first [minv_ext H | idtac]
  end.

Lemma seq_write_begin_inv n s u s' :
  seq_write_begin (Rv n) s = Ok (u, s') ->
  exists r, vm_reserv_array s !! n = Some r /\
    s' = set_trace (trace s ++ [EvSeqWriteBegin (Rv n)])
           (set_vm_reserv_array
              (<[n := set_rv_seq (u32 (rv_seq r + 1)) r]> (vm_reserv_array s)) s).
Proof.
  unfold seq_write_begin. intros H. minv H. eexists. split; [eassumption|].
  reflexivity.
Qed.

(** Fields of a state whose LRU queue was replaced. *)
Lemma set_lru_array q l s :
  vm_reserv_array (set_lru q l s) = vm_reserv_array s.
Proof. destruct q; reflexivity. Qed.
Lemma set_lru_marker q l s : scan_marker (set_lru q l s) = scan_marker s.
Proof. destruct q; reflexivity. Qed.
Lemma set_lru_objects q l s : vm_objects (set_lru q l s) = vm_objects s.
Proof. destruct q; reflexivity. Qed.
Lemma set_lru_psind q l s : psind (set_lru q l s) = psind s.
Proof. destruct q; reflexivity. Qed.
Lemma set_lru_rv_lock q l s : rv_lock (set_lru q l s) = rv_lock s.
Proof. destruct q; reflexivity. Qed.
Lemma set_lru_free_mtx q l s :
  vm_page_queue_free_mtx (set_lru q l s) = vm_page_queue_free_mtx s.
Proof. destruct q; reflexivity. Qed.
Lemma set_lru_broken q l s :
  vm_reserv_broken (set_lru q l s) = vm_reserv_broken s.
Proof. destruct q; reflexivity. Qed.
Lemma set_lru_freed q l s :
  vm_reserv_freed (set_lru q l s) = vm_reserv_freed s.
Proof. destruct q; reflexivity. Qed.
Lemma set_lru_reclaimed q l s :
  vm_reserv_reclaimed (set_lru q l s) = vm_reserv_reclaimed s.
Proof. destruct q; reflexivity. Qed.
Lemma set_lru_trace q l s : trace (set_lru q l s) = trace s.
Proof. destruct q; reflexivity. Qed.
Lemma lru_set_lru q l s : lru q (set_lru q l s) = l.
Proof. destruct q; reflexivity. Qed.

(** Brings a state built by setters from a state given by its components
    into component form. *)
Ltac unfold_state :=
  cbv beta iota delta
    [set_vm_reserv_array set_scan_marker set_vm_rvlru_active
     set_vm_rvlru_inactive set_vm_objects set_psind set_rv_lock
     set_vm_page_queue_free_mtx set_vm_reserv_broken set_vm_reserv_freed
     set_vm_reserv_reclaimed set_trace set_lru lru
     vm_reserv_array scan_marker vm_rvlru_active vm_rvlru_inactive
     vm_objects psind rv_lock vm_page_queue_free_mtx vm_reserv_broken
     vm_reserv_freed vm_reserv_reclaimed trace] in *.

(** Simplifies reads of an array slot that was just written. *)
Ltac lnorm :=
  repeat first
    [ progress rewrite ?length_insert, ?list_insert_insert_eq in *
    | match goal with
      | H : context [<[?n := ?x]> ?l !! ?n] |- _ =>
          rewrite (list_lookup_insert_eq l n x) in H
            by first [assumption | lia | eapply lookup_lt_Some; eassumption]
      | |- context [<[?n := ?x]> ?l !! ?n] =>
          rewrite (list_lookup_insert_eq l n x)
            by first [assumption | lia | eapply lookup_lt_Some; eassumption]
      | H : Some _ = Some _ |- _ => injection H as H; subst
      | H : Ok _ = Ok _ |- _ => injection H as H; subst
      | H1 : ?e = Some ?a, H2 : ?e = Some ?b |- _ =>
          assert (b = a) by congruence; subst b; clear H2
      end ].

(** Turns boolean comparisons in the hypotheses into propositions. *)
Ltac zbool :=
  repeat match goal with
    | H : bool_decide _ = true |- _ => apply bool_decide_eq_true in H
    | H : bool_decide _ = false |- _ => apply bool_decide_eq_false in H
    | H : negb _ = true |- _ => apply negb_true_iff in H
    | H : negb _ = false |- _ => apply negb_false_iff in H
    | H : _ && _ = true |- _ => apply andb_true_iff in H as [? ?]
    | H : (_ =? _) = true |- _ => apply Z.eqb_eq in H
    | H : (_ =? _) = false |- _ => apply Z.eqb_neq in H
    | H : (_ <? _) = true |- _ => apply Z.ltb_lt in H
    | H : (_ <? _) = false |- _ => apply Z.ltb_ge in H
    | H : (_ <=? _) = true |- _ => apply Z.leb_le in H
    | H : (_ <=? _) = false |- _ => apply Z.leb_gt in H
    end.

Lemma VM_LEVEL_0_NPAGES_val : VM_LEVEL_0_NPAGES = 512.
Proof. reflexivity. Qed.

Lemma set_object_none_inv n pindex s u s' :
  vm_reserv_set_object (Rv n) None pindex s = Ok (u, s') ->
  exists r, vm_reserv_array s !! n = Some r /\
    s' = set_trace (trace s ++ unbind_events n) (put_rv n (unbound r) s).
Proof.
  unfold vm_reserv_set_object, seq_write_begin, seq_write_end. intros H.
  destruct s as [arr mk act inact objs ps locks fm br fr rc tr].
  minv H. unfold put_rv, unbind_events. unfold_state. lnorm.
  eexists. split; [eassumption|].
  rewrite <- !app_assoc. reflexivity.
Qed.

Lemma set_object_some_inv n o pindex s u s' :
  vm_reserv_set_object (Rv n) (Some o) pindex s = Ok (u, s') ->
  exists r, vm_reserv_array s !! n = Some r /\
    s' = set_trace
           (trace s ++ [EvSeqWriteBegin (Rv n); EvStorePindex (Rv n) pindex;
                        EvStoreObject (Rv n) (Some o); EvSeqWriteEnd (Rv n)])
           (put_rv n
              (set_rv_seq (u32 (u32 (rv_seq r + 1) + 1))
                 (set_rv_object (Some o) (set_rv_pindex pindex r))) s).
Proof.
  unfold vm_reserv_set_object, seq_write_begin, seq_write_end,
    VM_OBJECT_ASSERT_WLOCKED. intros H.
  destruct s as [arr mk act inact objs ps locks fm br fr rc tr].
  minv H. unfold put_rv. unfold_state. lnorm.
  eexists. split; [eassumption|].
  rewrite <- !app_assoc. reflexivity.
Qed.

Lemma lru_dequeue_inv n s u s' :
  vm_reserv_lru_dequeue (Rv n) s = Ok (u, s') ->
  exists r, vm_reserv_array s !! n = Some r /\
    one_partpop_flag (rv_flags r) = true /\
    Z.land (rv_flags r) VM_RESERV_F_MARKER = 0 /\
    ((Z.land (rv_flags r) VM_RESERV_F_INACTIVE = 0 /\
      In (Rv n) (vm_rvlru_active s) /\
      s' = put_rv n (set_rv_flags (clear_partpop (rv_flags r)) r)
             (set_vm_rvlru_active
                (remove rvref_eq_dec (Rv n) (vm_rvlru_active s)) s)) \/
     (Z.land (rv_flags r) VM_RESERV_F_INACTIVE <> 0 /\
      In (Rv n) (vm_rvlru_inactive s) /\
      s' = put_rv n (set_rv_flags (clear_partpop (rv_flags r)) r)
             (set_vm_rvlru_inactive
                (remove rvref_eq_dec (Rv n) (vm_rvlru_inactive s)) s))).
Proof.
  unfold vm_reserv_lru_dequeue. intros H.
  destruct s as [arr mk act inact objs ps locks fm br fr rc tr].
  minv H; unfold put_rv, clear_partpop; unfold_state; lnorm; zbool.
  - eexists. split; [eassumption|].
    split; [assumption|]. split; [assumption|]. right. auto.
  - eexists. split; [eassumption|].
    split; [assumption|]. split; [assumption|]. left. auto.
Qed.

Lemma LIST_INSERT_HEAD_inv o rv s u s' :
  LIST_INSERT_HEAD o rv s = Ok (u, s') ->
  on_objq rv s = false /\
  exists ob, vm_objects s !! o = Some ob /\
    s' = set_vm_objects
           (<[o := set_o_rvq (rv :: o_rvq ob) ob]> (vm_objects s)) s.
Proof.
  unfold LIST_INSERT_HEAD. intros H.
  apply bind_inv in H as (a & s1 & H1 & H2).
  apply get_inv in H1 as [-> ->].
  destruct (on_objq rv s); [discriminate|].
  minv H2. split; [reflexivity|]. eexists. split; [eassumption|reflexivity].
Qed.

Lemma VM_OBJECT_ASSERT_WLOCKED_inv o s u s' :
  VM_OBJECT_ASSERT_WLOCKED o s = Ok (u, s') ->
  (exists ob, vm_objects s !! o = Some ob /\ o_wlocked ob = true) /\ s' = s.
Proof.
  unfold VM_OBJECT_ASSERT_WLOCKED. intros H. minv H. eauto.
Qed.

Ltac minv_ext H ::=
  lazymatch type of H with
  | vm_reserv_set_object (Rv _) None _ _ = Ok _ =>
      let r := fresh "r" in
      apply set_object_none_inv in H as (r & H & ?); subst
  | vm_reserv_set_object (Rv _) (Some _) _ _ = Ok _ =>
      let r := fresh "r" in
      apply set_object_some_inv in H as (r & H & ?); subst
  | vm_reserv_lru_dequeue (Rv _) _ = Ok _ =>
      let r := fresh "r" in
      let Hf := fresh "Hf" in
      let Hm := fresh "Hm" in
      let Hq := fresh "Hq" in
      let Hi := fresh "Hi" in
      apply lru_dequeue_inv in H
        as (r & H & Hf & Hm & [(Hi & Hq & ?)|(Hi & Hq & ?)]); subst
  | LIST_INSERT_HEAD _ _ _ = Ok _ =>
      let ob := fresh "ob" in
      let Hob := fresh "Hob" in
      apply LIST_INSERT_HEAD_inv in H as (H & ob & Hob & ?); subst
  | VM_OBJECT_ASSERT_WLOCKED _ _ = Ok _ =>
      apply VM_OBJECT_ASSERT_WLOCKED_inv in H as [H ?]; subst
  end.


(** ** Inversion of the LRU update procedure, branch by branch *)

(** Closes the branches a run cannot have taken. *)
Ltac absurd_branch :=
  try (exfalso; rewrite ?VM_LEVEL_0_NPAGES_val in *; lia);
  try congruence.

(** Decides which queue [queue_of] names from a fact on the flags. *)
Ltac queue_case :=
  unfold queue_of in *;
  repeat match goal with
    | H : Z.land ?f VM_RESERV_F_INACTIVE = 0 |- _ =>
        rewrite !H in *; change (0 =? 0) with true in *; cbv iota in *
    | H : Z.land ?f VM_RESERV_F_INACTIVE <> 0 |- _ =>
        let E := fresh "E" in
        pose proof (proj2 (Z.eqb_neq _ _) H) as E; rewrite !E in *;
        clear E
    end.

Lemma update_lru_full_inv n adv s u s' r :
  vm_reserv_update_lru (Rv n) adv s = Ok (u, s') ->
  vm_reserv_array s !! n = Some r ->
  rv_popcnt r = VM_LEVEL_0_NPAGES ->
  one_partpop_flag (rv_flags r) = true /\
  Z.land (rv_flags r) VM_RESERV_F_MARKER = 0 /\
  In (Rv n) (lru (queue_of (rv_flags r)) s) /\
  vm_page_queue_free_mtx s = MtxUnowned /\
  s' = dequeued n r s.
Proof.
  intros H Hr Hpop. unfold vm_reserv_update_lru in H.
  destruct s as [arr mk act inact objs ps locks fm br fr rc tr].
  minv H.
  all: unfold dequeued, put_rv in *; unfold_state; lnorm; zbool;
    absurd_branch.
  all: queue_case; unfold_state; subst; auto.
Qed.

Lemma update_lru_empty_inv n adv s u s' r :
  vm_reserv_update_lru (Rv n) adv s = Ok (u, s') ->
  vm_reserv_array s !! n = Some r ->
  rv_popcnt r = 0 ->
  exists pa,
  rv_pages r = Some pa /\
  one_partpop_flag (rv_flags r) = true /\
  Z.land (rv_flags r) VM_RESERV_F_MARKER = 0 /\
  In (Rv n) (lru (queue_of (rv_flags r)) s) /\
  on_objq (Rv n) s = true /\
  vm_page_queue_free_mtx s = MtxUnowned /\
  s' = set_vm_reserv_freed (atomic_add_long (vm_reserv_freed s) 1)
         (set_trace
            (trace s ++ unbind_events n ++
             [EvPhysFreePages pa VM_LEVEL_0_ORDER])
            (dequeued n (unbound r) (unlinked n s))).
Proof.
  intros H Hr Hpop. unfold vm_reserv_update_lru in H.
  destruct s as [arr mk act inact objs ps locks fm br fr rc tr].
  minv H.
  all: unfold dequeued, unlinked, put_rv in *; unfold_state; lnorm; zbool;
    absurd_branch.
  all: cbn [unbound rv_flags set_rv_seq set_rv_object rv_pages] in *.
  all: queue_case; unfold_state; subst.
  all: eexists; split; [eassumption|]; repeat (split; [assumption || reflexivity|]).
  all: rewrite <- ?app_assoc; try reflexivity.
Qed.
(** Reduces reads of a reservation record that was written field by
    field. *)
Ltac rnorm :=
  cbn [set_rv_object set_rv_pindex set_rv_pages set_rv_seq set_rv_popcnt
       set_rv_actcnt set_rv_flags set_rv_popmap rv_object rv_pindex
       rv_pages rv_seq rv_popcnt rv_actcnt rv_flags rv_popmap unbound] in *.

Lemma update_lru_activate_inv n adv s u s' r :
  vm_reserv_update_lru (Rv n) adv s = Ok (u, s') ->
  vm_reserv_array s !! n = Some r ->
  rv_popcnt r <> VM_LEVEL_0_NPAGES ->
  rv_popcnt r <> 0 ->
  Z.land (rv_flags r) VM_RESERV_F_ACTIVE = 0 ->
  vm_page_queue_free_mtx s = MtxUnowned /\
  ~ In (Rv n) (vm_rvlru_active s) /\
  (Z.land (rv_flags r) VM_RESERV_F_INACTIVE = 0 ->
   ~ In (Rv n) (vm_rvlru_inactive s)) /\
  (Z.land (rv_flags r) VM_RESERV_F_INACTIVE <> 0 ->
   In (Rv n) (vm_rvlru_inactive s) /\
   Z.land (rv_flags r) VM_RESERV_F_MARKER = 0) /\
  s' = activated n r s.
Proof.
  intros H Hr Hn H0 Ha. unfold vm_reserv_update_lru in H.
  destruct s as [arr mk act inact objs ps locks fm br fr rc tr].
  minv H.
  all: unfold activated, put_rv in *; unfold_state; lnorm; zbool;
    absurd_branch.
  all: rnorm.
  all: match goal with H : on_lru _ _ = false |- _ =>
         apply on_lru_false in H as [? ?] end; unfold_state.
  all: queue_case; unfold_state; subst; absurd_branch; rnorm.
  all: repeat split; auto; try tauto.
Qed.

Lemma update_lru_bump_inv n adv s u s' r :
  vm_reserv_update_lru (Rv n) adv s = Ok (u, s') ->
  vm_reserv_array s !! n = Some r ->
  rv_popcnt r <> VM_LEVEL_0_NPAGES ->
  rv_popcnt r <> 0 ->
  Z.land (rv_flags r) VM_RESERV_F_ACTIVE <> 0 ->
  s' = put_rv n (set_rv_actcnt (bump_actcnt (rv_actcnt r) adv) r) s.
Proof.
  intros H Hr Hn H0 Ha. unfold vm_reserv_update_lru in H.
  destruct s as [arr mk act inact objs ps locks fm br fr rc tr].
  minv H.
  all: unfold bump_actcnt, put_rv in *; unfold_state; lnorm; zbool;
    absurd_branch.
  all: rnorm.
  - apply Z.ltb_lt in E2. rewrite E2. reflexivity.
  - apply Z.ltb_ge in E2. rewrite E2. reflexivity.
Qed.

(** The LRU update procedure leaves the population of every reservation
    as it is. *)
Lemma update_lru_population n adv s u s' :
  vm_reserv_update_lru (Rv n) adv s = Ok (u, s') ->
  psind s' = psind s /\
  length (vm_reserv_array s') = length (vm_reserv_array s) /\
  forall k r, vm_reserv_array s !! k = Some r ->
    exists r', vm_reserv_array s' !! k = Some r' /\
      rv_popcnt r' = rv_popcnt r /\ rv_popmap r' = rv_popmap r /\
      rv_pages r' = rv_pages r /\ rv_pindex r' = rv_pindex r /\
      (k <> n -> r' = r).
Proof.
  intros H.
  assert (Hl : exists r, vm_reserv_array s !! n = Some r).
  { unfold vm_reserv_update_lru in H. minv H; eauto. }
  destruct Hl as [r Hr].
  assert (Hput : forall r1 s1,
    rv_popcnt r1 = rv_popcnt r -> rv_popmap r1 = rv_popmap r ->
    rv_pages r1 = rv_pages r -> rv_pindex r1 = rv_pindex r ->
    vm_reserv_array s1 = vm_reserv_array s -> psind s1 = psind s ->
    psind (put_rv n r1 s1) = psind s /\
    length (vm_reserv_array (put_rv n r1 s1)) = length (vm_reserv_array s) /\
    forall k r0, vm_reserv_array s !! k = Some r0 ->
      exists r', vm_reserv_array (put_rv n r1 s1) !! k = Some r' /\
        rv_popcnt r' = rv_popcnt r0 /\ rv_popmap r' = rv_popmap r0 /\
        rv_pages r' = rv_pages r0 /\ rv_pindex r' = rv_pindex r0 /\
        (k <> n -> r' = r0)).
  { intros r1 s1 H1 H2 H3 H4 Ha Hp. unfold put_rv. cbn. rewrite Ha.
    split; [exact Hp|]. split; [apply length_insert|].
    intros k r0 Hk. destruct (decide (k = n)) as [->|Hne].
    - rewrite list_lookup_insert_eq by (eapply lookup_lt_Some; eassumption).
      assert (r0 = r) by congruence. subst r0.
      eexists. split; [reflexivity|]. repeat split; auto. congruence.
    - rewrite list_lookup_insert_ne by congruence.
      eexists. split; [eassumption|]. repeat split; auto. }
  destruct (Z.eq_dec (rv_popcnt r) VM_LEVEL_0_NPAGES) as [Hf|Hf].
  { eapply update_lru_full_inv in H as (_ & _ & _ & _ & ->); eauto.
    unfold dequeued. destruct (queue_of _); apply Hput; reflexivity. }
  destruct (Z.eq_dec (rv_popcnt r) 0) as [Hz|Hz].
  { eapply update_lru_empty_inv in H as (pa & _ & _ & _ & _ & _ & _ & ->);
      eauto.
    unfold dequeued. destruct (queue_of _);
      cbn -[put_rv]; apply Hput; reflexivity. }
  destruct (Z.eq_dec (Z.land (rv_flags r) VM_RESERV_F_ACTIVE) 0) as [Ha|Ha].
  { eapply update_lru_activate_inv in H as (_ & _ & _ & _ & ->); eauto.
    unfold activated. destruct (_ =? _); apply Hput; reflexivity. }
  eapply update_lru_bump_inv in H; eauto. subst s'.
  apply Hput; reflexivity.
Qed.

(** ** Populate and depopulate, up to their call of the LRU procedure *)

(** The state vm_reserv_populate hands to vm_reserv_update_lru. *)
Lemma populate_inv n index s u s' :
  vm_reserv_populate (Rv n) index s = Ok (u, s') ->
  exists r m k pm,
    vm_reserv_array s !! n = Some r /\
    rv_object r <> None /\
    popmap_is_clear (rv_popmap r) index = Some true /\
    rv_popcnt r < VM_LEVEL_0_NPAGES /\
    rv_pages r = Some m /\
    psind_index m = Some k /\
    psind s !! k = Some 0 /\
    popmap_set (rv_popmap r) index = Some pm /\
    let r1 := set_rv_popcnt (u16 (rv_popcnt r + 1)) (set_rv_popmap pm r) in
    let s1 :=
      if u16 (rv_popcnt r + 1) =? VM_LEVEL_0_NPAGES
      then set_trace (trace s ++ [EvStorePsind m 1])
             (set_psind (<[k := 1]> (psind s)) (put_rv n r1 s))
      else put_rv n r1 s in
    vm_reserv_update_lru (Rv n) RV_POP_STEP s1 = Ok (u, s').
Proof.
  unfold vm_reserv_populate. intros H.
  destruct s as [arr mk act inact objs ps locks fm br fr rc tr].
  minv H.
  all: unfold put_rv in *; unfold_state; lnorm; zbool.
  all: destruct (rv_object a0) eqn:Ho; [|discriminate].
  all: destruct (popmap_is_clear _ _) as [[|]|] eqn:Hc; try discriminate.
  all: destruct (rv_pages a0) as [m|] eqn:Hm; try discriminate.
  all: destruct (popmap_set _ _) as [pm|] eqn:Hs; try discriminate.
  all: cbn [res_of_option] in *; lnorm.
  all: do 4 eexists.
  all: repeat (split; [first [eassumption | reflexivity | congruence]|]).
  all: cbv zeta.
  - apply Z.eqb_eq in E. rewrite E. unfold_state.
    try match goal with
    | H1 : psind_index ?m = Some ?k1, H2 : psind_index ?m = Some ?k2 |- _ =>
        assert (k2 = k1) by congruence; subst k2
    end. exact H.
  - apply Z.eqb_neq in E. rewrite E. exact H.
Qed.

(** The state vm_reserv_depopulate hands to vm_reserv_update_lru. *)
Lemma depopulate_inv n index s u s' :
  vm_reserv_depopulate (Rv n) index s = Ok (u, s') ->
  exists r pm,
    vm_reserv_array s !! n = Some r /\
    rv_object r <> None /\
    popmap_is_set (rv_popmap r) index = Some true /\
    0 < rv_popcnt r /\
    popmap_clear (rv_popmap r) index = Some pm /\
    let r1 := set_rv_popcnt (u16 (rv_popcnt r - 1)) (set_rv_popmap pm r) in
    (rv_popcnt r = VM_LEVEL_0_NPAGES ->
     exists m k, rv_pages r = Some m /\ psind_index m = Some k /\
       psind s !! k = Some 1 /\
       Z.land (rv_flags r) VM_RESERV_F_PARTPOP = 0 /\
       vm_reserv_update_lru (Rv n) RV_DEPOP_STEP
         (set_trace (trace s ++ [EvStorePsind m 0])
            (set_psind (<[k := 0]> (psind s)) (put_rv n r1 s)))
       = Ok (u, s')) /\
    (rv_popcnt r <> VM_LEVEL_0_NPAGES ->
     vm_reserv_update_lru (Rv n) RV_DEPOP_STEP (put_rv n r1 s) = Ok (u, s')).
Proof.
  unfold vm_reserv_depopulate. intros H.
  destruct s as [arr mk act inact objs ps locks fm br fr rc tr].
  minv H.
  all: unfold put_rv in *; unfold_state; lnorm; zbool.
  all: destruct (rv_object a0) eqn:Ho; [|discriminate].
  all: destruct (popmap_is_set _ _) as [[|]|] eqn:Hc; try discriminate.
  all: destruct (popmap_clear _ _) as [pm|] eqn:Hs; try discriminate.
  all: try (destruct (rv_pages a0) as [m|] eqn:Hm; try discriminate).
  all: cbn [res_of_option] in *; lnorm.
  all: do 2 eexists.
  all: repeat (split; [first [eassumption | reflexivity | congruence]|]).
  all: cbv zeta; try split; intros Hp; try congruence.
  try match goal with
  | H1 : psind_index ?m = Some ?k1, H2 : psind_index ?m = Some ?k2 |- _ =>
      assert (k2 = k1) by congruence; subst k2
  end.
  do 2 eexists.
  repeat (split; [first [eassumption | reflexivity]|]).
  unfold_state. exact H.
Qed.

Lemma u16_small x : 0 <= x < 2 ^ 16 -> u16 x = x.
Proof. intros H. unfold u16. apply Z.mod_small. exact H. Qed.

Lemma psind_writes_store s m v tr' :
  psind_writes (set_trace (trace s ++ [EvStorePsind m v]) tr') =
  psind_writes s ++ [EvStorePsind m v].
Proof.
  unfold psind_writes. cbn. rewrite List.filter_app. reflexivity.
Qed.

(** ** Flag words *)

Lemma testbit_3 n : 0 <= n -> Z.testbit 3 n = (n <? 2).
Proof.
  intros H. change 3 with (Z.ones 2).
  rewrite Z.testbit_ones_nonneg by lia. reflexivity.
Qed.

Lemma u8_testbit x n : 0 <= n ->
  Z.testbit (u8 x) n = (n <? 8) && Z.testbit x n.
Proof.
  intros H. unfold u8. destruct (n <? 8) eqn:E; zbool.
  - rewrite Z.mod_pow2_bits_low by lia. reflexivity.
  - rewrite Z.mod_pow2_bits_high by lia. reflexivity.
Qed.

Lemma clear_partpop_land f :
  Z.land (clear_partpop f) VM_RESERV_F_PARTPOP = 0.
Proof.
  unfold clear_partpop. change VM_RESERV_F_PARTPOP with 3.
  apply Z.bits_inj'. intros n Hn.
  rewrite Z.land_spec, u8_testbit, Z.land_spec, Z.lnot_spec, testbit_3,
    Z.bits_0 by lia.
  destruct (n <? 2), (n <? 8), (Z.testbit f n); reflexivity.
Qed.

(** ** Object lists *)

Lemma on_objq_unlinked n s : on_objq (Rv n) (unlinked n s) = false.
Proof.
  unfold on_objq, unlinked. cbn.
  induction (vm_objects s) as [|ob l IH]; [reflexivity|].
  cbn. rewrite IH, orb_false_r. unfold inb.
  destruct (in_dec _ _ _) as [Hin|]; [|reflexivity].
  exfalso. eapply remove_In, Hin.
Qed.

Lemma s64_small x : - 2 ^ 63 <= x < 2 ^ 63 -> s64 x = x.
Proof. intros H. unfold s64. rewrite Z.mod_small by lia. lia. Qed.

(** ** Freeing the last page *)

(** C4. When vm_reserv_depopulate lowers popcnt from 1 to 0, the LRU
    update procedure clears the object field between seq_write_begin and
    seq_write_end, unlinks the reservation from the object list it is on,
    takes it off the one LRU queue its flags name (and clears both queue
    flags), hands the run of N pages starting at rv->pages to the
    small-page allocator in a single vm_phys_free_pages call of order
    VM_LEVEL_0_ORDER, and adds exactly 1 to the freed counter. *)
Theorem depopulate_last_page_frees_reservation :
  forall n index s s' r,
    vm_reserv_depopulate (Rv n) index s = Ok (tt, s') ->
    vm_reserv_array s !! n = Some r ->
    rv_popcnt r = 1 ->
    - 2 ^ 63 <= vm_reserv_freed s < 2 ^ 63 - 1 ->
    exists r' pa,
      vm_reserv_array s' !! n = Some r' /\
      rv_pages r = Some pa /\
      rv_object r' = None /\
      rv_popcnt r' = 0 /\
      rv_seq r' = u32 (u32 (rv_seq r + 1) + 1) /\
      trace s' = trace s ++
        [EvSeqWriteBegin (Rv n); EvStoreObject (Rv n) None;
         EvSeqWriteEnd (Rv n); EvPhysFreePages pa VM_LEVEL_0_ORDER] /\
      on_objq (Rv n) s = true /\
      vm_objects s' =
        ((fun ob => set_o_rvq (remove rvref_eq_dec (Rv n) (o_rvq ob)) ob)
           <$> vm_objects s) /\
      on_objq (Rv n) s' = false /\
      one_partpop_flag (rv_flags r) = true /\
      In (Rv n) (lru (queue_of (rv_flags r)) s) /\
      lru (queue_of (rv_flags r)) s' =
        remove rvref_eq_dec (Rv n) (lru (queue_of (rv_flags r)) s) /\
      (forall q, q <> queue_of (rv_flags r) -> lru q s' = lru q s) /\
      Z.land (rv_flags r') VM_RESERV_F_PARTPOP = 0 /\
      vm_reserv_freed s' = vm_reserv_freed s + 1.
Proof.
  intros n index s s' r H Hr Hpop Hfr.
  apply depopulate_inv in H as (r0 & pm & Hr0 & _ & _ & _ & _ & _ & H).
  assert (r0 = r) by congruence. subst r0.
  assert (Hne : rv_popcnt r <> VM_LEVEL_0_NPAGES)
    by (rewrite Hpop, VM_LEVEL_0_NPAGES_val; lia).
  specialize (H Hne). rewrite Hpop in H. change (u16 (1 - 1)) with 0 in H.
  assert (Hlen : (n < length (vm_reserv_array s))%nat)
    by (eapply lookup_lt_Some; eassumption).
  eapply update_lru_empty_inv in H
    as (pa & Hpa & Hf & Hm & Hq & Ho & Hmtx & ->);
    [| unfold put_rv; cbn; apply list_lookup_insert_eq; exact Hlen
     | reflexivity].
  cbn in Hpa, Hf, Hm, Hq, Ho.
  exists (set_rv_flags (clear_partpop (rv_flags r))
            (unbound (set_rv_popcnt 0 (set_rv_popmap pm r)))), pa.
  assert (Hon : on_objq (Rv n)
            (unlinked n (put_rv n (set_rv_popcnt 0 (set_rv_popmap pm r)) s))
          = false) by apply on_objq_unlinked.
  unfold dequeued in *. cbn [rv_flags unbound set_rv_seq set_rv_object
    set_rv_popcnt set_rv_popmap] in *.
  unfold atomic_add_long.
  destruct (queue_of (rv_flags r)) eqn:Eq;
    destruct s as [arr mk act inact objs ps locks fm br fr rc tr];
    unfold unlinked, put_rv, unbind_events in *; unfold_state; lnorm;
    rewrite s64_small by lia;
    (split; [reflexivity|]); (split; [assumption|]);
    (split; [reflexivity|]); (split; [reflexivity|]);
    (split; [reflexivity|]); (split; [reflexivity|]);
    (split; [assumption|]); (split; [reflexivity|]);
    (split; [exact Hon|]); (split; [assumption|]);
    (split; [assumption|]); (split; [reflexivity|]);
    (split; [intros [|] Hq'; congruence|]);
    (split; [apply clear_partpop_land|]); reflexivity.
Qed.

(** Freeing the only page of reservation 0 returns the frame. *)
Lemma depopulate_last_page_frees_reservation_witness :
  exists s' r',
    vm_reserv_depopulate (Rv 0) 0 s_one_page_locked = Ok (tt, s') /\
    vm_reserv_array s' !! 0%nat = Some r' /\
    rv_object r' = None /\
    rv_popcnt r' = 0 /\
    vm_rvlru_active s' = [Marker] /\
    vm_reserv_freed s' = vm_reserv_freed s_one_page_locked + 1.
Proof.
  eexists _, _.
  split; [vm_compute; reflexivity|].
  destruct (depopulate_last_page_frees_reservation 0%nat 0 s_one_page_locked
              _ _ ltac:(vm_compute; reflexivity)
              ltac:(vm_compute; reflexivity) ltac:(reflexivity)
              ltac:(vm_compute; split; [discriminate|reflexivity]))
    as (r' & pa & Hr' & _ & Hob & Hpc & _ & _ & _ & _ & _ & _ & _ & _ & _
        & _ & Hfreed).
  vm_compute in Hr'. injection Hr' as <-.
  repeat (split; [reflexivity|]). exact Hfreed.
Defined.

(** ** Moving a reservation to another object *)

(** C10. vm_reserv_rename on a page whose reservation is not bound to
    old_object leaves the whole state unchanged.  Otherwise it unlinks the
    reservation from the object list it is on and links it at the head of
    new_object's list, sets pindex to the old pindex minus
    old_object_offset (modulo 2^64) and object to new_object between
    seq_write_begin and seq_write_end, and leaves popmap, popcnt, flags,
    actcnt, pages, both LRU queues, the size hints, the counters, every
    other reservation and (after the unlock) the locks as they were. *)
Theorem rename_moves_reservation_only :
  forall m new_object old_object old_object_offset s s' r,
    let n := Z.to_nat (Z.shiftr m VM_LEVEL_0_SHIFT) in
    vm_reserv_rename m new_object old_object old_object_offset s
      = Ok (tt, s') ->
    vm_reserv_array s !! n = Some r ->
    (rv_object r <> Some old_object -> s' = s) /\
    (rv_object r = Some old_object ->
     exists obn,
       ((fun ob => set_o_rvq (remove rvref_eq_dec (Rv n) (o_rvq ob)) ob)
          <$> vm_objects s) !! new_object = Some obn /\
       vm_objects s' =
         <[new_object := set_o_rvq (Rv n :: o_rvq obn) obn]>
           ((fun ob => set_o_rvq (remove rvref_eq_dec (Rv n) (o_rvq ob)) ob)
              <$> vm_objects s) /\
       on_objq (Rv n) s = true /\
       vm_reserv_array s' =
         <[n := mk_vm_reserv (Some new_object)
                  (u64 (rv_pindex r - old_object_offset)) (rv_pages r)
                  (u32 (u32 (rv_seq r + 1) + 1)) (rv_popcnt r) (rv_actcnt r)
                  (rv_flags r) (rv_popmap r)]> (vm_reserv_array s) /\
       trace s' = trace s ++
         [EvSeqWriteBegin (Rv n);
          EvStorePindex (Rv n) (u64 (rv_pindex r - old_object_offset));
          EvStoreObject (Rv n) (Some new_object); EvSeqWriteEnd (Rv n)] /\
       vm_rvlru_active s' = vm_rvlru_active s /\
       vm_rvlru_inactive s' = vm_rvlru_inactive s /\
       scan_marker s' = scan_marker s /\
       psind s' = psind s /\
       rv_lock s' = rv_lock s /\
       vm_page_queue_free_mtx s' = vm_page_queue_free_mtx s /\
       vm_reserv_broken s' = vm_reserv_broken s /\
       vm_reserv_freed s' = vm_reserv_freed s /\
       vm_reserv_reclaimed s' = vm_reserv_reclaimed s).
Proof.
  intros m new_object old_object off s s' r n H Hr.
  unfold vm_reserv_rename, vm_reserv_from_page in H. fold n in H.
  apply bind_inv in H as (a & s1 & H1 & H).
  apply VM_OBJECT_ASSERT_WLOCKED_inv in H1 as [_ ->].
  apply bind_inv in H as (r0 & s1 & H1 & H).
  apply load_rv_inv in H1 as [H1 ->].
  assert (r0 = r) by congruence. subst r0.
  destruct (bool_decide (rv_object r = Some old_object)) eqn:E.
  2:{ apply bool_decide_eq_false in E. apply ret_inv in H as [_ ->].
      split; [reflexivity|]. intros; contradiction. }
  apply bool_decide_eq_true in E. split; [intros; contradiction|]. intros _.
  destruct s as [arr mk act inact objs ps locks fm br fr rc tr].
  minv H.
  all: unfold put_rv in *; unfold_state; lnorm; zbool; try contradiction.
  eexists. split; [eassumption|]. split; [reflexivity|].
  split; [assumption|]. subst fm. rnorm.
  match goal with
  | H : ?l !! ?k = Some MtxUnowned |- _ =>
      rewrite (list_insert_id l k MtxUnowned) by exact H
  end.
  repeat (split; [reflexivity|]). reflexivity.
Qed.

(** Reservation 0 moves from object 0 to object 1. *)
Lemma rename_moves_reservation_only_witness :
  exists s',
    vm_reserv_rename 0 1 0 0 s_one_page = Ok (tt, s') /\
    (exists r', vm_reserv_array s' !! 0%nat = Some r' /\
       rv_object r' = Some 1%nat /\ rv_popcnt r' = 1) /\
    vm_rvlru_active s' = vm_rvlru_active s_one_page /\
    psind s' = psind s_one_page.
Proof.
  eexists.
  split; [vm_compute; reflexivity|].
  destruct (rename_moves_reservation_only 0 1%nat 0%nat 0 s_one_page _ _
              ltac:(vm_compute; reflexivity) ltac:(vm_compute; reflexivity))
    as [_ Hmove].
  destruct (Hmove ltac:(reflexivity))
    as (obn & _ & _ & _ & Harr & _ & Hact & _ & _ & Hps & _).
  split; [|split; [exact Hact|exact Hps]].
  eexists. split; [reflexivity|]. split; reflexivity.
Defined.

(** ** Words and bits *)

Lemma NBPOPMAP_val : NBPOPMAP = 64.
Proof. reflexivity. Qed.

Lemma NPOPMAP_val : NPOPMAP = 8.
Proof. reflexivity. Qed.

Lemma u64_testbit x n : 0 <= n ->
  Z.testbit (u64 x) n = (n <? 64) && Z.testbit x n.
Proof.
  intros H. unfold u64. destruct (n <? 64) eqn:E; zbool.
  - rewrite Z.mod_pow2_bits_low by lia. reflexivity.
  - rewrite Z.mod_pow2_bits_high by lia. reflexivity.
Qed.

Lemma not64_testbit x n : 0 <= n ->
  Z.testbit (not64 x) n = (n <? 64) && negb (Z.testbit x n).
Proof.
  intros H. unfold not64. rewrite u64_testbit, Z.lnot_spec by lia.
  reflexivity.
Qed.

Lemma shiftl_1_testbit b n : 0 <= b -> 0 <= n ->
  Z.testbit (Z.shiftl 1 b) n = (n =? b).
Proof.
  intros Hb Hn. rewrite Z.shiftl_1_l, Z.pow2_bits_eqb by lia.
  apply Z.eqb_sym.
Qed.

Lemma word_testbit_high w n : 0 <= w < 2 ^ 64 -> 64 <= n ->
  Z.testbit w n = false.
Proof.
  intros Hw Hn. destruct (Z.eq_dec w 0) as [->|Hne]; [apply Z.bits_0|].
  apply Z.bits_above_log2; [lia|].
  assert (Z.log2 w < 64) by (apply Z.log2_lt_pow2; lia). lia.
Qed.

Lemma land_bit_zero w b : 0 <= b ->
  Z.land w (Z.shiftl 1 b) = 0 <-> Z.testbit w b = false.
Proof.
  intros Hb. split; intros H.
  - assert (E : Z.testbit (Z.land w (Z.shiftl 1 b)) b = false)
      by (rewrite H; apply Z.bits_0).
    rewrite Z.land_spec, shiftl_1_testbit, Z.eqb_refl, andb_true_r in E
      by lia.
    exact E.
  - apply Z.bits_inj'. intros n Hn.
    rewrite Z.land_spec, shiftl_1_testbit, Z.bits_0 by lia.
    destruct (n =? b) eqn:E; zbool; [subst; rewrite H|];
      rewrite ?andb_false_r; reflexivity.
Qed.

Lemma set_then_clear_bit w b :
  0 <= w < 2 ^ 64 -> 0 <= b < 64 -> Z.testbit w b = false ->
  Z.land (Z.lor w (Z.shiftl 1 b)) (not64 (Z.shiftl 1 b)) = w.
Proof.
  intros Hw Hb Hc. apply Z.bits_inj'. intros n Hn.
  rewrite Z.land_spec, Z.lor_spec, not64_testbit, shiftl_1_testbit by lia.
  destruct (n <? 64) eqn:E1; zbool.
  - destruct (n =? b) eqn:E2; zbool.
    + subst. rewrite Hc. reflexivity.
    + rewrite orb_false_r, andb_true_r. reflexivity.
  - rewrite (word_testbit_high w n) by lia.
    rewrite andb_false_r. reflexivity.
Qed.

(** ** The population map as an array *)

Lemma popmap_word_Some popmap k w :
  popmap_word popmap k = Some w <->
  0 <= k < NPOPMAP /\ popmap !! Z.to_nat k = Some w.
Proof.
  unfold popmap_word.
  destruct (0 <=? k) eqn:E1, (k <? NPOPMAP) eqn:E2; cbn; zbool;
    split; intros H; try discriminate; try tauto; try lia.
Qed.

Lemma popmap_typed_word popmap k w :
  popmap_typed popmap -> popmap_word popmap k = Some w -> 0 <= w < 2 ^ 64.
Proof.
  intros [_ Hall] H. apply popmap_word_Some in H as [_ H].
  rewrite Forall_forall in Hall. apply Hall.
  eapply list_elem_of_lookup_2, H.
Qed.

(** The index of a bit inside the map, split as the code splits it. *)
Lemma index_split i :
  0 <= i < VM_LEVEL_0_NPAGES ->
  0 <= i / NBPOPMAP < NPOPMAP /\ 0 <= i mod NBPOPMAP < NBPOPMAP.
Proof.
  rewrite VM_LEVEL_0_NPAGES_val, NBPOPMAP_val, NPOPMAP_val. intros H.
  split; [|apply Z.mod_pos_bound; lia].
  split; [apply Z.div_pos; lia|apply Z.div_lt_upper_bound; lia].
Qed.

Lemma index_in_range popmap i w :
  popmap_word popmap (i / NBPOPMAP) = Some w ->
  0 <= i < VM_LEVEL_0_NPAGES.
Proof.
  intros H. apply popmap_word_Some in H as [H _].
  rewrite VM_LEVEL_0_NPAGES_val. rewrite NBPOPMAP_val, NPOPMAP_val in H.
  destruct H as [H1 H2].
  split.
  - destruct (Z.lt_ge_cases i 0) as [Hneg|]; [|assumption].
    assert (i / 64 < 0) by (apply Z.div_lt_upper_bound; lia). lia.
  - destruct (Z.lt_ge_cases i 512) as [|Hge]; [assumption|].
    assert (8 <= i / 64) by (apply Z.div_le_lower_bound; lia). lia.
Qed.

(** Setting a clear bit and clearing it again restores the map. *)
Lemma popmap_set_clear popmap i pm :
  popmap_typed popmap ->
  popmap_is_clear popmap i = Some true ->
  popmap_set popmap i = Some pm ->
  popmap_clear pm i = Some popmap.
Proof.
  unfold popmap_is_clear, popmap_set, popmap_clear, popmap_store.
  intros Ht Hc Hs.
  destruct (popmap_word popmap (i / NBPOPMAP)) as [w|] eqn:Hw;
    [|discriminate].
  pose proof (index_in_range _ _ _ Hw) as Hi.
  pose proof (index_split _ Hi) as [Hq Hb].
  pose proof (popmap_typed_word _ _ _ Ht Hw) as Hr.
  apply popmap_word_Some in Hw as [_ Hw].
  injection Hc as Hc. injection Hs as <-. zbool.
  apply land_bit_zero in Hc; [|lia].
  assert (Hlook : popmap_word
            (<[Z.to_nat (i / NBPOPMAP) :=
                 Z.lor w (Z.shiftl 1 (i mod NBPOPMAP))]> popmap)
            (i / NBPOPMAP)
          = Some (Z.lor w (Z.shiftl 1 (i mod NBPOPMAP)))).
  { apply popmap_word_Some. split; [assumption|].
    apply list_lookup_insert_eq. eapply lookup_lt_Some, Hw. }
  rewrite Hlook. f_equal.
  rewrite list_insert_insert_eq.
  rewrite set_then_clear_bit by (rewrite ?NBPOPMAP_val in *; lia || assumption).
  apply list_insert_id, Hw.
Qed.

(** A bit that was just set reads as set. *)
Lemma popmap_set_is_set popmap i pm :
  popmap_set popmap i = Some pm ->
  popmap_is_set pm i = Some true.
Proof.
  unfold popmap_set, popmap_is_set, popmap_store. intros Hs.
  destruct (popmap_word popmap (i / NBPOPMAP)) as [w|] eqn:Hw;
    [|discriminate].
  injection Hs as <-.
  apply popmap_word_Some in Hw as [Hk Hw].
  assert (Hlook : popmap_word
            (<[Z.to_nat (i / NBPOPMAP) :=
                 Z.lor w (Z.shiftl 1 (i mod NBPOPMAP))]> popmap)
            (i / NBPOPMAP)
          = Some (Z.lor w (Z.shiftl 1 (i mod NBPOPMAP)))).
  { apply popmap_word_Some. split; [assumption|].
    apply list_lookup_insert_eq. eapply lookup_lt_Some, Hw. }
  rewrite Hlook. f_equal. apply negb_true_iff, Z.eqb_neq. intros H0.
  assert (Hb : 0 <= i mod NBPOPMAP)
    by (apply Z.mod_pos_bound; rewrite NBPOPMAP_val; lia).
  apply land_bit_zero in H0; [|exact Hb].
  rewrite Z.lor_spec, shiftl_1_testbit, Z.eqb_refl, orb_true_r in H0
    by exact Hb.
  discriminate.
Qed.

(** ** More on flag words *)

Lemma testbit_1 n : 0 <= n -> Z.testbit 1 n = (n =? 0).
Proof.
  intros H. change 1 with (2 ^ 0). rewrite Z.pow2_bits_eqb by lia.
  apply Z.eqb_sym.
Qed.

Lemma testbit_2 n : 0 <= n -> Z.testbit 2 n = (n =? 1).
Proof.
  intros H. change 2 with (2 ^ 1). rewrite Z.pow2_bits_eqb by lia.
  apply Z.eqb_sym.
Qed.

Lemma land_1_bit x : Z.land x 1 = 0 <-> Z.testbit x 0 = false.
Proof. change 1 with (Z.shiftl 1 0). apply land_bit_zero. lia. Qed.

Lemma land_2_bit x : Z.land x 2 = 0 <-> Z.testbit x 1 = false.
Proof. change 2 with (Z.shiftl 1 1). apply land_bit_zero. lia. Qed.

Lemma land_3_bits x :
  Z.land x 3 = 0 <-> Z.testbit x 0 = false /\ Z.testbit x 1 = false.
Proof.
  split.
  - intros H. split.
    + assert (E : Z.testbit (Z.land x 3) 0 = false)
        by (rewrite H; apply Z.bits_0).
      rewrite Z.land_spec, testbit_3, andb_true_r in E by lia. exact E.
    + assert (E : Z.testbit (Z.land x 3) 1 = false)
        by (rewrite H; apply Z.bits_0).
      rewrite Z.land_spec, testbit_3, andb_true_r in E by lia. exact E.
  - intros [H0 H1]. apply Z.bits_inj'. intros n Hn.
    rewrite Z.land_spec, testbit_3, Z.bits_0 by lia.
    destruct (n <? 2) eqn:E; zbool; [|apply andb_false_r].
    assert (n = 0 \/ n = 1) as [->| ->] by lia; rewrite ?H0, ?H1; reflexivity.
Qed.

Lemma land_3_split x :
  Z.land x VM_RESERV_F_PARTPOP = 0 <->
  Z.land x VM_RESERV_F_ACTIVE = 0 /\ Z.land x VM_RESERV_F_INACTIVE = 0.
Proof.
  change VM_RESERV_F_PARTPOP with 3. change VM_RESERV_F_ACTIVE with 1.
  change VM_RESERV_F_INACTIVE with 2.
  rewrite land_3_bits, land_1_bit, land_2_bit. reflexivity.
Qed.

Lemma set_active_partpop x :
  Z.land x VM_RESERV_F_PARTPOP = 0 ->
  Z.land (u8 (Z.lor x VM_RESERV_F_ACTIVE)) VM_RESERV_F_PARTPOP
  = VM_RESERV_F_ACTIVE.
Proof.
  change VM_RESERV_F_PARTPOP with 3. change VM_RESERV_F_ACTIVE with 1.
  intros H. apply land_3_bits in H as [H0 H1].
  apply Z.bits_inj'. intros n Hn.
  rewrite Z.land_spec, u8_testbit, Z.lor_spec, testbit_3, testbit_1 by lia.
  destruct (n =? 0) eqn:E0; zbool.
  - subst. rewrite orb_true_r. reflexivity.
  - destruct (n <? 2) eqn:E2; zbool; [|apply andb_false_r].
    assert (n = 1) as -> by lia. rewrite H1. reflexivity.
Qed.

Lemma set_active_bit x :
  Z.land (u8 (Z.lor x VM_RESERV_F_ACTIVE)) VM_RESERV_F_ACTIVE <> 0.
Proof.
  change VM_RESERV_F_ACTIVE with 1. intros H. apply land_1_bit in H.
  rewrite u8_testbit, Z.lor_spec, testbit_1 in H by lia.
  rewrite orb_true_r in H. discriminate.
Qed.

Lemma clear_partpop_active f :
  Z.land (clear_partpop f) VM_RESERV_F_ACTIVE = 0.
Proof. apply (proj1 (land_3_split _) (clear_partpop_land f)). Qed.

Lemma clear_partpop_inactive f :
  Z.land (clear_partpop f) VM_RESERV_F_INACTIVE = 0.
Proof. apply (proj1 (land_3_split _) (clear_partpop_land f)). Qed.

Lemma testbit_4 n : 0 <= n -> Z.testbit 4 n = (n =? 2).
Proof.
  intros H. change 4 with (2 ^ 2). rewrite Z.pow2_bits_eqb by lia.
  apply Z.eqb_sym.
Qed.

Lemma land_4_bit x : Z.land x 4 = 0 <-> Z.testbit x 2 = false.
Proof. change 4 with (Z.shiftl 1 2). apply land_bit_zero. lia. Qed.

(** Clearing or setting queue flags leaves the marker flag alone. *)
Lemma clear_partpop_marker f :
  Z.land f VM_RESERV_F_MARKER = 0 ->
  Z.land (clear_partpop f) VM_RESERV_F_MARKER = 0.
Proof.
  unfold clear_partpop. change VM_RESERV_F_MARKER with 4.
  change VM_RESERV_F_PARTPOP with 3.
  rewrite !land_4_bit. intros H.
  rewrite u8_testbit, Z.land_spec, Z.lnot_spec, testbit_3, H by lia.
  reflexivity.
Qed.

Lemma set_active_marker x :
  Z.land x VM_RESERV_F_MARKER = 0 ->
  Z.land (u8 (Z.lor x VM_RESERV_F_ACTIVE)) VM_RESERV_F_MARKER = 0.
Proof.
  change VM_RESERV_F_MARKER with 4. change VM_RESERV_F_ACTIVE with 1.
  rewrite !land_4_bit. intros H.
  rewrite u8_testbit, Z.lor_spec, testbit_1, H by lia. reflexivity.
Qed.

Lemma set_active_inactive x :
  Z.land (u8 (Z.lor x VM_RESERV_F_ACTIVE)) VM_RESERV_F_INACTIVE
  = 0 <-> Z.land x VM_RESERV_F_INACTIVE = 0.
Proof.
  change VM_RESERV_F_INACTIVE with 2. change VM_RESERV_F_ACTIVE with 1.
  rewrite !land_2_bit.
  rewrite u8_testbit, Z.lor_spec, testbit_1 by lia.
  change (1 =? 0) with false. change (1 <? 8) with true.
  rewrite orb_false_r. reflexivity.
Qed.

Lemma put_rv_lookup n r s :
  (n < length (vm_reserv_array s))%nat ->
  vm_reserv_array (put_rv n r s) !! n = Some r.
Proof. intros H. unfold put_rv. cbn. apply list_lookup_insert_eq, H. Qed.
(** ** Populate followed by depopulate *)

Lemma s8_small x : -128 <= x < 128 -> s8 x = x.
Proof.
  intros H. unfold s8. change (2 ^ 7) with 128. change (2 ^ 8) with 256.
  rewrite Z.mod_small by lia. lia.
Qed.

(** Two advances by one saturate at RV_ACT_MAX. *)
Lemma bump_actcnt_twice a :
  0 <= a <= RV_ACT_MAX ->
  bump_actcnt (bump_actcnt a RV_POP_STEP) RV_DEPOP_STEP
  = Z.min (a + 2) RV_ACT_MAX.
Proof.
  unfold bump_actcnt, RV_POP_STEP, RV_DEPOP_STEP, RV_ACT_MAX. intros H.
  rewrite (s8_small (a + 1)) by lia.
  destruct (64 <? a + 1) eqn:E; zbool.
  - change (s8 (64 + 1)) with 65. cbn. lia.
  - rewrite (s8_small (a + 1 + 1)) by lia.
    destruct (64 <? a + 1 + 1) eqn:E2; zbool; lia.
Qed.

(** Where both calls run to completion, the second undoes the first up
    to the activity count, the queue flags and the place in the LRU
    queues. *)
Lemma populate_depopulate_restores n index s s1 s2 r :
    vm_reserv_populate (Rv n) index s = Ok (tt, s1) ->
    vm_reserv_depopulate (Rv n) index s1 = Ok (tt, s2) ->
    vm_reserv_array s !! n = Some r ->
    0 < rv_popcnt r ->
    popmap_typed (rv_popmap r) ->
    exists r2,
      vm_reserv_array s2 !! n = Some r2 /\
      rv_object r2 = rv_object r /\ rv_pindex r2 = rv_pindex r /\
      rv_pages r2 = rv_pages r /\ rv_seq r2 = rv_seq r /\
      rv_popcnt r2 = rv_popcnt r /\ rv_popmap r2 = rv_popmap r /\
      vm_reserv_array s2 = <[n := r2]> (vm_reserv_array s) /\
      scan_marker s2 = scan_marker s /\
      vm_objects s2 = vm_objects s /\
      psind s2 = psind s /\
      rv_lock s2 = rv_lock s /\
      vm_page_queue_free_mtx s2 = vm_page_queue_free_mtx s /\
      vm_reserv_broken s2 = vm_reserv_broken s /\
      vm_reserv_freed s2 = vm_reserv_freed s /\
      vm_reserv_reclaimed s2 = vm_reserv_reclaimed s /\
      ((Z.land (rv_flags r) VM_RESERV_F_ACTIVE <> 0 /\
        rv_popcnt r + 1 < VM_LEVEL_0_NPAGES /\
        rv_flags r2 = rv_flags r /\
        rv_actcnt r2 =
          bump_actcnt (bump_actcnt (rv_actcnt r) RV_POP_STEP) RV_DEPOP_STEP /\
        (0 <= rv_actcnt r <= RV_ACT_MAX ->
         rv_actcnt r2 = Z.min (rv_actcnt r + 2) RV_ACT_MAX) /\
        vm_rvlru_active s2 = vm_rvlru_active s /\
        vm_rvlru_inactive s2 = vm_rvlru_inactive s /\
        trace s2 = trace s) \/
       (~ (Z.land (rv_flags r) VM_RESERV_F_ACTIVE <> 0 /\
           rv_popcnt r + 1 < VM_LEVEL_0_NPAGES) /\
        Z.land (rv_flags r2) VM_RESERV_F_PARTPOP = VM_RESERV_F_ACTIVE /\
        rv_actcnt r2 =
          (if rv_popcnt r + 1 =? VM_LEVEL_0_NPAGES then RV_INIT
           else bump_actcnt RV_INIT RV_DEPOP_STEP) /\
        vm_rvlru_active s2 =
          remove rvref_eq_dec (Rv n) (vm_rvlru_active s) ++ [Rv n] /\
        vm_rvlru_inactive s2 =
          remove rvref_eq_dec (Rv n) (vm_rvlru_inactive s) /\
        exists m, rv_pages r = Some m /\
          trace s2 = trace s ++
            (if rv_popcnt r + 1 =? VM_LEVEL_0_NPAGES
             then [EvStorePsind m 1; EvStorePsind m 0] else []))).
Proof.
  intros Hp Hd Hr Hpos Hty.
  apply populate_inv in Hp
    as (r0 & m & k & pm & Hr0 & _ & Hclr & Hlt & Hm & Hk & Hps & Hset & Hup).
  assert (r0 = r) by congruence. subst r0. cbv zeta in Hup.
  pose proof (popmap_set_clear _ _ _ Hty Hclr Hset) as Hback.
  assert (Hlen : (n < length (vm_reserv_array s))%nat)
    by (eapply lookup_lt_Some; eassumption).
  rewrite VM_LEVEL_0_NPAGES_val in *.
  rewrite u16_small in Hup by lia.
  destruct (rv_popcnt r + 1 =? 512) eqn:Efull; zbool.
  - (* the reservation becomes full and is demoted again *)
    eapply update_lru_full_inv in Hup;
      [|apply put_rv_lookup, Hlen|cbn; rewrite VM_LEVEL_0_NPAGES_val; lia].
    destruct Hup as (Hf & Hmk & Hq & Hfm & ->).
    apply depopulate_inv in Hd
      as (r1 & pm1 & Hr1 & _ & _ & _ & Hclear & Hd & _).
    destruct s as [arr mk act inact objs ps locks fm br fr rc tr].
    unfold dequeued, put_rv in *. rnorm.
    destruct (queue_of (rv_flags r)) eqn:Eq; unfold_state; lnorm; rnorm.
    all: assert (pm1 = rv_popmap r) by congruence; subst pm1.
    all: rewrite VM_LEVEL_0_NPAGES_val in Hd;
      destruct (Hd ltac:(lia)) as (m' & k' & Hm' & Hk' & Hps' & _ & Hd');
      clear Hd; rnorm; lnorm.
    all: replace (rv_popcnt r) with 511 in * by lia;
      change (u16 (511 + 1 - 1)) with 511 in Hd'.
    all: eapply update_lru_activate_inv in Hd';
      [|unfold_state; apply list_lookup_insert_eq; rewrite ?length_insert;
        exact Hlen
       |cbn; rewrite VM_LEVEL_0_NPAGES_val; lia|cbn; lia
       |cbn; apply clear_partpop_active].
    all: destruct Hd' as (_ & Hna & Hni & _ & ->); unfold_state; rnorm.
    all: specialize (Hni (clear_partpop_inactive _)).
    all: unfold activated, put_rv; rnorm;
      rewrite (clear_partpop_inactive (rv_flags r)); cbn [Z.eqb];
      unfold_state; lnorm.
    all: rewrite (list_insert_id ps k 0) by assumption.
    all: eexists; split; [reflexivity|]; rnorm;
      repeat (split; [reflexivity|]); right.
    all: split; [intros [_ ?]; lia|].
    all: split; [apply set_active_partpop, clear_partpop_land|].
    all: change (511 + 1 =? 512) with true; cbv iota.
    all: split; [reflexivity|].
    all: rewrite ?(notin_remove rvref_eq_dec act (Rv n)) by assumption;
      rewrite ?(notin_remove rvref_eq_dec inact (Rv n)) by assumption.
    all: split; [reflexivity|]; split; [reflexivity|].
    all: eexists; split; [eassumption|]; rewrite <- app_assoc; reflexivity.
  - destruct (Z.eq_dec (Z.land (rv_flags r) VM_RESERV_F_ACTIVE) 0) as [Ea|Ea].
    + (* not active before: activated, then one bump *)
      eapply update_lru_activate_inv in Hup;
        [|apply put_rv_lookup, Hlen
         |cbn; rewrite VM_LEVEL_0_NPAGES_val; lia|cbn; lia|exact Ea].
      destruct Hup as (Hfm & Hna & Hni & Hin & ->).
      apply depopulate_inv in Hd
        as (r1 & pm1 & Hr1 & _ & _ & _ & Hclear & _ & Hd).
      destruct s as [arr mk act inact objs ps locks fm br fr rc tr].
      unfold activated, put_rv in *. rnorm.
      destruct (Z.land (rv_flags r) VM_RESERV_F_INACTIVE =? 0) eqn:Ei;
        unfold_state; lnorm; rnorm; zbool.
      all: assert (pm1 = rv_popmap r) by congruence; subst pm1.
      all: rewrite VM_LEVEL_0_NPAGES_val in Hd;
        specialize (Hd ltac:(lia)); cbv zeta in Hd;
        replace (rv_popcnt r + 1 - 1) with (rv_popcnt r) in Hd by lia;
        rewrite u16_small in Hd by lia.
      all: eapply update_lru_bump_inv in Hd;
        [|unfold_state; apply list_lookup_insert_eq; rewrite ?length_insert;
          exact Hlen
         |cbn; rewrite VM_LEVEL_0_NPAGES_val; lia|cbn; lia
         |cbn; apply set_active_bit].
      all: subst s2; unfold put_rv; unfold_state; rnorm; lnorm.
      all: eexists; split; [reflexivity|]; rnorm;
        repeat (split; [reflexivity|]); right.
      all: split; [intros [? _]; contradiction|].
      all: try specialize (Hni ltac:(assumption)).
      all: rewrite ?(notin_remove rvref_eq_dec act (Rv n)) by assumption;
        rewrite ?(notin_remove rvref_eq_dec inact (Rv n)) by assumption.
      * split; [apply set_active_partpop, land_3_split; split; assumption|].
        repeat (split; [reflexivity|]).
        eexists. split; [eassumption|]. rewrite app_nil_r. reflexivity.
      * split; [apply set_active_partpop, clear_partpop_land|].
        repeat (split; [reflexivity|]).
        eexists. split; [eassumption|]. rewrite app_nil_r. reflexivity.
    + (* active before and after: two bumps *)
      eapply update_lru_bump_inv in Hup;
        [|apply put_rv_lookup, Hlen
         |cbn; rewrite VM_LEVEL_0_NPAGES_val; lia|cbn; lia|exact Ea].
      subst s1.
      apply depopulate_inv in Hd
        as (r1 & pm1 & Hr1 & _ & _ & _ & Hclear & _ & Hd).
      rewrite put_rv_lookup in Hr1 by (unfold put_rv; cbn; rewrite length_insert; exact Hlen).
      injection Hr1 as <-. rnorm.
      assert (pm1 = rv_popmap r) by congruence. subst pm1.
      rewrite VM_LEVEL_0_NPAGES_val in Hd.
      specialize (Hd ltac:(lia)). cbv zeta in Hd.
      replace (rv_popcnt r + 1 - 1) with (rv_popcnt r) in Hd by lia.
      rewrite u16_small in Hd by lia.
      eapply update_lru_bump_inv in Hd;
        [|apply put_rv_lookup; unfold put_rv; cbn; rewrite !length_insert; exact Hlen
         |cbn; rewrite VM_LEVEL_0_NPAGES_val; lia|cbn; lia|exact Ea].
      subst s2. rnorm.
      destruct s as [arr mk act inact objs ps locks fm br fr rc tr].
      unfold put_rv. unfold_state. lnorm.
      eexists. split; [reflexivity|]. rnorm.
      repeat (split; [reflexivity|]).
      left.
      repeat (split;
        [first [assumption | reflexivity | lia
               | intros; apply bump_actcnt_twice; assumption]|]).
      reflexivity.
Qed.

(** ** The size hint after vm_reserv_break *)

(** C3. The equivalence popcnt = N <-> (size hint large and on no LRU
    queue) is not preserved by vm_reserv_break_all.  From the state after
    boot, vm_reserv_alloc_contig of 512 pages for object 0 populates
    reservation 0 fully: popcnt = N, size hint 1, on no queue.
    vm_reserv_break_all(object 0) then succeeds and leaves reservation 0
    with popcnt = 0 and on no queue, but the size hint of its first page
    still 1: vm_reserv_break resets popmap and popcnt and never stores to
    psind.  When the frame is handed out again, vm_reserv_alloc_page binds
    the reservation and vm_reserv_populate fails its own assertion that
    the size hint is 0. *)
Theorem break_all_leaves_size_hint_large :
  vm_reserv_alloc_contig 0 0 512 0 (2 ^ 40) 1 0 None (Some 0) s_init
    = Ok (Some 0, s_full) /\
  (exists r, vm_reserv_array s_full !! 0%nat = Some r /\
     rv_popcnt r = VM_LEVEL_0_NPAGES /\ rv_pages r = Some 0 /\
     load_psind 0 s_full = Ok (1, s_full) /\
     on_lru (Rv 0) s_full = false) /\
  vm_reserv_break_all 0 s_full = Ok (tt, s_full_broken) /\
  (exists r, vm_reserv_array s_full_broken !! 0%nat = Some r /\
     rv_popcnt r = 0 /\ rv_object r = None /\ rv_pages r = Some 0 /\
     load_psind 0 s_full_broken = Ok (1, s_full_broken) /\
     on_lru (Rv 0) s_full_broken = false) /\
  psind_writes s_full_broken = [EvStorePsind 0 1] /\
  vm_reserv_alloc_page 1 0 None (Some 0) s_full_broken = Err EPanic.
Proof.
  apply conj; [vm_compute; reflexivity|].
  apply conj; [eexists; repeat apply conj; vm_compute; reflexivity|].
  apply conj; [vm_compute; reflexivity|].
  apply conj; [eexists; repeat apply conj; vm_compute; reflexivity|].
  apply conj; vm_compute; reflexivity.
Qed.

(** ** The scan marker *)

(** Once the marker is off the active queue, inserting it before itself
    has no list element to go by. *)
Lemma marker_before_itself s :
  (TAILQ_REMOVE Active Marker ;; TAILQ_INSERT_BEFORE Marker Marker)%kern s
  = Err EQueue.
Proof.
  unfold bind, TAILQ_REMOVE.
  destruct (inb Marker (lru Active s)); [|reflexivity].
  unfold TAILQ_INSERT_BEFORE.
  destruct (on_lru Marker _) eqn:E; [reflexivity|].
  apply orb_false_elim in E as [-> ->]. reflexivity.
Qed.

(** C8. vm_reserv_scan does not always re-insert the marker.  When the
    sweep stops on the marker itself (target has reached 0 as the marker
    comes up), the code removes the marker from the active queue and then
    inserts it before rv = marker, an entry that is no longer on the
    queue.  This happens for target = 0 right after boot, where the marker
    is alone on the queue, and for target = 1 in a state reached by the
    public operations, where the marker is the last entry and the one
    entry before it is deactivated by the sweep. *)
Theorem scan_stops_on_marker :
  vm_rvlru_active s_init = [Marker] /\
  vm_reserv_scan 0 s_init = Err EQueue /\
  vm_reserv_alloc_contig 0 0 2 0 (2 ^ 40) 1 0 None (Some 0) s_init
    = Ok (Some 0, exec (vm_reserv_alloc_contig 0 0 2 0 (2 ^ 40) 1 0 None
                          (Some 0)) s_init) /\
  vm_reserv_alloc_page 1 0 None (Some VM_LEVEL_0_SIZE)
    (exec (vm_reserv_alloc_contig 0 0 2 0 (2 ^ 40) 1 0 None (Some 0)) s_init)
    = Ok (Some VM_LEVEL_0_SIZE,
          exec (vm_reserv_alloc_page 1 0 None (Some VM_LEVEL_0_SIZE))
            (exec (vm_reserv_alloc_contig 0 0 2 0 (2 ^ 40) 1 0 None (Some 0))
               s_init)) /\
  vm_reserv_alloc_page 2 0 None (Some (2 * VM_LEVEL_0_SIZE))
    (exec (vm_reserv_alloc_page 1 0 None (Some VM_LEVEL_0_SIZE))
       (exec (vm_reserv_alloc_contig 0 0 2 0 (2 ^ 40) 1 0 None (Some 0))
          s_init))
    = Ok (Some (2 * VM_LEVEL_0_SIZE), s_three) /\
  vm_rvlru_active s_three = [Marker; Rv 0; Rv 1; Rv 2] /\
  vm_reserv_scan 1 s_three = Ok (tt, exec (vm_reserv_scan 1) s_three) /\
  vm_reserv_scan 1 (exec (vm_reserv_scan 1) s_three) = Ok (tt, s_swept) /\
  vm_rvlru_active s_swept = [Rv 0; Marker; Rv 2] /\
  vm_rvlru_inactive s_swept = [Rv 1] /\
  vm_reserv_free_page (mk_vm_page (2 * VM_LEVEL_0_SIZE) (Some 2%nat) 0)
    s_swept = Ok (true, s_marker_last) /\
  vm_rvlru_active s_marker_last = [Rv 0; Marker] /\
  (exists r, vm_reserv_array s_marker_last !! 0%nat = Some r /\
     rv_actcnt r = 1) /\
  vm_reserv_scan 1 s_marker_last = Err EQueue.
Proof.
  do 12 (apply conj; [vm_compute; reflexivity|]).
  apply conj; [eexists; apply conj; vm_compute; reflexivity|].
  vm_compute; reflexivity.
Qed.
(** ** Counting bits and runs of clear bits *)

Lemma count_bits_ext f g lo n :
  (forall k, lo <= k < lo + Z.of_nat n -> f k = g k) ->
  count_bits f lo n = count_bits g lo n.
Proof.
  revert lo. induction n as [|n IH]; intros lo H; [reflexivity|].
  cbn [count_bits]. rewrite (H lo) by lia. f_equal. apply IH.
  intros k Hk. apply H. lia.
Qed.

Lemma count_bits_bounds f lo n : 0 <= count_bits f lo n <= Z.of_nat n.
Proof.
  revert lo. induction n as [|n IH]; intros lo; cbn [count_bits]; [lia|].
  specialize (IH (lo + 1)). destruct (f lo); lia.
Qed.

Lemma count_from_bounds f p :
  p <= VM_LEVEL_0_NPAGES -> 0 <= count_from f p <= VM_LEVEL_0_NPAGES - p.
Proof.
  intros H. unfold count_from.
  pose proof (count_bits_bounds f p (Z.to_nat (VM_LEVEL_0_NPAGES - p))). lia.
Qed.

Lemma count_from_step f p :
  p < VM_LEVEL_0_NPAGES ->
  count_from f p = (if f p then 1 else 0) + count_from f (p + 1).
Proof.
  intros H. unfold count_from.
  replace (Z.to_nat (VM_LEVEL_0_NPAGES - p))
    with (S (Z.to_nat (VM_LEVEL_0_NPAGES - (p + 1)))) by lia.
  reflexivity.
Qed.

Lemma count_from_ext f g p :
  (forall k, p <= k < VM_LEVEL_0_NPAGES -> f k = g k) ->
  count_from f p = count_from g p.
Proof.
  intros H. apply count_bits_ext. intros k Hk. apply H. lia.
Qed.

(** Induction from p up to q. *)
Lemma upto_ind (P : Z -> Prop) q :
  P q -> (forall p, p < q -> P (p + 1) -> P p) -> forall p, p <= q -> P p.
Proof.
  intros Hq Hstep p Hp.
  remember (Z.to_nat (q - p)) as d eqn:Hd. revert p Hp Hd.
  induction d as [|d IH]; intros p Hp Hd.
  - replace p with q by lia. exact Hq.
  - apply Hstep; [lia|]. apply IH; lia.
Qed.

Lemma count_from_ones f p q :
  p <= q <= VM_LEVEL_0_NPAGES ->
  (forall k, p <= k < q -> f k = true) ->
  count_from f p = (q - p) + count_from f q.
Proof.
  intros [Hpq Hq]. revert p Hpq.
  apply (upto_ind (fun p => (forall k, p <= k < q -> f k = true) ->
                            count_from f p = q - p + count_from f q)).
  - intros _. lia.
  - intros p Hp IH H. rewrite count_from_step by lia.
    rewrite (H p) by lia. rewrite IH by (intros; apply H; lia). lia.
Qed.

Lemma count_from_zeros f p q :
  p <= q <= VM_LEVEL_0_NPAGES ->
  (forall k, p <= k < q -> f k = false) ->
  count_from f p = count_from f q.
Proof.
  intros [Hpq Hq]. revert p Hpq.
  apply (upto_ind (fun p => (forall k, p <= k < q -> f k = false) ->
                            count_from f p = count_from f q)).
  - intros _. reflexivity.
  - intros p Hp IH H. rewrite count_from_step by lia.
    rewrite (H p) by lia. rewrite IH by (intros; apply H; lia). lia.
Qed.

Lemma count_from_end f : count_from f VM_LEVEL_0_NPAGES = 0.
Proof. reflexivity. Qed.

Lemma zero_runs_ext f g lo n cur :
  (forall k, lo <= k < lo + Z.of_nat n -> f k = g k) ->
  zero_runs f lo n cur = zero_runs g lo n cur.
Proof.
  revert lo cur. induction n as [|n IH]; intros lo cur H; [reflexivity|].
  cbn [zero_runs]. rewrite (H lo) by lia.
  destruct (g lo); [f_equal|]; apply IH; intros k Hk; apply H; lia.
Qed.

Lemma runs_from_ext f g p cur :
  (forall k, p <= k < VM_LEVEL_0_NPAGES -> f k = g k) ->
  runs_from f p cur = runs_from g p cur.
Proof.
  intros H. apply zero_runs_ext. intros k Hk. apply H. lia.
Qed.

Lemma runs_from_step f p cur :
  p < VM_LEVEL_0_NPAGES ->
  runs_from f p cur =
    if f p then
      match cur with Some b => [(b, p - b)] | None => [] end
      ++ runs_from f (p + 1) None
    else runs_from f (p + 1)
           (Some (match cur with Some b => b | None => p end)).
Proof.
  intros H. unfold runs_from.
  replace (Z.to_nat (VM_LEVEL_0_NPAGES - p))
    with (S (Z.to_nat (VM_LEVEL_0_NPAGES - (p + 1)))) by lia.
  reflexivity.
Qed.

Lemma runs_from_end f cur :
  runs_from f VM_LEVEL_0_NPAGES cur =
    match cur with
    | Some b => [(b, VM_LEVEL_0_NPAGES - b)]
    | None => []
    end.
Proof. reflexivity. Qed.

(** Set bits outside a run are skipped. *)
Lemma runs_from_ones f p q :
  p <= q <= VM_LEVEL_0_NPAGES ->
  (forall k, p <= k < q -> f k = true) ->
  runs_from f p None = runs_from f q None.
Proof.
  intros [Hpq Hq]. revert p Hpq.
  apply (upto_ind (fun p => (forall k, p <= k < q -> f k = true) ->
                            runs_from f p None = runs_from f q None)).
  - intros _. reflexivity.
  - intros p Hp IH H. rewrite runs_from_step by lia.
    rewrite (H p) by lia. apply IH. intros; apply H; lia.
Qed.

(** Clear bits extend the open run. *)
Lemma runs_from_zeros f p q b :
  p <= q <= VM_LEVEL_0_NPAGES ->
  (forall k, p <= k < q -> f k = false) ->
  runs_from f p (Some b) = runs_from f q (Some b).
Proof.
  intros [Hpq Hq]. revert p Hpq.
  apply (upto_ind (fun p => (forall k, p <= k < q -> f k = false) ->
                     runs_from f p (Some b) = runs_from f q (Some b))).
  - intros _. reflexivity.
  - intros p Hp IH H. rewrite runs_from_step by lia.
    rewrite (H p) by lia. apply IH. intros; apply H; lia.
Qed.

(** A run of clear bits from q up to h, where h is set or the end. *)
Lemma runs_from_run f q h :
  q < h <= VM_LEVEL_0_NPAGES ->
  (forall k, q <= k < h -> f k = false) ->
  (h < VM_LEVEL_0_NPAGES -> f h = true) ->
  runs_from f q None = (q, h - q) :: runs_from f h None.
Proof.
  intros [Hqh Hh] Hz Hone.
  rewrite runs_from_step by lia. rewrite (Hz q) by lia.
  rewrite (runs_from_zeros f (q + 1) h q) by (try lia; intros; apply Hz; lia).
  destruct (Z.eq_dec h VM_LEVEL_0_NPAGES) as [->|Hne].
  - reflexivity.
  - rewrite runs_from_step by lia. rewrite Hone by lia.
    cbn [app]. f_equal.
    rewrite (runs_from_step f h None) by lia. rewrite Hone by lia.
    reflexivity.
Qed.
(** ** ffsl and the words of the population map *)

Lemma ffs_from_spec x n k :
  (ffs_from x k n = 0 /\
   forall j, k <= j < k + Z.of_nat n -> Z.testbit x j = false) \/
  (exists j, k <= j < k + Z.of_nat n /\ ffs_from x k n = j + 1 /\
     Z.testbit x j = true /\
     forall j', k <= j' < j -> Z.testbit x j' = false).
Proof.
  revert k. induction n as [|n IH]; intros k; cbn [ffs_from].
  - left. split; [reflexivity|]. intros j Hj. lia.
  - destruct (Z.testbit x k) eqn:E.
    + right. exists k. repeat split; try lia. exact E.
    + destruct (IH (k + 1)) as [[H0 Hall]|(j & Hj & Hv & Hb & Hlow)].
      * left. split; [exact H0|]. intros j Hj.
        destruct (Z.eq_dec j k) as [->|]; [exact E|apply Hall; lia].
      * right. exists j. repeat split; try lia; try assumption.
        intros j' Hj'.
        destruct (Z.eq_dec j' k) as [->|]; [exact E|apply Hlow; lia].
Qed.

Lemma ffsl_spec x :
  (ffsl x = 0 /\ forall j, 0 <= j < 64 -> Z.testbit x j = false) \/
  (exists j, 0 <= j < 64 /\ ffsl x = j + 1 /\ Z.testbit x j = true /\
     forall j', 0 <= j' < j -> Z.testbit x j' = false).
Proof. apply (ffs_from_spec x 64 0). Qed.

(** (1UL << h) - 1 has exactly the bits below h. *)
Lemma mask_testbit h k : 0 <= h < 64 -> 0 <= k ->
  Z.testbit (u64 (u64 (Z.shiftl 1 h) - 1)) k = (k <? h).
Proof.
  intros Hh Hk.
  assert (Hp : 0 < 2 ^ h < 2 ^ 64)
    by (split; [apply Z.pow_pos_nonneg; lia
               |apply Z.pow_lt_mono_r; lia]).
  rewrite Z.shiftl_1_l. unfold u64 at 2. rewrite Z.mod_small by lia.
  replace (2 ^ h - 1) with (Z.ones h) by (rewrite Z.ones_equiv; lia).
  rewrite u64_testbit, Z.testbit_ones_nonneg by lia.
  destruct (k <? 64) eqn:E1, (k <? h) eqn:E2; zbool; try reflexivity; lia.
Qed.

Lemma u64_range x : 0 <= u64 x < 2 ^ 64.
Proof. unfold u64. apply Z.mod_pos_bound. lia. Qed.

Lemma land_range a b : 0 <= a < 2 ^ 64 -> 0 <= b -> 0 <= Z.land a b < 2 ^ 64.
Proof.
  intros Ha Hb. split; [apply Z.land_nonneg; lia|].
  destruct (Z.eq_dec (Z.land a b) 0) as [->|Hne]; [lia|].
  assert (0 <= Z.land a b) by (apply Z.land_nonneg; lia).
  apply Z.log2_lt_pow2; [lia|].
  destruct (Z.eq_dec a 0) as [->|Ha0]; [rewrite Z.land_0_l in Hne; lia|].
  assert (Z.log2 a < 64) by (apply Z.log2_lt_pow2; lia).
  pose proof (Z.log2_land a b ltac:(lia) Hb). lia.
Qed.

Lemma word_zero w :
  0 <= w < 2 ^ 64 -> (forall b, 0 <= b < 64 -> Z.testbit w b = false) ->
  w = 0.
Proof.
  intros Hw H. apply Z.bits_inj'. intros n Hn. rewrite Z.bits_0.
  destruct (Z.lt_ge_cases n 64); [apply H; lia|].
  apply word_testbit_high; assumption.
Qed.

Lemma popmap_typed_lookup popmap i :
  popmap_typed popmap -> 0 <= i < NPOPMAP ->
  exists w, popmap_word popmap i = Some w /\ 0 <= w < 2 ^ 64.
Proof.
  intros Ht Hi.
  destruct (popmap !! Z.to_nat i) as [w|] eqn:E.
  - exists w. assert (Hw : popmap_word popmap i = Some w)
      by (apply popmap_word_Some; auto).
    split; [exact Hw|]. eapply popmap_typed_word; eassumption.
  - apply lookup_ge_None in E. destruct Ht as [Hlen _].
    rewrite NPOPMAP_val in *. lia.
Qed.

Lemma popmap_store_typed popmap i w :
  popmap_typed popmap -> 0 <= w < 2 ^ 64 ->
  popmap_typed (popmap_store popmap i w).
Proof.
  intros [Hlen Hall] Hw. unfold popmap_store. split.
  - rewrite length_insert. exact Hlen.
  - apply Forall_insert; assumption.
Qed.

Lemma popmap_store_word popmap i w j :
  popmap_typed popmap -> 0 <= i < NPOPMAP -> 0 <= j ->
  popmap_word (popmap_store popmap i w) j =
    if j =? i then Some w else popmap_word popmap j.
Proof.
  intros [Hlen _] Hi Hj. unfold popmap_word, popmap_store.
  destruct (j =? i) eqn:E; zbool.
  - subst j. destruct (0 <=? i) eqn:E1, (i <? NPOPMAP) eqn:E2; zbool;
      try lia. cbn. apply list_lookup_insert_eq.
    rewrite NPOPMAP_val in *. lia.
  - destruct ((0 <=? j) && (j <? NPOPMAP)); [|reflexivity].
    apply list_lookup_insert_ne. lia.
Qed.

(** Bit b of word i is bit 64 i + b of the map. *)
Lemma popmap_bit_word popmap i b w :
  popmap_word popmap i = Some w -> 0 <= b < 64 ->
  popmap_bit popmap (64 * i + b) = Z.testbit w b.
Proof.
  intros Hw Hb. unfold popmap_bit. rewrite NBPOPMAP_val.
  replace ((64 * i + b) / 64) with i
    by (apply Z.div_unique with b; lia).
  replace ((64 * i + b) mod 64) with b
    by (apply Z.mod_unique with i; lia).
  rewrite Hw. reflexivity.
Qed.

Lemma popmap_bit_outside popmap k :
  ~ 0 <= k < VM_LEVEL_0_NPAGES -> popmap_bit popmap k = false.
Proof.
  intros H. unfold popmap_bit.
  destruct (popmap_word popmap (k / NBPOPMAP)) as [w|] eqn:E;
    [|reflexivity].
  apply index_in_range in E. contradiction.
Qed.

(** A position of the map as word index and bit number. *)
Lemma position_split k :
  0 <= k < VM_LEVEL_0_NPAGES ->
  exists i b, k = 64 * i + b /\ 0 <= i < NPOPMAP /\ 0 <= b < 64.
Proof.
  intros Hk. exists (k / 64), (k mod 64).
  pose proof (index_split k Hk) as [H1 H2]. rewrite NBPOPMAP_val in *.
  split; [apply Z.div_mod; lia|]. split; assumption.
Qed.

(** The bits of the map after a store to word i. *)
Lemma popmap_store_bit popmap i w j b :
  popmap_typed popmap -> 0 <= i < NPOPMAP -> 0 <= j < NPOPMAP ->
  0 <= b < 64 ->
  popmap_bit (popmap_store popmap i w) (64 * j + b) =
    if j =? i then Z.testbit w b else popmap_bit popmap (64 * j + b).
Proof.
  intros Ht Hi Hj Hb.
  destruct (popmap_typed_lookup popmap j Ht Hj) as (wj & Hwj & _).
  rewrite (popmap_bit_word popmap j b wj Hwj Hb).
  pose proof (popmap_store_word popmap i w j Ht Hi ltac:(lia)) as Hs.
  destruct (j =? i) eqn:E.
  - apply popmap_bit_word; assumption.
  - rewrite Hwj in Hs. apply popmap_bit_word; assumption.
Qed.
(** ** The loops of vm_reserv_break *)

Lemma popmap_bit_in_word popmap i w k :
  popmap_word popmap i = Some w -> 64 * i <= k < 64 * i + 64 ->
  popmap_bit popmap k = Z.testbit w (k - 64 * i).
Proof.
  intros Hw Hk. replace k with (64 * i + (k - 64 * i)) at 1 by lia.
  apply popmap_bit_word; [exact Hw|lia].
Qed.

Lemma popmap_store_bits popmap i w k :
  popmap_typed popmap -> 0 <= i < NPOPMAP ->
  popmap_bit (popmap_store popmap i w) k =
    if (64 * i <=? k) && (k <? 64 * i + 64) then Z.testbit w (k - 64 * i)
    else popmap_bit popmap k.
Proof.
  intros Ht Hi.
  destruct (Z.lt_ge_cases k 0) as [Hneg|Hk0].
  { rewrite !popmap_bit_outside by lia.
    destruct (64 * i <=? k) eqn:E; zbool; [lia|reflexivity]. }
  destruct (Z.lt_ge_cases k VM_LEVEL_0_NPAGES) as [Hk|Hbig].
  - destruct (position_split k ltac:(lia)) as (j & b & -> & Hj & Hb).
    rewrite popmap_store_bit by assumption.
    destruct (j =? i) eqn:E; zbool.
    + subst j. replace (64 * i + b - 64 * i) with b by lia.
      destruct (64 * i <=? 64 * i + b) eqn:E1,
               (64 * i + b <? 64 * i + 64) eqn:E2; zbool; try lia.
      reflexivity.
    + destruct (64 * i <=? 64 * j + b) eqn:E1,
               (64 * j + b <? 64 * i + 64) eqn:E2; zbool; try reflexivity.
      lia.
  - rewrite !popmap_bit_outside by lia.
    rewrite NPOPMAP_val, VM_LEVEL_0_NPAGES_val in *.
    destruct (64 * i <=? k) eqn:E1, (k <? 64 * i + 64) eqn:E2; zbool;
      try reflexivity. lia.
Qed.

Lemma u16_id x : 0 <= x < 65536 -> u16 x = x.
Proof. intros H. unfold u16. apply Z.mod_small. exact H. Qed.

(** The inner while loop: words of ones are cleared up to the first word
    with a clear bit. *)
Lemma break_skip_full_spec fuel : forall i lo popmap popcnt,
  0 <= i < NPOPMAP ->
  (Z.to_nat (NPOPMAP - i) <= fuel)%nat ->
  popmap_typed popmap ->
  (forall k, k < 64 * (i + 1) -> popmap_bit popmap k = false) ->
  popcnt = count_from (popmap_bit popmap) (64 * (i + 1)) ->
  exists i' lo' pm' pc',
    break_skip_full fuel i lo popmap popcnt = Ok (i', lo', pm', pc') /\
    i < i' <= NPOPMAP /\
    popmap_typed pm' /\
    (forall k, k < 64 * i' -> popmap_bit pm' k = false) /\
    (forall k, 64 * i' <= k -> popmap_bit pm' k = popmap_bit popmap k) /\
    (forall k, 64 * (i + 1) <= k < 64 * i' -> popmap_bit popmap k = true) /\
    pc' = count_from (popmap_bit pm') (64 * i') /\
    (i' < NPOPMAP ->
     exists w l, popmap_word pm' i' = Some w /\ lo' = l + 1 /\
       0 <= l < 64 /\ Z.testbit w l = false /\
       forall b, 0 <= b < l -> Z.testbit w b = true).
Proof.
  induction fuel as [|fuel IH]; intros i lo pm pc Hi Hfuel Ht Hlow Hpc.
  { rewrite NPOPMAP_val in *. lia. }
  cbn [break_skip_full].
  destruct (i + 1 <? NPOPMAP) eqn:Ei; zbool.
  - destruct (popmap_typed_lookup pm (i + 1) Ht ltac:(lia))
      as (w & Hw & Hwr).
    rewrite Hw. cbn [res_of_option rbind].
    destruct (ffsl_spec (not64 w))
      as [[H0 Hall]|(l & Hl & Hv & Hbit & Hbelow)].
    + (* a word of ones *)
      rewrite H0. cbn [Z.eqb].
      assert (Hones : forall k, 64 * (i + 1) <= k < 64 * (i + 1) + 64 ->
                        popmap_bit pm k = true).
      { intros k Hk. rewrite (popmap_bit_in_word pm (i + 1) w k Hw Hk).
        specialize (Hall (k - 64 * (i + 1)) ltac:(lia)).
        rewrite not64_testbit in Hall by lia.
        destruct (k - 64 * (i + 1) <? 64) eqn:E; zbool; [|lia].
        cbn in Hall. apply negb_false_iff in Hall. exact Hall. }
      assert (Hstore : forall k,
                popmap_bit (popmap_store pm (i + 1) 0) k =
                if (64 * (i + 1) <=? k) && (k <? 64 * (i + 1) + 64)
                then false else popmap_bit pm k).
      { intros k. rewrite popmap_store_bits by (assumption || lia).
        rewrite Z.bits_0. reflexivity. }
      rewrite ?NPOPMAP_val, ?NBPOPMAP_val, ?VM_LEVEL_0_NPAGES_val in *.
      destruct (IH (i + 1) 0 (popmap_store pm (i + 1) 0) (u16 (pc - 64)))
        as (i' & lo' & pm' & pc' & Hrun & Hi' & Ht' & Hlow' & Hhigh'
            & Hones' & Hpc' & Hword').
      * lia.
      * lia.
      * apply popmap_store_typed; [assumption|lia].
      * intros k Hk. rewrite Hstore.
        destruct (64 * (i + 1) <=? k) eqn:E1,
                 (k <? 64 * (i + 1) + 64) eqn:E2; zbool;
          try reflexivity; try lia.
        all: apply Hlow; lia.
      * rewrite (count_from_ext _ (popmap_bit pm) (64 * (i + 1 + 1))).
        2:{ intros k Hk. rewrite Hstore.
            destruct (64 * (i + 1) <=? k) eqn:E1,
                     (k <? 64 * (i + 1) + 64) eqn:E2; zbool;
              try reflexivity; lia. }
        rewrite (count_from_ones _ (64 * (i + 1)) (64 * (i + 1 + 1))) in Hpc.
        2:{ rewrite VM_LEVEL_0_NPAGES_val. lia. }
        2:{ intros k Hk. apply Hones. lia. }
        pose proof (count_from_bounds (popmap_bit pm) (64 * (i + 1 + 1))
                      ltac:(rewrite VM_LEVEL_0_NPAGES_val; lia)).
        rewrite VM_LEVEL_0_NPAGES_val in *.
        rewrite u16_id by lia. lia.
      * exists i', lo', pm', pc'. split; [exact Hrun|].
        split; [lia|]. split; [exact Ht'|]. split; [exact Hlow'|].
        split.
        { intros k Hk. rewrite Hhigh' by exact Hk. rewrite Hstore.
          destruct (64 * (i + 1) <=? k) eqn:E1,
                   (k <? 64 * (i + 1) + 64) eqn:E2; zbool;
            try reflexivity; lia. }
        split.
        { intros k Hk.
          destruct (Z.lt_ge_cases k (64 * (i + 1) + 64)) as [Hin|Hout].
          - apply Hones. lia.
          - rewrite <- (Hones' k) by lia. rewrite Hstore.
            destruct (64 * (i + 1) <=? k) eqn:E1,
                     (k <? 64 * (i + 1) + 64) eqn:E2; zbool;
              try reflexivity; lia. }
        split; [exact Hpc'|exact Hword'].
    + (* a word with a clear bit *)
      rewrite Hv. replace (l + 1 =? 0) with false by (symmetry; apply Z.eqb_neq; lia).
      exists (i + 1), (l + 1), pm, pc.
      split; [reflexivity|]. split; [lia|]. split; [exact Ht|].
      split; [exact Hlow|]. split; [reflexivity|].
      split; [intros k Hk; lia|]. split; [exact Hpc|].
      intros _. exists w, l. split; [exact Hw|]. split; [reflexivity|].
      split; [exact Hl|].
      rewrite not64_testbit in Hbit by lia.
      apply andb_true_iff in Hbit as [_ Hbit]. apply negb_true_iff in Hbit.
      split; [exact Hbit|].
      intros b Hb. specialize (Hbelow b Hb).
      rewrite not64_testbit in Hbelow by lia.
      destruct (b <? 64) eqn:E; zbool; [|lia].
      cbn in Hbelow. apply negb_false_iff in Hbelow. exact Hbelow.
  - (* the end of the map *)
    exists (i + 1), lo, pm, pc.
    split; [reflexivity|]. split; [lia|]. split; [exact Ht|].
    split; [exact Hlow|]. split; [reflexivity|].
    split; [intros k Hk; lia|]. split; [exact Hpc|]. intros; lia.
Qed.

(** The inner do-while loop: the first set bit at or after word i. *)
Lemma break_find_one_spec fuel : forall i popmap,
  0 <= i < NPOPMAP ->
  (Z.to_nat (NPOPMAP - i) <= fuel)%nat ->
  popmap_typed popmap ->
  exists i2 hr,
    break_find_one fuel i popmap = Ok (i2, hr) /\
    i <= i2 <= NPOPMAP /\
    (forall k, 64 * i <= k < 64 * i2 -> popmap_bit popmap k = false) /\
    (i2 = NPOPMAP -> hr = 0) /\
    (i2 < NPOPMAP ->
     exists h, hr = h + 1 /\ 0 <= h < 64 /\
       popmap_bit popmap (64 * i2 + h) = true /\
       forall k, 64 * i2 <= k < 64 * i2 + h -> popmap_bit popmap k = false).
Proof.
  induction fuel as [|fuel IH]; intros i pm Hi Hfuel Ht.
  { rewrite NPOPMAP_val in *. lia. }
  cbn [break_find_one].
  destruct (popmap_typed_lookup pm i Ht Hi) as (w & Hw & Hwr).
  rewrite Hw. cbn [res_of_option rbind].
  destruct (ffsl_spec w) as [[H0 Hall]|(h & Hh & Hv & Hbit & Hbelow)].
  - rewrite H0. cbn [Z.eqb].
    assert (Hzeros : forall k, 64 * i <= k < 64 * i + 64 ->
                       popmap_bit pm k = false).
    { intros k Hk. rewrite (popmap_bit_in_word pm i w k Hw Hk).
      apply Hall. lia. }
    destruct (i + 1 <? NPOPMAP) eqn:Ei; zbool.
    + destruct (IH (i + 1) pm ltac:(lia) ltac:(rewrite NPOPMAP_val in *; lia)
                  Ht)
        as (i2 & hr & Hrun & Hi2 & Hz & Hend & Hone).
      exists i2, hr. split; [exact Hrun|]. split; [lia|].
      split; [|split; assumption].
      intros k Hk.
      destruct (Z.lt_ge_cases k (64 * i + 64)); [apply Hzeros|apply Hz]; lia.
    + exists (i + 1), 0. split; [reflexivity|]. split; [lia|].
      split; [intros k Hk; apply Hzeros; lia|].
      split; [reflexivity|]. intros; lia.
  - rewrite Hv.
    replace (h + 1 =? 0) with false by (symmetry; apply Z.eqb_neq; lia).
    exists i, (h + 1). split; [reflexivity|]. split; [lia|].
    split; [intros k Hk; lia|]. split; [rewrite NPOPMAP_val in *; lia|].
    intros _. exists h. split; [reflexivity|]. split; [exact Hh|].
    split.
    + rewrite (popmap_bit_word pm i h w Hw Hh). exact Hbit.
    + intros k Hk. rewrite (popmap_bit_in_word pm i w k Hw ltac:(lia)).
      apply Hbelow. lia.
Qed.

(** Clearing the bits below lo in word i. *)
Lemma break_clear_low_spec i l hi popmap popcnt :
  0 <= i < NPOPMAP -> 0 <= hi <= l -> l < 64 ->
  popmap_typed popmap ->
  (forall k, k < 64 * i + hi -> popmap_bit popmap k = false) ->
  (forall k, 64 * i + hi <= k < 64 * i + l -> popmap_bit popmap k = true) ->
  popcnt = count_from (popmap_bit popmap) (64 * i + hi) ->
  exists pm2 pc2,
    break_clear_low i l hi popmap popcnt = Ok (pm2, pc2) /\
    popmap_typed pm2 /\
    (forall k, k < 64 * i + l -> popmap_bit pm2 k = false) /\
    (forall k, 64 * i + l <= k -> popmap_bit pm2 k = popmap_bit popmap k) /\
    pc2 = count_from (popmap_bit pm2) (64 * i + l).
Proof.
  intros Hi Hhi Hl Ht Hlow Hones Hpc. unfold break_clear_low.
  destruct (0 <? l) eqn:El; zbool.
  - destruct (popmap_typed_lookup popmap i Ht Hi) as (w & Hw & Hwr).
    rewrite Hw. cbn [res_of_option rbind].
    set (w' := Z.land w (not64 (u64 (u64 (Z.shiftl 1 l) - 1)))).
    assert (Hstore : forall k,
              popmap_bit (popmap_store popmap i w') k =
              (64 * i + l <=? k) && popmap_bit popmap k).
    { intros k. rewrite popmap_store_bits by assumption.
      destruct (64 * i <=? k) eqn:E1, (k <? 64 * i + 64) eqn:E2; zbool;
        cbn [andb].
      - unfold w'. rewrite Z.land_spec, not64_testbit, mask_testbit by lia.
        rewrite (popmap_bit_in_word popmap i w k Hw) by lia.
        destruct (k - 64 * i <? 64) eqn:E3, (k - 64 * i <? l) eqn:E4,
                 (64 * i + l <=? k) eqn:E5; zbool; try lia;
          cbn; rewrite ?andb_true_r, ?andb_false_r; reflexivity.
      - destruct (64 * i + l <=? k) eqn:E5; zbool; [reflexivity|lia].
      - destruct (64 * i + l <=? k) eqn:E5; zbool; [lia|].
        cbn. apply Hlow. lia.
      - lia. }
    eexists _, _. split; [reflexivity|].
    split.
    { apply popmap_store_typed; [assumption|].
      apply land_range; [assumption|]. apply u64_range. }
    split.
    { intros k Hk. rewrite Hstore.
      destruct (64 * i + l <=? k) eqn:E; zbool; [lia|reflexivity]. }
    split.
    { intros k Hk. rewrite Hstore.
      destruct (64 * i + l <=? k) eqn:E; zbool; [reflexivity|lia]. }
    rewrite (count_from_ext _ (popmap_bit popmap) (64 * i + l)).
    2:{ intros k Hk. rewrite Hstore.
        destruct (64 * i + l <=? k) eqn:E; zbool; [reflexivity|lia]. }
    rewrite NPOPMAP_val in *.
    rewrite (count_from_ones _ (64 * i + hi) (64 * i + l)) in Hpc
      by (rewrite ?VM_LEVEL_0_NPAGES_val; (lia || assumption)).
    pose proof (count_from_bounds (popmap_bit popmap) (64 * i + l)
                  ltac:(rewrite VM_LEVEL_0_NPAGES_val; lia)).
    rewrite VM_LEVEL_0_NPAGES_val in *.
    rewrite u16_id by lia. lia.
  - assert (l = 0) by lia. subst l. assert (hi = 0) by lia. subst hi.
    exists popmap, popcnt. split; [reflexivity|]. split; [exact Ht|].
    split; [exact Hlow|]. split; [reflexivity|]. exact Hpc.
Qed.

(** The search for the next clear bit at or after position 64 i + hi. *)
Lemma break_find_zero_spec i hi popmap popcnt :
  0 <= i < NPOPMAP -> 0 <= hi < 64 ->
  popmap_typed popmap ->
  (forall k, k < 64 * i + hi -> popmap_bit popmap k = false) ->
  popcnt = count_from (popmap_bit popmap) (64 * i + hi) ->
  exists i1 lo1 hi1 pm1 pc1 brk,
    break_find_zero i hi popmap popcnt = Ok (i1, lo1, hi1, pm1, pc1, brk) /\
    popmap_typed pm1 /\
    (brk = true ->
     (forall k, popmap_bit pm1 k = false) /\ pc1 = 0 /\
     forall k, 64 * i + hi <= k < VM_LEVEL_0_NPAGES ->
       popmap_bit popmap k = true) /\
    (brk = false ->
     exists l, lo1 = l + 1 /\ 0 <= i1 < NPOPMAP /\ 0 <= hi1 <= l /\ l < 64 /\
       64 * i + hi <= 64 * i1 + hi1 /\
       (forall k, k < 64 * i1 + hi1 -> popmap_bit pm1 k = false) /\
       (forall k, 64 * i1 + hi1 <= k ->
          popmap_bit pm1 k = popmap_bit popmap k) /\
       (forall k, 64 * i + hi <= k < 64 * i1 + l ->
          popmap_bit popmap k = true) /\
       popmap_bit popmap (64 * i1 + l) = false /\
       pc1 = count_from (popmap_bit pm1) (64 * i1 + hi1)).
Proof.
  intros Hi Hhi Ht Hlow Hpc. unfold break_find_zero.
  destruct (popmap_typed_lookup popmap i Ht Hi) as (w & Hw & Hwr).
  rewrite Hw. cbn [res_of_option rbind].
  assert (Hx : forall b, 0 <= b < 64 ->
            Z.testbit (not64 (Z.lor (u64 (u64 (Z.shiftl 1 hi) - 1)) w)) b
            = (hi <=? b) && negb (Z.testbit w b)).
  { intros b Hb. rewrite not64_testbit, Z.lor_spec, mask_testbit by lia.
    destruct (b <? 64) eqn:E1, (b <? hi) eqn:E2, (hi <=? b) eqn:E3; zbool;
      try lia; reflexivity. }
  destruct (ffsl_spec (not64 (Z.lor (u64 (u64 (Z.shiftl 1 hi) - 1)) w)))
    as [[H0 Hall]|(l & Hl & Hv & Hbit & Hbelow)].
  - (* no clear bit left in word i *)
    rewrite H0. cbn [Z.eqb].
    assert (Hones : forall k, 64 * i + hi <= k < 64 * i + 64 ->
                      popmap_bit popmap k = true).
    { intros k Hk. rewrite (popmap_bit_in_word popmap i w k Hw) by lia.
      specialize (Hall (k - 64 * i) ltac:(lia)).
      rewrite Hx in Hall by lia.
      destruct (hi <=? k - 64 * i) eqn:E; zbool; [|lia].
      cbn in Hall. apply negb_false_iff in Hall. exact Hall. }
    assert (Hstore : forall k,
              popmap_bit (popmap_store popmap i 0) k =
              if (64 * i <=? k) && (k <? 64 * i + 64)
              then false else popmap_bit popmap k).
    { intros k. rewrite popmap_store_bits by assumption.
      rewrite Z.bits_0. reflexivity. }
    destruct (break_skip_full_spec (Z.to_nat NPOPMAP) i 0
                (popmap_store popmap i 0)
                (u16 (popcnt - (NBPOPMAP - hi))))
      as (i' & lo' & pm' & pc' & Hrun & Hi' & Ht' & Hlow' & Hhigh'
          & Hones' & Hpc' & Hword').
    + exact Hi.
    + rewrite NPOPMAP_val in *. lia.
    + apply popmap_store_typed; [assumption|lia].
    + intros k Hk. rewrite Hstore.
      destruct (64 * i <=? k) eqn:E1, (k <? 64 * i + 64) eqn:E2; zbool;
        try reflexivity; try lia.
      all: apply Hlow; lia.
    + rewrite (count_from_ext _ (popmap_bit popmap) (64 * (i + 1))).
      2:{ intros k Hk. rewrite Hstore.
          destruct (64 * i <=? k) eqn:E1, (k <? 64 * i + 64) eqn:E2; zbool;
            try reflexivity; lia. }
      rewrite NPOPMAP_val, NBPOPMAP_val in *.
      rewrite (count_from_ones _ (64 * i + hi) (64 * (i + 1))) in Hpc.
      2:{ rewrite VM_LEVEL_0_NPAGES_val. lia. }
      2:{ intros k Hk. apply Hones. lia. }
      pose proof (count_from_bounds (popmap_bit popmap) (64 * (i + 1))
                    ltac:(rewrite VM_LEVEL_0_NPAGES_val; lia)).
      rewrite VM_LEVEL_0_NPAGES_val in *.
      rewrite u16_id by lia. lia.
    + rewrite Hrun. cbn [rbind].
      exists i', lo', 0, pm', pc', (i' =? NPOPMAP).
      split; [reflexivity|]. split; [exact Ht'|].
      assert (Hsame : forall k, 64 * (i + 1) <= k ->
                popmap_bit (popmap_store popmap i 0) k = popmap_bit popmap k).
      { intros k Hk. rewrite Hstore.
        destruct (64 * i <=? k) eqn:E1, (k <? 64 * i + 64) eqn:E2; zbool;
          try reflexivity; lia. }
      assert (Hones2 : forall k, 64 * i + hi <= k < 64 * i' ->
                popmap_bit popmap k = true).
      { intros k Hk.
        destruct (Z.lt_ge_cases k (64 * i + 64)) as [Hin|Hout].
        - apply Hones. lia.
        - rewrite <- Hsame by lia. apply Hones'. lia. }
      split.
      * intros Hb. zbool. subst i'.
        rewrite NPOPMAP_val, ?VM_LEVEL_0_NPAGES_val in *.
        split; [|split].
        -- intros k. destruct (Z.lt_ge_cases k (64 * 8)) as [Hin|Hout].
           ++ apply Hlow'. exact Hin.
           ++ apply popmap_bit_outside. rewrite VM_LEVEL_0_NPAGES_val. lia.
        -- rewrite Hpc'. reflexivity.
        -- intros k Hk. apply Hones2. lia.
      * intros Hb. zbool.
        destruct (Hword' ltac:(lia)) as (w' & l & Hw' & -> & Hl & Hbit & Hbelow).
        exists l. split; [reflexivity|].
        rewrite NPOPMAP_val in *.
        split; [lia|]. split; [lia|]. split; [lia|]. split; [lia|].
        replace (64 * i' + 0) with (64 * i') by lia.
        split; [exact Hlow'|].
        split; [intros k Hk; rewrite Hhigh' by lia; apply Hsame; lia|].
        split.
        { intros k Hk.
          destruct (Z.lt_ge_cases k (64 * i')) as [Hin|Hout].
          - apply Hones2. lia.
          - rewrite <- Hsame by lia. rewrite <- Hhigh' by lia.
            rewrite (popmap_bit_in_word pm' i' w' k Hw') by lia.
            apply Hbelow. lia. }
        split; [|exact Hpc'].
        rewrite <- Hsame by lia. rewrite <- Hhigh' by lia.
        rewrite (popmap_bit_word pm' i' l w' Hw' Hl). exact Hbit.
  - (* a clear bit in word i *)
    rewrite Hv.
    replace (l + 1 =? 0) with false by (symmetry; apply Z.eqb_neq; lia).
    rewrite Hx in Hbit by lia.
    apply andb_true_iff in Hbit as [Hge Hbit]. zbool.
    exists i, (l + 1), hi, popmap, popcnt, false.
    split; [reflexivity|]. split; [exact Ht|].
    split; [discriminate|]. intros _.
    exists l. split; [reflexivity|]. split; [exact Hi|].
    split; [lia|]. split; [lia|]. split; [lia|]. split; [exact Hlow|].
    split; [reflexivity|].
    split.
    { intros k Hk. rewrite (popmap_bit_in_word popmap i w k Hw) by lia.
      specialize (Hbelow (k - 64 * i) ltac:(lia)).
      rewrite Hx in Hbelow by lia.
      destruct (hi <=? k - 64 * i) eqn:E; zbool; [|lia].
      cbn in Hbelow. apply negb_false_iff in Hbelow. exact Hbelow. }
    split; [|exact Hpc].
    rewrite (popmap_bit_word popmap i l w Hw Hl). exact Hbit.
Qed.

(** The outer loop: from position 64 i + hi on, every maximal run of clear
    bits is recorded once, in increasing order, and the map is left empty
    with a population count of 0. *)
Lemma break_loop_spec fuel : forall i hi popmap popcnt freed,
  0 <= i < NPOPMAP -> 0 <= hi < 64 ->
  popmap_typed popmap ->
  (forall k, k < 64 * i + hi -> popmap_bit popmap k = false) ->
  popcnt = count_from (popmap_bit popmap) (64 * i + hi) ->
  (Z.to_nat (VM_LEVEL_0_NPAGES - (64 * i + hi)) < fuel)%nat ->
  exists pm',
    break_loop fuel i hi popmap popcnt freed =
      Ok (pm', 0, freed ++ runs_from (popmap_bit popmap) (64 * i + hi) None) /\
    popmap_typed pm' /\
    forall k, popmap_bit pm' k = false.
Proof.
  induction fuel as [|fuel IH]; intros i hi pm pc freed Hi Hhi Ht Hlow Hpc Hf.
  { lia. }
  cbn [break_loop].
  destruct (break_find_zero_spec i hi pm pc Hi Hhi Ht Hlow Hpc)
    as (i1 & lo1 & hi1 & pm1 & pc1 & brk & Hrun & Ht1 & Hbrk & Hgo).
  rewrite Hrun. cbn [rbind].
  destruct brk.
  - (* only set bits were left *)
    destruct (Hbrk eq_refl) as (Hz & -> & Hones).
    exists pm1. split; [|split; assumption].
    rewrite (runs_from_ones _ (64 * i + hi) VM_LEVEL_0_NPAGES)
      by (rewrite ?NPOPMAP_val, ?VM_LEVEL_0_NPAGES_val in *; lia || assumption).
    rewrite runs_from_end, app_nil_r. reflexivity.
  - destruct (Hgo eq_refl)
      as (l & -> & Hi1 & Hhi1 & Hl & Hadv & Hlow1 & Hhigh1 & Hones & Hq & Hpc1).
    clear Hbrk Hgo.
    replace (0 <? l + 1) with true by (symmetry; apply Z.ltb_lt; lia).
    cbn [negb]. replace (l + 1 - 1) with l by lia.
    destruct (break_clear_low_spec i1 l hi1 pm1 pc1 Hi1 Hhi1 Hl Ht1 Hlow1)
      as (pm2 & pc2 & Hrun2 & Ht2 & Hlow2 & Hhigh2 & Hpc2).
    { intros k Hk. rewrite Hhigh1 by lia. apply Hones. lia. }
    { exact Hpc1. }
    rewrite Hrun2. cbn [rbind].
    destruct (break_find_one_spec (Z.to_nat NPOPMAP) i1 pm2 Hi1
                ltac:(rewrite NPOPMAP_val in *; lia) Ht2)
      as (i2 & hr & Hrun3 & Hi2 & Hz & Hend & Hone).
    rewrite Hrun3. cbn [rbind].
    (* the bits of the original map from the clear bit on *)
    assert (Hsame : forall k, 64 * i1 + l <= k ->
              popmap_bit pm2 k = popmap_bit pm k).
    { intros k Hk. rewrite Hhigh2 by lia. apply Hhigh1. lia. }
    assert (Hq2 : popmap_bit pm2 (64 * i1 + l) = false).
    { rewrite Hsame by lia. exact Hq. }
    rewrite (runs_from_ones _ (64 * i + hi) (64 * i1 + l))
      by (rewrite ?NPOPMAP_val, ?VM_LEVEL_0_NPAGES_val in *; lia || assumption).
    destruct (i2 <? NPOPMAP) eqn:Ei2; zbool.
    + (* a set bit ends the run *)
      destruct (Hone Ei2) as (h & -> & Hh & Hbit & Hbelow).
      replace (i2 =? NPOPMAP) with false by (symmetry; apply Z.eqb_neq; lia).
      cbn [negb]. replace (h + 1 - 1) with h by lia.
      assert (Hzeros : forall k, 64 * i1 + l <= k < 64 * i2 + h ->
                popmap_bit pm2 k = false).
      { intros k Hk.
        destruct (Z.lt_ge_cases k (64 * i2)); [apply Hz|apply Hbelow]; lia. }
      assert (Hlt : 64 * i1 + l < 64 * i2 + h).
      { destruct (Z.lt_ge_cases (64 * i1 + l) (64 * i2 + h)) as [|Hge];
          [assumption|].
        destruct (Z.eq_dec (64 * i2 + h) (64 * i1 + l)) as [E|E].
        - rewrite E in Hbit. congruence.
        - rewrite Hlow2 in Hbit by lia. discriminate. }
      destruct (IH i2 h pm2 pc2
                  (freed ++ [(NBPOPMAP * i1 + l,
                              NBPOPMAP * i2 + h - (NBPOPMAP * i1 + l))]))
        as (pm' & Hrun4 & Ht' & Hz').
      * lia.
      * exact Hh.
      * exact Ht2.
      * intros k Hk.
        destruct (Z.lt_ge_cases k (64 * i1 + l));
          [apply Hlow2|apply Hzeros]; lia.
      * rewrite Hpc2. apply count_from_zeros;
          [rewrite ?NPOPMAP_val, ?VM_LEVEL_0_NPAGES_val in *; lia
          |exact Hzeros].
      * rewrite ?NPOPMAP_val, ?VM_LEVEL_0_NPAGES_val in *. lia.
      * exists pm'. split; [|split; assumption].
        rewrite Hrun4. rewrite NBPOPMAP_val. rewrite <- app_assoc.
        cbn [app]. do 3 f_equal.
        rewrite (runs_from_run (popmap_bit pm) (64 * i1 + l) (64 * i2 + h)).
        -- f_equal. apply runs_from_ext. intros k Hk.
           apply Hsame. lia.
        -- rewrite ?NPOPMAP_val, ?VM_LEVEL_0_NPAGES_val in *. lia.
        -- intros k Hk. rewrite <- Hsame by lia. apply Hzeros. lia.
        -- intros _. rewrite <- Hsame by lia. exact Hbit.
    + (* the run reaches the end of the map *)
      assert (i2 = NPOPMAP) by lia. subst i2.
      rewrite (Hend eq_refl). rewrite Z.eqb_refl. cbn [negb].
      rewrite NPOPMAP_val, NBPOPMAP_val, ?VM_LEVEL_0_NPAGES_val in *.
      assert (Hzeros : forall k, 64 * i1 + l <= k < 512 ->
                popmap_bit pm2 k = false)
        by (intros k Hk; apply Hz; lia).
      exists pm2.
      split; [|split; [exact Ht2|]].
      * rewrite (runs_from_run (popmap_bit pm) (64 * i1 + l) 512).
        -- rewrite Hpc2.
           rewrite (count_from_zeros _ (64 * i1 + l) 512)
             by (rewrite ?VM_LEVEL_0_NPAGES_val; lia || assumption).
           replace (64 * 8 + 0 - (64 * i1 + l)) with (512 - (64 * i1 + l))
             by lia.
           reflexivity.
        -- rewrite VM_LEVEL_0_NPAGES_val. lia.
        -- intros k Hk. rewrite <- Hsame by lia. apply Hzeros. lia.
        -- rewrite VM_LEVEL_0_NPAGES_val. lia.
      * intros k.
        destruct (Z.lt_ge_cases k (64 * i1 + l)); [apply Hlow2; lia|].
        destruct (Z.lt_ge_cases k 512); [apply Hzeros; lia|].
        apply popmap_bit_outside. rewrite VM_LEVEL_0_NPAGES_val. lia.
Qed.
(** An empty typed map is the list of NPOPMAP zero words. *)
Lemma popmap_all_clear popmap :
  popmap_typed popmap -> (forall k, popmap_bit popmap k = false) ->
  popmap = popmap_zero.
Proof.
  intros Ht Hz. destruct Ht as [Hlen Hall]. unfold popmap_zero.
  apply list_eq. intros n.
  destruct (decide (n < Z.to_nat NPOPMAP)%nat) as [Hn|Hn].
  - rewrite lookup_replicate_2 by exact Hn.
    destruct (popmap !! n) as [w|] eqn:E;
      [|apply lookup_ge_None in E; lia].
    f_equal. apply word_zero.
    + rewrite Forall_lookup in Hall. eapply Hall, E.
    + intros b Hb.
      assert (Hw : popmap_word popmap (Z.of_nat n) = Some w).
      { apply popmap_word_Some. rewrite Nat2Z.id. split; [lia|exact E]. }
      rewrite <- (popmap_bit_word popmap (Z.of_nat n) b w Hw Hb). apply Hz.
  - transitivity (@None Z);
      [apply lookup_ge_None; lia
      |symmetry; apply lookup_replicate_None; lia].
Qed.

(** vm_reserv_break's loop, run on a whole map. *)
Lemma break_loop_total popmap :
  popmap_typed popmap ->
  break_loop (S (Z.to_nat VM_LEVEL_0_NPAGES)) 0 0 popmap (popcount popmap) []
  = Ok (popmap_zero, 0, clear_runs popmap).
Proof.
  intros Ht.
  destruct (break_loop_spec (S (Z.to_nat VM_LEVEL_0_NPAGES)) 0 0 popmap
              (popcount popmap) [])
    as (pm' & Hrun & Ht' & Hz).
  - rewrite NPOPMAP_val. lia.
  - lia.
  - exact Ht.
  - intros k Hk. apply popmap_bit_outside. lia.
  - reflexivity.
  - cbn. lia.
  - rewrite Hrun. rewrite (popmap_all_clear pm' Ht' Hz).
    unfold clear_runs, runs_from. cbn [app].
    replace (64 * 0 + 0) with 0 by lia.
    replace (VM_LEVEL_0_NPAGES - 0) with VM_LEVEL_0_NPAGES by lia.
    reflexivity.
Qed.
(** ** The runs of clear bits are the maximal ones *)

Lemma clear_runs_from popmap :
  clear_runs popmap = runs_from (popmap_bit popmap) 0 None.
Proof.
  unfold clear_runs, runs_from.
  replace (VM_LEVEL_0_NPAGES - 0) with VM_LEVEL_0_NPAGES by lia.
  reflexivity.
Qed.

Lemma popcount_from popmap :
  popcount popmap = count_from (popmap_bit popmap) 0.
Proof.
  unfold popcount, count_from.
  replace (VM_LEVEL_0_NPAGES - 0) with VM_LEVEL_0_NPAGES by lia.
  reflexivity.
Qed.

Section Runs.
Variable f : Z -> bool.

Lemma runs_from_sound p :
  p <= VM_LEVEL_0_NPAGES ->
  0 <= p -> forall cur, open_ok f p cur ->
  forall run, In run (runs_from f p cur) -> maximal_clear_run f run.
Proof.
  revert p.
  apply (upto_ind (fun p => 0 <= p -> forall cur, open_ok f p cur ->
           forall run, In run (runs_from f p cur) ->
           maximal_clear_run f run)).
  - intros Hp cur Hok run Hin. rewrite runs_from_end in Hin.
    destruct cur as [b|]; [|contradiction].
    destruct Hin as [<-|[]]. destruct Hok as (Hb & Hz & Hleft).
    unfold maximal_clear_run. cbn [fst snd].
    repeat split; try lia; auto.
    intros k Hk. apply Hz. lia.
  - intros p Hp IH Hp0 cur Hok run Hin.
    rewrite runs_from_step in Hin by lia.
    destruct (f p) eqn:Efp.
    + apply in_app_or in Hin as [Hin|Hin].
      * destruct cur as [b|]; [|contradiction].
        destruct Hin as [<-|[]]. destruct Hok as (Hb & Hz & Hleft).
        unfold maximal_clear_run. cbn [fst snd].
        repeat split; try lia; auto.
        -- intros k Hk. apply Hz. lia.
        -- right. replace (b + (p - b)) with p by lia. exact Efp.
      * apply (IH ltac:(lia) None); [|exact Hin].
        right. replace (p + 1 - 1) with p by lia. exact Efp.
    + apply (IH ltac:(lia) _) in Hin; [exact Hin|].
      destruct cur as [b|]; cbn [open_ok].
      * destruct Hok as (Hb & Hz & Hleft).
        split; [lia|]. split; [|exact Hleft].
        intros k Hk. destruct (Z.eq_dec k p) as [->|]; [exact Efp|].
        apply Hz. lia.
      * split; [lia|]. split.
        -- intros k Hk. replace k with p by lia. exact Efp.
        -- destruct Hok as [->|Hok]; [left; reflexivity|right; exact Hok].
Qed.

Lemma runs_from_cover p :
  p <= VM_LEVEL_0_NPAGES ->
  forall cur k,
    (forall b, cur = Some b -> b <= p) ->
    f k = false ->
    p <= k < VM_LEVEL_0_NPAGES \/ (exists b, cur = Some b /\ b <= k < p) ->
    exists run, In run (runs_from f p cur) /\
      fst run <= k < fst run + snd run.
Proof.
  revert p.
  apply (upto_ind (fun p => forall cur k,
           (forall b, cur = Some b -> b <= p) ->
           f k = false ->
           p <= k < VM_LEVEL_0_NPAGES \/
           (exists b, cur = Some b /\ b <= k < p) ->
           exists run, In run (runs_from f p cur) /\
             fst run <= k < fst run + snd run)).
  - intros cur k Hwf Hk [Hin|(b & -> & Hb)]; [lia|].
    rewrite runs_from_end. eexists. split; [left; reflexivity|].
    cbn [fst snd]. lia.
  - intros p Hp IH cur k Hwf Hk Hcase.
    rewrite runs_from_step by lia.
    destruct (f p) eqn:Efp.
    + destruct Hcase as [Hin|(b & -> & Hb)].
      * destruct (Z.eq_dec k p) as [->|Hne]; [congruence|].
        destruct (IH None k) as (run & Hrun & Hcov);
          [discriminate|exact Hk|left; lia|].
        exists run. split; [apply in_or_app; right; exact Hrun|exact Hcov].
      * eexists. split; [apply in_or_app; left; left; reflexivity|].
        cbn [fst snd]. lia.
    + destruct cur as [b|].
      * specialize (Hwf b eq_refl).
        destruct (IH (Some b) k) as (run & Hrun & Hcov).
        -- intros b' [= <-]. lia.
        -- exact Hk.
        -- destruct Hcase as [Hin|(b' & [= <-] & Hb)].
           ++ destruct (Z.eq_dec k p) as [->|Hne];
                [right; exists b; split; [reflexivity|lia]|left; lia].
           ++ right. exists b. split; [reflexivity|lia].
        -- exists run. split; assumption.
      * destruct Hcase as [Hin|(b' & [=] & _)].
        destruct (IH (Some p) k) as (run & Hrun & Hcov).
        -- intros b' [= <-]. lia.
        -- exact Hk.
        -- destruct (Z.eq_dec k p) as [->|Hne];
             [right; exists p; split; [reflexivity|lia]|left; lia].
        -- exists run. split; assumption.
Qed.

Lemma runs_from_lower p :
  p <= VM_LEVEL_0_NPAGES ->
  forall cur run,
    (forall b, cur = Some b -> b <= p) ->
    In run (runs_from f p cur) ->
    match cur with Some b => b | None => p end <= fst run.
Proof.
  revert p.
  apply (upto_ind (fun p => forall cur run,
           (forall b, cur = Some b -> b <= p) ->
           In run (runs_from f p cur) ->
           match cur with Some b => b | None => p end <= fst run)).
  - intros cur run Hwf Hin. rewrite runs_from_end in Hin.
    destruct cur as [b|]; [|contradiction].
    destruct Hin as [<-|[]]. cbn. lia.
  - intros p Hp IH cur run Hwf Hin.
    rewrite runs_from_step in Hin by lia.
    destruct (f p).
    + apply in_app_or in Hin as [Hin|Hin].
      * destruct cur as [b|]; [|contradiction].
        destruct Hin as [<-|[]]. cbn. lia.
      * apply (IH None) in Hin; [|discriminate]. cbn in Hin.
        destruct cur as [b|]; [specialize (Hwf b eq_refl)|]; lia.
    + destruct cur as [b|].
      * apply (IH (Some b)) in Hin; [exact Hin|].
        intros b' [= <-]. specialize (Hwf b eq_refl). lia.
      * apply (IH (Some p)) in Hin; [exact Hin|].
        intros b' [= <-]. lia.
Qed.

Lemma runs_from_NoDup p :
  p <= VM_LEVEL_0_NPAGES ->
  forall cur, (forall b, cur = Some b -> b <= p) ->
  NoDup (runs_from f p cur).
Proof.
  revert p.
  apply (upto_ind (fun p => forall cur,
           (forall b, cur = Some b -> b <= p) ->
           NoDup (runs_from f p cur))).
  - intros cur _. rewrite runs_from_end.
    destruct cur; repeat constructor. intros H. apply elem_of_nil in H.
    exact H.
  - intros p Hp IH cur Hwf. rewrite runs_from_step by lia.
    destruct (f p).
    + destruct cur as [b|]; cbn [app].
      * constructor; [|apply IH; discriminate].
        intros Hin. apply list_elem_of_In in Hin.
        apply (runs_from_lower (p + 1) ltac:(lia) None) in Hin;
          [|discriminate].
        cbn in Hin. specialize (Hwf b eq_refl). lia.
      * apply IH. discriminate.
    + apply IH. destruct cur as [b|]; intros b' [= <-];
        [specialize (Hwf b eq_refl)|]; lia.
Qed.

Lemma maximal_clear_run_unique r1 r2 k :
  maximal_clear_run f r1 -> maximal_clear_run f r2 ->
  fst r1 <= k < fst r1 + snd r1 -> fst r2 <= k < fst r2 + snd r2 ->
  r1 = r2.
Proof.
  destruct r1 as [b1 n1], r2 as [b2 n2]. unfold maximal_clear_run.
  cbn [fst snd].
  intros (H1 & H2 & H3 & Hz1 & Hl1 & Hr1) (H4 & H5 & H6 & Hz2 & Hl2 & Hr2)
    Hk1 Hk2.
  assert (b1 = b2).
  { destruct (Z.lt_trichotomy b1 b2) as [Hlt|[Heq|Hgt]]; [|exact Heq|].
    - destruct Hl2 as [->|Hl2]; [lia|].
      rewrite Hz1 in Hl2 by lia. discriminate.
    - destruct Hl1 as [->|Hl1]; [lia|].
      rewrite Hz2 in Hl1 by lia. discriminate. }
  subst b2. f_equal.
  destruct (Z.lt_trichotomy n1 n2) as [Hlt|[Heq|Hgt]]; [|exact Heq|].
  - destruct Hr1 as [Hr1|Hr1]; [lia|].
    rewrite Hz2 in Hr1 by lia. discriminate.
  - destruct Hr2 as [Hr2|Hr2]; [lia|].
    rewrite Hz1 in Hr2 by lia. discriminate.
Qed.
End Runs.

(** The list of runs holds every maximal run of clear bits, once. *)
Lemma clear_runs_spec popmap run :
  In run (clear_runs popmap) <->
  maximal_clear_run (popmap_bit popmap) run.
Proof.
  rewrite clear_runs_from. split.
  - apply runs_from_sound; [rewrite VM_LEVEL_0_NPAGES_val; lia|lia|].
    left. reflexivity.
  - intros Hmax. pose proof Hmax as (H1 & H2 & H3 & Hz & _).
    destruct (runs_from_cover (popmap_bit popmap) 0
                ltac:(rewrite VM_LEVEL_0_NPAGES_val; lia) None (fst run))
      as (run' & Hin & Hcov).
    + discriminate.
    + apply Hz. lia.
    + left. lia.
    + assert (run' = run); [|subst; exact Hin].
      eapply maximal_clear_run_unique; [| exact Hmax | exact Hcov | lia].
      eapply runs_from_sound; [| | |exact Hin];
        [rewrite VM_LEVEL_0_NPAGES_val; lia|lia|left; reflexivity].
Qed.

Lemma clear_runs_NoDup popmap : NoDup (clear_runs popmap).
Proof.
  rewrite clear_runs_from. apply runs_from_NoDup;
    [rewrite VM_LEVEL_0_NPAGES_val; lia|discriminate].
Qed.
(** ** Running the operations forward *)

(** One step of symbolic execution on a state given by its components:
    unfold the primitives, then use what is known about the state. *)
Ltac run_unfold :=
  cbv beta iota delta
    [bind ret fail get modify lift rbind res_of_option KASSERT emit
     load_rv store_rv load_obj store_obj load_psind store_psind
     free_mtx_lock free_mtx_unlock free_mtx_assert_owned
     mtx_lock_st mtx_unlock_st mtx_owned
     load_lock vm_reserv_lock vm_reserv_unlock vm_reserv_assert_locked
     RV_LOCKPTR TAILQ_REMOVE TAILQ_INSERT_TAIL LIST_REMOVE on_lru on_objq
     seq_write_begin seq_write_end vm_phys_free_pages vm_phys_free_contig
     is_null negb andb orb
     set_vm_reserv_array set_scan_marker set_vm_rvlru_active
     set_vm_rvlru_inactive set_vm_objects set_psind set_rv_lock
     set_vm_page_queue_free_mtx set_vm_reserv_broken set_vm_reserv_freed
     set_vm_reserv_reclaimed set_trace set_lru lru
     vm_reserv_array scan_marker vm_rvlru_active vm_rvlru_inactive
     vm_objects psind rv_lock vm_page_queue_free_mtx vm_reserv_broken
     vm_reserv_freed vm_reserv_reclaimed trace].

Ltac run_step :=
  match goal with
  | H : ?x = _ |- context [?x] => rewrite H
  | |- context [?a =? ?a] => rewrite (Z.eqb_refl a)
  | |- context [<[?n := ?x]> ?l !! ?n] =>
      rewrite (list_lookup_insert_eq l n x)
        by (rewrite ?length_insert; eapply lookup_lt_Some; eassumption)
  | |- context [<[?n := ?x]> (<[?n := ?y]> ?l)] =>
      rewrite (list_insert_insert_eq l n x y)
  end.

Ltac run := repeat (run_unfold; rnorm; cbn [fst snd]; try run_step).

(** Closes a goal Ok (tt, s1) = Ok (tt, s2) between states in component
    form that differ in how their records are written. *)
Ltac run_done :=
  rewrite <- ?app_assoc; cbn [app];
  cbv beta iota delta
    [set_rv_object set_rv_pindex set_rv_pages set_rv_seq set_rv_popcnt
     set_rv_actcnt set_rv_flags set_rv_popmap rv_object rv_pindex
     rv_pages rv_seq rv_popcnt rv_actcnt rv_flags rv_popmap unbound];
  reflexivity.

Lemma free_contig_all_run base l s :
  free_contig_all (Some base) l s =
    Ok (tt, set_trace (trace s ++ free_events base l) s).
Proof.
  unfold free_events.
  revert s. induction l as [|[b len] l IH]; intros s;
    cbn [free_contig_all map]; destruct s; run_unfold.
  - rewrite app_nil_r. reflexivity.
  - rewrite IH. run_unfold. rewrite <- app_assoc. reflexivity.
Qed.

(** ** vm_reserv_break *)

Lemma lor_range a b :
  0 <= a < 2 ^ 64 -> 0 <= b < 2 ^ 64 -> 0 <= Z.lor a b < 2 ^ 64.
Proof.
  intros Ha Hb. split; [apply Z.lor_nonneg; lia|].
  destruct (Z.eq_dec (Z.lor a b) 0) as [->|Hne]; [lia|].
  assert (0 <= Z.lor a b) by (apply Z.lor_nonneg; lia).
  apply Z.log2_lt_pow2; [lia|].
  rewrite Z.log2_lor by lia.
  destruct (Z.eq_dec a 0) as [->|Ha0], (Z.eq_dec b 0) as [->|Hb0];
    cbn; try lia.
  - assert (Z.log2 b < 64) by (apply Z.log2_lt_pow2; lia). lia.
  - assert (Z.log2 a < 64) by (apply Z.log2_lt_pow2; lia). lia.
  - assert (Z.log2 a < 64) by (apply Z.log2_lt_pow2; lia).
    assert (Z.log2 b < 64) by (apply Z.log2_lt_pow2; lia). lia.
Qed.

(** One more set bit is one more in the count. *)
Lemma count_from_flip f g i :
  0 <= i < VM_LEVEL_0_NPAGES -> f i = false ->
  (forall k, g k = (k =? i) || f k) ->
  forall p, p <= VM_LEVEL_0_NPAGES ->
    count_from g p = count_from f p + (if p <=? i then 1 else 0).
Proof.
  intros Hi Hfi Hg.
  apply (upto_ind (fun p =>
           count_from g p = count_from f p + (if p <=? i then 1 else 0))).
  - rewrite !count_from_end.
    destruct (VM_LEVEL_0_NPAGES <=? i) eqn:E; zbool; lia.
  - intros p Hp IH.
    rewrite (count_from_step g p), (count_from_step f p) by lia.
    rewrite IH, Hg.
    destruct (p =? i) eqn:E1; zbool.
    + subst p. rewrite Hfi. cbn [orb].
      destruct (i <=? i) eqn:E2, (i + 1 <=? i) eqn:E3; zbool. all: lia.
    + cbn [orb].
      destruct (p <=? i) eqn:E2, (p + 1 <=? i) eqn:E3; zbool; lia.
Qed.

(** popmap_set on a clear bit. *)
Lemma popmap_set_bits popmap i pm1 :
  popmap_typed popmap ->
  popmap_is_clear popmap i = Some true ->
  popmap_set popmap i = Some pm1 ->
  0 <= i < VM_LEVEL_0_NPAGES /\
  popmap_bit popmap i = false /\
  popmap_typed pm1 /\
  (forall k, popmap_bit pm1 k = (k =? i) || popmap_bit popmap k) /\
  popcount pm1 = popcount popmap + 1.
Proof.
  unfold popmap_is_clear, popmap_set. intros Ht Hc Hs.
  destruct (popmap_word popmap (i / NBPOPMAP)) as [w|] eqn:Hw;
    [|discriminate].
  pose proof (index_in_range _ _ _ Hw) as Hi.
  pose proof (index_split _ Hi) as [Hq Hb].
  pose proof (popmap_typed_word _ _ _ Ht Hw) as Hr.
  injection Hc as Hc. injection Hs as <-. zbool.
  apply land_bit_zero in Hc; [|lia].
  rewrite NBPOPMAP_val in *.
  assert (Hsplit : i = 64 * (i / 64) + i mod 64) by (apply Z.div_mod; lia).
  assert (Hbit : popmap_bit popmap i = false).
  { rewrite Hsplit at 1. rewrite (popmap_bit_word _ _ _ _ Hw) by lia.
    exact Hc. }
  assert (Hbits : forall k,
            popmap_bit
              (popmap_store popmap (i / 64)
                 (Z.lor w (Z.shiftl 1 (i mod 64)))) k
            = (k =? i) || popmap_bit popmap k).
  { intros k. rewrite popmap_store_bits by assumption.
    destruct (64 * (i / 64) <=? k) eqn:E1,
             (k <? 64 * (i / 64) + 64) eqn:E2; zbool; cbn [andb].
    - rewrite Z.lor_spec, shiftl_1_testbit by lia.
      rewrite (popmap_bit_in_word popmap (i / 64) w k Hw) by lia.
      rewrite orb_comm. f_equal.
      destruct (k - 64 * (i / 64) =? i mod 64) eqn:E3,
               (k =? i) eqn:E4; zbool; try reflexivity; lia.
    - destruct (k =? i) eqn:E4; zbool; [lia|reflexivity].
    - destruct (k =? i) eqn:E4; zbool; [lia|reflexivity].
    - destruct (k =? i) eqn:E4; zbool; [lia|reflexivity]. }
  split; [exact Hi|]. split; [exact Hbit|].
  split.
  { apply popmap_store_typed; [assumption|].
    apply lor_range; [assumption|]. rewrite Z.shiftl_1_l.
    split; [apply Z.pow_nonneg; lia|apply Z.pow_lt_mono_r; lia]. }
  split; [exact Hbits|].
  rewrite !popcount_from.
  rewrite (count_from_flip (popmap_bit popmap) _ i Hi Hbit Hbits)
    by (rewrite VM_LEVEL_0_NPAGES_val; lia).
  destruct (0 <=? i) eqn:E; zbool; lia.
Qed.

(** vm_reserv_break(rv, NULL) under its preconditions. *)
Lemma break_run_none n s r base :
  vm_reserv_array s !! n = Some r ->
  shard_locked n s ->
  vm_page_queue_free_mtx s = MtxOwned ->
  rv_object r <> None ->
  Z.land (rv_flags r) VM_RESERV_F_PARTPOP = 0 ->
  on_objq (Rv n) s = true ->
  rv_pages r = Some base ->
  popmap_typed (rv_popmap r) ->
  rv_popcnt r = popcount (rv_popmap r) ->
  vm_reserv_break (Rv n) None s
  = Ok (tt, broken n r base (clear_runs (rv_popmap r)) s).
Proof.
  intros Hr (k & Hk & Hl) Hfm Hob Hf Hq Hpg Ht Hpc.
  destruct s as [arr mk act inact objs ps locks fm br fr rc tr].
  injection Hk as <-. unfold on_objq in Hq.
  destruct (rv_object r) as [o|] eqn:Eo; [|contradiction].
  unfold broken, unlinked, put_rv, unbind_events, free_events.
  unfold_state. subst fm.
  unfold vm_reserv_break, vm_reserv_set_object.
  run. rewrite break_loop_total by assumption.
  run. rewrite free_contig_all_run.
  run. run_done.
Qed.

(** vm_reserv_break(rv, m) for a page m of the reservation that is not
    populated. *)
Lemma break_run_keep n s r base pa pm1 :
  vm_reserv_array s !! n = Some r ->
  shard_locked n s ->
  vm_page_queue_free_mtx s = MtxOwned ->
  rv_object r <> None ->
  Z.land (rv_flags r) VM_RESERV_F_PARTPOP = 0 ->
  on_objq (Rv n) s = true ->
  rv_pages r = Some base ->
  popmap_typed (rv_popmap r) ->
  rv_popcnt r = popcount (rv_popmap r) ->
  popmap_is_clear (rv_popmap r) (page_diff pa base) = Some true ->
  popmap_set (rv_popmap r) (page_diff pa base) = Some pm1 ->
  vm_reserv_break (Rv n) (Some pa) s
  = Ok (tt, broken n r base (clear_runs pm1) s).
Proof.
  intros Hr (k & Hk & Hl) Hfm Hob Hf Hq Hpg Ht Hpc Hclr Hset.
  destruct (popmap_set_bits _ _ _ Ht Hclr Hset)
    as (Hi & Hbit & Ht1 & Hbits & Hcnt).
  assert (Hu : u16 (popcount (rv_popmap r) + 1) = popcount pm1).
  { rewrite Hcnt. apply u16_id. rewrite popcount_from.
    pose proof (count_from_bounds (popmap_bit (rv_popmap r)) 0
                  ltac:(rewrite VM_LEVEL_0_NPAGES_val; lia)).
    rewrite VM_LEVEL_0_NPAGES_val in *. lia. }
  clear Hcnt Hbits Hbit.
  destruct s as [arr mk act inact objs ps locks fm br fr rc tr].
  injection Hk as <-. unfold on_objq in Hq.
  destruct (rv_object r) as [o|] eqn:Eo; [|contradiction].
  unfold broken, unlinked, put_rv, unbind_events, free_events.
  unfold_state. subst fm.
  unfold vm_reserv_break, vm_reserv_set_object.
  run. rewrite break_loop_total by assumption.
  run. rewrite free_contig_all_run.
  run. run_done.
Qed.
Lemma broken_lookup n r base runs s :
  (n < length (vm_reserv_array s))%nat ->
  vm_reserv_array (broken n r base runs s) !! n
  = Some (set_rv_popcnt 0 (set_rv_popmap popmap_zero (unbound r))).
Proof.
  intros H. unfold broken, unlinked, put_rv. destruct s. unfold_state.
  apply list_lookup_insert_eq. exact H.
Qed.

Lemma popmap_zero_bit k : popmap_bit popmap_zero k = false.
Proof.
  unfold popmap_bit.
  destruct (popmap_word popmap_zero (k / NBPOPMAP)) as [w|] eqn:E;
    [|reflexivity].
  apply popmap_word_Some in E as [_ E]. unfold popmap_zero in E.
  apply lookup_replicate in E as [-> _]. apply Z.bits_0.
Qed.

(** C2. vm_reserv_break(rv, m) on a bound reservation that is on no LRU
    queue (its queue flags are clear), called with the free-queue lock and
    the shard lock held, for a well-formed population map (popcnt is the
    number of set bits), with m either NULL or a page of the reservation
    whose bit is clear: the call succeeds; it unlinks the reservation from
    its object's list, clears the object field between seq_write_begin
    and seq_write_end, and then calls vm_phys_free_contig once for each
    maximal run of clear bits of the map in which the bit of m has been
    set, in increasing order, and makes no other call to the allocator;
    so the page m lies in no run passed to the allocator.  It ends with
    every bit of the map clear, popcnt = 0 and the broken counter
    increased by 1; the queues, size hints and locks and the other
    reservations are as before. *)
Theorem break_frees_clear_runs :
  forall n m s r base pm1,
    vm_reserv_array s !! n = Some r ->
    shard_locked n s ->
    vm_page_queue_free_mtx s = MtxOwned ->
    rv_object r <> None ->
    Z.land (rv_flags r) VM_RESERV_F_PARTPOP = 0 ->
    on_objq (Rv n) s = true ->
    rv_pages r = Some base ->
    popmap_typed (rv_popmap r) ->
    rv_popcnt r = popcount (rv_popmap r) ->
    (m = None /\ pm1 = rv_popmap r \/
     exists pa, m = Some pa /\
       popmap_is_clear (rv_popmap r) (page_diff pa base) = Some true /\
       popmap_set (rv_popmap r) (page_diff pa base) = Some pm1) ->
    - 2 ^ 63 <= vm_reserv_broken s < 2 ^ 63 - 1 ->
    exists s' r',
      vm_reserv_break (Rv n) m s = Ok (tt, s') /\
      vm_reserv_array s' = <[n := r']> (vm_reserv_array s) /\
      vm_reserv_array s' !! n = Some r' /\
      rv_object r' = None /\
      rv_seq r' = u32 (u32 (rv_seq r + 1) + 1) /\
      rv_popcnt r' = 0 /\
      (forall k, popmap_bit (rv_popmap r') k = false) /\
      vm_objects s' =
        ((fun ob => set_o_rvq (remove rvref_eq_dec (Rv n) (o_rvq ob)) ob)
           <$> vm_objects s) /\
      on_objq (Rv n) s' = false /\
      trace s' =
        trace s ++ unbind_events n ++ free_events base (clear_runs pm1) /\
      (forall run, In run (clear_runs pm1) <->
                   maximal_clear_run (popmap_bit pm1) run) /\
      NoDup (clear_runs pm1) /\
      (forall pa, m = Some pa ->
         popmap_bit pm1 (page_diff pa base) = true /\
         (forall k, k <> page_diff pa base ->
            popmap_bit pm1 k = popmap_bit (rv_popmap r) k) /\
         forall run, In run (clear_runs pm1) ->
           ~ fst run <= page_diff pa base < fst run + snd run) /\
      vm_reserv_broken s' = vm_reserv_broken s + 1 /\
      vm_rvlru_active s' = vm_rvlru_active s /\
      vm_rvlru_inactive s' = vm_rvlru_inactive s /\
      psind s' = psind s /\
      rv_lock s' = rv_lock s /\
      vm_page_queue_free_mtx s' = vm_page_queue_free_mtx s.
Proof.
  intros n m s r base pm1 Hr Hlock Hfm Hob Hf Hq Hpg Ht Hpc Hm Hbr.
  assert (Hlen : (n < length (vm_reserv_array s))%nat)
    by (eapply lookup_lt_Some; eassumption).
  exists (broken n r base (clear_runs pm1) s),
         (set_rv_popcnt 0 (set_rv_popmap popmap_zero (unbound r))).
  split.
  { destruct Hm as [[-> ->]|(pa & -> & Hclr & Hset)].
    - apply break_run_none; assumption.
    - eapply break_run_keep; eassumption. }
  split; [destruct s; reflexivity|].
  split; [apply broken_lookup; exact Hlen|].
  split; [reflexivity|]. split; [reflexivity|]. split; [reflexivity|].
  split; [intros k; apply popmap_zero_bit|].
  split; [destruct s; reflexivity|].
  split; [apply (on_objq_unlinked n s)|].
  split; [destruct s; reflexivity|].
  split; [intros run; apply clear_runs_spec|].
  split; [apply clear_runs_NoDup|].
  split.
  { intros pa ->. destruct Hm as [[[=] _]|(pa' & [= <-] & Hclr & Hset)].
    destruct (popmap_set_bits _ _ _ Ht Hclr Hset)
      as (Hi & Hbit & Ht1 & Hbits & Hcnt).
    assert (Hone : popmap_bit pm1 (page_diff pa base) = true)
      by (rewrite Hbits, Z.eqb_refl; reflexivity).
    split; [exact Hone|]. split.
    - intros k Hk. rewrite Hbits.
      destruct (k =? page_diff pa base) eqn:E; zbool;
        [contradiction|reflexivity].
    - intros run Hin Hcov. apply clear_runs_spec in Hin.
      destruct Hin as (_ & _ & _ & Hz & _).
      rewrite Hz in Hone by exact Hcov. discriminate. }
  split.
  { destruct s. unfold broken. unfold_state. unfold atomic_add_long.
    cbn in Hbr. apply s64_small. lia. }
  repeat (split; [destruct s; reflexivity|]). destruct s; reflexivity.
Qed.
Lemma break_frees_clear_runs_witness :
  exists s',
    vm_reserv_break (Rv 0) (Some (page_at 0 5)) s_dequeued = Ok (tt, s') /\
    trace s' =
      trace s_dequeued ++ unbind_events 0 ++
      [EvPhysFreeContig (page_at 0 1) 4; EvPhysFreeContig (page_at 0 6) 506] /\
    vm_reserv_broken s' = 1.
Proof.
  edestruct (break_frees_clear_runs 0 (Some (page_at 0 5)) s_dequeued)
    as (s' & r' & Hrun & _ & _ & _ & _ & _ & _ & _ & _ & Htrace & _ & _ & _
        & Hbr & _).
  - vm_compute. reflexivity.
  - exists 0%nat. split; vm_compute; reflexivity.
  - vm_compute. reflexivity.
  - vm_compute. discriminate.
  - vm_compute. reflexivity.
  - vm_compute. reflexivity.
  - vm_compute. reflexivity.
  - split; [reflexivity|cbn; repeat constructor; lia].
  - vm_compute. reflexivity.
  - right. eexists. split; [reflexivity|].
    split; vm_compute; reflexivity.
  - vm_compute. split; [discriminate|reflexivity].
  - exists s'. split; [exact Hrun|]. split; [|exact Hbr].
    rewrite Htrace. vm_compute. reflexivity.
Defined.
(** ** The found branch of vm_reserv_alloc_contig *)

Lemma seq_read_inv rv s q s' : seq_read rv s = Ok (q, s') -> s' = s.
Proof.
  unfold seq_read. intros H. apply bind_inv in H as (r & s1 & H1 & H).
  assert (s1 = s) by (destruct rv; unfold load_rv in H1;
    [|destruct (_ !! _)]; congruence). subst s1.
  destruct (Z.odd (rv_seq r)); [discriminate|].
  apply ret_inv in H as [_ ->]. reflexivity.
Qed.

Lemma seq_consistent_inv rv q s c s' :
  seq_consistent rv q s = Ok (c, s') -> s' = s.
Proof.
  unfold seq_consistent. intros H. apply bind_inv in H as (r & s1 & H1 & H).
  assert (s1 = s) by (destruct rv; unfold load_rv in H1;
    [|destruct (_ !! _)]; congruence). subst s1.
  apply ret_inv in H as [_ ->]. reflexivity.
Qed.

Lemma load_rv_state rv s r s' : load_rv rv s = Ok (r, s') -> s' = s.
Proof.
  destruct rv; unfold load_rv; [|destruct (_ !! _)]; congruence.
Qed.

(** A probe that ends at found has taken the shard lock and changed
    nothing else. *)
Lemma locked_probe_inv {A : Type} rv q s rv' s1 :
  (vm_reserv_lock rv ;;
   c <- seq_consistent rv q ;;
   if c then ret (@StFound A rv)
   else vm_reserv_unlock rv ;; fail EBlocked)%kern s
  = Ok (StFound rv', s1) ->
  rv' = rv /\ vm_reserv_lock rv s = Ok (tt, s1).
Proof.
  intros H. apply bind_inv in H as ([] & s2 & Hl & H).
  apply bind_inv in H as (c & s3 & Hc & H).
  apply seq_consistent_inv in Hc. subst s3.
  destruct c.
  - apply ret_inv in H as [[= ->] ->]. split; [reflexivity|exact Hl].
  - apply bind_inv in H as (u & s4 & _ & H). discriminate.
Qed.

Ltac probe_other H :=
  let c := fresh "c" in
  let s3 := fresh "s" in
  let Hc := fresh "Hc" in
  apply bind_inv in H as (c & s3 & Hc & H);
  apply seq_consistent_inv in Hc; subst s3;
  destruct c; [|discriminate];
  repeat match type of H with
         | (if ?b then _ else _) _ = _ => destruct b
         end;
  apply ret_inv in H as [H ?]; subst.

Lemma probe_mpred_inv object pindex first mp s st s1 :
  probe_mpred object pindex first mp s = Ok (st, s1) ->
  match st with
  | StFound rv =>
      rv = vm_reserv_from_page (phys_addr mp) /\
      vm_reserv_lock rv s = Ok (tt, s1)
  | _ => s1 = s
  end.
Proof.
  unfold probe_mpred. intros H.
  apply bind_inv in H as (q & s2 & Hq & H).
  apply seq_read_inv in Hq. subst s2.
  apply bind_inv in H as (r & s2 & Hr & H).
  apply load_rv_state in Hr. subst s2.
  destruct (bool_decide _); [destruct (vm_reserv_has_pindex _ _)|].
  - destruct st as [rv| |u].
    + apply locked_probe_inv in H as [-> H]. split; [reflexivity|exact H].
    + apply bind_inv in H as ([] & s2 & Hl & H).
      apply bind_inv in H as (c & s3 & Hc & H). destruct c.
      * apply ret_inv in H as [[=] _].
      * apply bind_inv in H as (u & s4 & _ & H). discriminate.
    + apply bind_inv in H as ([] & s2 & Hl & H).
      apply bind_inv in H as (c & s3 & Hc & H). destruct c.
      * apply ret_inv in H as [[=] _].
      * apply bind_inv in H as (u' & s4 & _ & H). discriminate.
  - probe_other H; try discriminate; reflexivity.
  - probe_other H; try discriminate; reflexivity.
Qed.

Lemma probe_msucc_inv object pindex ms s st s1 :
  probe_msucc object pindex ms s = Ok (st, s1) ->
  match st with
  | StFound rv =>
      rv = vm_reserv_from_page (phys_addr ms) /\
      vm_reserv_lock rv s = Ok (tt, s1)
  | _ => s1 = s
  end.
Proof.
  unfold probe_msucc. intros H.
  apply bind_inv in H as (q & s2 & Hq & H).
  apply seq_read_inv in Hq. subst s2.
  apply bind_inv in H as (r & s2 & Hr & H).
  apply load_rv_state in Hr. subst s2.
  destruct (bool_decide _); [destruct (vm_reserv_has_pindex _ _)|].
  - destruct st as [rv| |u].
    + apply locked_probe_inv in H as [-> H]. split; [reflexivity|exact H].
    + apply bind_inv in H as ([] & s2 & Hl & H).
      apply bind_inv in H as (c & s3 & Hc & H). destruct c.
      * apply ret_inv in H as [[=] _].
      * apply bind_inv in H as (u & s4 & _ & H). discriminate.
    + apply bind_inv in H as ([] & s2 & Hl & H).
      apply bind_inv in H as (c & s3 & Hc & H). destruct c.
      * apply ret_inv in H as [[=] _].
      * apply bind_inv in H as (u' & s4 & _ & H). discriminate.
  - probe_other H; try discriminate; reflexivity.
  - probe_other H; try discriminate; reflexivity.
Qed.

Lemma look_left_inv object ob pindex first mpred s st s1 :
  look_left object ob pindex first mpred s = Ok (st, s1) ->
  match st with
  | StFound rv => exists n, rv = Rv n /\ vm_reserv_lock rv s = Ok (tt, s1)
  | _ => s1 = s
  end.
Proof.
  unfold look_left. intros H. destruct mpred as [mp|].
  - apply bind_inv in H as (u1 & s2 & H1 & H).
    apply KASSERT_inv in H1 as [_ ->].
    apply bind_inv in H as (u2 & s2 & H2 & H).
    apply KASSERT_inv in H2 as [_ ->].
    apply bind_inv in H as (st' & s2 & Hp & H).
    apply probe_mpred_inv in Hp.
    destruct st' as [rv| |u].
    + apply ret_inv in H as [-> ->]. destruct Hp as [-> Hl].
      eexists. split; [reflexivity|exact Hl].
    + apply ret_inv in H as [-> ->]. exact Hp.
    + subst s2. apply bind_inv in H as (ms & s2 & Hm & H).
      apply lift_inv in Hm as [_ ->].
      apply ret_inv in H as [-> ->]. reflexivity.
  - apply ret_inv in H as [-> ->]. reflexivity.
Qed.

(** However found is reached, the reservation is an element of the array
    whose shard lock has just been taken. *)
Lemma reaches_found_inv object ob pindex mpred s rv s1 :
  reaches_found object ob pindex mpred s rv s1 ->
  exists n k, rv = Rv n /\ RV_LOCKPTR (Rv n) = Some k /\
    rv_lock s !! k = Some MtxUnowned /\
    s1 = set_rv_lock (<[k := MtxOwned]> (rv_lock s)) s.
Proof.
  intros [H|(ms & s0 & Hl & _ & H)].
  - apply look_left_inv in H as (n & -> & H).
    apply vm_reserv_lock_inv in H as (k & Hk & Hu & ->).
    exists n, k. auto.
  - apply look_left_inv in Hl. subst s0.
    apply probe_msucc_inv in H as [-> H].
    apply vm_reserv_lock_inv in H as (k & Hk & Hu & ->).
    eexists _, k. auto.
Qed.

Lemma popmap_is_set_bit popmap i :
  popmap_typed popmap -> 0 <= i < VM_LEVEL_0_NPAGES ->
  popmap_is_set popmap i = Some (popmap_bit popmap i).
Proof.
  intros Ht Hi. unfold popmap_is_set, popmap_bit.
  pose proof (index_split i Hi) as [Hq Hb].
  destruct (popmap_typed_lookup popmap _ Ht Hq) as (w & Hw & _).
  rewrite Hw. f_equal.
  destruct (Z.testbit w (i mod NBPOPMAP)) eqn:E.
  - apply negb_true_iff, Z.eqb_neq. intros H0.
    apply land_bit_zero in H0; [congruence|lia].
  - apply negb_false_iff, Z.eqb_eq. apply land_bit_zero; [lia|exact E].
Qed.

(** The scan for a populated page finds a set bit in its range. *)
Lemma any_set_found popmap n : forall index j,
  popmap_typed popmap ->
  0 <= index -> index <= j < index + Z.of_nat n ->
  j < VM_LEVEL_0_NPAGES ->
  popmap_bit popmap j = true ->
  any_set n popmap index = Ok true.
Proof.
  induction n as [|n IH]; intros index j Ht Hi Hj Hlt Hbit; [lia|].
  cbn [any_set]. rewrite popmap_is_set_bit by (assumption || lia).
  cbn [res_of_option rbind].
  destruct (popmap_bit popmap index) eqn:E; [reflexivity|].
  apply (IH (index + 1) j); try assumption; try lia.
  destruct (Z.eq_dec j index) as [->|]; [congruence|lia].
Qed.

Lemma count_bits_pos f n : forall lo,
  0 < count_bits f lo n ->
  exists j, lo <= j < lo + Z.of_nat n /\ f j = true.
Proof.
  induction n as [|n IH]; intros lo H; cbn [count_bits] in H; [lia|].
  destruct (f lo) eqn:E.
  - exists lo. split; [lia|exact E].
  - destruct (IH (lo + 1) ltac:(lia)) as (j & Hj & Hfj).
    exists j. split; [lia|exact Hfj].
Qed.

Lemma popcount_pos_bit popmap :
  0 < popcount popmap ->
  exists j, 0 <= j < VM_LEVEL_0_NPAGES /\ popmap_bit popmap j = true.
Proof.
  intros H. apply count_bits_pos in H as (j & Hj & Hb).
  exists j. split; [rewrite VM_LEVEL_0_NPAGES_val in *; lia|exact Hb].
Qed.

Lemma VM_RESERV_INDEX_range ob pindex :
  0 <= VM_RESERV_INDEX ob pindex < VM_LEVEL_0_NPAGES.
Proof.
  unfold VM_RESERV_INDEX. rewrite VM_LEVEL_0_NPAGES_val.
  change (512 - 1) with (Z.ones 9). rewrite Z.land_ones by lia.
  change (2 ^ 9) with 512. apply Z.mod_pos_bound. lia.
Qed.

(** From found, a request for a whole reservation or more gives up. *)
Lemma alloc_contig_found_large ob pindex npages low high alignment boundary
    n s r base k :
  VM_LEVEL_0_NPAGES - 1 < npages ->
  VM_RESERV_INDEX ob pindex + npages < 2 ^ 64 ->
  RV_LOCKPTR (Rv n) = Some k ->
  rv_lock s !! k = Some MtxOwned ->
  vm_reserv_array s !! n = Some r ->
  rv_pages r = Some base ->
  popmap_typed (rv_popmap r) ->
  0 < rv_popcnt r ->
  rv_popcnt r = popcount (rv_popmap r) ->
  vm_reserv_alloc_contig_found ob pindex npages low high alignment boundary
    (Rv n) s
  = Ok (None, set_rv_lock (<[k := MtxUnowned]> (rv_lock s)) s).
Proof.
  intros Hn Hwrap Hk Hl Hr Hpg Ht Hpos Hpc.
  pose proof (VM_RESERV_INDEX_range ob pindex) as Hidx.
  rewrite VM_LEVEL_0_NPAGES_val in *.
  destruct s as [arr mk act inact objs ps locks fm br fr rc tr].
  injection Hk as <-. unfold_state.
  unfold vm_reserv_alloc_contig_found.
  rewrite VM_LEVEL_0_NPAGES_val.
  replace (u64 (VM_RESERV_INDEX ob pindex + npages))
    with (VM_RESERV_INDEX ob pindex + npages)
    by (unfold u64; rewrite Z.mod_small; lia).
  destruct (512 <? VM_RESERV_INDEX ob pindex + npages) eqn:Efit; zbool.
  { run. reflexivity. }
  assert (Hi0 : VM_RESERV_INDEX ob pindex = 0) by lia.
  assert (Hn512 : npages = 512) by lia.
  rewrite Hi0. subst npages.
  run.
  match goal with
  | |- context [if ?c then _ else _] => destruct c
  end.
  { run. reflexivity. }
  rewrite Hpc in Hpos. apply popcount_pos_bit in Hpos as (j & Hj & Hb).
  rewrite (any_set_found (rv_popmap r) (Z.to_nat 512) 0 j)
    by (rewrite ?VM_LEVEL_0_NPAGES_val in *; (assumption || lia)).
  run. reflexivity.
Qed.
(** C6. A call of vm_reserv_alloc_contig that reaches the label found --
    a reservation of the object that covers pindex was located through a
    neighbouring page and locked -- with npages > N - 1 returns NULL and
    leaves the whole state, the found reservation included, as it was
    before the call (the shard lock taken on the way is released).  The
    found reservation is a well-formed bound reservation (popcnt > 0 is
    the number of set bits of its map), and the request is a range of
    page indices (pindex + npages does not wrap around). *)
Theorem alloc_contig_found_large_fails :
  forall object ob pindex npages low high alignment boundary mpred phys
         s n s1 r base,
    vm_objects s !! object = Some ob ->
    o_wlocked ob = true ->
    0 <= pindex -> pindex + npages < 2 ^ 64 ->
    VM_LEVEL_0_NPAGES - 1 < npages ->
    reaches_found object ob pindex mpred s (Rv n) s1 ->
    vm_reserv_array s1 !! n = Some r ->
    rv_pages r = Some base ->
    popmap_typed (rv_popmap r) ->
    0 < rv_popcnt r ->
    rv_popcnt r = popcount (rv_popmap r) ->
    vm_reserv_alloc_contig object pindex npages low high alignment boundary
      mpred phys s = Ok (None, s) /\
    vm_reserv_array s !! n = Some r.
Proof.
  intros object ob pindex npages low high alignment boundary mpred phys
    s n s1 r base Hob Hw Hp0 Hwrap Hn Hreach Hr Hpg Ht Hpos Hpc.
  destruct (reaches_found_inv _ _ _ _ _ _ _ Hreach)
    as (n' & k & [= <-] & Hk & Hu & Hs1).
  assert (Hr0 : vm_reserv_array s !! n = Some r)
    by (subst s1; destruct s; exact Hr).
  split; [|exact Hr0].
  unfold vm_reserv_alloc_contig.
  rewrite (bind_ok _ _ _ _ _ (VM_OBJECT_ASSERT_WLOCKED_ok _ _ _ Hob Hw)).
  assert (Hnz : negb (npages =? 0) = true).
  { apply negb_true_iff, Z.eqb_neq. rewrite VM_LEVEL_0_NPAGES_val in Hn. lia. }
  rewrite Hnz. rewrite (bind_ok _ _ _ _ _ (KASSERT_ok s)).
  rewrite (bind_ok _ _ _ _ _ (load_obj_ok _ _ _ Hob)).
  destruct (_ || _) eqn:Eearly; [reflexivity|].
  apply orb_false_elim in Eearly as [Elow _]. zbool.
  destruct (misaligned _ _); [reflexivity|].
  destruct (crosses _ _ _); [reflexivity|].
  assert (Hfound :
    vm_reserv_alloc_contig_found ob pindex npages low high alignment
      boundary (Rv n) s1 = Ok (None, s)).
  { rewrite (alloc_contig_found_large ob pindex npages low high alignment
               boundary n s1 r base k); try assumption.
    - subst s1. destruct s as [arr mk act inact objs ps locks fm br fr rc tr].
      unfold_state. unfold_state.
      rewrite list_insert_insert_eq, list_insert_id by exact Hu.
      reflexivity.
    - lia.
    - subst s1. destruct s. unfold_state.
      apply list_lookup_insert_eq. eapply lookup_lt_Some, Hu. }
  destruct Hreach as [Hl|(ms & s0 & Hl & Hlt & Hp)]; cbv zeta in Hl.
  - rewrite (bind_ok _ _ _ _ _ Hl). exact Hfound.
  - rewrite (bind_ok _ _ _ _ _ Hl).
    unfold bind at 1. unfold bind at 1. rewrite Hlt.
    rewrite KASSERT_ok. unfold bind at 1. rewrite Hp.
    unfold ret at 1. exact Hfound.
Qed.

Lemma alloc_contig_found_large_fails_witness :
  vm_reserv_alloc_contig 0 0 512 0 (2 ^ 40) 1 0 None None s_resident
  = Ok (None, s_resident) /\
  exists r, vm_reserv_array s_resident !! 0%nat = Some r /\
    rv_popcnt r = 1.
Proof.
  edestruct (alloc_contig_found_large_fails 0%nat
               (mk_vm_object 1024 0 OBJT_DEFAULT None
                  [mk_vm_page (page_at 0 1) (Some 0%nat) 1] [Rv 0] true)
               0 512 0 (2 ^ 40) 1 0 None None s_resident 0%nat)
    as [Hrun Hr].
  - vm_compute. reflexivity.
  - reflexivity.
  - lia.
  - vm_compute. reflexivity.
  - vm_compute. reflexivity.
  - right. eexists _, _. split; [vm_compute; reflexivity|].
    split; [reflexivity|]. vm_compute. reflexivity.
  - vm_compute. reflexivity.
  - vm_compute. reflexivity.
  - split; [reflexivity|cbn; repeat constructor; lia].
  - reflexivity.
  - vm_compute. reflexivity.
  - split; [exact Hrun|]. eexists. split; [exact Hr|]. reflexivity.
Defined.
(** ** The engine cannot fail *)

Lemma inb_true x l : In x l -> inb x l = true.
Proof.
  intros H. unfold inb. destruct (in_dec _ _ _); [reflexivity|contradiction].
Qed.

Lemma inb_false x l : ~ In x l -> inb x l = false.
Proof.
  intros H. unfold inb. destruct (in_dec _ _ _); [contradiction|reflexivity].
Qed.

Lemma inb_remove x l : inb x (remove rvref_eq_dec x l) = false.
Proof. apply inb_false. apply remove_In. Qed.

Lemma one_flag_inactive f :
  Z.land f VM_RESERV_F_ACTIVE = 0 -> Z.land f VM_RESERV_F_INACTIVE <> 0 ->
  one_partpop_flag f = true.
Proof.
  intros Ha Hi. unfold one_partpop_flag.
  apply andb_true_iff. split; apply negb_true_iff, Z.eqb_neq; intros H.
  - apply land_3_split in H as [_ H]. contradiction.
  - assert (E : Z.land (Z.land f VM_RESERV_F_PARTPOP) VM_RESERV_F_ACTIVE
                = Z.land f VM_RESERV_F_ACTIVE)
      by (rewrite <- Z.land_assoc; reflexivity).
    rewrite H, Ha in E. discriminate.
Qed.

Lemma one_flag_active f :
  one_partpop_flag f = true -> Z.land f VM_RESERV_F_INACTIVE = 0 ->
  Z.land f VM_RESERV_F_ACTIVE <> 0.
Proof.
  unfold one_partpop_flag. intros H Hi Ha. zbool.
  match goal with H : _ <> 0 |- _ => apply H end.
  apply land_3_split. split; assumption.
Qed.

Lemma one_flag_exclusive f :
  one_partpop_flag f = true ->
  Z.land f VM_RESERV_F_INACTIVE <> 0 -> Z.land f VM_RESERV_F_ACTIVE = 0.
Proof.
  unfold one_partpop_flag. intros H Hi. zbool.
  destruct (Z.eq_dec (Z.land f VM_RESERV_F_ACTIVE) 0) as [|Ha];
    [assumption|exfalso].
  match goal with H : _ <> VM_RESERV_F_PARTPOP |- _ => apply H end.
  revert Hi Ha. change VM_RESERV_F_INACTIVE with 2.
  change VM_RESERV_F_ACTIVE with 1. change VM_RESERV_F_PARTPOP with 3.
  rewrite land_1_bit, land_2_bit. intros Hi Ha.
  apply not_false_is_true in Hi, Ha.
  apply Z.bits_inj'. intros n Hn.
  rewrite Z.land_spec, testbit_3 by lia.
  destruct (n <? 2) eqn:E; zbool; [|apply andb_false_r].
  assert (n = 0 \/ n = 1) as [->| ->] by lia; rewrite ?Hi, ?Ha; reflexivity.
Qed.

Lemma one_flag_of_active f :
  Z.land f VM_RESERV_F_PARTPOP = VM_RESERV_F_ACTIVE ->
  one_partpop_flag f = true.
Proof. intros H. unfold one_partpop_flag. rewrite H. reflexivity. Qed.

(** Evaluates comparisons of constants met during a run. *)
Ltac run_const :=
  match goal with
  | |- context [Z.eqb ?a ?b] =>
      let v := eval vm_compute in (Z.eqb a b) in
      match v with
      | true => change (Z.eqb a b) with true
      | false => change (Z.eqb a b) with false
      end
  | |- context [Z.ltb ?a ?b] =>
      let v := eval vm_compute in (Z.ltb a b) in
      match v with
      | true => change (Z.ltb a b) with true
      | false => change (Z.ltb a b) with false
      end
  end.

Ltac run' := repeat (run; try rewrite inb_remove; try run_const).

Lemma update_lru_full_runs n adv s r :
  vm_reserv_array s !! n = Some r ->
  shard_locked n s ->
  vm_page_queue_free_mtx s = MtxUnowned ->
  rv_popcnt r = VM_LEVEL_0_NPAGES ->
  one_partpop_flag (rv_flags r) = true ->
  Z.land (rv_flags r) VM_RESERV_F_MARKER = 0 ->
  In (Rv n) (lru (queue_of (rv_flags r)) s) ->
  exists s', vm_reserv_update_lru (Rv n) adv s = Ok (tt, s').
Proof.
  intros Hr (k & Hk & Hl) Hfm Hpop Hone Hmk Hin.
  destruct s as [arr mk act inact objs ps locks fm br fr rc tr].
  injection Hk as <-. unfold_state. subst fm.
  unfold queue_of in Hin.
  unfold vm_reserv_update_lru, vm_reserv_lru_dequeue.
  destruct (Z.land (rv_flags r) VM_RESERV_F_INACTIVE =? 0) eqn:Ei;
    unfold_state; apply inb_true in Hin.
  all: run'; eexists; reflexivity.
Qed.

Lemma update_lru_empty_runs n adv s r pa :
  vm_reserv_array s !! n = Some r ->
  shard_locked n s ->
  vm_page_queue_free_mtx s = MtxUnowned ->
  rv_popcnt r = 0 ->
  on_objq (Rv n) s = true ->
  rv_pages r = Some pa ->
  one_partpop_flag (rv_flags r) = true ->
  Z.land (rv_flags r) VM_RESERV_F_MARKER = 0 ->
  In (Rv n) (lru (queue_of (rv_flags r)) s) ->
  exists s', vm_reserv_update_lru (Rv n) adv s = Ok (tt, s').
Proof.
  intros Hr (k & Hk & Hl) Hfm Hpop Hq Hpg Hone Hmk Hin.
  destruct s as [arr mk act inact objs ps locks fm br fr rc tr].
  injection Hk as <-. unfold_state. subst fm.
  unfold queue_of in Hin. unfold on_objq in Hq. unfold_state.
  unfold vm_reserv_update_lru, vm_reserv_lru_dequeue, vm_reserv_set_object.
  destruct (Z.land (rv_flags r) VM_RESERV_F_INACTIVE =? 0) eqn:Ei;
    unfold_state; apply inb_true in Hin.
  all: run'; eexists; reflexivity.
Qed.

Lemma update_lru_activate_runs n adv s r :
  vm_reserv_array s !! n = Some r ->
  shard_locked n s ->
  vm_page_queue_free_mtx s = MtxUnowned ->
  0 < rv_popcnt r < VM_LEVEL_0_NPAGES ->
  Z.land (rv_flags r) VM_RESERV_F_ACTIVE = 0 ->
  Z.land (rv_flags r) VM_RESERV_F_MARKER = 0 ->
  ~ In (Rv n) (vm_rvlru_active s) ->
  (Z.land (rv_flags r) VM_RESERV_F_INACTIVE <> 0 <->
   In (Rv n) (vm_rvlru_inactive s)) ->
  exists s', vm_reserv_update_lru (Rv n) adv s = Ok (tt, s').
Proof.
  intros Hr (k & Hk & Hl) Hfm Hpop Ha Hmk Hna Hi.
  destruct s as [arr mk act inact objs ps locks fm br fr rc tr].
  injection Hk as <-. unfold_state. subst fm.
  assert (Hn : (rv_popcnt r =? VM_LEVEL_0_NPAGES) = false)
    by (apply Z.eqb_neq; lia).
  assert (H0 : (rv_popcnt r =? 0) = false) by (apply Z.eqb_neq; lia).
  apply inb_false in Hna.
  unfold vm_reserv_update_lru, vm_reserv_lru_dequeue.
  destruct (Z.land (rv_flags r) VM_RESERV_F_INACTIVE =? 0) eqn:Ei.
  - assert (Ei' : Z.land (rv_flags r) VM_RESERV_F_INACTIVE = 0)
      by (apply Z.eqb_eq; exact Ei).
    assert (Hni : inb (Rv n) inact = false).
    { apply inb_false. intros Hin. apply Hi in Hin. contradiction. }
    clear Hi Hpop Ei'.
    run'. eexists. reflexivity.
  - assert (Ei' : Z.land (rv_flags r) VM_RESERV_F_INACTIVE <> 0)
      by (apply Z.eqb_neq; exact Ei).
    pose proof (one_flag_inactive _ Ha Ei') as Hone.
    assert (Hin : inb (Rv n) inact = true)
      by (apply inb_true, Hi; exact Ei').
    clear Hi Hpop Ei'.
    run'. eexists. reflexivity.
Qed.

Lemma update_lru_bump_runs n adv s r :
  vm_reserv_array s !! n = Some r ->
  shard_locked n s ->
  0 < rv_popcnt r < VM_LEVEL_0_NPAGES ->
  Z.land (rv_flags r) VM_RESERV_F_ACTIVE <> 0 ->
  exists s', vm_reserv_update_lru (Rv n) adv s = Ok (tt, s').
Proof.
  intros Hr (k & Hk & Hl) Hpop Ha.
  destruct s as [arr mk act inact objs ps locks fm br fr rc tr].
  injection Hk as <-. unfold_state.
  assert (Hn : (rv_popcnt r =? VM_LEVEL_0_NPAGES) = false)
    by (apply Z.eqb_neq; lia).
  assert (H0 : (rv_popcnt r =? 0) = false) by (apply Z.eqb_neq; lia).
  apply Z.eqb_neq in Ha. clear Hpop.
  unfold vm_reserv_update_lru.
  run'.
  match goal with
  | |- context [if ?c then _ else _] => destruct c
  end; run'; eexists; reflexivity.
Qed.

Lemma populate_runs n index s :
  populate_pre n index s ->
  exists s', vm_reserv_populate (Rv n) index s = Ok (tt, s').
Proof.
  intros (r & Hr & (k & Hk & Hl) & Hfm & Hob & Hclr & Hpop
          & (m & kp & Hm & Hkp & Hps) & Hmk & Hact & Hinact & Hone & Hnone).
  assert (Hset : exists pm, popmap_set (rv_popmap r) index = Some pm).
  { unfold popmap_is_clear in Hclr. unfold popmap_set.
    destruct (popmap_word _ _); [eexists; reflexivity|discriminate]. }
  destruct Hset as [pm Hset].
  assert (Hlen : (n < length (vm_reserv_array s))%nat)
    by (eapply lookup_lt_Some; eassumption).
  destruct s as [arr mk act inact objs ps locks fm br fr rc tr].
  injection Hk as <-. unfold_state. subst fm.
  destruct (rv_object r) as [o|] eqn:Eo; [clear Hob|contradiction].
  rewrite VM_LEVEL_0_NPAGES_val in *.
  assert (Hlt : (rv_popcnt r <? 512) = true) by (apply Z.ltb_lt; lia).
  assert (Hu : u16 (rv_popcnt r + 1) = rv_popcnt r + 1)
    by (apply u16_id; lia).
  unfold vm_reserv_populate. rewrite VM_LEVEL_0_NPAGES_val.
  destruct (rv_popcnt r + 1 =? 512) eqn:Efull.
  - (* the reservation becomes full *)
    assert (Hp511 : rv_popcnt r = 511) by (apply Z.eqb_eq in Efull; lia).
    specialize (Hone ltac:(lia)).
    run'.
    eapply update_lru_full_runs.
    + unfold_state. apply list_lookup_insert_eq. exact Hlen.
    + eexists. split; [reflexivity|exact Hl].
    + reflexivity.
    + rnorm. rewrite VM_LEVEL_0_NPAGES_val. lia.
    + rnorm. exact Hone.
    + rnorm. exact Hmk.
    + rnorm. unfold queue_of.
      destruct (Z.land (rv_flags r) VM_RESERV_F_INACTIVE =? 0) eqn:Ei;
        unfold_state.
      * apply Hact, one_flag_active; [exact Hone|apply Z.eqb_eq, Ei].
      * apply Hinact. apply Z.eqb_neq, Ei.
  - (* it stays partially populated *)
    assert (Hp : 0 < rv_popcnt r + 1 < 512)
      by (apply Z.eqb_neq in Efull; lia).
    run'.
    destruct (Z.eq_dec (Z.land (rv_flags r) VM_RESERV_F_ACTIVE) 0) as [Ea|Ea].
    + eapply update_lru_activate_runs.
      * unfold_state. apply list_lookup_insert_eq. exact Hlen.
      * eexists. split; [reflexivity|exact Hl].
      * reflexivity.
      * rnorm. rewrite VM_LEVEL_0_NPAGES_val. exact Hp.
      * rnorm. exact Ea.
      * rnorm. exact Hmk.
      * unfold_state. intros Hin. apply Hact in Hin. contradiction.
      * rnorm. unfold_state. exact Hinact.
    + eapply update_lru_bump_runs.
      * unfold_state. apply list_lookup_insert_eq. exact Hlen.
      * eexists. split; [reflexivity|exact Hl].
      * rnorm. rewrite VM_LEVEL_0_NPAGES_val. exact Hp.
      * rnorm. exact Ea.
Qed.

(** vm_reserv_depopulate needs the reservation on an object's list only
    when it takes the last page. *)
Lemma depopulate_runs_linked n index s r :
  vm_reserv_array s !! n = Some r ->
  shard_locked n s ->
  vm_page_queue_free_mtx s = MtxUnowned ->
  rv_object r <> None ->
  (rv_popcnt r = 1 -> on_objq (Rv n) s = true) ->
  popmap_is_set (rv_popmap r) index = Some true ->
  0 < rv_popcnt r <= VM_LEVEL_0_NPAGES ->
  size_hint r s (if rv_popcnt r =? VM_LEVEL_0_NPAGES then 1 else 0) ->
  lru_consistent n r s ->
  exists s', vm_reserv_depopulate (Rv n) index s = Ok (tt, s').
Proof.
  intros Hr (k & Hk & Hl) Hfm Hob Hq Hset Hpop
    (m & kp & Hm & Hkp & Hps) (Hmk & Hact & Hinact & Hone & Hnone).
  assert (Hclr : exists pm, popmap_clear (rv_popmap r) index = Some pm).
  { unfold popmap_is_set in Hset. unfold popmap_clear.
    destruct (popmap_word _ _); [eexists; reflexivity|discriminate]. }
  destruct Hclr as [pm Hclr].
  assert (Hlen : (n < length (vm_reserv_array s))%nat)
    by (eapply lookup_lt_Some; eassumption).
  destruct s as [arr mk act inact objs ps locks fm br fr rc tr].
  injection Hk as <-. unfold_state. subst fm.
  destruct (rv_object r) as [o|] eqn:Eo; [clear Hob|contradiction].
  rewrite VM_LEVEL_0_NPAGES_val in *.
  assert (Hlt : (0 <? rv_popcnt r) = true) by (apply Z.ltb_lt; lia).
  assert (Hu : u16 (rv_popcnt r - 1) = rv_popcnt r - 1)
    by (apply u16_id; lia).
  unfold vm_reserv_depopulate. rewrite VM_LEVEL_0_NPAGES_val.
  destruct (rv_popcnt r =? 512) eqn:Efull.
  - (* the reservation was full *)
    assert (Hp512 : rv_popcnt r = 512) by (apply Z.eqb_eq; exact Efull).
    specialize (Hnone (or_intror Hp512)).
    pose proof (proj1 (land_3_split _) Hnone) as [Ea Ei].
    clear Hone. run'.
    eapply update_lru_activate_runs.
    + unfold_state. apply list_lookup_insert_eq. exact Hlen.
    + eexists. split; [reflexivity|exact Hl].
    + reflexivity.
    + rnorm. rewrite VM_LEVEL_0_NPAGES_val. lia.
    + rnorm. exact Ea.
    + rnorm. exact Hmk.
    + unfold_state. intros Hin. apply Hact in Hin. contradiction.
    + rnorm. unfold_state. exact Hinact.
  - assert (Hp : 0 < rv_popcnt r < 512) by (apply Z.eqb_neq in Efull; lia).
    specialize (Hone Hp). clear Hnone.
    destruct (Z.eq_dec (rv_popcnt r) 1) as [H1|H1].
    + (* the last page goes *)
      run'.
      eapply update_lru_empty_runs.
      * unfold_state. apply list_lookup_insert_eq. exact Hlen.
      * eexists. split; [reflexivity|exact Hl].
      * reflexivity.
      * rnorm. lia.
      * apply Hq, H1.
      * rnorm. exact Hm.
      * rnorm. exact Hone.
      * rnorm. exact Hmk.
      * rnorm. unfold queue_of.
        destruct (Z.land (rv_flags r) VM_RESERV_F_INACTIVE =? 0) eqn:Ei;
          unfold_state.
        -- apply Hact, one_flag_active; [exact Hone|apply Z.eqb_eq, Ei].
        -- apply Hinact. apply Z.eqb_neq, Ei.
    + run'.
      destruct (Z.eq_dec (Z.land (rv_flags r) VM_RESERV_F_ACTIVE) 0)
        as [Ea|Ea].
      * eapply update_lru_activate_runs.
        -- unfold_state. apply list_lookup_insert_eq. exact Hlen.
        -- eexists. split; [reflexivity|exact Hl].
        -- reflexivity.
        -- rnorm. rewrite VM_LEVEL_0_NPAGES_val. lia.
        -- rnorm. exact Ea.
        -- rnorm. exact Hmk.
        -- unfold_state. intros Hin. apply Hact in Hin. contradiction.
        -- rnorm. unfold_state. exact Hinact.
      * eapply update_lru_bump_runs.
        -- unfold_state. apply list_lookup_insert_eq. exact Hlen.
        -- eexists. split; [reflexivity|exact Hl].
        -- rnorm. rewrite VM_LEVEL_0_NPAGES_val. lia.
        -- rnorm. exact Ea.
Qed.


(** ** What populate leaves behind

    After vm_reserv_populate the slot is set, the count is one higher,
    the size hint is 1 exactly when the reservation is full, and the
    queue flags agree with the queues again: all that
    vm_reserv_depopulate of the same slot needs. *)
Lemma populate_post n index s s1 r :
  populate_pre n index s ->
  vm_reserv_array s !! n = Some r ->
  vm_reserv_populate (Rv n) index s = Ok (tt, s1) ->
  exists r1,
    vm_reserv_array s1 !! n = Some r1 /\
    shard_locked n s1 /\
    vm_page_queue_free_mtx s1 = MtxUnowned /\
    rv_object r1 <> None /\
    on_objq (Rv n) s1 = on_objq (Rv n) s /\
    popmap_is_set (rv_popmap r1) index = Some true /\
    rv_popcnt r1 = rv_popcnt r + 1 /\
    size_hint r1 s1 (if rv_popcnt r1 =? VM_LEVEL_0_NPAGES then 1 else 0) /\
    lru_consistent n r1 s1.
Proof.
  intros (r0 & Hr0 & (kl & Hkl & Hl) & Hfm & Hob & _ & Hpop & _
          & Hmk & Hact & Hinact & Hone & Hnone) Hr Hp.
  assert (r0 = r) by congruence. subst r0.
  apply populate_inv in Hp
    as (r0 & m & k & pm & Hr0' & _ & Hclr & Hlt & Hm & Hk & Hps & Hset & Hup).
  assert (r0 = r) by congruence. subst r0. cbv zeta in Hup.
  pose proof (popmap_set_is_set _ _ _ Hset) as Hisset.
  assert (Hlen : (n < length (vm_reserv_array s))%nat)
    by (eapply lookup_lt_Some; eassumption).
  assert (Hklen : (k < length (psind s))%nat)
    by (eapply lookup_lt_Some; eassumption).
  rewrite VM_LEVEL_0_NPAGES_val in *.
  rewrite u16_small in Hup by lia.
  destruct (rv_popcnt r + 1 =? 512) eqn:Efull; zbool.
  - eapply update_lru_full_inv in Hup;
      [|apply put_rv_lookup, Hlen|cbn; rewrite VM_LEVEL_0_NPAGES_val; lia].
    destruct Hup as (Hf & _ & Hq & _ & ->).
    destruct s as [arr mk act inact objs ps locks fm br fr rc tr].
    unfold dequeued, put_rv in *. rnorm. unfold on_objq, shard_locked, size_hint, lru_consistent.
    destruct (queue_of (rv_flags r)) eqn:Eq; unfold_state; lnorm; rnorm.
    all: eexists; split; [reflexivity|]; rnorm.
    all: split; [eexists; split; [exact Hkl|exact Hl]|].
    all: split; [exact Hfm|]. all: split; [exact Hob|].
    all: split; [reflexivity|]. all: split; [exact Hisset|].
    all: split; [reflexivity|].
    all: split;
      [exists m, k; split; [exact Hm|]; split; [exact Hk|];
       rewrite list_lookup_insert_eq by exact Hklen;
       rewrite (proj2 (Z.eqb_eq _ _) Efull); reflexivity|].
    all: split; [apply clear_partpop_marker, Hmk|].
    all: unfold queue_of in Eq;
      destruct (Z.land (rv_flags r) VM_RESERV_F_INACTIVE =? 0) eqn:Ei;
      try discriminate; zbool.
    + split; [rewrite clear_partpop_active; split;
               [congruence|intros H; apply remove_In in H; destruct H]|].
      split; [rewrite clear_partpop_inactive; split;
               [congruence|intros H; apply Hinact in H; contradiction]|].
      split; [intros; rewrite VM_LEVEL_0_NPAGES_val in *; lia|].
      intros _. apply clear_partpop_land.
    + pose proof (one_flag_exclusive _ Hf Ei) as Ea.
      split; [rewrite clear_partpop_active; split;
               [congruence|intros H; apply Hact in H; contradiction]|].
      split; [rewrite clear_partpop_inactive; split;
               [congruence|intros H; apply remove_In in H; destruct H]|].
      split; [intros; rewrite VM_LEVEL_0_NPAGES_val in *; lia|].
      intros _. apply clear_partpop_land.
  - destruct (Z.eq_dec (Z.land (rv_flags r) VM_RESERV_F_ACTIVE) 0) as [Ea|Ea].
    + eapply update_lru_activate_inv in Hup;
        [|apply put_rv_lookup, Hlen
         |cbn; rewrite VM_LEVEL_0_NPAGES_val; lia|cbn; lia|exact Ea].
      destruct Hup as (_ & _ & _ & _ & ->).
      destruct s as [arr mk act inact objs ps locks fm br fr rc tr].
      unfold activated, put_rv in *. rnorm.
      unfold on_objq, shard_locked, size_hint, lru_consistent.
      destruct (Z.land (rv_flags r) VM_RESERV_F_INACTIVE =? 0) eqn:Ei;
        unfold_state; lnorm; rnorm; zbool.
      all: eexists; split; [reflexivity|]; rnorm.
      all: split; [eexists; split; [exact Hkl|exact Hl]|].
      all: split; [exact Hfm|]. all: split; [exact Hob|].
      all: split; [reflexivity|]. all: split; [exact Hisset|].
      all: split; [reflexivity|].
      all: split;
        [exists m, k; split; [exact Hm|]; split; [exact Hk|];
         rewrite ?VM_LEVEL_0_NPAGES_val;
         rewrite (proj2 (Z.eqb_neq _ _) Efull); exact Hps|].
      * split; [apply set_active_marker, Hmk|].
        split; [split; [intros _; apply in_or_app; right; left; reflexivity
                       |intros _; apply set_active_bit]|].
        split; [rewrite set_active_inactive; exact Hinact|].
        split; [intros _; apply one_flag_of_active, set_active_partpop,
                  land_3_split; split; assumption|].
        intros; rewrite VM_LEVEL_0_NPAGES_val in *; lia.
      * split; [apply set_active_marker, clear_partpop_marker, Hmk|].
        split; [split; [intros _; apply in_or_app; right; left; reflexivity
                       |intros _; apply set_active_bit]|].
        split; [rewrite set_active_inactive; split;
                 [intros H; contradiction H; apply clear_partpop_inactive
                 |intros H; apply remove_In in H; destruct H]|].
        split; [intros _; apply one_flag_of_active, set_active_partpop,
                  clear_partpop_land|].
        intros; rewrite VM_LEVEL_0_NPAGES_val in *; lia.
    + eapply update_lru_bump_inv in Hup;
        [|apply put_rv_lookup, Hlen
         |cbn; rewrite VM_LEVEL_0_NPAGES_val; lia|cbn; lia|exact Ea].
      subst s1.
      destruct s as [arr mk act inact objs ps locks fm br fr rc tr].
      unfold put_rv in *. rnorm.
      unfold on_objq, shard_locked, size_hint, lru_consistent.
      unfold_state; lnorm; rnorm.
      eexists; split; [reflexivity|]; rnorm.
      split; [eexists; split; [exact Hkl|exact Hl]|].
      split; [exact Hfm|]. split; [exact Hob|].
      split; [reflexivity|]. split; [exact Hisset|].
      split; [reflexivity|].
      split;
        [exists m, k; split; [exact Hm|]; split; [exact Hk|];
         rewrite ?VM_LEVEL_0_NPAGES_val;
         rewrite (proj2 (Z.eqb_neq _ _) Efull); exact Hps|].
      split; [exact Hmk|]. split; [exact Hact|]. split; [exact Hinact|].
      split; [|intros; rewrite VM_LEVEL_0_NPAGES_val in *; lia].
      intros _. apply Hone.
      destruct (Z.eq_dec (rv_popcnt r) 0) as [H0|H0]; [|lia].
      exfalso. apply Ea. apply (proj1 (land_3_split _) (Hnone (or_introl H0))).
Qed.

(** ** The free-queue lock

    vm_reserv_populate and vm_reserv_depopulate take the free-queue lock
    in the LRU update procedure.  The lemmas above are about a free lock;
    when another thread holds it the functions wait for it where they
    would take it, and every assertion before that point holds. *)



















(** ** Populate followed by depopulate *)

(** C5 (amended).  Let reservation n satisfy the preconditions of
    vm_reserv_populate at slot [index] (shard lock held, free-queue lock
    not held, object bound, slot clear, popcnt < N, size hint 0, queue
    flags in agreement with the LRU queues and with popcnt) and hold at
    least one page already (0 < popcnt), with a well-typed popmap.  Then
    vm_reserv_populate(R, index) immediately followed by
    vm_reserv_depopulate(R, index) both run to completion and restore
    object, pindex, pages, seq, popcnt and popmap of R, every other
    reservation, the scan marker, the objects and their reservation lists,
    the size hints, the locks and the three counters.  What is left of the
    pair depends on where R stood:
    - R was ACTIVE and popcnt < N - 1: flags, both queues and the trace are
      unchanged, and actcnt has been advanced twice, by RV_POP_STEP and by
      RV_DEPOP_STEP, each time saturating at RV_ACT_MAX; for an actcnt in
      [0, RV_ACT_MAX] this is min(actcnt + 2, RV_ACT_MAX);
    - otherwise (R was INACTIVE, or popcnt = N - 1 so that R was promoted
      and demoted again): R ends flagged ACTIVE only, at the tail of the
      active queue and off the inactive queue, with actcnt = RV_INIT when
      popcnt = N - 1 and RV_INIT advanced by RV_DEPOP_STEP otherwise; the
      size hint was written twice (1 then 0) in the promoted case. *)
Theorem populate_then_depopulate n index s r :
    vm_reserv_array s !! n = Some r ->
    0 < rv_popcnt r ->
    popmap_typed (rv_popmap r) ->
    (populate_pre n index s ->
     exists s1 s2,
       vm_reserv_populate (Rv n) index s = Ok (tt, s1) /\
       vm_reserv_depopulate (Rv n) index s1 = Ok (tt, s2)) /\
    forall s1 s2,
      vm_reserv_populate (Rv n) index s = Ok (tt, s1) ->
      vm_reserv_depopulate (Rv n) index s1 = Ok (tt, s2) ->
      exists r2,
        vm_reserv_array s2 !! n = Some r2 /\
        rv_object r2 = rv_object r /\ rv_pindex r2 = rv_pindex r /\
        rv_pages r2 = rv_pages r /\ rv_seq r2 = rv_seq r /\
        rv_popcnt r2 = rv_popcnt r /\ rv_popmap r2 = rv_popmap r /\
        vm_reserv_array s2 = <[n := r2]> (vm_reserv_array s) /\
        scan_marker s2 = scan_marker s /\
        vm_objects s2 = vm_objects s /\
        psind s2 = psind s /\
        rv_lock s2 = rv_lock s /\
        vm_page_queue_free_mtx s2 = vm_page_queue_free_mtx s /\
        vm_reserv_broken s2 = vm_reserv_broken s /\
        vm_reserv_freed s2 = vm_reserv_freed s /\
        vm_reserv_reclaimed s2 = vm_reserv_reclaimed s /\
        ((Z.land (rv_flags r) VM_RESERV_F_ACTIVE <> 0 /\
          rv_popcnt r + 1 < VM_LEVEL_0_NPAGES /\
          rv_flags r2 = rv_flags r /\
          rv_actcnt r2 =
            bump_actcnt (bump_actcnt (rv_actcnt r) RV_POP_STEP) RV_DEPOP_STEP /\
          (0 <= rv_actcnt r <= RV_ACT_MAX ->
           rv_actcnt r2 = Z.min (rv_actcnt r + 2) RV_ACT_MAX) /\
          vm_rvlru_active s2 = vm_rvlru_active s /\
          vm_rvlru_inactive s2 = vm_rvlru_inactive s /\
          trace s2 = trace s) \/
         (~ (Z.land (rv_flags r) VM_RESERV_F_ACTIVE <> 0 /\
             rv_popcnt r + 1 < VM_LEVEL_0_NPAGES) /\
          Z.land (rv_flags r2) VM_RESERV_F_PARTPOP = VM_RESERV_F_ACTIVE /\
          rv_actcnt r2 =
            (if rv_popcnt r + 1 =? VM_LEVEL_0_NPAGES then RV_INIT
             else bump_actcnt RV_INIT RV_DEPOP_STEP) /\
          vm_rvlru_active s2 =
            remove rvref_eq_dec (Rv n) (vm_rvlru_active s) ++ [Rv n] /\
          vm_rvlru_inactive s2 =
            remove rvref_eq_dec (Rv n) (vm_rvlru_inactive s) /\
          exists m, rv_pages r = Some m /\
            trace s2 = trace s ++
              (if rv_popcnt r + 1 =? VM_LEVEL_0_NPAGES
               then [EvStorePsind m 1; EvStorePsind m 0] else []))).
Proof.
  intros Hr Hpos Hty. split.
  - intros Hpre.
    destruct (populate_runs _ _ _ Hpre) as [s1 Hp].
    destruct (populate_post _ _ _ _ _ Hpre Hr Hp)
      as (r1 & Hr1 & Hlock & Hfm & Hob & _ & Hset & Hpc & Hsz & Hcons).
    assert (Hlt : rv_popcnt r < VM_LEVEL_0_NPAGES).
    { destruct Hpre as (r0 & Hr0 & _ & _ & _ & _ & Hlt & _).
      assert (r0 = r) by congruence. subst r0. lia. }
    destruct (depopulate_runs_linked n index s1 r1) as [s2 Hd];
      try assumption; try lia.
    exists s1, s2. split; [exact Hp|exact Hd].
  - intros s1 s2 Hp Hd.
    eapply populate_depopulate_restores; eassumption.
Qed.

(** C5, as stated, fails on an ordinary state: reservation 0 holds one page
    of object 0, is ACTIVE with actcnt = RV_INIT = 2 and its shard lock is
    held; slot 1 is clear.  Populate then depopulate of slot 1 succeed and
    leave actcnt = 4, two above its prior value. *)
Lemma populate_depopulate_actcnt_off_by_two :
  ~ (forall n index s s1 s2 r r2,
       vm_reserv_array s !! n = Some r ->
       rv_object r <> None ->
       popmap_is_clear (rv_popmap r) index = Some true ->
       rv_popcnt r < VM_LEVEL_0_NPAGES ->
       vm_reserv_populate (Rv n) index s = Ok (tt, s1) ->
       vm_reserv_depopulate (Rv n) index s1 = Ok (tt, s2) ->
       vm_reserv_array s2 !! n = Some r2 ->
       Z.abs (rv_actcnt r2 - rv_actcnt r) <= 1).
Proof.
  intros H.
  destruct (vm_reserv_populate (Rv 0) 1 s_one_page_locked)
    as [[[] s1]|] eqn:E1; [|vm_compute in E1; discriminate].
  destruct (vm_reserv_depopulate (Rv 0) 1 s1)
    as [[[] s2]|] eqn:E2;
    [|vm_compute in E1; injection E1 as <-; vm_compute in E2; discriminate].
  destruct (vm_reserv_array s_one_page_locked !! 0%nat) as [r|] eqn:Er;
    [|vm_compute in Er; discriminate].
  destruct (vm_reserv_array s2 !! 0%nat) as [r2|] eqn:Er2;
    [|vm_compute in E1; injection E1 as <-; vm_compute in E2;
      injection E2 as <-; vm_compute in Er2; discriminate].
  specialize (H 0%nat 1 s_one_page_locked s1 s2 r r2 Er).
  vm_compute in Er. injection Er as <-.
  vm_compute in E1. injection E1 as <-.
  vm_compute in E2. injection E2 as <-.
  vm_compute in Er2. injection Er2 as <-.
  specialize (H ltac:(discriminate) ltac:(reflexivity) ltac:(reflexivity)
                ltac:(reflexivity) ltac:(reflexivity) ltac:(reflexivity)).
  vm_compute in H. apply H. reflexivity.
Qed.

(** The preconditions of populate hold of an active reservation with one
    page, at a clear slot, and of one that is a page short of full. *)
Lemma s_one_page_locked_pre : populate_pre 0 1 s_one_page_locked.
Proof.
  eexists. split; [vm_compute; reflexivity|].
  split; [exists 0%nat; split; vm_compute; reflexivity|].
  split; [vm_compute; reflexivity|].
  split; [vm_compute; discriminate|].
  split; [vm_compute; reflexivity|].
  split; [vm_compute; split; [discriminate|reflexivity]|].
  split.
  { exists 0, 0%nat. split; [vm_compute; reflexivity|].
    split; vm_compute; reflexivity. }
  split; [vm_compute; reflexivity|].
  split.
  { split; [intros _; vm_compute; auto|intros _; vm_compute; discriminate]. }
  split.
  { split; [intros H; exfalso; apply H; vm_compute; reflexivity
           |intros H; vm_compute in H; contradiction]. }
  split; [intros _; vm_compute; reflexivity|].
  intros [H|H]; vm_compute in H; discriminate.
Qed.

Lemma s_almost_full_pre : populate_pre 0 511 s_almost_full.
Proof.
  eexists. split; [vm_compute; reflexivity|].
  split; [exists 0%nat; split; vm_compute; reflexivity|].
  split; [vm_compute; reflexivity|].
  split; [vm_compute; discriminate|].
  split; [vm_compute; reflexivity|].
  split; [vm_compute; split; [discriminate|reflexivity]|].
  split.
  { exists 0, 0%nat. split; [vm_compute; reflexivity|].
    split; vm_compute; reflexivity. }
  split; [vm_compute; reflexivity|].
  split.
  { split; [intros _; vm_compute; auto|intros _; vm_compute; discriminate]. }
  split.
  { split; [intros H; exfalso; apply H; vm_compute; reflexivity
           |intros H; vm_compute in H; contradiction]. }
  split; [intros _; vm_compute; reflexivity|].
  intros [H|H]; vm_compute in H; discriminate.
Qed.

(** Two instances: an active reservation with one page (actcnt goes from
    2 to 4), and one that is a page short of full (actcnt goes from 64
    back to RV_INIT as the reservation is promoted and demoted). *)
Lemma populate_then_depopulate_witness :
  (exists s1 s2 r,
     vm_reserv_populate (Rv 0) 1 s_one_page_locked = Ok (tt, s1) /\
     vm_reserv_depopulate (Rv 0) 1 s1 = Ok (tt, s2) /\
     vm_reserv_array s_one_page_locked !! 0%nat = Some r /\
     exists r2,
       vm_reserv_array s2 !! 0%nat = Some r2 /\
       rv_popcnt r2 = rv_popcnt r /\ rv_popmap r2 = rv_popmap r /\
       rv_actcnt r = 2 /\ rv_actcnt r2 = 4) /\
  (exists s1 s2 r,
     vm_reserv_populate (Rv 0) 511 s_almost_full = Ok (tt, s1) /\
     vm_reserv_depopulate (Rv 0) 511 s1 = Ok (tt, s2) /\
     vm_reserv_array s_almost_full !! 0%nat = Some r /\
     exists r2,
       vm_reserv_array s2 !! 0%nat = Some r2 /\
       rv_popcnt r2 = rv_popcnt r /\ rv_popmap r2 = rv_popmap r /\
       rv_actcnt r = 64 /\ rv_actcnt r2 = 2).
Proof.
  split.
  - eassert (Hr : vm_reserv_array s_one_page_locked !! 0%nat = Some _)
      by (vm_compute; reflexivity).
    destruct (populate_then_depopulate 0 1 s_one_page_locked _ Hr) as [Hrun Hres];
      [reflexivity | split; [reflexivity|cbn; repeat constructor; lia] |].
    destruct (Hrun s_one_page_locked_pre) as (s1 & s2 & Hp & Hd).
    destruct (Hres s1 s2 Hp Hd)
      as (r2 & Hr2 & _ & _ & _ & _ & Hpc & Hpm & _ & _ & _ & _ & _ & _ & _
          & _ & _ & Hcase).
    exists s1, s2. eexists.
    split; [exact Hp|]. split; [exact Hd|]. split; [exact Hr|].
    exists r2. split; [exact Hr2|].
    split; [exact Hpc|]. split; [exact Hpm|].
    split; [reflexivity|].
    destruct Hcase as [(_ & _ & _ & _ & Hmin & _)|(Hn & _)].
    + rewrite Hmin by (vm_compute; split; discriminate). reflexivity.
    + exfalso. apply Hn.
      split; [vm_compute; discriminate|vm_compute; reflexivity].
  - eassert (Hr : vm_reserv_array s_almost_full !! 0%nat = Some _)
      by (vm_compute; reflexivity).
    destruct (populate_then_depopulate 0 511 s_almost_full _ Hr) as [Hrun Hres];
      [reflexivity | split; [reflexivity|cbn; repeat constructor; lia] |].
    destruct (Hrun s_almost_full_pre) as (s1 & s2 & Hp & Hd).
    destruct (Hres s1 s2 Hp Hd)
      as (r2 & Hr2 & _ & _ & _ & _ & Hpc & Hpm & _ & _ & _ & _ & _ & _ & _
          & _ & _ & Hcase).
    exists s1, s2. eexists.
    split; [exact Hp|]. split; [exact Hd|]. split; [exact Hr|].
    exists r2. split; [exact Hr2|].
    split; [exact Hpc|]. split; [exact Hpm|].
    split; [reflexivity|].
    destruct Hcase as [(_ & Hlt & _)|(_ & _ & Hact & _)].
    + exfalso. vm_compute in Hlt. discriminate.
    + rewrite Hact. reflexivity.
Defined.
(** * Further properties of the code *)

(** ** Index arithmetic *)

Lemma land_low_mod x : Z.land (u64 x) (VM_LEVEL_0_NPAGES - 1) = x mod VM_LEVEL_0_NPAGES.
Proof.
  unfold u64. change (VM_LEVEL_0_NPAGES - 1) with (Z.ones 9).
  rewrite Z.land_ones by lia. rewrite VM_LEVEL_0_NPAGES_val.
  change (2 ^ 64) with (2 ^ 9 * 2 ^ 55). change (2 ^ 9) with 512.
  rewrite Z.rem_mul_r by lia.
  rewrite Z.mul_comm, Z.mod_add by lia. apply Z.mod_mod. lia.
Qed.

(** X1. VM_RESERV_INDEX(object, pindex) is (pg_color + pindex) mod
    VM_LEVEL_0_NPAGES: it lies in [0, VM_LEVEL_0_NPAGES), and the pindex of
    the first page of the reservation, pindex - index, plus the colour is
    a multiple of VM_LEVEL_0_NPAGES. *)
Theorem reserv_index_is_offset_in_superpage ob pindex :
  VM_RESERV_INDEX ob pindex = (o_pg_color ob + pindex) mod VM_LEVEL_0_NPAGES /\
  0 <= VM_RESERV_INDEX ob pindex < VM_LEVEL_0_NPAGES /\
  (o_pg_color ob + (pindex - VM_RESERV_INDEX ob pindex)) mod VM_LEVEL_0_NPAGES
  = 0.
Proof.
  unfold VM_RESERV_INDEX. rewrite land_low_mod.
  split; [reflexivity|]. split.
  - apply Z.mod_pos_bound. rewrite VM_LEVEL_0_NPAGES_val. lia.
  - rewrite VM_LEVEL_0_NPAGES_val.
    replace (o_pg_color ob + (pindex - (o_pg_color ob + pindex) mod 512))
      with (512 * ((o_pg_color ob + pindex) / 512))
      by (pose proof (Z.div_mod (o_pg_color ob + pindex) 512); lia).
    rewrite Z.mul_comm. apply Z.mod_mul. lia.
Qed.

Lemma land_high_zero x :
  0 <= x < 2 ^ 64 ->
  Z.land x (not64 (VM_LEVEL_0_NPAGES - 1)) = 0 <-> x < VM_LEVEL_0_NPAGES.
Proof.
  intros Hx. rewrite VM_LEVEL_0_NPAGES_val.
  assert (E : Z.land x (not64 (512 - 1)) = 512 * (x / 512)).
  { apply Z.bits_inj'. intros n Hn.
    rewrite Z.land_spec, not64_testbit by lia.
    change (512 - 1) with (Z.ones 9).
    replace (512 * (x / 512)) with (Z.shiftl (Z.shiftr x 9) 9)
      by (rewrite Z.shiftl_mul_pow2, Z.shiftr_div_pow2 by lia;
          change (2 ^ 9) with 512; lia).
    destruct (n <? 9) eqn:E9; zbool.
    - rewrite Z.ones_spec_low by lia.
      rewrite Z.shiftl_spec_low by lia.
      rewrite andb_false_r, andb_false_r. reflexivity.
    - rewrite Z.ones_spec_high by lia.
      rewrite Z.shiftl_spec, Z.shiftr_spec by lia.
      replace (n - 9 + 9) with n by lia.
      destruct (n <? 64) eqn:E64; zbool.
      + cbn [negb andb]. rewrite andb_true_r. reflexivity.
      + rewrite (word_testbit_high x n) by lia. reflexivity. }
  rewrite E. split; intros H.
  - assert (x / 512 = 0) by lia.
    apply Z.div_small_iff in H0; lia.
  - rewrite Z.div_small by lia. reflexivity.
Qed.


Lemma page_at_frame base k :
  0 <= base -> base mod VM_LEVEL_0_SIZE = 0 -> 0 <= k < VM_LEVEL_0_NPAGES ->
  vm_reserv_from_page (page_at base k) = vm_reserv_from_page base /\
  page_diff (page_at base k) base = k.
Proof.
  intros Hb Hal Hk. unfold vm_reserv_from_page, page_at, page_diff.
  rewrite VM_LEVEL_0_NPAGES_val in Hk.
  change VM_LEVEL_0_SIZE with (2 ^ 21) in Hal.
  change VM_LEVEL_0_SHIFT with 21. change PAGE_SIZE with 4096.
  split.
  - f_equal. f_equal. rewrite !Z.shiftr_div_pow2 by lia.
    apply Z.mod_divide in Hal; [|lia]. destruct Hal as [q ->].
    rewrite Z.div_mul by lia.
    rewrite Z.add_comm, Z.div_add by lia.
    rewrite Z.div_small by (change (2 ^ 21) with 2097152; lia). lia.
  - replace (base + k * 4096 - base) with (k * 4096) by lia.
    apply Z.div_mul. lia.
Qed.

(** X3. For a superpage-aligned physical address base and
    0 <= k < VM_LEVEL_0_NPAGES, vm_reserv_from_page maps the k-th page of
    the frame at base to the same reservation as base itself, and the page
    difference m - rv->pages of that page is k. *)
Theorem pages_of_a_frame_share_the_reservation base k :
  0 <= base -> base mod VM_LEVEL_0_SIZE = 0 -> 0 <= k < VM_LEVEL_0_NPAGES ->
  vm_reserv_from_page (page_at base k) = vm_reserv_from_page base /\
  page_diff (page_at base k) base = k.
Proof. apply page_at_frame. Qed.

(** X3 on a concrete state. *)
Lemma pages_of_a_frame_share_the_reservation_witness :
  vm_reserv_from_page (page_at (3 * VM_LEVEL_0_SIZE) 511) = Rv 3 /\
  page_diff (page_at (3 * VM_LEVEL_0_SIZE) 511) (3 * VM_LEVEL_0_SIZE) = 511.
Proof.
  destruct (pages_of_a_frame_share_the_reservation (3 * VM_LEVEL_0_SIZE) 511)
    as [H1 H2]; [vm_compute; discriminate | reflexivity
                | split; [discriminate|reflexivity] |].
  split; [rewrite H1; reflexivity|exact H2].
Defined.

(** ** The population map *)

Lemma clear_then_set_bit w b :
  0 <= w < 2 ^ 64 -> 0 <= b < 64 -> Z.testbit w b = true ->
  Z.lor (Z.land w (not64 (Z.shiftl 1 b))) (Z.shiftl 1 b) = w.
Proof.
  intros Hw Hb Hc. apply Z.bits_inj'. intros n Hn.
  rewrite Z.lor_spec, Z.land_spec, not64_testbit, shiftl_1_testbit by lia.
  destruct (n <? 64) eqn:E1; zbool.
  - destruct (n =? b) eqn:E2; zbool.
    + subst. rewrite Hc. reflexivity.
    + rewrite orb_false_r, andb_true_r. reflexivity.
  - rewrite (word_testbit_high w n) by lia. cbn.
    destruct (n =? b) eqn:E2; zbool; [lia|reflexivity].
Qed.

(** popmap_clear on a set bit is undone by popmap_set. *)
Lemma popmap_clear_set popmap i pm :
  popmap_typed popmap ->
  popmap_is_set popmap i = Some true ->
  popmap_clear popmap i = Some pm ->
  popmap_typed pm /\
  popmap_is_clear pm i = Some true /\
  popmap_set pm i = Some popmap.
Proof.
  unfold popmap_is_set, popmap_is_clear, popmap_set, popmap_clear,
    popmap_store.
  intros Ht Hc Hs.
  destruct (popmap_word popmap (i / NBPOPMAP)) as [w|] eqn:Hw;
    [|discriminate].
  pose proof (index_in_range _ _ _ Hw) as Hi.
  pose proof (index_split _ Hi) as [Hq Hb].
  pose proof (popmap_typed_word _ _ _ Ht Hw) as Hr.
  pose proof Hw as Hw0.
  apply popmap_word_Some in Hw as [_ Hw].
  injection Hc as Hc. injection Hs as <-. zbool.
  assert (Hbit : Z.testbit w (i mod NBPOPMAP) = true).
  { destruct (Z.testbit w (i mod NBPOPMAP)) eqn:E; [reflexivity|].
    exfalso. apply Hc. apply land_bit_zero; [lia|exact E]. }
  assert (Hlook : popmap_word
            (<[Z.to_nat (i / NBPOPMAP) :=
                 Z.land w (not64 (Z.shiftl 1 (i mod NBPOPMAP)))]> popmap)
            (i / NBPOPMAP)
          = Some (Z.land w (not64 (Z.shiftl 1 (i mod NBPOPMAP))))).
  { apply popmap_word_Some. split; [assumption|].
    apply list_lookup_insert_eq. eapply lookup_lt_Some, Hw. }
  rewrite Hlook. split.
  { apply (popmap_store_typed popmap (i / NBPOPMAP)); [assumption|].
    apply land_range; [assumption|]. apply u64_range. }
  split.
  { f_equal. apply Z.eqb_eq. apply land_bit_zero; [lia|].
    rewrite Z.land_spec, not64_testbit, shiftl_1_testbit, Z.eqb_refl by lia.
    rewrite andb_false_r, andb_false_r. reflexivity. }
  f_equal. rewrite list_insert_insert_eq.
  rewrite clear_then_set_bit by (rewrite ?NBPOPMAP_val in *; lia || assumption).
  apply list_insert_id, Hw.
Qed.

(** X4. popmap_set on a bit that popmap_is_clear reports clear keeps
    the map an array of NPOPMAP 64-bit words, sets bit i and no other,
    raises the number of set bits by one, makes popmap_is_set true and
    popmap_is_clear false for i, and is undone by popmap_clear. *)
Theorem popmap_set_sets_one_bit popmap i pm :
  popmap_typed popmap ->
  popmap_is_clear popmap i = Some true ->
  popmap_set popmap i = Some pm ->
  popmap_typed pm /\
  (forall k, popmap_bit pm k = (k =? i) || popmap_bit popmap k) /\
  popcount pm = popcount popmap + 1 /\
  popmap_is_set pm i = Some true /\
  popmap_is_clear pm i = Some false /\
  popmap_clear pm i = Some popmap.
Proof.
  intros Ht Hc Hs.
  destruct (popmap_set_bits _ _ _ Ht Hc Hs) as (_ & _ & Ht1 & Hbits & Hcnt).
  pose proof (popmap_set_is_set _ _ _ Hs) as Hset.
  split; [exact Ht1|]. split; [exact Hbits|]. split; [exact Hcnt|].
  split; [exact Hset|]. split.
  - unfold popmap_is_set in Hset. unfold popmap_is_clear.
    destruct (popmap_word pm (i / NBPOPMAP)); [|discriminate].
    injection Hset as Hset. f_equal. apply negb_true_iff, Hset.
  - eapply popmap_set_clear; eassumption.
Qed.

(** X4 on a concrete state. *)
Lemma popmap_set_sets_one_bit_witness :
  exists pm,
    popmap_set popmap_zero 70 = Some pm /\
    popcount pm = 1 /\
    popmap_bit pm 70 = true /\ popmap_bit pm 69 = false /\
    popmap_clear pm 70 = Some popmap_zero.
Proof.
  eexists. split; [vm_compute; reflexivity|].
  destruct (popmap_set_sets_one_bit popmap_zero 70 _
              ltac:(split; [reflexivity|cbn; repeat constructor; lia])
              ltac:(vm_compute; reflexivity) ltac:(vm_compute; reflexivity))
    as (_ & Hbits & Hcnt & _ & _ & Hback).
  split; [rewrite Hcnt; reflexivity|].
  split; [rewrite Hbits; reflexivity|].
  split; [rewrite Hbits; reflexivity|exact Hback].
Defined.

(** X5. popmap_clear on a bit that popmap_is_set reports set keeps
    the map an array of NPOPMAP 64-bit words, clears bit i and no other,
    lowers the number of set bits by one, makes popmap_is_clear true and
    popmap_is_set false for i, and is undone by popmap_set. *)
Theorem popmap_clear_clears_one_bit popmap i pm :
  popmap_typed popmap ->
  popmap_is_set popmap i = Some true ->
  popmap_clear popmap i = Some pm ->
  popmap_typed pm /\
  (forall k, popmap_bit pm k = negb (k =? i) && popmap_bit popmap k) /\
  popcount pm = popcount popmap - 1 /\
  popmap_is_clear pm i = Some true /\
  popmap_is_set pm i = Some false /\
  popmap_set pm i = Some popmap.
Proof.
  intros Ht Hc Hs.
  destruct (popmap_clear_set _ _ _ Ht Hc Hs) as (Ht1 & Hclr & Hback).
  destruct (popmap_set_bits _ _ _ Ht1 Hclr Hback)
    as (_ & Hbit & _ & Hbits & Hcnt).
  split; [exact Ht1|]. split.
  { intros k. rewrite (Hbits k).
    destruct (k =? i) eqn:E; zbool; [subst; exact Hbit|reflexivity]. }
  split; [lia|]. split; [exact Hclr|]. split; [|exact Hback].
  unfold popmap_is_clear in Hclr. unfold popmap_is_set.
  destruct (popmap_word pm (i / NBPOPMAP)); [|discriminate].
  injection Hclr as Hclr. rewrite Hclr. reflexivity.
Qed.

(** X5 on a concrete state. *)
Lemma popmap_clear_clears_one_bit_witness :
  exists pm,
    popmap_clear [0; 96; 0; 0; 0; 0; 0; 0] 70 = Some pm /\
    popcount pm = 1 /\
    popmap_bit pm 70 = false /\ popmap_bit pm 69 = true /\
    popmap_set pm 70 = Some [0; 96; 0; 0; 0; 0; 0; 0].
Proof.
  eexists. split; [vm_compute; reflexivity|].
  destruct (popmap_clear_clears_one_bit [0; 96; 0; 0; 0; 0; 0; 0] 70 _
              ltac:(split; [reflexivity|cbn; repeat constructor; lia])
              ltac:(vm_compute; reflexivity) ltac:(vm_compute; reflexivity))
    as (_ & Hbits & Hcnt & _ & _ & Hback).
  split; [rewrite Hcnt; reflexivity|].
  split; [rewrite Hbits; reflexivity|].
  split; [rewrite Hbits; reflexivity|exact Hback].
Defined.

(** ** The population count *)

Lemma popcount_bounds popmap : 0 <= popcount popmap <= VM_LEVEL_0_NPAGES.
Proof.
  unfold popcount.
  pose proof (count_bits_bounds (popmap_bit popmap) 0
                (Z.to_nat VM_LEVEL_0_NPAGES)) as H.
  rewrite VM_LEVEL_0_NPAGES_val in *. lia.
Qed.

(** The LRU update procedure after slot n was rewritten with a record
    that satisfies the invariant. *)
Lemma population_after_update n adv s r1 smid u s' :
  population_ok s ->
  (n < length (vm_reserv_array s))%nat ->
  vm_reserv_array smid = <[n := r1]> (vm_reserv_array s) ->
  popmap_typed (rv_popmap r1) ->
  rv_popcnt r1 = popcount (rv_popmap r1) ->
  vm_reserv_update_lru (Rv n) adv smid = Ok (u, s') ->
  population_ok s' /\
  (exists r', vm_reserv_array s' !! n = Some r' /\
     rv_popcnt r' = rv_popcnt r1 /\ rv_popmap r' = rv_popmap r1) /\
  (forall k r, k <> n -> vm_reserv_array s !! k = Some r ->
     vm_reserv_array s' !! k = Some r).
Proof.
  intros Hok Hlen Hmid Ht Hc Hup.
  apply update_lru_population in Hup as (_ & Hl & Hpop).
  assert (Hn : vm_reserv_array smid !! n = Some r1)
    by (rewrite Hmid; apply list_lookup_insert_eq, Hlen).
  split; [|split].
  - intros k r' Hr'.
    assert (Hk : (k < length (vm_reserv_array smid))%nat)
      by (rewrite <- Hl; eapply lookup_lt_Some, Hr').
    destruct (lookup_lt_is_Some_2 _ _ Hk) as [r0 Hr0].
    destruct (Hpop k r0 Hr0) as (r2 & Hr2 & Hc2 & Hm2 & _ & _ & _).
    assert (r2 = r') by congruence. subst r2.
    unfold rec_ok. rewrite Hc2, Hm2.
    destruct (decide (k = n)) as [->|Hne].
    + assert (r0 = r1) by congruence. subst r0. split; assumption.
    + rewrite Hmid, list_lookup_insert_ne in Hr0 by congruence.
      apply (Hok k r0 Hr0).
  - destruct (Hpop n r1 Hn) as (r' & Hr' & Hc' & Hm' & _).
    exists r'. repeat split; assumption.
  - intros k r Hne Hr.
    assert (Hr0 : vm_reserv_array smid !! k = Some r)
      by (rewrite Hmid, list_lookup_insert_ne by congruence; exact Hr).
    destruct (Hpop k r Hr0) as (r' & Hr' & _ & _ & _ & _ & Heq).
    rewrite (Heq Hne) in Hr'. exact Hr'.
Qed.

Lemma populate_population n index s s' :
  population_ok s ->
  vm_reserv_populate (Rv n) index s = Ok (tt, s') ->
  population_ok s' /\
  (exists r r', vm_reserv_array s !! n = Some r /\
     vm_reserv_array s' !! n = Some r' /\
     rv_popcnt r' = rv_popcnt r + 1 /\
     popmap_bit (rv_popmap r) index = false /\
     forall k, popmap_bit (rv_popmap r') k
               = (k =? index) || popmap_bit (rv_popmap r) k) /\
  (forall k r, k <> n -> vm_reserv_array s !! k = Some r ->
     vm_reserv_array s' !! k = Some r).
Proof.
  intros Hok Hp.
  apply populate_inv in Hp
    as (r & m & kp & pm & Hr & _ & Hclr & Hlt & _ & _ & _ & Hset & Hup).
  cbv zeta in Hup.
  destruct (Hok n r Hr) as [Ht Hc].
  destruct (popmap_set_bits _ _ _ Ht Hclr Hset)
    as (_ & Hbit & Ht1 & Hbits & Hcnt).
  pose proof (popcount_bounds (rv_popmap r)) as Hb.
  rewrite VM_LEVEL_0_NPAGES_val in *.
  assert (Hlen : (n < length (vm_reserv_array s))%nat)
    by (eapply lookup_lt_Some; eassumption).
  rewrite u16_small in Hup by lia.
  eapply (population_after_update n _ s
            (set_rv_popcnt (rv_popcnt r + 1) (set_rv_popmap pm r)))
    in Hup; [| exact Hok | exact Hlen
             | destruct (rv_popcnt r + 1 =? 512); reflexivity
             | exact Ht1 | cbn; lia].
  destruct Hup as (Hok' & (r' & Hr' & Hc' & Hm') & Hothers).
  cbn in Hc', Hm'.
  split; [exact Hok'|]. split; [|exact Hothers].
  exists r, r'. rewrite Hm'. auto.
Qed.

(** X6. If popcnt equals the number of set bits of popmap in every
    reservation, then after a vm_reserv_populate(rv, index) that returns
    this still holds; the bit of index was clear and is now the only bit
    of rv that changed, rv's popcnt grew by one, and no other reservation
    changed. *)
Theorem populate_keeps_population_count n index s s' :
  population_ok s ->
  vm_reserv_populate (Rv n) index s = Ok (tt, s') ->
  population_ok s' /\
  (exists r r', vm_reserv_array s !! n = Some r /\
     vm_reserv_array s' !! n = Some r' /\
     rv_popcnt r' = rv_popcnt r + 1 /\
     popmap_bit (rv_popmap r) index = false /\
     forall k, popmap_bit (rv_popmap r') k
               = (k =? index) || popmap_bit (rv_popmap r) k) /\
  (forall k r, k <> n -> vm_reserv_array s !! k = Some r ->
     vm_reserv_array s' !! k = Some r).
Proof. apply populate_population. Qed.

Lemma depopulate_population n index s s' :
  population_ok s ->
  vm_reserv_depopulate (Rv n) index s = Ok (tt, s') ->
  population_ok s' /\
  (exists r r', vm_reserv_array s !! n = Some r /\
     vm_reserv_array s' !! n = Some r' /\
     rv_popcnt r' = rv_popcnt r - 1 /\
     popmap_bit (rv_popmap r) index = true /\
     forall k, popmap_bit (rv_popmap r') k
               = negb (k =? index) && popmap_bit (rv_popmap r) k) /\
  (forall k r, k <> n -> vm_reserv_array s !! k = Some r ->
     vm_reserv_array s' !! k = Some r).
Proof.
  intros Hok Hd.
  apply depopulate_inv in Hd
    as (r & pm & Hr & _ & Hset & Hgt & Hclr & Hfull & Hpart).
  cbv zeta in Hfull, Hpart.
  destruct (Hok n r Hr) as [Ht Hc].
  destruct (popmap_clear_set _ _ _ Ht Hset Hclr) as (Ht1 & Hclr1 & Hback).
  destruct (popmap_set_bits _ _ _ Ht1 Hclr1 Hback)
    as (_ & Hbit & _ & Hbits & Hcnt).
  pose proof (popcount_bounds (rv_popmap r)) as Hb.
  rewrite VM_LEVEL_0_NPAGES_val in *.
  assert (Hlen : (n < length (vm_reserv_array s))%nat)
    by (eapply lookup_lt_Some; eassumption).
  rewrite u16_small in Hfull, Hpart by lia.
  assert (Hup : exists smid,
    vm_reserv_array smid
      = <[n := set_rv_popcnt (rv_popcnt r - 1) (set_rv_popmap pm r)]>
          (vm_reserv_array s) /\
    vm_reserv_update_lru (Rv n) RV_DEPOP_STEP smid = Ok (tt, s')).
  { destruct (Z.eq_dec (rv_popcnt r) 512) as [E|E].
    - destruct (Hfull E) as (m & kp & _ & _ & _ & _ & Hup).
      eexists. split; [|exact Hup]. reflexivity.
    - eexists. split; [|exact (Hpart E)]. reflexivity. }
  destruct Hup as (smid & Hmid & Hup).
  eapply (population_after_update n _ s _ smid) in Hup;
    [| exact Hok | exact Hlen | exact Hmid | exact Ht1 | cbn; lia].
  destruct Hup as (Hok' & (r' & Hr' & Hc' & Hm') & Hothers).
  cbn in Hc', Hm'.
  split; [exact Hok'|]. split; [|exact Hothers].
  exists r, r'. rewrite Hm'.
  split; [exact Hr|]. split; [exact Hr'|]. split; [exact Hc'|].
  split.
  - rewrite (Hbits index), Z.eqb_refl. reflexivity.
  - intros k. rewrite (Hbits k).
    destruct (k =? index) eqn:E; zbool; [subst; exact Hbit|reflexivity].
Qed.

(** X7. If popcnt equals the number of set bits of popmap in every
    reservation, then after a vm_reserv_depopulate(rv, index) that returns
    this still holds; the bit of index was set and is now the only bit of
    rv that changed, rv's popcnt fell by one, and no other reservation
    changed. *)
Theorem depopulate_keeps_population_count n index s s' :
  population_ok s ->
  vm_reserv_depopulate (Rv n) index s = Ok (tt, s') ->
  population_ok s' /\
  (exists r r', vm_reserv_array s !! n = Some r /\
     vm_reserv_array s' !! n = Some r' /\
     rv_popcnt r' = rv_popcnt r - 1 /\
     popmap_bit (rv_popmap r) index = true /\
     forall k, popmap_bit (rv_popmap r') k
               = negb (k =? index) && popmap_bit (rv_popmap r) k) /\
  (forall k r, k <> n -> vm_reserv_array s !! k = Some r ->
     vm_reserv_array s' !! k = Some r).
Proof. apply depopulate_population. Qed.
(** ** Invariants of the reservation array

    The rules below derive, function by function, that an invariant of
    the array elements is kept, from what the invariant has to satisfy
    at the places where an element is written. *)

Create HintDb pp.

Section Rules.

Variable P : nat -> vm_reserv -> Prop.

Lemma pp_array_frame {A : Type} (m : M A) :
  (forall s a s', m s = Ok (a, s') ->
     vm_reserv_array s' = vm_reserv_array s) ->
  preserves P m.
Proof.
  intros H s a s' Hok Hm k r Hr. rewrite (H _ _ _ Hm) in Hr.
  exact (Hok k r Hr).
Qed.

Lemma pp_ret {A : Type} (a : A) : preserves P (ret a).
Proof. intros s b s' Hok H. apply ret_inv in H as [_ ->]. exact Hok. Qed.

Lemma pp_fail {A : Type} e : preserves P (@fail A e).
Proof. intros s b s' Hok H. discriminate. Qed.

Lemma pp_bind {A B : Type} (m : M A) (f : A -> M B) :
  preserves P m -> (forall a, preserves P (f a)) ->
  preserves P (bind m f).
Proof.
  intros Hm Hf s b s' Hok H. apply bind_inv in H as (a & s1 & H1 & H2).
  eapply Hf; [eapply Hm|]; eassumption.
Qed.

Lemma pp_bind_load {B : Type} rv (f : vm_reserv -> M B) :
  (forall r, (forall n, rv = Rv n -> P n r) -> preserves P (f r)) ->
  preserves P (bind (load_rv rv) f).
Proof.
  intros Hf s b s' Hok H. apply bind_inv in H as (r & s1 & H1 & H2).
  unfold load_rv in H1. destruct rv as [|n].
  - inversion H1; subst. eapply Hf; [|exact Hok|exact H2].
    intros n Hn. discriminate.
  - destruct (vm_reserv_array s !! n) as [r0|] eqn:E; inversion H1; subst.
    eapply Hf; [|exact Hok|exact H2].
    intros k Hk. injection Hk as <-. exact (Hok n r E).
Qed.

Lemma pp_bind_lift {A B : Type} (x : res A) (f : A -> M B) :
  (forall a, x = Ok a -> preserves P (f a)) ->
  preserves P (bind (lift x) f).
Proof.
  intros Hf s b s' Hok H. apply bind_inv in H as (a & s1 & H1 & H2).
  apply lift_inv in H1 as [-> ->]. eapply Hf; [reflexivity|exact Hok|exact H2].
Qed.

Lemma pp_bind_assert {B : Type} c (f : unit -> M B) :
  (c = true -> forall u, preserves P (f u)) ->
  preserves P (bind (KASSERT c) f).
Proof.
  intros Hf s b s' Hok H. apply bind_inv in H as (a & s1 & H1 & H2).
  apply KASSERT_inv in H1 as [-> ->]. eapply Hf; [reflexivity|exact Hok|exact H2].
Qed.

Lemma pp_store_rv rv r :
  (forall n, rv = Rv n -> P n r) -> preserves P (store_rv rv r).
Proof.
  intros Hr s a s' Hok H. unfold store_rv in H. destruct rv as [|n].
  - inversion H; subst. exact Hok.
  - destruct (vm_reserv_array s !! n) eqn:E; inversion H; subst.
    intros k r0 Hk. cbn in Hk.
    destruct (decide (k = n)) as [->|Hne].
    + rewrite list_lookup_insert_eq in Hk by (eapply lookup_lt_Some, E).
      injection Hk as <-. apply Hr. reflexivity.
    + rewrite list_lookup_insert_ne in Hk by congruence. exact (Hok k r0 Hk).
Qed.

Lemma pp_keeps_state {A : Type} (m : M A) :
  (forall s a s', m s = Ok (a, s') -> s' = s) -> preserves P m.
Proof. intros H s a s' Hok Hm. rewrite (H _ _ _ Hm). exact Hok. Qed.

Lemma pp_lift {A : Type} (r : res A) : preserves P (lift r).
Proof. intros s a s' Hok H. apply lift_inv in H as [_ ->]. exact Hok. Qed.

Lemma pp_KASSERT b : preserves P (KASSERT b).
Proof. intros s a s' Hok H. apply KASSERT_inv in H as [_ ->]. exact Hok. Qed.

Lemma pp_get : preserves P get.
Proof. intros s a s' Hok H. inversion H. subst. exact Hok. Qed.

Lemma pp_modify (f : state -> state) :
  (forall s, vm_reserv_array (f s) = vm_reserv_array s) ->
  preserves P (modify f).
Proof.
  intros Hf. apply pp_array_frame. intros s a s' H. inversion H. apply Hf.
Qed.

Lemma pp_emit e : preserves P (emit e).
Proof. apply pp_modify. reflexivity. Qed.

Lemma pp_load_rv rv : preserves P (load_rv rv).
Proof.
  apply pp_keeps_state. intros s a s' H. unfold load_rv in H.
  destruct rv; [|destruct (_ !! _)]; inversion H; reflexivity.
Qed.

Lemma pp_load_obj o : preserves P (load_obj o).
Proof.
  apply pp_keeps_state. intros s a s' H. unfold load_obj in H.
  destruct (_ !! _); inversion H; reflexivity.
Qed.

Lemma pp_store_obj o ob : preserves P (store_obj o ob).
Proof.
  apply pp_array_frame. intros s a s' H. unfold store_obj in H.
  destruct (_ !! _); inversion H; reflexivity.
Qed.

Lemma pp_load_psind m : preserves P (load_psind m).
Proof.
  apply pp_keeps_state. intros s a s' H. unfold load_psind in H.
  destruct (psind_index m); [destruct (_ !! _)|]; inversion H; reflexivity.
Qed.

Lemma pp_store_psind m v : preserves P (store_psind m v).
Proof.
  apply pp_array_frame. intros s a s' H. unfold store_psind in H.
  destruct (psind_index m); [destruct (_ !! _)|]; inversion H; reflexivity.
Qed.

Lemma pp_free_mtx_lock : preserves P free_mtx_lock.
Proof.
  apply pp_array_frame. intros s a s' H. unfold free_mtx_lock in H.
  destruct (mtx_lock_st _); inversion H; reflexivity.
Qed.

Lemma pp_free_mtx_unlock : preserves P free_mtx_unlock.
Proof.
  apply pp_array_frame. intros s a s' H. unfold free_mtx_unlock in H.
  destruct (mtx_unlock_st _); inversion H; reflexivity.
Qed.

Lemma pp_free_mtx_assert_owned : preserves P free_mtx_assert_owned.
Proof.
  apply pp_keeps_state. intros s a s' H. unfold free_mtx_assert_owned in H.
  destruct (mtx_owned _); inversion H; reflexivity.
Qed.

Lemma pp_load_lock rv : preserves P (load_lock rv).
Proof.
  apply pp_keeps_state. intros s a s' H. unfold load_lock in H.
  destruct (RV_LOCKPTR rv); [destruct (_ !! _)|]; inversion H; reflexivity.
Qed.

Lemma pp_TAILQ_FIRST q : preserves P (TAILQ_FIRST q).
Proof. apply pp_keeps_state. intros s a s' H. inversion H. reflexivity. Qed.

Lemma pp_TAILQ_NEXT q elm : preserves P (TAILQ_NEXT q elm).
Proof.
  apply pp_keeps_state. intros s a s' H. unfold TAILQ_NEXT in H.
  destruct (inb _ _); inversion H; reflexivity.
Qed.

Lemma pp_TAILQ_REMOVE q elm : preserves P (TAILQ_REMOVE q elm).
Proof.
  apply pp_array_frame. intros s a s' H. unfold TAILQ_REMOVE in H.
  destruct (inb _ _); inversion H; destruct q; reflexivity.
Qed.

Lemma pp_TAILQ_INSERT_TAIL q elm :
  preserves P (TAILQ_INSERT_TAIL q elm).
Proof.
  apply pp_array_frame. intros s a s' H. unfold TAILQ_INSERT_TAIL in H.
  destruct (on_lru _ _); inversion H; destruct q; reflexivity.
Qed.

Lemma pp_TAILQ_INSERT_HEAD q elm :
  preserves P (TAILQ_INSERT_HEAD q elm).
Proof.
  apply pp_array_frame. intros s a s' H. unfold TAILQ_INSERT_HEAD in H.
  destruct (on_lru _ _); inversion H; destruct q; reflexivity.
Qed.

Lemma pp_TAILQ_INSERT_BEFORE listelm elm :
  preserves P (TAILQ_INSERT_BEFORE listelm elm).
Proof.
  apply pp_array_frame. intros s a s' H. unfold TAILQ_INSERT_BEFORE in H.
  destruct (on_lru _ _); [discriminate|].
  destruct (inb _ _); [inversion H; reflexivity|].
  destruct (inb _ _); inversion H; reflexivity.
Qed.

End Rules.

#[local] Hint Resolve pp_ret pp_fail pp_lift pp_KASSERT pp_get pp_emit
  pp_load_rv pp_load_obj pp_store_obj pp_load_psind pp_store_psind
  pp_free_mtx_lock pp_free_mtx_unlock pp_free_mtx_assert_owned pp_load_lock
  pp_TAILQ_FIRST pp_TAILQ_NEXT pp_TAILQ_REMOVE pp_TAILQ_INSERT_TAIL
  pp_TAILQ_INSERT_HEAD pp_TAILQ_INSERT_BEFORE : pp.

(** Closes the side condition of a store: the record written satisfies
    the invariant because the one read did, the fields written in between
    being of no concern to the invariant. *)
Ltac pp_field :=
  repeat match goal with
    | H : forall n r v, ?P n r -> ?P n (set_rv_object v r)
      |- ?P _ (set_rv_object _ _) => apply H
    | H : forall n r v, ?P n r -> ?P n (set_rv_pindex v r)
      |- ?P _ (set_rv_pindex _ _) => apply H
    | H : forall n r v, ?P n r -> ?P n (set_rv_seq v r)
      |- ?P _ (set_rv_seq _ _) => apply H
    | H : forall n r v, ?P n r -> ?P n (set_rv_actcnt v r)
      |- ?P _ (set_rv_actcnt _ _) => apply H
    | H : forall n r v, ?P n r -> ?P n (set_rv_flags v r)
      |- ?P _ (set_rv_flags _ _) => apply H
    end;
  match goal with
  | H : forall n, ?rv = Rv n -> ?P n ?r, Hn : ?rv = Rv ?k |- ?P ?k ?r =>
      exact (H k Hn)
  end.

Ltac pp_step :=
  match goal with
  | |- preserves _ (bind (load_rv _) _) =>
      apply pp_bind_load; intros ? ?
  | |- preserves _ (bind (lift _) _) =>
      apply pp_bind_lift; intros ? ?
  | |- preserves _ (bind (KASSERT _) _) =>
      apply pp_bind_assert; intros ? ?
  | |- preserves _ (bind _ _) => apply pp_bind; [|intros]
  | |- preserves _ (store_rv _ _) =>
      apply pp_store_rv; intros ? ?; try pp_field
  | |- preserves _ (modify _) =>
      apply pp_modify; intros; reflexivity
  | |- preserves _ (if ?b then _ else _) => destruct b eqn:?
  | |- preserves _ (match ?x with _ => _ end) => destruct x eqn:?
  | |- preserves _ _ => solve [auto with pp]
  end.

Ltac pp := repeat pp_step.

Section Basics.

Variable P : nat -> vm_reserv -> Prop.

Lemma pp_vm_reserv_lock rv : preserves P (vm_reserv_lock rv).
Proof. unfold vm_reserv_lock. pp. Qed.

Lemma pp_vm_reserv_trylock rv : preserves P (vm_reserv_trylock rv).
Proof. unfold vm_reserv_trylock. pp. Qed.

Lemma pp_vm_reserv_unlock rv : preserves P (vm_reserv_unlock rv).
Proof. unfold vm_reserv_unlock. pp. Qed.

Lemma pp_vm_reserv_assert_locked rv :
  preserves P (vm_reserv_assert_locked rv).
Proof. unfold vm_reserv_assert_locked. pp. Qed.

Lemma pp_VM_OBJECT_ASSERT_WLOCKED o :
  preserves P (VM_OBJECT_ASSERT_WLOCKED o).
Proof. unfold VM_OBJECT_ASSERT_WLOCKED. pp. Qed.

Lemma pp_LIST_FIRST o : preserves P (LIST_FIRST o).
Proof. unfold LIST_FIRST. pp. Qed.

Lemma pp_LIST_INSERT_HEAD o rv : preserves P (LIST_INSERT_HEAD o rv).
Proof. unfold LIST_INSERT_HEAD. pp. Qed.

Lemma pp_LIST_REMOVE rv : preserves P (LIST_REMOVE rv).
Proof. unfold LIST_REMOVE. pp. Qed.

Lemma pp_seq_read rv : preserves P (seq_read rv).
Proof. unfold seq_read. pp. Qed.

Lemma pp_seq_consistent rv seq : preserves P (seq_consistent rv seq).
Proof. unfold seq_consistent. pp. Qed.

Lemma pp_vm_phys_free_pages m order :
  preserves P (vm_phys_free_pages m order).
Proof. unfold vm_phys_free_pages. pp. Qed.

Lemma pp_vm_phys_free_contig m n :
  preserves P (vm_phys_free_contig m n).
Proof. unfold vm_phys_free_contig. pp. Qed.

Lemma pp_vm_phys_alloc_pages pool order m :
  preserves P (vm_phys_alloc_pages pool order m).
Proof. unfold vm_phys_alloc_pages. pp. Qed.

Lemma pp_vm_phys_alloc_contig npages low high alignment boundary m :
  preserves P
    (vm_phys_alloc_contig npages low high alignment boundary m).
Proof. unfold vm_phys_alloc_contig. pp. Qed.

End Basics.

#[local] Hint Resolve pp_vm_reserv_lock pp_vm_reserv_trylock
  pp_vm_reserv_unlock pp_vm_reserv_assert_locked pp_VM_OBJECT_ASSERT_WLOCKED
  pp_LIST_FIRST pp_LIST_INSERT_HEAD pp_LIST_REMOVE pp_seq_read pp_seq_consistent pp_vm_phys_free_pages
  pp_vm_phys_free_contig pp_vm_phys_alloc_pages pp_vm_phys_alloc_contig : pp.

(** vm_reserv_set_object keeps an invariant that does not depend on
    object, pindex and seq. *)
Section SetObject.

Variable P : nat -> vm_reserv -> Prop.
Hypothesis P_object : forall n r v, P n r -> P n (set_rv_object v r).
Hypothesis P_pindex : forall n r v, P n r -> P n (set_rv_pindex v r).
Hypothesis P_seq : forall n r v, P n r -> P n (set_rv_seq v r).

Lemma pp_seq_write_begin rv : preserves P (seq_write_begin rv).
Proof. unfold seq_write_begin. pp. Qed.

Lemma pp_seq_write_end rv : preserves P (seq_write_end rv).
Proof. unfold seq_write_end. pp. Qed.

#[local] Hint Resolve pp_seq_write_begin pp_seq_write_end : pp.

Lemma pp_set_object_fields rv object pindex :
  preserves P (vm_reserv_set_object rv object pindex).
Proof. unfold vm_reserv_set_object. pp. Qed.

End SetObject.

Section Invariant.

Variable P : nat -> vm_reserv -> Prop.

(** Writes of object, pindex, actcnt and flags do not matter to P. *)
Hypothesis P_object : forall n r v, P n r -> P n (set_rv_object v r).
Hypothesis P_pindex : forall n r v, P n r -> P n (set_rv_pindex v r).
Hypothesis P_actcnt : forall n r v, P n r -> P n (set_rv_actcnt v r).
Hypothesis P_flags : forall n r v, P n r -> P n (set_rv_flags v r).

(** The bracketed write of object and pindex keeps P. *)
Hypothesis P_set_object : forall rv object pindex,
  preserves P (vm_reserv_set_object rv object pindex).

(** The three places where popmap and popcnt are written. *)
Hypothesis P_populate : forall n r index pm,
  P n r ->
  res_of_option EFault (popmap_is_clear (rv_popmap r) index) = Ok true ->
  res_of_option EFault (popmap_set (rv_popmap r) index) = Ok pm ->
  P n (set_rv_popcnt (u16 (rv_popcnt r + 1)) (set_rv_popmap pm r)).
Hypothesis P_depopulate : forall n r index pm,
  P n r ->
  res_of_option EFault (popmap_is_set (rv_popmap r) index) = Ok true ->
  res_of_option EFault (popmap_clear (rv_popmap r) index) = Ok pm ->
  P n (set_rv_popcnt (u16 (rv_popcnt r - 1)) (set_rv_popmap pm r)).
Hypothesis P_break : forall n r out,
  P n r ->
  break_loop (S (Z.to_nat VM_LEVEL_0_NPAGES)) 0 0 (rv_popmap r)
    (rv_popcnt r) [] = Ok out ->
  P n (set_rv_popcnt (snd (fst out)) (set_rv_popmap (fst (fst out)) r)).

Lemma pp_vm_reserv_lru_dequeue rv :
  preserves P (vm_reserv_lru_dequeue rv).
Proof. unfold vm_reserv_lru_dequeue. pp. Qed.

#[local] Hint Resolve P_set_object pp_vm_reserv_lru_dequeue : pp.

Lemma pp_vm_reserv_update_lru rv advance :
  preserves P (vm_reserv_update_lru rv advance).
Proof. unfold vm_reserv_update_lru. pp. Qed.

#[local] Hint Resolve pp_vm_reserv_update_lru : pp.

Lemma pp_vm_reserv_populate rv index :
  preserves P (vm_reserv_populate rv index).
Proof.
  unfold vm_reserv_populate. pp. subst.
  eapply P_populate; eauto.
Qed.

Lemma pp_vm_reserv_depopulate rv index :
  preserves P (vm_reserv_depopulate rv index).
Proof.
  unfold vm_reserv_depopulate. pp. subst.
  eapply P_depopulate; eauto.
Qed.

Lemma pp_free_contig_all pages l : preserves P (free_contig_all pages l).
Proof.
  induction l as [|[b n] l IH]; cbn [free_contig_all]; pp; try apply IH.
Qed.

#[local] Hint Resolve pp_free_contig_all : pp.

Lemma pp_vm_reserv_break rv m : preserves P (vm_reserv_break rv m).
Proof.
  unfold vm_reserv_break. pp; subst.
  - eapply P_populate; eauto.
  - eapply P_break; eauto.
Qed.

#[local] Hint Resolve pp_vm_reserv_populate pp_vm_reserv_depopulate
  pp_vm_reserv_break : pp.

Lemma pp_break_all_quick n object : forall rv,
  preserves P (break_all_quick n object rv).
Proof.
  induction n as [|n IH]; intros; cbn [break_all_quick]; pp; try apply IH.
Qed.

#[local] Hint Resolve pp_break_all_quick : pp.

Lemma pp_break_all_loop n object :
  preserves P (break_all_loop n object).
Proof.
  induction n as [|n IH]; cbn [break_all_loop]; pp; try apply IH.
Qed.

#[local] Hint Resolve pp_break_all_loop : pp.

Lemma pp_vm_reserv_break_all object :
  preserves P (vm_reserv_break_all object).
Proof. unfold vm_reserv_break_all. pp. Qed.

Lemma pp_vm_reserv_free_page m : preserves P (vm_reserv_free_page m).
Proof. unfold vm_reserv_free_page. pp. Qed.

Lemma pp_vm_reserv_reclaim rv : preserves P (vm_reserv_reclaim rv).
Proof. unfold vm_reserv_reclaim. pp. Qed.

#[local] Hint Resolve pp_vm_reserv_reclaim : pp.

Lemma pp_reclaim_candidate rv flag :
  preserves P (reclaim_candidate rv flag).
Proof. unfold reclaim_candidate. pp. Qed.

#[local] Hint Resolve pp_reclaim_candidate : pp.

Lemma pp_vm_reserv_reclaim_inactive_from n :
  preserves P (vm_reserv_reclaim_inactive_from n).
Proof.
  induction n as [|n IH]; cbn [vm_reserv_reclaim_inactive_from]; pp;
    try apply IH.
Qed.

#[local] Hint Resolve pp_vm_reserv_reclaim_inactive_from : pp.

Lemma pp_vm_reserv_reclaim_inactive :
  preserves P vm_reserv_reclaim_inactive.
Proof. unfold vm_reserv_reclaim_inactive. pp. Qed.

Lemma pp_reclaim_contig_queue l size low high alignment boundary :
  preserves P
    (reclaim_contig_queue l size low high alignment boundary).
Proof.
  induction l as [|rv l IH]; cbn [reclaim_contig_queue]; pp; try apply IH.
Qed.

#[local] Hint Resolve pp_reclaim_contig_queue : pp.

Lemma pp_reclaim_contig_scan npages low high alignment boundary :
  preserves P
    (reclaim_contig_scan npages low high alignment boundary).
Proof. unfold reclaim_contig_scan. pp. Qed.

Lemma pp_vm_reserv_rename m new_object old_object off :
  preserves P (vm_reserv_rename m new_object old_object off).
Proof. unfold vm_reserv_rename. pp. Qed.

Lemma pp_scan_loop l : forall target,
  preserves P (scan_loop l target).
Proof.
  induction l as [|rv l IH]; intros target; cbn [scan_loop]; pp;
    try apply IH.
Qed.

#[local] Hint Resolve pp_scan_loop : pp.

Lemma pp_vm_reserv_scan target : preserves P (vm_reserv_scan target).
Proof. unfold vm_reserv_scan. pp. Qed.

Lemma pp_vnode_backed ob : preserves P (vnode_backed ob).
Proof. unfold vnode_backed. pp. Qed.

#[local] Hint Resolve pp_vnode_backed : pp.

Lemma pp_probe_mpred object pindex first mpred :
  preserves P (probe_mpred object pindex first mpred).
Proof. unfold probe_mpred. pp. Qed.

Lemma pp_probe_msucc object pindex msucc :
  preserves P (probe_msucc object pindex msucc).
Proof. unfold probe_msucc. pp. Qed.

#[local] Hint Resolve pp_probe_mpred pp_probe_msucc : pp.

Lemma pp_look_left object ob pindex first mpred :
  preserves P (look_left object ob pindex first mpred).
Proof. unfold look_left. pp. Qed.

Lemma pp_popmap_assert_zero n : forall i popmap,
  preserves P (popmap_assert_zero n i popmap).
Proof.
  induction n as [|n IH]; intros; cbn [popmap_assert_zero]; pp; try apply IH.
Qed.

#[local] Hint Resolve pp_look_left pp_popmap_assert_zero : pp.

Lemma pp_bind_new_reserv object first m :
  preserves P (bind_new_reserv object first m).
Proof. unfold bind_new_reserv. pp. Qed.

Lemma pp_populate_range n : forall rv index,
  preserves P (populate_range n rv index).
Proof.
  induction n as [|n IH]; intros; cbn [populate_range]; pp; try apply IH.
Qed.

#[local] Hint Resolve pp_bind_new_reserv pp_populate_range : pp.

Lemma pp_alloc_page_found ob pindex rv :
  preserves P (vm_reserv_alloc_page_found ob pindex rv).
Proof. unfold vm_reserv_alloc_page_found. pp. Qed.

Lemma pp_alloc_contig_found ob pindex npages low high alignment boundary rv :
  preserves P
    (vm_reserv_alloc_contig_found ob pindex npages low high alignment
       boundary rv).
Proof. unfold vm_reserv_alloc_contig_found. pp. Qed.

Lemma pp_alloc_contig_fill n : forall object m first npages allocpages
    index m_ret,
  preserves P
    (alloc_contig_fill n object m first npages allocpages index m_ret).
Proof.
  induction n as [|n IH]; intros; cbn [alloc_contig_fill]; pp; try apply IH.
Qed.

#[local] Hint Resolve pp_alloc_page_found pp_alloc_contig_found
  pp_alloc_contig_fill : pp.

Lemma pp_vm_reserv_alloc_page object pindex mpred phys :
  preserves P (vm_reserv_alloc_page object pindex mpred phys).
Proof. unfold vm_reserv_alloc_page. pp. Qed.

Lemma pp_vm_reserv_alloc_contig object pindex npages low high alignment
    boundary mpred phys :
  preserves P
    (vm_reserv_alloc_contig object pindex npages low high alignment
       boundary mpred phys).
Proof. unfold vm_reserv_alloc_contig. pp. Qed.


(** All operations but vm_reserv_init. *)
Lemma pp_operations :
  (forall object pindex mpred phys,
      preserves P (vm_reserv_alloc_page object pindex mpred phys)) /\
  (forall object pindex npages low high alignment boundary mpred phys,
      preserves P
        (vm_reserv_alloc_contig object pindex npages low high alignment
           boundary mpred phys)) /\
  (forall m, preserves P (vm_reserv_free_page m)) /\
  (forall object, preserves P (vm_reserv_break_all object)) /\
  preserves P vm_reserv_reclaim_inactive /\
  (forall npages low high alignment boundary,
      preserves P (reclaim_contig_scan npages low high alignment boundary)) /\
  (forall m new_object old_object old_object_offset,
      preserves P
        (vm_reserv_rename m new_object old_object old_object_offset)) /\
  (forall target, preserves P (vm_reserv_scan target)) /\
  (forall rv index, preserves P (vm_reserv_populate rv index)) /\
  (forall rv index, preserves P (vm_reserv_depopulate rv index)) /\
  (forall rv m, preserves P (vm_reserv_break rv m)) /\
  (forall rv, preserves P (vm_reserv_reclaim rv)) /\
  (forall rv advance, preserves P (vm_reserv_update_lru rv advance)).
Proof.
  repeat apply conj; intros.
  - apply pp_vm_reserv_alloc_page.
  - apply pp_vm_reserv_alloc_contig.
  - apply pp_vm_reserv_free_page.
  - apply pp_vm_reserv_break_all.
  - apply pp_vm_reserv_reclaim_inactive.
  - apply pp_reclaim_contig_scan.
  - apply pp_vm_reserv_rename.
  - apply pp_vm_reserv_scan.
  - apply pp_vm_reserv_populate.
  - apply pp_vm_reserv_depopulate.
  - apply pp_vm_reserv_break.
  - apply pp_vm_reserv_reclaim.
  - apply pp_vm_reserv_update_lru.
Qed.

End Invariant.

(** vm_reserv_init keeps an invariant that does not depend on pages. *)
Section Init.

Variable P : nat -> vm_reserv -> Prop.
Hypothesis P_object : forall n r v, P n r -> P n (set_rv_object v r).
Hypothesis P_flags : forall n r v, P n r -> P n (set_rv_flags v r).
Hypothesis P_pages : forall n r v, P n r -> P n (set_rv_pages v r).

Lemma pp_init_seg n : forall paddr seg_end,
  preserves P (init_seg n paddr seg_end).
Proof.
  induction n as [|n IH]; intros; cbn [init_seg]; pp; try apply IH.
  apply P_pages. pp_field.
Qed.

#[local] Hint Resolve pp_init_seg : pp.

Lemma pp_init_segs segs : preserves P (init_segs segs).
Proof.
  induction segs as [|[a b] l IH]; cbn [init_segs]; pp; try apply IH.
Qed.

#[local] Hint Resolve pp_init_segs : pp.

Lemma pp_vm_reserv_init segs : preserves P (vm_reserv_init segs).
Proof. unfold vm_reserv_init. pp. Qed.

End Init.

Lemma array_inv_exec P {A : Type} (m : M A) s :
  preserves P m -> array_inv P s -> array_inv P (exec m s).
Proof.
  intros Hm Hs. unfold exec. destruct (m s) as [[a s']|e] eqn:E.
  - eapply Hm; eassumption.
  - exact Hs.
Qed.
(** ** Three invariants *)

Lemma rec_ok_after_set r index pm :
  rec_ok r ->
  res_of_option EFault (popmap_is_clear (rv_popmap r) index) = Ok true ->
  res_of_option EFault (popmap_set (rv_popmap r) index) = Ok pm ->
  rec_ok (set_rv_popcnt (u16 (rv_popcnt r + 1)) (set_rv_popmap pm r)).
Proof.
  intros [Ht Hc] Hclr Hset.
  destruct (popmap_is_clear _ _) as [b|] eqn:E1; [|discriminate].
  injection Hclr as ->.
  destruct (popmap_set _ _) as [pm'|] eqn:E2; [|discriminate].
  injection Hset as ->.
  destruct (popmap_set_bits _ _ _ Ht E1 E2) as (_ & _ & Ht1 & _ & Hcnt).
  pose proof (popcount_bounds (rv_popmap r)) as Hb.
  pose proof (popcount_bounds pm) as Hb1.
  rewrite VM_LEVEL_0_NPAGES_val in *.
  split; [exact Ht1|]. cbn. rewrite u16_small by lia. lia.
Qed.

Lemma rec_ok_after_clear r index pm :
  rec_ok r ->
  res_of_option EFault (popmap_is_set (rv_popmap r) index) = Ok true ->
  res_of_option EFault (popmap_clear (rv_popmap r) index) = Ok pm ->
  rec_ok (set_rv_popcnt (u16 (rv_popcnt r - 1)) (set_rv_popmap pm r)).
Proof.
  intros [Ht Hc] Hset Hclr.
  destruct (popmap_is_set _ _) as [b|] eqn:E1; [|discriminate].
  injection Hset as ->.
  destruct (popmap_clear _ _) as [pm'|] eqn:E2; [|discriminate].
  injection Hclr as ->.
  destruct (popmap_clear_set _ _ _ Ht E1 E2) as (Ht1 & Hclr1 & Hback).
  destruct (popmap_set_bits _ _ _ Ht1 Hclr1 Hback) as (_ & _ & _ & _ & Hcnt).
  pose proof (popcount_bounds pm) as Hb.
  pose proof (popcount_bounds (rv_popmap r)) as Hb'.
  rewrite VM_LEVEL_0_NPAGES_val in *.
  split; [exact Ht1|]. cbn. rewrite u16_small by lia. lia.
Qed.

Lemma rec_ok_after_break r out :
  rec_ok r ->
  break_loop (S (Z.to_nat VM_LEVEL_0_NPAGES)) 0 0 (rv_popmap r)
    (rv_popcnt r) [] = Ok out ->
  rec_ok (set_rv_popcnt (snd (fst out)) (set_rv_popmap (fst (fst out)) r)).
Proof.
  intros [Ht Hc] H.
  rewrite Hc, (break_loop_total _ Ht) in H. injection H as <-.
  split; [|vm_compute; reflexivity].
  split; [reflexivity|]. cbn. repeat constructor; lia.
Qed.

Lemma rec_ok_zero_reserv : rec_ok zero_reserv.
Proof.
  split; [|vm_compute; reflexivity].
  split; [reflexivity|]. cbn. repeat constructor; lia.
Qed.

Lemma array_inv_startup (P : nat -> vm_reserv -> Prop) high_water objs :
  (forall n, P n zero_reserv) ->
  array_inv P (vm_reserv_startup high_water objs).
Proof.
  intros H0 k r Hr. unfold vm_reserv_startup in Hr. cbn in Hr.
  apply lookup_replicate in Hr as [-> _]. apply H0.
Qed.

Lemma rec_ok_set_object rv object pindex :
  preserves (fun _ => rec_ok) (vm_reserv_set_object rv object pindex).
Proof. apply pp_set_object_fields; intros n r v H; exact H. Qed.

Lemma rec_ok_init segs : preserves (fun _ => rec_ok) (vm_reserv_init segs).
Proof. apply pp_vm_reserv_init; intros n r v H; exact H. Qed.

Lemma rec_ok_operations :
  (forall object pindex mpred phys,
      preserves (fun _ => rec_ok)
        (vm_reserv_alloc_page object pindex mpred phys)) /\
  (forall object pindex npages low high alignment boundary mpred phys,
      preserves (fun _ => rec_ok)
        (vm_reserv_alloc_contig object pindex npages low high alignment
           boundary mpred phys)) /\
  (forall m, preserves (fun _ => rec_ok) (vm_reserv_free_page m)) /\
  (forall object, preserves (fun _ => rec_ok) (vm_reserv_break_all object)) /\
  preserves (fun _ => rec_ok) vm_reserv_reclaim_inactive /\
  (forall npages low high alignment boundary,
      preserves (fun _ => rec_ok)
        (reclaim_contig_scan npages low high alignment boundary)) /\
  (forall m new_object old_object old_object_offset,
      preserves (fun _ => rec_ok)
        (vm_reserv_rename m new_object old_object old_object_offset)) /\
  (forall target, preserves (fun _ => rec_ok) (vm_reserv_scan target)) /\
  (forall rv index,
      preserves (fun _ => rec_ok) (vm_reserv_populate rv index)) /\
  (forall rv index,
      preserves (fun _ => rec_ok) (vm_reserv_depopulate rv index)) /\
  (forall rv m, preserves (fun _ => rec_ok) (vm_reserv_break rv m)) /\
  (forall rv, preserves (fun _ => rec_ok) (vm_reserv_reclaim rv)) /\
  (forall rv advance,
      preserves (fun _ => rec_ok) (vm_reserv_update_lru rv advance)).
Proof.
  apply pp_operations.
  - intros n r v H; exact H.
  - intros n r v H; exact H.
  - apply rec_ok_set_object.
  - intros n. apply rec_ok_after_set.
  - intros n. apply rec_ok_after_clear.
  - intros n. apply rec_ok_after_break.
Qed.

Lemma population_ok_startup high_water objs :
  population_ok (vm_reserv_startup high_water objs).
Proof. apply array_inv_startup. intros _. apply rec_ok_zero_reserv. Qed.

(** The example states satisfy the invariant. *)
Lemma population_ok_init : population_ok s_init.
Proof.
  apply array_inv_exec; [apply rec_ok_init|apply population_ok_startup].
Qed.

Lemma population_ok_one_page : population_ok s_one_page.
Proof.
  apply array_inv_exec; [apply rec_ok_operations|apply population_ok_init].
Qed.

Lemma population_ok_three : population_ok s_three.
Proof.
  repeat (apply array_inv_exec; [apply rec_ok_operations|]).
  apply population_ok_init.
Qed.

(** X8. In every element of the reservation array popmap is an array
    of NPOPMAP 64-bit words and popcnt is the number of its set bits: this
    holds in the state vm_reserv_startup leaves and is kept by
    vm_reserv_init and by every operation of the module that returns
    (alloc_page, alloc_contig, free_page, break_all, reclaim_inactive,
    reclaim_contig past its first statement, rename, scan, populate,
    depopulate, break, reclaim, update_lru). *)
Theorem population_count_is_invariant :
  (forall high_water objs,
      population_ok (vm_reserv_startup high_water objs)) /\
  (forall segs, preserves (fun _ => rec_ok) (vm_reserv_init segs)) /\
  (forall object pindex mpred phys,
      preserves (fun _ => rec_ok)
        (vm_reserv_alloc_page object pindex mpred phys)) /\
  (forall object pindex npages low high alignment boundary mpred phys,
      preserves (fun _ => rec_ok)
        (vm_reserv_alloc_contig object pindex npages low high alignment
           boundary mpred phys)) /\
  (forall m, preserves (fun _ => rec_ok) (vm_reserv_free_page m)) /\
  (forall object, preserves (fun _ => rec_ok) (vm_reserv_break_all object)) /\
  preserves (fun _ => rec_ok) vm_reserv_reclaim_inactive /\
  (forall npages low high alignment boundary,
      preserves (fun _ => rec_ok)
        (reclaim_contig_scan npages low high alignment boundary)) /\
  (forall m new_object old_object old_object_offset,
      preserves (fun _ => rec_ok)
        (vm_reserv_rename m new_object old_object old_object_offset)) /\
  (forall target, preserves (fun _ => rec_ok) (vm_reserv_scan target)) /\
  (forall rv index,
      preserves (fun _ => rec_ok) (vm_reserv_populate rv index)) /\
  (forall rv index,
      preserves (fun _ => rec_ok) (vm_reserv_depopulate rv index)) /\
  (forall rv m, preserves (fun _ => rec_ok) (vm_reserv_break rv m)) /\
  (forall rv, preserves (fun _ => rec_ok) (vm_reserv_reclaim rv)) /\
  (forall rv advance,
      preserves (fun _ => rec_ok) (vm_reserv_update_lru rv advance)).
Proof.
  split; [exact population_ok_startup|].
  split; [exact rec_ok_init|].
  exact rec_ok_operations.
Qed.

(** roundup2(x, VM_LEVEL_0_SIZE) of an address is the address of a
    frame. *)
Lemma roundup2_frame x :
  0 <= x ->
  0 <= Z.land (x + (VM_LEVEL_0_SIZE - 1)) (Z.lnot (VM_LEVEL_0_SIZE - 1)) /\
  Z.land (x + (VM_LEVEL_0_SIZE - 1)) (Z.lnot (VM_LEVEL_0_SIZE - 1))
    mod VM_LEVEL_0_SIZE = 0.
Proof.
  intros Hx. change (VM_LEVEL_0_SIZE - 1) with (Z.ones 21).
  rewrite <- Z.ldiff_land, Z.ldiff_ones_r by lia.
  rewrite Z.shiftl_mul_pow2, Z.shiftr_div_pow2 by lia.
  change VM_LEVEL_0_SIZE with (2 ^ 21).
  assert (0 <= Z.ones 21) by (vm_compute; discriminate).
  split.
  - apply Z.mul_nonneg_nonneg; [apply Z.div_pos|]; lia.
  - apply Z.mod_mul. lia.
Qed.

Lemma frame_of_address paddr n :
  0 <= paddr -> paddr mod VM_LEVEL_0_SIZE = 0 ->
  vm_reserv_from_page paddr = Rv n ->
  paddr = Z.of_nat n * VM_LEVEL_0_SIZE.
Proof.
  intros H0 Hal Hn. unfold vm_reserv_from_page in Hn. injection Hn as <-.
  change VM_LEVEL_0_SHIFT with 21. change VM_LEVEL_0_SIZE with (2 ^ 21) in *.
  rewrite Z.shiftr_div_pow2 by lia.
  rewrite Z2Nat.id by (apply Z.div_pos; lia).
  apply Z.mod_divide in Hal; [|lia]. destruct Hal as [q ->].
  rewrite Z.div_mul by lia. reflexivity.
Qed.

Lemma frames_init_seg n : forall paddr seg_end,
  0 <= paddr -> paddr mod VM_LEVEL_0_SIZE = 0 ->
  preserves frame_ok (init_seg n paddr seg_end).
Proof.
  induction n as [|n IH]; intros paddr seg_end H0 Hal; cbn [init_seg];
    [apply pp_ret|].
  destruct (paddr + VM_LEVEL_0_SIZE <=? seg_end); [|apply pp_ret].
  apply pp_bind_load. intros r Hr.
  apply pp_bind.
  - apply pp_store_rv. intros k Hk. right. cbn. f_equal.
    apply frame_of_address; assumption.
  - intros _. apply IH.
    + change VM_LEVEL_0_SIZE with (2 ^ 21). lia.
    + rewrite <- Z.add_mod_idemp_r, Z.mod_same, Z.add_0_r
        by (change VM_LEVEL_0_SIZE with (2 ^ 21); lia).
      exact Hal.
Qed.

Lemma frames_init_segs segs :
  Forall (fun seg => 0 <= fst seg) segs ->
  preserves frame_ok (init_segs segs).
Proof.
  induction 1 as [|[a b] l Ha Hl IH]; cbn [init_segs]; [apply pp_ret|].
  cbn in Ha. destruct (roundup2_frame a Ha) as [H0 Hal].
  apply pp_bind; [apply frames_init_seg; assumption|].
  intros _. exact IH.
Qed.

Lemma frames_init segs :
  Forall (fun seg => 0 <= fst seg) segs ->
  preserves frame_ok (vm_reserv_init segs).
Proof.
  intros Hs. unfold vm_reserv_init.
  apply pp_bind; [apply frames_init_segs, Hs|]. intros _.
  pp. discriminate.
Qed.

(** X9. The pages field of element n of the reservation array is NULL
    or the first page of the n-th superpage frame: this holds after
    vm_reserv_startup, is kept by vm_reserv_init (segments start at
    non-negative addresses) and by every operation that returns.  Hence
    for a reservation with pages set, vm_reserv_from_page of its k-th page
    is the reservation itself and m - rv->pages is k. *)
Theorem frames_are_fixed :
  (forall high_water objs,
      array_inv frame_ok (vm_reserv_startup high_water objs)) /\
  (forall segs, Forall (fun seg => 0 <= fst seg) segs ->
      preserves frame_ok (vm_reserv_init segs)) /\
  ((forall object pindex mpred phys,
      preserves frame_ok (vm_reserv_alloc_page object pindex mpred phys)) /\
   (forall object pindex npages low high alignment boundary mpred phys,
      preserves frame_ok
        (vm_reserv_alloc_contig object pindex npages low high alignment
           boundary mpred phys)) /\
   (forall m, preserves frame_ok (vm_reserv_free_page m)) /\
   (forall object, preserves frame_ok (vm_reserv_break_all object)) /\
   preserves frame_ok vm_reserv_reclaim_inactive /\
   (forall npages low high alignment boundary,
      preserves frame_ok
        (reclaim_contig_scan npages low high alignment boundary)) /\
   (forall m new_object old_object old_object_offset,
      preserves frame_ok
        (vm_reserv_rename m new_object old_object old_object_offset)) /\
   (forall target, preserves frame_ok (vm_reserv_scan target)) /\
   (forall rv index, preserves frame_ok (vm_reserv_populate rv index)) /\
   (forall rv index, preserves frame_ok (vm_reserv_depopulate rv index)) /\
   (forall rv m, preserves frame_ok (vm_reserv_break rv m)) /\
   (forall rv, preserves frame_ok (vm_reserv_reclaim rv)) /\
   (forall rv advance,
      preserves frame_ok (vm_reserv_update_lru rv advance))) /\
  (forall s n r base k,
      array_inv frame_ok s ->
      vm_reserv_array s !! n = Some r -> rv_pages r = Some base ->
      0 <= k < VM_LEVEL_0_NPAGES ->
      vm_reserv_from_page (page_at base k) = Rv n /\
      page_diff (page_at base k) base = k).
Proof.
  split.
  { intros. apply array_inv_startup. intros n. left. reflexivity. }
  split; [exact frames_init|].
  split.
  { apply pp_operations.
    - intros n r v H; exact H.
    - intros n r v H; exact H.
    - intros. apply pp_set_object_fields; intros n r v H; exact H.
    - intros n r index pm H _ _; exact H.
    - intros n r index pm H _ _; exact H.
    - intros n r out H _; exact H. }
  intros s n r base k Hinv Hr Hb Hk.
  destruct (Hinv n r Hr) as [Hnone|Hsome]; [congruence|].
  assert (base = Z.of_nat n * VM_LEVEL_0_SIZE) by congruence. subst base.
  assert (Hal : (Z.of_nat n * VM_LEVEL_0_SIZE) mod VM_LEVEL_0_SIZE = 0)
    by (apply Z.mod_mul; discriminate).
  assert (H0 : 0 <= Z.of_nat n * VM_LEVEL_0_SIZE)
    by (change VM_LEVEL_0_SIZE with (2 ^ 21); lia).
  destruct (page_at_frame _ k H0 Hal Hk)
    as [H1 H2].
  split; [|exact H2]. rewrite H1. unfold vm_reserv_from_page.
  change VM_LEVEL_0_SHIFT with 21. change VM_LEVEL_0_SIZE with (2 ^ 21).
  rewrite Z.shiftr_div_pow2, Z.div_mul, Nat2Z.id by lia. reflexivity.
Qed.

Lemma even_u32 x : Z.even (u32 x) = Z.even x.
Proof.
  unfold u32. rewrite Z.mod_eq by lia.
  rewrite Z.even_sub, Z.even_mul.
  change (Z.even (2 ^ 32)) with true. cbn [orb].
  destruct (Z.even x); reflexivity.
Qed.

Lemma even_two_writes x : Z.even (u32 (u32 (x + 1) + 1)) = Z.even x.
Proof.
  rewrite even_u32, Z.even_add, even_u32, Z.even_add.
  destruct (Z.even x); reflexivity.
Qed.

Lemma seq_even_put n r' s :
  array_inv (fun _ => seq_even) s -> seq_even r' ->
  array_inv (fun _ => seq_even) (put_rv n r' s).
Proof.
  intros Hok Hr k r0 Hk. unfold put_rv in Hk. cbn in Hk.
  destruct (decide (k = n)) as [->|Hne].
  - pose proof (lookup_lt_Some _ _ _ Hk) as Hl.
    rewrite length_insert in Hl.
    rewrite list_lookup_insert_eq in Hk by exact Hl.
    injection Hk as <-. exact Hr.
  - rewrite list_lookup_insert_ne in Hk by congruence. exact (Hok k r0 Hk).
Qed.

Lemma seq_even_set_object rv object pindex :
  preserves (fun _ => seq_even) (vm_reserv_set_object rv object pindex).
Proof.
  intros s a s' Hok H. destruct rv as [|n].
  - unfold vm_reserv_set_object, vm_reserv_assert_locked in H.
    apply bind_inv in H as (? & ? & H & _).
    apply bind_inv in H as (? & ? & H & _). discriminate.
  - destruct object as [o|].
    + apply set_object_some_inv in H as (r & Hr & ->).
      apply (seq_even_put n _ s Hok).
      unfold seq_even. cbn. rewrite even_two_writes. exact (Hok n r Hr).
    + apply set_object_none_inv in H as (r & Hr & ->).
      apply (seq_even_put n _ s Hok).
      unfold seq_even, unbound. cbn. rewrite even_two_writes.
      exact (Hok n r Hr).
Qed.

(** X10. The sequence counter of every element of the reservation
    array is even whenever an operation has returned: this holds after
    vm_reserv_startup and is kept by vm_reserv_init and by every
    operation, each write of object and pindex being bracketed by
    seq_write_begin and seq_write_end.  Hence seq_read on a reservation
    returns at once with the counter, without spinning. *)
Theorem sequence_counters_even_at_rest :
  (forall high_water objs,
      array_inv (fun _ => seq_even) (vm_reserv_startup high_water objs)) /\
  (forall segs, preserves (fun _ => seq_even) (vm_reserv_init segs)) /\
  ((forall object pindex mpred phys,
      preserves (fun _ => seq_even)
        (vm_reserv_alloc_page object pindex mpred phys)) /\
   (forall object pindex npages low high alignment boundary mpred phys,
      preserves (fun _ => seq_even)
        (vm_reserv_alloc_contig object pindex npages low high alignment
           boundary mpred phys)) /\
   (forall m, preserves (fun _ => seq_even) (vm_reserv_free_page m)) /\
   (forall object,
      preserves (fun _ => seq_even) (vm_reserv_break_all object)) /\
   preserves (fun _ => seq_even) vm_reserv_reclaim_inactive /\
   (forall npages low high alignment boundary,
      preserves (fun _ => seq_even)
        (reclaim_contig_scan npages low high alignment boundary)) /\
   (forall m new_object old_object old_object_offset,
      preserves (fun _ => seq_even)
        (vm_reserv_rename m new_object old_object old_object_offset)) /\
   (forall target, preserves (fun _ => seq_even) (vm_reserv_scan target)) /\
   (forall rv index,
      preserves (fun _ => seq_even) (vm_reserv_populate rv index)) /\
   (forall rv index,
      preserves (fun _ => seq_even) (vm_reserv_depopulate rv index)) /\
   (forall rv m, preserves (fun _ => seq_even) (vm_reserv_break rv m)) /\
   (forall rv, preserves (fun _ => seq_even) (vm_reserv_reclaim rv)) /\
   (forall rv advance,
      preserves (fun _ => seq_even) (vm_reserv_update_lru rv advance))) /\
  (forall s n r,
      array_inv (fun _ => seq_even) s ->
      vm_reserv_array s !! n = Some r ->
      seq_read (Rv n) s = Ok (rv_seq r, s)).
Proof.
  split.
  { intros. apply array_inv_startup. intros _. reflexivity. }
  split.
  { intros. apply pp_vm_reserv_init; intros n r v H; exact H. }
  split.
  { apply pp_operations.
    - intros n r v H; exact H.
    - intros n r v H; exact H.
    - apply seq_even_set_object.
    - intros n r index pm H _ _; exact H.
    - intros n r index pm H _ _; exact H.
    - intros n r out H _; exact H. }
  intros s n r Hinv Hr. unfold seq_read, bind, load_rv. rewrite Hr.
  pose proof (Hinv n r Hr) as He. unfold seq_even in He.
  rewrite <- Z.negb_even, He. reflexivity.
Qed.

(** X8 on a concrete state. *)
Lemma population_count_is_invariant_witness :
  population_ok s_marker_last /\
  exists r, vm_reserv_array s_marker_last !! 0%nat = Some r /\
    rv_popcnt r = 2 /\ popcount (rv_popmap r) = 2.
Proof.
  pose proof population_count_is_invariant
    as (H0 & Hinit & Hpage & Hcontig & Hfree & _ & _ & _ & _ & Hscan & _).
  assert (Hok : population_ok s_marker_last).
  { unfold s_marker_last, s_swept, s_three, s_init, s_boot.
    repeat (apply array_inv_exec; [solve [auto]|]).
    apply H0. }
  split; [exact Hok|].
  destruct (vm_reserv_array s_marker_last !! 0%nat) as [r|] eqn:Er;
    [|vm_compute in Er; discriminate].
  exists r. split; [reflexivity|].
  destruct (Hok 0%nat r Er) as [_ Hc]. rewrite <- Hc.
  vm_compute in Er. injection Er as <-. split; reflexivity.
Defined.

(** X9 on a concrete state. *)
Lemma frames_are_fixed_witness :
  array_inv frame_ok s_marker_last /\
  vm_reserv_from_page (page_at (2 * VM_LEVEL_0_SIZE) 37) = Rv 2.
Proof.
  pose proof frames_are_fixed
    as (H0 & Hinit & (Hpage & Hcontig & Hfree & _ & _ & _ & _ & Hscan & _)
        & Hback).
  assert (Hok : array_inv frame_ok s_marker_last).
  { unfold s_marker_last, s_swept, s_three, s_init, s_boot.
    repeat (apply array_inv_exec; [solve [auto]|]).
    apply array_inv_exec; [|apply H0].
    apply Hinit. constructor; [cbn; lia|constructor]. }
  split; [exact Hok|].
  eapply (Hback s_marker_last 2%nat _ _ 37 Hok);
    [vm_compute; reflexivity | reflexivity
    | split; [discriminate|reflexivity]].
Defined.

(** X10 on a concrete state. *)
Lemma sequence_counters_even_at_rest_witness :
  exists seq, seq_read (Rv 1) s_marker_last = Ok (seq, s_marker_last).
Proof.
  pose proof sequence_counters_even_at_rest
    as (H0 & Hinit & (Hpage & Hcontig & Hfree & _ & _ & _ & _ & Hscan & _)
        & Hread).
  assert (Hok : array_inv (fun _ => seq_even) s_marker_last).
  { unfold s_marker_last, s_swept, s_three, s_init, s_boot.
    repeat (apply array_inv_exec; [solve [auto]|]).
    apply H0. }
  destruct (vm_reserv_array s_marker_last !! 1%nat) as [r|] eqn:Er;
    [|vm_compute in Er; discriminate].
  exists (rv_seq r). exact (Hread s_marker_last 1%nat r Hok Er).
Defined.

Lemma population_ok_one_page_locked : population_ok s_one_page_locked.
Proof.
  apply array_inv_exec; [apply pp_vm_reserv_lock|].
  apply population_ok_one_page.
Qed.

(** X6 on a concrete state. *)
Lemma populate_keeps_population_count_witness :
  exists s' r',
    vm_reserv_populate (Rv 0) 1 s_one_page_locked = Ok (tt, s') /\
    population_ok s' /\
    vm_reserv_array s' !! 0%nat = Some r' /\
    rv_popcnt r' = 2 /\ popmap_bit (rv_popmap r') 1 = true.
Proof.
  destruct (vm_reserv_populate (Rv 0) 1 s_one_page_locked)
    as [[[] s']|] eqn:E; [|vm_compute in E; discriminate].
  destruct (populate_keeps_population_count 0 1 s_one_page_locked s'
              population_ok_one_page_locked E)
    as (Hok' & (r & r' & Hr & Hr' & Hc & _ & Hbits) & _).
  exists s', r'. split; [reflexivity|]. split; [exact Hok'|].
  split; [exact Hr'|].
  vm_compute in Hr. injection Hr as <-.
  split; [rewrite Hc; reflexivity|rewrite Hbits; reflexivity].
Defined.

(** X7 on a concrete state. *)
Lemma depopulate_keeps_population_count_witness :
  exists s' r',
    vm_reserv_depopulate (Rv 0) 0 s_one_page_locked = Ok (tt, s') /\
    population_ok s' /\
    vm_reserv_array s' !! 0%nat = Some r' /\
    rv_popcnt r' = 0 /\ popmap_bit (rv_popmap r') 0 = false.
Proof.
  destruct (vm_reserv_depopulate (Rv 0) 0 s_one_page_locked)
    as [[[] s']|] eqn:E; [|vm_compute in E; discriminate].
  destruct (depopulate_keeps_population_count 0 0 s_one_page_locked s'
              population_ok_one_page_locked E)
    as (Hok' & (r & r' & Hr & Hr' & Hc & _ & Hbits) & _).
  exists s', r'. split; [reflexivity|]. split; [exact Hok'|].
  split; [exact Hr'|].
  vm_compute in Hr. injection Hr as <-.
  split; [rewrite Hc; reflexivity|rewrite Hbits; reflexivity].
Defined.
(** ** The reservation locks *)

Lemma lockptr_stripe n n' :
  Z.of_nat n' mod RV_LOCK_COUNT = Z.of_nat n mod RV_LOCK_COUNT ->
  RV_LOCKPTR (Rv n') = RV_LOCKPTR (Rv n).
Proof.
  intros H. unfold RV_LOCKPTR. rewrite H. reflexivity.
Qed.

(** X11. After vm_reserv_lock(rv) returns, vm_reserv_unlock(rv)
    restores the state before the lock.  Meanwhile every reservation whose
    index differs from rv's by a multiple of RV_LOCK_COUNT, above or
    below it (the two indices are equal modulo RV_LOCK_COUNT), shares the
    mutex: for it vm_reserv_assert_locked passes, vm_reserv_trylock
    returns false and changes nothing, vm_reserv_lock is a recursive
    acquisition (a panic), and vm_reserv_unlock releases rv's lock. *)
Theorem lock_covers_its_stripe n s s1 :
  vm_reserv_lock (Rv n) s = Ok (tt, s1) ->
  vm_reserv_unlock (Rv n) s1 = Ok (tt, s) /\
  forall n',
    Z.of_nat n' mod RV_LOCK_COUNT = Z.of_nat n mod RV_LOCK_COUNT ->
    vm_reserv_assert_locked (Rv n') s1 = Ok (tt, s1) /\
    vm_reserv_trylock (Rv n') s1 = Ok (false, s1) /\
    vm_reserv_lock (Rv n') s1 = Err EPanic /\
    vm_reserv_unlock (Rv n') s1 = Ok (tt, s).
Proof.
  intros H. apply vm_reserv_lock_inv in H as (k & Hk & Hl & ->).
  assert (Hlen : (k < length (rv_lock s))%nat)
    by (eapply lookup_lt_Some; eassumption).
  assert (Hun : forall rv, RV_LOCKPTR rv = Some k ->
    vm_reserv_unlock rv (set_rv_lock (<[k := MtxOwned]> (rv_lock s)) s)
    = Ok (tt, s)).
  { intros rv Hrv. unfold vm_reserv_unlock, load_lock, bind. rewrite Hrv.
    destruct s as [arr mk act inact objs ps locks fm br fr rc tr].
    cbn in *. rewrite list_lookup_insert_eq by exact Hlen. cbn.
    unfold modify. cbn.
    rewrite list_insert_insert_eq, list_insert_id by exact Hl.
    reflexivity. }
  split; [apply Hun, Hk|].
  intros n' Hmod.
  pose proof (lockptr_stripe n n' Hmod) as Hs. rewrite Hk in Hs.
  destruct s as [arr mk act inact objs ps locks fm br fr rc tr].
  cbn in Hl, Hlen.
  split; [|split; [|split]].
  - unfold vm_reserv_assert_locked, load_lock, bind. rewrite Hs. cbn.
    rewrite list_lookup_insert_eq by exact Hlen. reflexivity.
  - unfold vm_reserv_trylock, load_lock, bind. rewrite Hs. cbn.
    rewrite list_lookup_insert_eq by exact Hlen. cbn. unfold modify. cbn.
    rewrite list_insert_insert_eq. reflexivity.
  - unfold vm_reserv_lock, load_lock, bind. rewrite Hs. cbn.
    rewrite list_lookup_insert_eq by exact Hlen. reflexivity.
  - apply Hun, Hs.
Qed.

(** X11 on a concrete state: reservation 300 is locked; reservations 44
    (below it) and 556 (above it) share its mutex. *)
Lemma lock_covers_its_stripe_witness :
  exists s1,
    vm_reserv_lock (Rv 300) s_init = Ok (tt, s1) /\
    vm_reserv_unlock (Rv 300) s1 = Ok (tt, s_init) /\
    vm_reserv_trylock (Rv 44) s1 = Ok (false, s1) /\
    vm_reserv_lock (Rv 44) s1 = Err EPanic /\
    vm_reserv_unlock (Rv 44) s1 = Ok (tt, s_init) /\
    vm_reserv_trylock (Rv 556) s1 = Ok (false, s1).
Proof.
  destruct (vm_reserv_lock (Rv 300) s_init) as [[[] s1]|] eqn:E;
    [|vm_compute in E; discriminate E].
  destruct (lock_covers_its_stripe 300 s_init s1 E) as [Hu Hj].
  destruct (Hj 44%nat eq_refl) as (_ & Ht & Hl & Hu').
  destruct (Hj 556%nat eq_refl) as (_ & Ht' & _).
  exists s1. repeat split; assumption.
Defined.

(** ** vm_reserv_rename runs to completion *)

Lemma rename_runs m new_object old_object off s :
  rename_pre m new_object old_object s ->
  exists s', vm_reserv_rename m new_object old_object off s = Ok (tt, s').
Proof.
  intros (r & obn & Hr & Hobn & Hw & Hbound).
  unfold vm_reserv_rename, vm_reserv_from_page.
  set (n := Z.to_nat (Z.shiftr m VM_LEVEL_0_SHIFT)) in *.
  destruct s as [arr mk act inact objs ps locks fm br fr rc tr].
  unfold_state.
  destruct (bool_decide (rv_object r = Some old_object)) eqn:Eo.
  - apply bool_decide_eq_true in Eo.
    destruct (Hbound Eo) as ((k & Hk & Hl) & Hfm & Hq).
    injection Hk as <-. unfold_state. subst fm.
    unfold on_objq in Hq. unfold_state.
    unfold vm_reserv_set_object, VM_OBJECT_ASSERT_WLOCKED, LIST_INSERT_HEAD.
    repeat (run;
      try rewrite (bool_decide_eq_true_2 (Some old_object = Some old_object)
                     eq_refl)).
    assert (Hun :
      existsb (fun ob : vm_object => inb (Rv n) (o_rvq ob))
        ((fun ob : vm_object =>
            set_o_rvq (remove rvref_eq_dec (Rv n) (o_rvq ob)) ob) <$> objs)
      = false).
    { exact (on_objq_unlinked n
               (mk_state arr mk act inact objs ps locks MtxUnowned br fr rc
                  tr)). }
    rewrite Hun.
    assert (Hnew : ((fun ob : vm_object =>
            set_o_rvq (remove rvref_eq_dec (Rv n) (o_rvq ob)) ob) <$> objs)
              !! new_object
            = Some (set_o_rvq (remove rvref_eq_dec (Rv n) (o_rvq obn)) obn)).
    { rewrite list_lookup_fmap, Hobn. reflexivity. }
    repeat (run; cbn [o_wlocked set_o_rvq o_rvq];
            try rewrite list_lookup_insert_eq
              by (rewrite length_fmap; eapply lookup_lt_Some; exact Hobn)).
    eexists. reflexivity.
  - unfold VM_OBJECT_ASSERT_WLOCKED. run. eexists. reflexivity.
Qed.

(** X12. vm_reserv_rename returns when the reservation of the page
    exists and new_object is write-locked and, in case the reservation
    belongs to old_object, its lock and the free-queue lock are free and
    it is linked on an object's list. *)
Theorem rename_runs_to_completion m new_object old_object off s :
  rename_pre m new_object old_object s ->
  exists s', vm_reserv_rename m new_object old_object off s = Ok (tt, s').
Proof. apply rename_runs. Qed.

(** X12 on a concrete state. *)
Lemma rename_runs_to_completion_witness :
  exists s', vm_reserv_rename 0 1 0 0 s_one_page = Ok (tt, s').
Proof.
  apply (rename_runs_to_completion 0 1 0 0 s_one_page).
  eexists _, _. split; [vm_compute; reflexivity|].
  split; [vm_compute; reflexivity|]. split; [reflexivity|].
  intros _. split; [exists 0%nat; split; vm_compute; reflexivity|].
  split; vm_compute; reflexivity.
Defined.

(** ** Freeing a page *)

(** The LRU update procedure returns with the locks as it found them. *)
Lemma update_lru_locks n adv s u s' :
  vm_reserv_update_lru (Rv n) adv s = Ok (u, s') ->
  rv_lock s' = rv_lock s /\
  vm_page_queue_free_mtx s' = vm_page_queue_free_mtx s.
Proof.
  intros H.
  assert (Hl : exists r, vm_reserv_array s !! n = Some r).
  { unfold vm_reserv_update_lru in H. minv H; eauto. }
  destruct Hl as [r Hr].
  destruct (Z.eq_dec (rv_popcnt r) VM_LEVEL_0_NPAGES) as [Hf|Hf].
  { eapply update_lru_full_inv in H as (_ & _ & _ & _ & ->); eauto.
    unfold dequeued. destruct (queue_of _); split; reflexivity. }
  destruct (Z.eq_dec (rv_popcnt r) 0) as [Hz|Hz].
  { eapply update_lru_empty_inv in H as (pa & _ & _ & _ & _ & _ & _ & ->);
      eauto.
    unfold dequeued. destruct (queue_of _); split; reflexivity. }
  destruct (Z.eq_dec (Z.land (rv_flags r) VM_RESERV_F_ACTIVE) 0) as [Ha|Ha].
  { eapply update_lru_activate_inv in H as (_ & _ & _ & _ & ->); eauto.
    unfold activated. destruct (_ =? _); split; reflexivity. }
  eapply update_lru_bump_inv in H; eauto. subst s'. split; reflexivity.
Qed.

Lemma depopulate_locks n index s u s' :
  vm_reserv_depopulate (Rv n) index s = Ok (u, s') ->
  rv_lock s' = rv_lock s /\
  vm_page_queue_free_mtx s' = vm_page_queue_free_mtx s.
Proof.
  intros H.
  apply depopulate_inv in H as (r & pm & _ & _ & _ & _ & _ & Hfull & Hpart).
  cbv zeta in Hfull, Hpart.
  destruct (Z.eq_dec (rv_popcnt r) VM_LEVEL_0_NPAGES) as [E|E].
  - destruct (Hfull E) as (m & k & _ & _ & _ & _ & Hup).
    apply update_lru_locks in Hup. exact Hup.
  - exact (update_lru_locks _ _ _ _ _ (Hpart E)).
Qed.

Lemma populate_locks n index s u s' :
  vm_reserv_populate (Rv n) index s = Ok (u, s') ->
  rv_lock s' = rv_lock s /\
  vm_page_queue_free_mtx s' = vm_page_queue_free_mtx s.
Proof.
  intros H.
  apply populate_inv in H as (r & m & k & pm & _ & _ & _ & _ & _ & _ & _ & _
                              & Hup).
  cbv zeta in Hup. apply update_lru_locks in Hup.
  destruct (_ =? _); exact Hup.
Qed.

Lemma free_page_effect m s b s' :
  population_ok s ->
  vm_reserv_free_page m s = Ok (b, s') ->
  exists r,
    vm_reserv_array s !! Z.to_nat (Z.shiftr (phys_addr m) VM_LEVEL_0_SHIFT)
      = Some r /\
    ((rv_object r = None /\ b = false /\ s' = s) \/
     (rv_object r <> None /\ b = true /\
      population_ok s' /\
      rv_lock s' = rv_lock s /\
      vm_page_queue_free_mtx s' = vm_page_queue_free_mtx s /\
      exists base r',
        rv_pages r = Some base /\
        vm_reserv_array s' !! Z.to_nat (Z.shiftr (phys_addr m) VM_LEVEL_0_SHIFT)
          = Some r' /\
        rv_popcnt r' = rv_popcnt r - 1 /\
        popmap_bit (rv_popmap r) (page_diff (phys_addr m) base) = true /\
        forall k, popmap_bit (rv_popmap r') k
                  = negb (k =? page_diff (phys_addr m) base)
                    && popmap_bit (rv_popmap r) k)).
Proof.
  intros Hok H. unfold vm_reserv_free_page, vm_reserv_from_page in H.
  set (n := Z.to_nat (Z.shiftr (phys_addr m) VM_LEVEL_0_SHIFT)) in *.
  apply bind_inv in H as (u & s0 & H0 & H).
  assert (s0 = s).
  { destruct (m_object m); [|apply ret_inv in H0 as [_ ->]; reflexivity].
    unfold VM_OBJECT_ASSERT_WLOCKED in H0. minv H0. reflexivity. }
  subst s0. clear H0.
  apply bind_inv in H as (r & s0 & Hr & H).
  apply load_rv_inv in Hr as [Hr ->]. exists r. split; [exact Hr|].
  destruct (rv_object r) as [o|] eqn:Eo; cbn [is_null] in H.
  - right. split; [discriminate|].
    apply bind_inv in H as (u1 & s1 & Hlock & H).
    apply vm_reserv_lock_inv in Hlock as (k & Hk & Hl & ->).
    apply bind_inv in H as (r1 & s2 & Hr1 & H).
    apply load_rv_inv in Hr1 as [Hr1 ->]. cbn in Hr1.
    assert (r1 = r) by congruence. subst r1.
    apply bind_inv in H as (base & s2 & Hb & H).
    apply lift_inv in Hb as [Hb ->].
    destruct (rv_pages r) as [base'|] eqn:Ep; [|discriminate].
    injection Hb as ->.
    apply bind_inv in H as ([] & s3 & Hd & H).
    apply bind_inv in H as (u2 & s4 & Hun & H).
    apply ret_inv in H as [-> ->].
    pose proof (depopulate_locks _ _ _ _ _ Hd) as [Hl3 Hf3].
    apply vm_reserv_unlock_inv in Hun as (k' & Hk' & Hl' & ->).
    assert (k' = k) by congruence. subst k'.
    assert (Hok1 : population_ok
              (set_rv_lock (<[k := MtxOwned]> (rv_lock s)) s)) by exact Hok.
    destruct (depopulate_population _ _ _ _ Hok1 Hd)
      as (Hok3 & (r0 & r' & Hr0 & Hr' & Hc & Hbit & Hbits) & _).
    cbn in Hr0. assert (r0 = r) by congruence. subst r0.
    split; [reflexivity|]. split; [exact Hok3|].
    split.
    { cbn. rewrite Hl3. cbn.
      rewrite list_insert_insert_eq. apply list_insert_id, Hl. }
    split; [cbn; rewrite Hf3; reflexivity|].
    exists base, r'. auto.
  - left. apply ret_inv in H as [-> ->]. auto.
Qed.

(** X13. vm_reserv_free_page(m), from a state where popcnt counts the
    set bits of popmap: if the reservation of m is unbound it returns
    FALSE and changes nothing; otherwise it returns TRUE, the bit of m was
    set and is now clear, no other bit of the reservation changed, popcnt
    fell by one, the count invariant still holds, and the reservation
    locks and the free-queue lock are as before. *)
Theorem free_page_frees_the_page m s b s' :
  population_ok s ->
  vm_reserv_free_page m s = Ok (b, s') ->
  exists r,
    vm_reserv_array s !! Z.to_nat (Z.shiftr (phys_addr m) VM_LEVEL_0_SHIFT)
      = Some r /\
    ((rv_object r = None /\ b = false /\ s' = s) \/
     (rv_object r <> None /\ b = true /\
      population_ok s' /\
      rv_lock s' = rv_lock s /\
      vm_page_queue_free_mtx s' = vm_page_queue_free_mtx s /\
      exists base r',
        rv_pages r = Some base /\
        vm_reserv_array s' !! Z.to_nat (Z.shiftr (phys_addr m) VM_LEVEL_0_SHIFT)
          = Some r' /\
        rv_popcnt r' = rv_popcnt r - 1 /\
        popmap_bit (rv_popmap r) (page_diff (phys_addr m) base) = true /\
        forall k, popmap_bit (rv_popmap r') k
                  = negb (k =? page_diff (phys_addr m) base)
                    && popmap_bit (rv_popmap r) k)).
Proof. apply free_page_effect. Qed.

(** X13 on a concrete state. *)
Lemma free_page_frees_the_page_witness :
  exists s' r',
    vm_reserv_free_page (mk_vm_page (page_at VM_LEVEL_0_SIZE 0) (Some 1%nat) 0)
      s_three = Ok (true, s') /\
    rv_lock s' = rv_lock s_three /\
    vm_reserv_array s' !! 1%nat = Some r' /\
    rv_popcnt r' = 0 /\ popmap_bit (rv_popmap r') 0 = false.
Proof.
  destruct (vm_reserv_free_page
              (mk_vm_page (page_at VM_LEVEL_0_SIZE 0) (Some 1%nat) 0) s_three)
    as [[b s']|] eqn:E; [|vm_compute in E; discriminate].
  destruct (free_page_frees_the_page _ _ _ _ population_ok_three E)
    as (r & Hr & [(Hnone & _)|(_ & -> & _ & Hl & _ & base & r' & Hb & Hr'
                               & Hc & _ & Hbits)]).
  - vm_compute in Hr. injection Hr as <-. discriminate.
  - exists s', r'. split; [reflexivity|]. split; [exact Hl|].
    split; [exact Hr'|].
    vm_compute in Hr. injection Hr as <-.
    injection Hb as <-.
    split; [rewrite Hc; reflexivity|rewrite Hbits; reflexivity].
Defined.

(** ** Reclaiming with nothing to reclaim *)

Lemma reclaim_inactive_nothing s :
  vm_page_queue_free_mtx s = MtxOwned ->
  vm_rvlru_inactive s = [] ->
  List.filter (fun rv => negb (is_marker s rv)) (vm_rvlru_active s) = [] ->
  vm_reserv_reclaim_inactive s = Ok (false, s).
Proof.
  intros Hfm Hin Hact.
  unfold vm_reserv_reclaim_inactive, bind, free_mtx_assert_owned.
  rewrite Hfm. cbn [mtx_owned vm_reserv_reclaim_inactive_from].
  unfold bind, get. rewrite Hin, Hact. reflexivity.
Qed.

Lemma trylock_false_inv rv s s1 :
  vm_reserv_trylock rv s = Ok (false, s1) ->
  exists k m, RV_LOCKPTR rv = Some k /\ rv_lock s1 !! k = Some m /\
    m <> MtxUnowned.
Proof.
  unfold vm_reserv_trylock, load_lock. intros H.
  apply bind_inv in H as ([k m] & s0 & H1 & H2).
  destruct (RV_LOCKPTR rv) as [k'|]; [|discriminate].
  destruct (rv_lock s !! k') as [m'|] eqn:E; [|discriminate].
  inversion H1; subst. cbn [fst snd] in H2.
  apply bind_inv in H2 as (? & s2 & H2 & H3).
  apply modify_inv in H2. apply ret_inv in H3 as [H3 ->]. subst s2.
  exists k, m. split; [reflexivity|].
  assert (Hlen : (k < length (rv_lock s0))%nat)
    by (eapply lookup_lt_Some; eassumption).
  split.
  - cbn. rewrite list_lookup_insert_eq by exact Hlen.
    destruct m; cbn in *; try discriminate; reflexivity.
  - destruct m; cbn in *; discriminate.
Qed.

(** In a one-thread run a candidate whose lock cannot be taken at once
    is never reclaimed nor skipped: the blocking acquisition does not
    return. *)
Lemma reclaim_candidate_done rv flag s b s' :
  reclaim_candidate rv flag s = Ok (b, s') -> b = true.
Proof.
  unfold reclaim_candidate. intros H.
  apply bind_inv in H as (ok & s1 & Htry & H).
  apply bind_inv in H as (go & s2 & Hgo & H).
  destruct go.
  - apply bind_inv in H as (? & ? & _ & H).
    apply bind_inv in H as (? & ? & _ & H).
    apply ret_inv in H as [H _]. exact H.
  - exfalso.
    destruct ok; [apply ret_inv in Hgo as [Hgo _]; discriminate|].
    apply trylock_false_inv in Htry as (k & m & Hk & Hm & Hne).
    apply bind_inv in Hgo as (? & s3 & Hu & Hgo).
    apply free_mtx_unlock_inv in Hu as [Hu ->].
    apply bind_inv in Hgo as (? & s4 & Hl & _).
    apply vm_reserv_lock_inv in Hl as (k' & Hk' & Hl & _).
    assert (k' = k) by congruence. subst k'.
    cbn in Hl. congruence.
Qed.

(** X14. vm_reserv_reclaim_inactive with the free-queue lock held
    returns FALSE and changes nothing when the inactive queue is empty and
    the active queue holds nothing but markers; and in a one-thread run
    that is the only way it returns FALSE. *)
Theorem reclaim_inactive_reports_nothing_to_reclaim :
  (forall s,
      vm_page_queue_free_mtx s = MtxOwned ->
      vm_rvlru_inactive s = [] ->
      List.filter (fun rv => negb (is_marker s rv)) (vm_rvlru_active s) = [] ->
      vm_reserv_reclaim_inactive s = Ok (false, s)) /\
  (forall s s',
      vm_reserv_reclaim_inactive s = Ok (false, s') ->
      s' = s /\
      vm_rvlru_inactive s = [] /\
      List.filter (fun rv => negb (is_marker s rv)) (vm_rvlru_active s) = []).
Proof.
  split; [exact reclaim_inactive_nothing|].
  intros s s' H. unfold vm_reserv_reclaim_inactive in H.
  apply bind_inv in H as (? & s0 & Ha & H).
  apply free_mtx_assert_owned_inv in Ha as [_ ->].
  assert (Hfrom : forall n s s',
            vm_reserv_reclaim_inactive_from n s = Ok (false, s') ->
            s' = s /\
            vm_rvlru_inactive s = [] /\
            List.filter (fun rv => negb (is_marker s rv))
              (vm_rvlru_active s) = []).
  { clear. induction n as [|n IH]; intros s s' H;
      cbn [vm_reserv_reclaim_inactive_from] in H; [discriminate|].
    apply bind_inv in H as (s0 & s1 & Hg & H).
    apply get_inv in Hg as [-> ->].
    destruct (vm_rvlru_inactive s) as [|rv l] eqn:Ei.
    - destruct (List.filter _ _) as [|rv l] eqn:Ef.
      + apply ret_inv in H as [_ ->]. auto.
      + apply bind_inv in H as (done & s2 & Hc & H).
        apply reclaim_candidate_done in Hc. subst done.
        apply ret_inv in H as [H _]. discriminate.
    - apply bind_inv in H as (done & s2 & Hc & H).
      apply reclaim_candidate_done in Hc. subst done.
      apply ret_inv in H as [H _]. discriminate. }
  exact (Hfrom _ _ _ H).
Qed.

(** X14 on a concrete state. *)
Lemma reclaim_inactive_reports_nothing_to_reclaim_witness :
  vm_reserv_reclaim_inactive (exec free_mtx_lock s_init)
  = Ok (false, exec free_mtx_lock s_init).
Proof.
  apply (proj1 reclaim_inactive_reports_nothing_to_reclaim);
    vm_compute; reflexivity.
Defined.




(** ** The query functions *)

Lemma popmap_is_clear_bit popmap i b :
  popmap_is_clear popmap i = Some b ->
  0 <= i < VM_LEVEL_0_NPAGES /\ b = negb (popmap_bit popmap i).
Proof.
  unfold popmap_is_clear, popmap_bit. intros H.
  destruct (popmap_word popmap (i / NBPOPMAP)) as [w|] eqn:Hw;
    [|discriminate].
  pose proof (index_in_range _ _ _ Hw) as Hi.
  pose proof (index_split _ Hi) as [_ Hb].
  split; [exact Hi|]. injection H as <-.
  destruct (Z.testbit w (i mod NBPOPMAP)) eqn:E; cbn [negb].
  - apply Z.eqb_neq. intros H0.
    apply land_bit_zero in H0; [congruence|lia].
  - apply Z.eqb_eq. apply land_bit_zero; [lia|exact E].
Qed.

Lemma count_bits_full f : forall n lo,
  count_bits f lo n = Z.of_nat n ->
  forall k, lo <= k < lo + Z.of_nat n -> f k = true.
Proof.
  induction n as [|n IH]; intros lo H k Hk; [lia|].
  cbn [count_bits] in H.
  pose proof (count_bits_bounds f (lo + 1) n) as Hb.
  destruct (f lo) eqn:E; [|lia].
  destruct (Z.eq_dec k lo) as [->|Hne]; [exact E|].
  apply (IH (lo + 1)); lia.
Qed.

Lemma popcount_full popmap k :
  popcount popmap = VM_LEVEL_0_NPAGES ->
  0 <= k < VM_LEVEL_0_NPAGES -> popmap_bit popmap k = true.
Proof.
  unfold popcount. intros H Hk.
  apply (count_bits_full _ (Z.to_nat VM_LEVEL_0_NPAGES) 0);
    rewrite ?Z2Nat.id; rewrite ?VM_LEVEL_0_NPAGES_val in *; lia.
Qed.

(** X17. vm_reserv_is_page_free(m) changes nothing, and when it
    returns true (popcnt counting the set bits of popmap) the reservation
    of m is bound and not fully populated: vm_reserv_level(m) is 0 and
    vm_reserv_level_iffullpop(m) is -1. *)
Theorem page_reported_free_is_in_partial_reservation s m b s' :
  population_ok s ->
  vm_reserv_is_page_free m s = Ok (b, s') ->
  s' = s /\
  (b = true ->
   vm_reserv_level m s = Ok (0, s) /\
   vm_reserv_level_iffullpop m s = Ok (-1, s)).
Proof.
  unfold vm_reserv_is_page_free, vm_reserv_level, vm_reserv_level_iffullpop,
    vm_reserv_from_page.
  intros Hok H.
  apply bind_inv in H as (r & s1 & Hr & H).
  pose proof Hr as Hr0.
  apply load_rv_inv in Hr as [Hr ->].
  destruct (Hok _ _ Hr) as [Ht Hc].
  unfold bind at 1 2. rewrite Hr0.
  destruct (is_null (rv_object r)) eqn:En.
  { apply ret_inv in H as [-> ->]. split; [reflexivity|discriminate]. }
  apply bind_inv in H as (base & s1 & Hb & H).
  apply lift_inv in Hb as [_ ->].
  apply lift_inv in H as [H ->].
  split; [reflexivity|]. intros ->.
  split; [reflexivity|].
  destruct (popmap_is_clear (rv_popmap r) (page_diff m base)) as [c|] eqn:E;
    [|discriminate].
  injection H as ->.
  apply popmap_is_clear_bit in E as [Hi E].
  destruct (rv_popcnt r =? VM_LEVEL_0_NPAGES) eqn:Ef; [|reflexivity].
  zbool. rewrite Hc in Ef.
  rewrite (popcount_full _ _ Ef Hi) in E. discriminate.
Qed.

(** ** Allocation *)

(** The LRU update procedure leaves a reservation that holds pages bound
    as it is. *)
Lemma update_lru_binding n adv s u s' r :
  vm_reserv_update_lru (Rv n) adv s = Ok (u, s') ->
  vm_reserv_array s !! n = Some r ->
  rv_popcnt r <> 0 ->
  exists r', vm_reserv_array s' !! n = Some r' /\
    rv_object r' = rv_object r /\ rv_pindex r' = rv_pindex r /\
    rv_pages r' = rv_pages r /\ rv_popcnt r' = rv_popcnt r /\
    rv_popmap r' = rv_popmap r.
Proof.
  intros H Hr Hne.
  assert (Hlen : (n < length (vm_reserv_array s))%nat)
    by (eapply lookup_lt_Some; eassumption).
  assert (Hput : forall r1 s1,
    vm_reserv_array s1 = vm_reserv_array s ->
    rv_object r1 = rv_object r -> rv_pindex r1 = rv_pindex r ->
    rv_pages r1 = rv_pages r -> rv_popcnt r1 = rv_popcnt r ->
    rv_popmap r1 = rv_popmap r ->
    exists r', vm_reserv_array (put_rv n r1 s1) !! n = Some r' /\
      rv_object r' = rv_object r /\ rv_pindex r' = rv_pindex r /\
      rv_pages r' = rv_pages r /\ rv_popcnt r' = rv_popcnt r /\
      rv_popmap r' = rv_popmap r).
  { intros r1 s1 Ha Ho Hp Hg Hc Hm. exists r1.
    split; [|auto]. destruct s1. unfold put_rv. unfold_state.
    apply list_lookup_insert_eq. cbn in Ha. rewrite Ha. exact Hlen. }
  destruct (Z.eq_dec (rv_popcnt r) VM_LEVEL_0_NPAGES) as [Ef|Ef].
  { apply (update_lru_full_inv _ _ _ _ _ r) in H as (_ & _ & _ & _ & ->);
      [|assumption..].
    unfold dequeued. destruct (queue_of (rv_flags r));
      apply Hput; destruct s; reflexivity. }
  destruct (Z.eq_dec (Z.land (rv_flags r) VM_RESERV_F_ACTIVE) 0) as [Ea|Ea].
  - apply (update_lru_activate_inv _ _ _ _ _ r) in H as (_ & _ & _ & _ & ->);
      [|assumption..].
    unfold activated.
    destruct (Z.land (rv_flags r) VM_RESERV_F_INACTIVE =? 0);
      apply Hput; destruct s; reflexivity.
  - apply (update_lru_bump_inv _ _ _ _ _ r) in H as ->; [|assumption..].
    apply Hput; reflexivity.
Qed.

(** vm_reserv_populate on record n: the bit was clear and is set, the
    count grows by one and the binding stays. *)
Lemma populate_binding n index s u s' r :
  vm_reserv_populate (Rv n) index s = Ok (u, s') ->
  vm_reserv_array s !! n = Some r ->
  rec_ok r ->
  0 <= index < VM_LEVEL_0_NPAGES /\
  popmap_bit (rv_popmap r) index = false /\
  exists r', vm_reserv_array s' !! n = Some r' /\
    rv_object r' = rv_object r /\ rv_object r <> None /\
    rv_pindex r' = rv_pindex r /\
    rv_pages r' = rv_pages r /\ rv_popcnt r' = rv_popcnt r + 1 /\
    rec_ok r' /\
    forall k, popmap_bit (rv_popmap r') k
              = (k =? index) || popmap_bit (rv_popmap r) k.
Proof.
  intros Hp Hr [Ht Hc].
  apply populate_inv in Hp
    as (r0 & m & kp & pm & Hr0 & Hob & Hclr & Hlt & _ & _ & _ & Hset & Hup).
  assert (r0 = r) by congruence. subst r0.
  cbv zeta in Hup.
  destruct (popmap_set_bits _ _ _ Ht Hclr Hset)
    as (Hi & Hbit & Ht1 & Hbits & Hcnt).
  pose proof (popcount_bounds (rv_popmap r)) as Hb.
  rewrite VM_LEVEL_0_NPAGES_val in *.
  assert (Hlen : (n < length (vm_reserv_array s))%nat)
    by (eapply lookup_lt_Some; eassumption).
  rewrite u16_small in Hup by lia.
  split; [exact Hi|]. split; [exact Hbit|].
  eapply (update_lru_binding n _ _ _ _
            (set_rv_popcnt (rv_popcnt r + 1) (set_rv_popmap pm r)))
    in Hup.
  - destruct Hup as (r' & Hr' & Ho' & Hp' & Hg' & Hc' & Hm').
    cbn in Ho', Hp', Hg', Hc', Hm'.
    exists r'. split; [exact Hr'|]. split; [exact Ho'|].
    split; [exact Hob|]. split; [exact Hp'|]. split; [exact Hg'|].
    split; [exact Hc'|]. split.
    + split; rewrite Hm'; [exact Ht1|lia].
    + rewrite Hm'. exact Hbits.
  - destruct (rv_popcnt r + 1 =? 512); destruct s; unfold put_rv;
      unfold_state; apply list_lookup_insert_eq; exact Hlen.
  - cbn. lia.
Qed.

Lemma frame_page n r base k :
  frame_ok n r -> rv_pages r = Some base -> 0 <= k < VM_LEVEL_0_NPAGES ->
  base = Z.of_nat n * VM_LEVEL_0_SIZE /\
  vm_reserv_from_page (page_at base k) = Rv n /\
  page_diff (page_at base k) base = k.
Proof.
  intros [Hnone|Hsome] Hb Hk; [congruence|].
  assert (base = Z.of_nat n * VM_LEVEL_0_SIZE) by congruence. subst base.
  split; [reflexivity|].
  assert (Hal : (Z.of_nat n * VM_LEVEL_0_SIZE) mod VM_LEVEL_0_SIZE = 0)
    by (apply Z.mod_mul; discriminate).
  assert (H0 : 0 <= Z.of_nat n * VM_LEVEL_0_SIZE)
    by (change VM_LEVEL_0_SIZE with (2 ^ 21); lia).
  destruct (page_at_frame _ k H0 Hal Hk) as [H1 H2].
  split; [|exact H2]. rewrite H1.
  unfold vm_reserv_from_page. f_equal.
  change VM_LEVEL_0_SHIFT with 21. change VM_LEVEL_0_SIZE with (2 ^ 21).
  rewrite Z.shiftr_div_pow2, Z.div_mul by lia. apply Nat2Z.id.
Qed.

Lemma popmap_is_clear_typed popmap i :
  popmap_typed popmap -> 0 <= i < VM_LEVEL_0_NPAGES ->
  popmap_is_clear popmap i = Some (negb (popmap_bit popmap i)).
Proof.
  intros Ht Hi.
  destruct (popmap_is_clear popmap i) as [b|] eqn:E.
  - apply popmap_is_clear_bit in E as [_ ->]. reflexivity.
  - exfalso. unfold popmap_is_clear in E.
    pose proof (index_split _ Hi) as [Hq _].
    destruct (popmap_typed_lookup popmap (i / NBPOPMAP) Ht Hq) as (w & Hw & _).
    rewrite Hw in E. discriminate.
Qed.

(** A look at a neighbouring page that ends at the label found. *)
Lemma probe_mpred_found object pindex first mp s rv s1 :
  probe_mpred object pindex first mp s = Ok (StFound rv, s1) ->
  exists n r, rv = Rv n /\ vm_reserv_array s !! n = Some r /\
    rv_object r = Some object /\ vm_reserv_has_pindex r pindex = true /\
    vm_reserv_array s1 = vm_reserv_array s.
Proof.
  unfold probe_mpred, seq_read, seq_consistent, vm_reserv_from_page.
  intros H. cbv zeta in H.
  set (n := Z.to_nat (Z.shiftr (phys_addr mp) VM_LEVEL_0_SHIFT)) in *.
  apply bind_inv in H as (sq & s0 & Hs & H).
  apply bind_inv in Hs as (r0 & s00 & Hr0 & Hs).
  apply load_rv_inv in Hr0 as [Hr0 ->].
  destruct (Z.odd (rv_seq r0)); [discriminate|].
  apply ret_inv in Hs as [-> ->].
  apply bind_inv in H as (r & s00 & Hr & H).
  apply load_rv_inv in Hr as [Hr ->].
  destruct (bool_decide (rv_object r = Some object)) eqn:Eo.
  - destruct (vm_reserv_has_pindex r pindex) eqn:Ep.
    + apply bind_inv in H as (? & s2 & Hl & H).
      apply vm_reserv_lock_inv in Hl as (k & _ & _ & ->).
      apply bind_inv in H as (c & s3 & Hc & H).
      apply bind_inv in Hc as (r1 & s4 & Hr1 & Hc).
      apply load_rv_inv in Hr1 as [_ ->].
      apply ret_inv in Hc as [-> ->].
      destruct (_ =? _).
      * apply ret_inv in H as [H ->]. injection H as ->.
        exists n, r. zbool. destruct s. cbn. auto.
      * apply bind_inv in H as (? & ? & _ & H). discriminate.
    + apply bind_inv in H as (c & s3 & _ & H).
      destruct c; [|discriminate].
      destruct (first <? _); apply ret_inv in H as [H _]; discriminate.
  - apply bind_inv in H as (c & s3 & _ & H).
    destruct c; [|discriminate].
    destruct (first <? _); apply ret_inv in H as [H _]; discriminate.
Qed.

Lemma probe_msucc_found object pindex ms s rv s1 :
  probe_msucc object pindex ms s = Ok (StFound rv, s1) ->
  exists n r, rv = Rv n /\ vm_reserv_array s !! n = Some r /\
    rv_object r = Some object /\ vm_reserv_has_pindex r pindex = true /\
    vm_reserv_array s1 = vm_reserv_array s.
Proof.
  unfold probe_msucc, seq_read, seq_consistent, vm_reserv_from_page.
  intros H. cbv zeta in H.
  set (n := Z.to_nat (Z.shiftr (phys_addr ms) VM_LEVEL_0_SHIFT)) in *.
  apply bind_inv in H as (sq & s0 & Hs & H).
  apply bind_inv in Hs as (r0 & s00 & Hr0 & Hs).
  apply load_rv_inv in Hr0 as [Hr0 ->].
  destruct (Z.odd (rv_seq r0)); [discriminate|].
  apply ret_inv in Hs as [-> ->].
  apply bind_inv in H as (r & s00 & Hr & H).
  apply load_rv_inv in Hr as [Hr ->].
  destruct (bool_decide (rv_object r = Some object)) eqn:Eo.
  - destruct (vm_reserv_has_pindex r pindex) eqn:Ep.
    + apply bind_inv in H as (? & s2 & Hl & H).
      apply vm_reserv_lock_inv in Hl as (k & _ & _ & ->).
      apply bind_inv in H as (c & s3 & Hc & H).
      apply bind_inv in Hc as (r1 & s4 & Hr1 & Hc).
      apply load_rv_inv in Hr1 as [_ ->].
      apply ret_inv in Hc as [-> ->].
      destruct (_ =? _).
      * apply ret_inv in H as [H ->]. injection H as ->.
        exists n, r. zbool. destruct s. cbn. auto.
      * apply bind_inv in H as (? & ? & _ & H). discriminate.
    + apply bind_inv in H as (c & s3 & _ & H).
      destruct c; [|discriminate].
      apply ret_inv in H as [H _]; discriminate.
  - apply bind_inv in H as (c & s3 & _ & H).
    destruct c; [|discriminate].
    apply ret_inv in H as [H _]; discriminate.
Qed.

(** Every look at a neighbour leaves the reservation array as it is. *)
Lemma probe_mpred_array object pindex first mp s st s1 :
  probe_mpred object pindex first mp s = Ok (st, s1) ->
  vm_reserv_array s1 = vm_reserv_array s.
Proof.
  unfold probe_mpred, seq_read, seq_consistent, vm_reserv_from_page.
  intros H. cbv zeta in H.
  apply bind_inv in H as (sq & s0 & Hs & H).
  apply bind_inv in Hs as (r0 & s00 & Hr0 & Hs).
  apply load_rv_inv in Hr0 as [Hr0 ->].
  destruct (Z.odd (rv_seq r0)); [discriminate|].
  apply ret_inv in Hs as [-> ->].
  apply bind_inv in H as (r & s00 & Hr & H).
  apply load_rv_inv in Hr as [Hr ->].
  destruct (bool_decide _); [destruct (vm_reserv_has_pindex _ _)|].
  - apply bind_inv in H as (? & s2 & Hl & H).
    apply vm_reserv_lock_inv in Hl as (k & _ & _ & ->).
    apply bind_inv in H as (c & s3 & Hc & H).
    apply bind_inv in Hc as (r1 & s4 & Hr1 & Hc).
    apply load_rv_inv in Hr1 as [_ ->].
    apply ret_inv in Hc as [-> ->].
    destruct (_ =? _).
    + apply ret_inv in H as [_ ->]. destruct s; reflexivity.
    + apply bind_inv in H as (? & ? & _ & H). discriminate.
  - apply bind_inv in H as (c & s3 & Hc & H).
    apply bind_inv in Hc as (r1 & s4 & Hr1 & Hc).
    apply load_rv_inv in Hr1 as [_ ->].
    apply ret_inv in Hc as [-> ->].
    destruct (_ =? _); [|discriminate].
    destruct (first <? _); apply ret_inv in H as [_ ->]; reflexivity.
  - apply bind_inv in H as (c & s3 & Hc & H).
    apply bind_inv in Hc as (r1 & s4 & Hr1 & Hc).
    apply load_rv_inv in Hr1 as [_ ->].
    apply ret_inv in Hc as [-> ->].
    destruct (_ =? _); [|discriminate].
    destruct (first <? _); apply ret_inv in H as [_ ->]; reflexivity.
Qed.

Lemma probe_msucc_array object pindex ms s st s1 :
  probe_msucc object pindex ms s = Ok (st, s1) ->
  vm_reserv_array s1 = vm_reserv_array s.
Proof.
  unfold probe_msucc, seq_read, seq_consistent, vm_reserv_from_page.
  intros H. cbv zeta in H.
  apply bind_inv in H as (sq & s0 & Hs & H).
  apply bind_inv in Hs as (r0 & s00 & Hr0 & Hs).
  apply load_rv_inv in Hr0 as [Hr0 ->].
  destruct (Z.odd (rv_seq r0)); [discriminate|].
  apply ret_inv in Hs as [-> ->].
  apply bind_inv in H as (r & s00 & Hr & H).
  apply load_rv_inv in Hr as [Hr ->].
  destruct (bool_decide _); [destruct (vm_reserv_has_pindex _ _)|].
  - apply bind_inv in H as (? & s2 & Hl & H).
    apply vm_reserv_lock_inv in Hl as (k & _ & _ & ->).
    apply bind_inv in H as (c & s3 & Hc & H).
    apply bind_inv in Hc as (r1 & s4 & Hr1 & Hc).
    apply load_rv_inv in Hr1 as [_ ->].
    apply ret_inv in Hc as [-> ->].
    destruct (_ =? _).
    + apply ret_inv in H as [_ ->]. destruct s; reflexivity.
    + apply bind_inv in H as (? & ? & _ & H). discriminate.
  - apply bind_inv in H as (c & s3 & Hc & H).
    apply bind_inv in Hc as (r1 & s4 & Hr1 & Hc).
    apply load_rv_inv in Hr1 as [_ ->].
    apply ret_inv in Hc as [-> ->].
    destruct (_ =? _); [|discriminate].
    apply ret_inv in H as [_ ->]; reflexivity.
  - apply bind_inv in H as (c & s3 & Hc & H).
    apply bind_inv in Hc as (r1 & s4 & Hr1 & Hc).
    apply load_rv_inv in Hr1 as [_ ->].
    apply ret_inv in Hc as [-> ->].
    destruct (_ =? _); [|discriminate].
    apply ret_inv in H as [_ ->]; reflexivity.
Qed.

Lemma index_range ob pindex : 0 <= VM_RESERV_INDEX ob pindex < VM_LEVEL_0_NPAGES.
Proof.
  unfold VM_RESERV_INDEX. rewrite land_low_mod.
  apply Z.mod_pos_bound. reflexivity.
Qed.

Lemma popmap_assert_zero_inv n : forall i popmap s u s',
  popmap_assert_zero n i popmap s = Ok (u, s') -> s' = s.
Proof.
  induction n as [|n IH]; intros i popmap s u s' H;
    cbn [popmap_assert_zero] in H.
  - apply ret_inv in H as [_ ->]. reflexivity.
  - apply bind_inv in H as (w & s1 & Hw & H).
    apply lift_inv in Hw as [_ ->].
    apply bind_inv in H as (? & s1 & Hk & H).
    apply KASSERT_inv in Hk as [_ ->].
    exact (IH _ _ _ _ _ H).
Qed.

Lemma vnode_backed_inv ob s b s' : vnode_backed ob s = Ok (b, s') -> s' = s.
Proof.
  unfold vnode_backed. intros H.
  destruct (bool_decide _); [apply ret_inv in H as [_ ->]; reflexivity|].
  destruct (o_backing_object ob);
    [|apply ret_inv in H as [_ ->]; reflexivity].
  apply bind_inv in H as (bo & s1 & Hb & H).
  apply load_obj_inv in Hb as [_ ->].
  apply ret_inv in H as [_ ->]. reflexivity.
Qed.

(** A reservation that starts at pindex - index, for an index below
    VM_LEVEL_0_NPAGES, has pindex in its range. *)
Lemma has_pindex_first r pindex index :
  0 <= index < VM_LEVEL_0_NPAGES ->
  rv_pindex r = u64 (pindex - index) ->
  vm_reserv_has_pindex r pindex = true.
Proof.
  intros Hi Hp. unfold vm_reserv_has_pindex. rewrite Hp.
  assert (E : u64 (pindex - u64 (pindex - index)) = index).
  { unfold u64. rewrite Zminus_mod_idemp_r.
    replace (pindex - (pindex - index)) with index by lia.
    apply Z.mod_small. rewrite VM_LEVEL_0_NPAGES_val in Hi. lia. }
  rewrite E. apply Z.eqb_eq. apply land_high_zero;
    rewrite VM_LEVEL_0_NPAGES_val in *; lia.
Qed.

Lemma alloc_page_effect object pindex mpred phys s m s' :
  population_ok s ->
  array_inv frame_ok s ->
  vm_reserv_alloc_page object pindex mpred phys s = Ok (Some m, s') ->
  exists ob n r r',
    vm_objects s !! object = Some ob /\
    vm_reserv_from_page m = Rv n /\
    vm_reserv_array s !! n = Some r /\
    vm_reserv_array s' !! n = Some r' /\
    (rv_object r = None \/ rv_object r = Some object) /\
    popmap_bit (rv_popmap r) (VM_RESERV_INDEX ob pindex) = false /\
    rv_object r' = Some object /\
    vm_reserv_has_pindex r' pindex = true /\
    rv_pages r' = Some (Z.of_nat n * VM_LEVEL_0_SIZE) /\
    m = page_at (Z.of_nat n * VM_LEVEL_0_SIZE) (VM_RESERV_INDEX ob pindex) /\
    rv_popcnt r' = rv_popcnt r + 1 /\
    (forall k, popmap_bit (rv_popmap r') k
               = (k =? VM_RESERV_INDEX ob pindex) || popmap_bit (rv_popmap r) k) /\
    vm_reserv_is_page_free m s' = Ok (false, s') /\
    vm_reserv_level m s' = Ok (0, s').
Proof.
  intros Hok Hfr H. unfold vm_reserv_alloc_page in H.
  apply bind_inv in H as (? & s0 & Hw & H).
  apply VM_OBJECT_ASSERT_WLOCKED_inv in Hw as [_ ->].
  apply bind_inv in H as (ob & s0 & Hob & H).
  apply load_obj_inv in Hob as [Hob ->].
  destruct (_ || _) eqn:Eearly; [apply ret_inv in H as [H _]; discriminate|].
  apply orb_false_iff in Eearly as [Elow _]. zbool.
  pose proof (index_range ob pindex) as Hidx.
  set (index := VM_RESERV_INDEX ob pindex) in *.
  (* What remains once the page has been populated in slot n. *)
  assert (Hend : forall n r r' s2,
    vm_reserv_array s !! n = Some r ->
    (rv_object r = None \/ rv_object r = Some object) ->
    vm_reserv_array s2 !! n = Some r' ->
    popmap_bit (rv_popmap r) index = false ->
    rv_object r' = Some object ->
    vm_reserv_has_pindex r' pindex = true ->
    rv_pages r' = rv_pages r ->
    rv_popcnt r' = rv_popcnt r + 1 ->
    rec_ok r' ->
    (forall k, popmap_bit (rv_popmap r') k
               = (k =? index) || popmap_bit (rv_popmap r) k) ->
    forall base, rv_pages r = Some base ->
    vm_reserv_unlock (Rv n) s2 = Ok (tt, s') ->
    m = page_at base index ->
    exists ob n r r',
      vm_objects s !! object = Some ob /\
      vm_reserv_from_page m = Rv n /\
      vm_reserv_array s !! n = Some r /\
      vm_reserv_array s' !! n = Some r' /\
      (rv_object r = None \/ rv_object r = Some object) /\
      popmap_bit (rv_popmap r) (VM_RESERV_INDEX ob pindex) = false /\
      rv_object r' = Some object /\
      vm_reserv_has_pindex r' pindex = true /\
      rv_pages r' = Some (Z.of_nat n * VM_LEVEL_0_SIZE) /\
      m = page_at (Z.of_nat n * VM_LEVEL_0_SIZE) (VM_RESERV_INDEX ob pindex) /\
      rv_popcnt r' = rv_popcnt r + 1 /\
      (forall k, popmap_bit (rv_popmap r') k
                 = (k =? VM_RESERV_INDEX ob pindex)
                   || popmap_bit (rv_popmap r) k) /\
      vm_reserv_is_page_free m s' = Ok (false, s') /\
      vm_reserv_level m s' = Ok (0, s')).
  { intros n r r' s2 Hr Hwas Hr' Hbit Ho' Hp' Hg' Hc' [Ht' _] Hbits base Hb
      Hu ->.
    destruct (frame_page n r base index (Hfr n r Hr) Hb Hidx)
      as (-> & Hfrom & Hdiff).
    apply vm_reserv_unlock_inv in Hu as (k & _ & _ & ->).
    assert (Hr'' : vm_reserv_array
              (set_rv_lock (<[k:=MtxUnowned]> (rv_lock s2)) s2) !! n
            = Some r') by (destruct s2; exact Hr').
    exists ob, n, r, r'. fold index. rewrite Hg', Hb.
    repeat (split; [first [assumption|reflexivity]|]).
    unfold vm_reserv_is_page_free, vm_reserv_level, bind.
    rewrite Hfrom. unfold load_rv. rewrite Hr''. rewrite Ho'. cbn [is_null].
    rewrite Hg', Hb. cbn [res_of_option lift]. rewrite Hdiff.
    rewrite (popmap_is_clear_typed _ _ Ht' Hidx), Hbits, Z.eqb_refl.
    split; reflexivity. }
  (* From the label found. *)
  assert (Hfound : forall n r s1,
    vm_reserv_array s !! n = Some r ->
    rv_object r = Some object ->
    vm_reserv_has_pindex r pindex = true ->
    vm_reserv_array s1 = vm_reserv_array s ->
    vm_reserv_alloc_page_found ob pindex (Rv n) s1 = Ok (Some m, s') ->
    exists ob n r r',
      vm_objects s !! object = Some ob /\
      vm_reserv_from_page m = Rv n /\
      vm_reserv_array s !! n = Some r /\
      vm_reserv_array s' !! n = Some r' /\
      (rv_object r = None \/ rv_object r = Some object) /\
      popmap_bit (rv_popmap r) (VM_RESERV_INDEX ob pindex) = false /\
      rv_object r' = Some object /\
      vm_reserv_has_pindex r' pindex = true /\
      rv_pages r' = Some (Z.of_nat n * VM_LEVEL_0_SIZE) /\
      m = page_at (Z.of_nat n * VM_LEVEL_0_SIZE) (VM_RESERV_INDEX ob pindex) /\
      rv_popcnt r' = rv_popcnt r + 1 /\
      (forall k, popmap_bit (rv_popmap r') k
                 = (k =? VM_RESERV_INDEX ob pindex)
                   || popmap_bit (rv_popmap r) k) /\
      vm_reserv_is_page_free m s' = Ok (false, s') /\
      vm_reserv_level m s' = Ok (0, s')).
  { intros n r s1 Hr Ho Hp Harr Hf.
    unfold vm_reserv_alloc_page_found in Hf. fold index in Hf.
    apply bind_inv in Hf as (r0 & s2 & Hr0 & Hf).
    apply load_rv_inv in Hr0 as [Hr0 ->].
    rewrite Harr in Hr0. assert (r0 = r) by congruence. subst r0.
    apply bind_inv in Hf as (b & s2 & Hset & Hf).
    apply lift_inv in Hset as [_ ->].
    destruct b.
    { apply bind_inv in Hf as (? & ? & _ & Hf).
      apply ret_inv in Hf as [Hf _]. discriminate. }
    apply bind_inv in Hf as ([] & s3 & Hpop & Hf).
    apply bind_inv in Hf as ([] & s4 & Hun & Hf).
    apply bind_inv in Hf as (base & s5 & Hb & Hf).
    apply lift_inv in Hb as [Hb ->].
    apply ret_inv in Hf as [Hm ->]. injection Hm as ->.
    destruct (rv_pages r) as [base'|] eqn:Eb; [|discriminate].
    injection Hb as ->.
    assert (Hr1 : vm_reserv_array s1 !! n = Some r)
      by (rewrite Harr; exact Hr).
    destruct (populate_binding _ _ _ _ _ r Hpop Hr1 (Hok n r Hr))
      as (_ & Hbit & r' & Hr' & Ho' & _ & Hp' & Hg' & Hc' & Hrec & Hbits).
    refine (Hend n r r' s3 Hr (or_intror Ho) Hr' Hbit _ _ Hg' Hc' Hrec
              Hbits base Eb Hun eq_refl).
    - congruence.
    - unfold vm_reserv_has_pindex in *. rewrite Hp'. exact Hp. }
  (* A fresh reservation. *)
  assert (Hnew : forall pa s1,
    vm_reserv_array s1 = vm_reserv_array s ->
    (rv <- bind_new_reserv object (u64 (pindex - index)) pa ;;
     vm_reserv_populate rv index ;;
     vm_reserv_unlock rv ;;
     ret (Some (page_at pa index))) s1 = Ok (Some m, s') ->
    exists ob n r r',
      vm_objects s !! object = Some ob /\
      vm_reserv_from_page m = Rv n /\
      vm_reserv_array s !! n = Some r /\
      vm_reserv_array s' !! n = Some r' /\
      (rv_object r = None \/ rv_object r = Some object) /\
      popmap_bit (rv_popmap r) (VM_RESERV_INDEX ob pindex) = false /\
      rv_object r' = Some object /\
      vm_reserv_has_pindex r' pindex = true /\
      rv_pages r' = Some (Z.of_nat n * VM_LEVEL_0_SIZE) /\
      m = page_at (Z.of_nat n * VM_LEVEL_0_SIZE) (VM_RESERV_INDEX ob pindex) /\
      rv_popcnt r' = rv_popcnt r + 1 /\
      (forall k, popmap_bit (rv_popmap r') k
                 = (k =? VM_RESERV_INDEX ob pindex)
                   || popmap_bit (rv_popmap r) k) /\
      vm_reserv_is_page_free m s' = Ok (false, s') /\
      vm_reserv_level m s' = Ok (0, s')).
  { intros pa s1 Harr Hn.
    apply bind_inv in Hn as (rv & s2 & Hbind & Hn).
    unfold bind_new_reserv, vm_reserv_from_page in Hbind. cbv zeta in Hbind.
    set (n := Z.to_nat (Z.shiftr pa VM_LEVEL_0_SHIFT)) in *.
    apply bind_inv in Hbind as (? & s3 & Hl & Hbind).
    apply vm_reserv_lock_inv in Hl as (k & _ & _ & ->).
    apply bind_inv in Hbind as (r & s3 & Hr & Hbind).
    apply load_rv_inv in Hr as [Hr ->].
    assert (Hr0 : vm_reserv_array s !! n = Some r)
      by (rewrite <- Harr; destruct s1; exact Hr).
    apply bind_inv in Hbind as (? & s3 & Hpg & Hbind).
    apply KASSERT_inv in Hpg as [Hpg ->].
    apply bind_inv in Hbind as (? & s3 & Hnull & Hbind).
    apply KASSERT_inv in Hnull as [Hnull ->]. zbool.
    apply bind_inv in Hbind as (? & s3 & Hf1 & Hbind).
    apply free_mtx_lock_inv in Hf1 as [_ ->].
    apply bind_inv in Hbind as (? & s3 & Hins & Hbind).
    apply LIST_INSERT_HEAD_inv in Hins as (_ & ob1 & _ & ->).
    apply bind_inv in Hbind as (? & s3 & Hf2 & Hbind).
    apply free_mtx_unlock_inv in Hf2 as [_ ->].
    apply bind_inv in Hbind as (? & s3 & Hso & Hbind).
    apply set_object_some_inv in Hso as (r0 & Hr0' & ->).
    assert (r0 = r) by (destruct s1; cbn in Hr0', Hr; congruence).
    subst r0.
    apply bind_inv in Hbind as (r1 & s3 & Hr1 & Hbind).
    apply load_rv_inv in Hr1 as [Hr1 ->].
    apply bind_inv in Hbind as (? & s3 & Hk1 & Hbind).
    apply KASSERT_inv in Hk1 as [_ ->].
    apply bind_inv in Hbind as (? & s3 & Hk2 & Hbind).
    apply KASSERT_inv in Hk2 as [_ ->].
    apply bind_inv in Hbind as (? & s3 & Hz & Hbind).
    apply popmap_assert_zero_inv in Hz as ->.
    apply ret_inv in Hbind as [-> ->].
    apply bind_inv in Hn as ([] & s6 & Hpop & Hn).
    apply bind_inv in Hn as ([] & s7 & Hun & Hn).
    apply ret_inv in Hn as [Hm ->]. injection Hm as ->.
    assert (Hlen : (n < length (vm_reserv_array s1))%nat)
      by (destruct s1; eapply lookup_lt_Some, Hr).
    assert (E1 : r1 = set_rv_seq (u32 (u32 (rv_seq r + 1) + 1))
                        (set_rv_object (Some object)
                           (set_rv_pindex (u64 (pindex - index)) r))).
    { destruct s1. unfold put_rv in Hr1. unfold_state.
      rewrite list_lookup_insert_eq in Hr1 by exact Hlen. congruence. }
    destruct (Hok n r Hr0) as [Ht Hc].
    destruct (populate_binding _ _ _ _ _ r1 Hpop Hr1)
      as (_ & Hbit & r' & Hr' & Ho' & _ & Hp' & Hg' & Hc' & Hrec & Hbits).
    { subst r1. split; [exact Ht|exact Hc]. }
    subst r1. cbn in Hbit, Ho', Hp', Hg', Hc', Hbits.
    refine (Hend n r r' s6 Hr0 (or_introl _) Hr' Hbit Ho' _ Hg' Hc' Hrec
              Hbits pa Hpg Hun eq_refl).
    - destruct (rv_object r); [discriminate|reflexivity].
    - apply (has_pindex_first _ _ index Hidx Hp'). }
  apply bind_inv in H as (l & s1 & Hl & H).
  assert (Hleft : vm_reserv_array s1 = vm_reserv_array s /\
    forall rv, l = StFound rv ->
      exists n r, rv = Rv n /\ vm_reserv_array s !! n = Some r /\
        rv_object r = Some object /\
        vm_reserv_has_pindex r pindex = true).
  { unfold look_left in Hl. destruct mpred as [mp|].
    - apply bind_inv in Hl as (? & s2 & Hk1 & Hl).
      apply KASSERT_inv in Hk1 as [_ ->].
      apply bind_inv in Hl as (? & s2 & Hk2 & Hl).
      apply KASSERT_inv in Hk2 as [_ ->].
      apply bind_inv in Hl as (st & s2 & Hp & Hl).
      pose proof (probe_mpred_array _ _ _ _ _ _ _ Hp) as Harr.
      destruct st as [rv| |[]].
      + apply ret_inv in Hl as [-> ->]. split; [exact Harr|].
        intros rv0 E. injection E as <-.
        apply probe_mpred_found in Hp
          as (n & r & -> & Hr & Ho & Hh & _).
        exists n, r. auto.
      + apply ret_inv in Hl as [-> ->]. split; [exact Harr|].
        intros rv0 E. discriminate.
      + apply bind_inv in Hl as (ms & s3 & Hms & Hl).
        apply lift_inv in Hms as [_ ->].
        apply ret_inv in Hl as [-> ->]. split; [exact Harr|].
        intros rv0 E. discriminate.
    - apply ret_inv in Hl as [-> ->]. split; [reflexivity|].
      intros rv0 E. discriminate. }
  destruct Hleft as [Harr1 Hleft].
  destruct l as [rv| |msucc].
  - destruct (Hleft rv eq_refl) as (n & r & -> & Hr & Ho & Hh).
    exact (Hfound n r s1 Hr Ho Hh Harr1 H).
  - apply ret_inv in H as [H _]. discriminate.
  - apply bind_inv in H as (st & s2 & Hright & H).
    assert (Hr2 : vm_reserv_array s2 = vm_reserv_array s /\
      forall rv, st = StFound rv ->
        exists n r, rv = Rv n /\ vm_reserv_array s !! n = Some r /\
          rv_object r = Some object /\
          vm_reserv_has_pindex r pindex = true).
    { destruct msucc as [ms|].
      - apply bind_inv in Hright as (? & s3 & Hk & Hright).
        apply KASSERT_inv in Hk as [_ ->].
        apply bind_inv in Hright as (st1 & s3 & Hp & Hright).
        pose proof (probe_msucc_array _ _ _ _ _ _ Hp) as Harr.
        rewrite Harr1 in Harr.
        destruct st1 as [rv| |cap].
        + apply ret_inv in Hright as [-> ->]. split; [exact Harr|].
          intros rv0 E. injection E as <-.
          apply probe_msucc_found in Hp
            as (n & r & -> & Hr & Ho & Hh & _).
          rewrite Harr1 in Hr. exists n, r. auto.
        + apply ret_inv in Hright as [-> ->]. split; [exact Harr|].
          intros rv0 E. discriminate.
        + destruct (cap <? _); apply ret_inv in Hright as [-> ->];
            (split; [exact Harr|intros rv0 E; discriminate]).
      - apply ret_inv in Hright as [-> ->]. split; [exact Harr1|].
        intros rv0 E. discriminate. }
    destruct Hr2 as [Harr2 Hr2].
    destruct st as [rv| |[]].
    + destruct (Hr2 rv eq_refl) as (n & r & -> & Hr & Ho & Hh).
      exact (Hfound n r s2 Hr Ho Hh Harr2 H).
    + apply ret_inv in H as [H _]. discriminate.
    + apply bind_inv in H as (vn & s3 & Hvn & H).
      assert (s3 = s2) as ->.
      { destruct (o_size ob <? _).
        - exact (vnode_backed_inv _ _ _ _ Hvn).
        - apply ret_inv in Hvn as [_ ->]. reflexivity. }
      destruct vn; [apply ret_inv in H as [H _]; discriminate|].
      apply bind_inv in H as (? & s3 & Hf1 & H).
      apply free_mtx_lock_inv in Hf1 as [_ ->].
      apply bind_inv in H as (pg & s3 & Hphys & H).
      unfold vm_phys_alloc_pages in Hphys.
      apply bind_inv in Hphys as (? & s4 & He & Hphys).
      apply emit_inv in He as ->.
      apply ret_inv in Hphys as [-> ->].
      apply bind_inv in H as (? & s3 & Hf2 & H).
      apply free_mtx_unlock_inv in Hf2 as [_ ->].
      destruct phys as [pa|]; [|apply ret_inv in H as [H _]; discriminate].
      refine (Hnew pa _ _ H).
      rewrite <- Harr2. destruct s2; reflexivity.
Qed.

(** X18. When vm_reserv_alloc_page(object, pindex, mpred) returns a
    page m (popcnt counting the set bits of popmap and pages fields
    pointing at their frames beforehand), m is page
    VM_RESERV_INDEX(object, pindex) of a frame whose reservation was
    unbound or bound to object, with the bit of that page clear, and is
    now bound to object, has pindex in its range, has that bit set and no
    other bit changed and popcnt one higher; vm_reserv_is_page_free(m) is
    false and vm_reserv_level(m) is 0. *)
Theorem alloc_page_returns_free_page_of_object
    object pindex mpred phys s m s' :
  population_ok s ->
  array_inv frame_ok s ->
  vm_reserv_alloc_page object pindex mpred phys s = Ok (Some m, s') ->
  exists ob n r r',
    vm_objects s !! object = Some ob /\
    vm_reserv_from_page m = Rv n /\
    vm_reserv_array s !! n = Some r /\
    vm_reserv_array s' !! n = Some r' /\
    (rv_object r = None \/ rv_object r = Some object) /\
    popmap_bit (rv_popmap r) (VM_RESERV_INDEX ob pindex) = false /\
    rv_object r' = Some object /\
    vm_reserv_has_pindex r' pindex = true /\
    rv_pages r' = Some (Z.of_nat n * VM_LEVEL_0_SIZE) /\
    m = page_at (Z.of_nat n * VM_LEVEL_0_SIZE) (VM_RESERV_INDEX ob pindex) /\
    rv_popcnt r' = rv_popcnt r + 1 /\
    (forall k, popmap_bit (rv_popmap r') k
               = (k =? VM_RESERV_INDEX ob pindex) || popmap_bit (rv_popmap r) k) /\
    vm_reserv_is_page_free m s' = Ok (false, s') /\
    vm_reserv_level m s' = Ok (0, s').
Proof. apply alloc_page_effect. Qed.

Lemma frames_ok_init : array_inv frame_ok s_init.
Proof.
  unfold s_init, s_boot. apply array_inv_exec.
  - apply frames_init. constructor; [cbn; lia|constructor].
  - apply array_inv_startup. intros n. left. reflexivity.
Qed.

(** X18 on a concrete state. *)
Lemma alloc_page_returns_free_page_of_object_witness :
  exists m s',
    vm_reserv_alloc_page 0 5 None (Some 0) s_init = Ok (Some m, s') /\
    m = page_at 0 5 /\
    vm_reserv_is_page_free m s' = Ok (false, s').
Proof.
  destruct (vm_reserv_alloc_page 0 5 None (Some 0) s_init)
    as [[[m|] s']|] eqn:E; try (vm_compute in E; discriminate).
  destruct (alloc_page_returns_free_page_of_object 0 5 None (Some 0) s_init
              m s' population_ok_init frames_ok_init E)
    as (ob & n & r & r' & Hob & Hfrom & _ & _ & _ & _ & _ & _ & _ & Hm & _ & _
        & Hfree & _).
  exists m, s'. split; [reflexivity|]. split; [|exact Hfree].
  vm_compute in E. injection E as <- _. reflexivity.
Defined.

(** X17 on a concrete state. *)
Lemma page_reported_free_is_in_partial_reservation_witness :
  vm_reserv_is_page_free (page_at 0 1) s_one_page = Ok (true, s_one_page) /\
  vm_reserv_level (page_at 0 1) s_one_page = Ok (0, s_one_page) /\
  vm_reserv_level_iffullpop (page_at 0 1) s_one_page = Ok (-1, s_one_page).
Proof.
  assert (E : vm_reserv_is_page_free (page_at 0 1) s_one_page
              = Ok (true, s_one_page)) by (vm_compute; reflexivity).
  split; [exact E|].
  exact (proj2 (page_reported_free_is_in_partial_reservation _ _ _ _
                  population_ok_one_page E) eq_refl).
Defined.
(** ** Breaking reservations *)

Lemma free_contig_all_inv pages : forall l s u s',
  free_contig_all pages l s = Ok (u, s') ->
  exists evs, s' = set_trace (trace s ++ evs) s.
Proof.
  induction l as [|[b len] l IH]; intros s u s' H; cbn [free_contig_all] in H.
  - apply ret_inv in H as [_ ->]. exists []. rewrite app_nil_r.
    destruct s; reflexivity.
  - apply bind_inv in H as (base & s1 & Hb & H).
    apply lift_inv in Hb as [_ ->].
    apply bind_inv in H as (? & s1 & He & H).
    apply emit_inv in He as ->.
    apply IH in H as (evs & ->).
    eexists. destruct s; cbn. rewrite <- app_assoc. reflexivity.
Qed.

Lemma break_none_inv n s u s' :
  vm_reserv_break (Rv n) None s = Ok (u, s') ->
  exists r r',
    vm_reserv_array s !! n = Some r /\
    rv_object r <> None /\
    vm_reserv_array s' = <[n := r']> (vm_reserv_array s) /\
    rv_object r' = None /\ rv_popcnt r' = 0 /\
    rv_flags r' = rv_flags r /\ rv_pages r' = rv_pages r /\
    vm_objects s'
    = (fun ob => set_o_rvq (remove rvref_eq_dec (Rv n) (o_rvq ob)) ob)
        <$> vm_objects s /\
    rv_lock s' = rv_lock s /\
    vm_page_queue_free_mtx s' = vm_page_queue_free_mtx s /\
    vm_page_queue_free_mtx s = MtxOwned /\
    vm_rvlru_active s' = vm_rvlru_active s /\
    vm_rvlru_inactive s' = vm_rvlru_inactive s /\
    scan_marker s' = scan_marker s /\
    psind s' = psind s /\
    vm_reserv_reclaimed s' = vm_reserv_reclaimed s /\
    vm_reserv_freed s' = vm_reserv_freed s.
Proof.
  unfold vm_reserv_break, vm_phys_free_contig. intros H.
  destruct s as [arr mk act inact objs ps locks fm br fr rc tr].
  minv H.
  match goal with
  | H : free_contig_all _ _ _ = Ok _ |- _ =>
      apply free_contig_all_inv in H as (evs & ->)
  end.
  unfold put_rv in *. unfold_state. lnorm. zbool.
  exists a1. eexists. split; [eassumption|].
  split; [destruct (rv_object a1); [discriminate|discriminate]|].
  split; [reflexivity|]. rnorm.
  repeat (split; [first [reflexivity|assumption]|]). reflexivity.
Qed.


Section BreakAll.

Variable object : nat.

(** Every reservation bound to [object] is linked on the object's list. *)
Let listed (s : state) : Prop :=
  forall n r, vm_reserv_array s !! n = Some r ->
    rv_object r = Some object ->
    exists ob, vm_objects s !! object = Some ob /\ In (Rv n) (o_rvq ob).

Lemma listed_same s s' :
  vm_reserv_array s' = vm_reserv_array s ->
  vm_objects s' = vm_objects s ->
  listed s -> listed s'.
Proof. unfold listed. intros -> ->. auto. Qed.

Lemma listed_put n r r' s s' :
  vm_reserv_array s !! n = Some r ->
  rv_object r' = rv_object r ->
  vm_reserv_array s' = <[n := r']> (vm_reserv_array s) ->
  vm_objects s' = vm_objects s ->
  listed s -> listed s'.
Proof.
  unfold listed. intros Hr Ho -> -> H k r0 Hk Hb.
  destruct (decide (k = n)) as [->|Hne].
  - rewrite list_lookup_insert_eq in Hk by (eapply lookup_lt_Some, Hr).
    injection Hk as <-. apply (H n r Hr). congruence.
  - rewrite list_lookup_insert_ne in Hk by congruence. exact (H k r0 Hk Hb).
Qed.

Lemma listed_unlink n r' s s' :
  rv_object r' = None ->
  vm_reserv_array s' = <[n := r']> (vm_reserv_array s) ->
  vm_objects s'
  = (fun ob => set_o_rvq (remove rvref_eq_dec (Rv n) (o_rvq ob)) ob)
      <$> vm_objects s ->
  listed s -> listed s'.
Proof.
  unfold listed. intros Ho -> -> H k r0 Hk Hb.
  destruct (decide (k = n)) as [->|Hne].
  - destruct (decide (n < length (vm_reserv_array s))%nat) as [Hl|Hl].
    + rewrite list_lookup_insert_eq in Hk by exact Hl. congruence.
    + apply lookup_lt_Some in Hk. rewrite length_insert in Hk. lia.
  - rewrite list_lookup_insert_ne in Hk by congruence.
    destruct (H k r0 Hk Hb) as (ob & Hob & Hin).
    eexists. split.
    + rewrite list_lookup_fmap, Hob. reflexivity.
    + cbn. apply in_in_remove; [congruence|exact Hin].
Qed.

Lemma break_marker_fails m s u s' :
  vm_reserv_break Marker m s = Ok (u, s') -> False.
Proof.
  unfold vm_reserv_break. intros H.
  apply bind_inv in H as (? & s1 & _ & H).
  apply bind_inv in H as (? & s2 & H & _).
  unfold vm_reserv_assert_locked, load_lock in H.
  apply bind_inv in H as (? & ? & H & _). discriminate.
Qed.

Lemma LIST_FIRST_inv o s x s' :
  LIST_FIRST o s = Ok (x, s') ->
  s' = s /\ exists ob, vm_objects s !! o = Some ob /\ x = head (o_rvq ob).
Proof.
  unfold LIST_FIRST. intros H.
  apply bind_inv in H as (ob & s1 & Hob & H).
  apply load_obj_inv in Hob as [Hob ->].
  apply ret_inv in H as [-> ->]. eauto.
Qed.

Lemma listed_break_all_quick fuel : forall rv s last s',
  listed s ->
  break_all_quick fuel object rv s = Ok (last, s') ->
  listed s'.
Proof.
  induction fuel as [|fuel IH]; intros rv s last s' HJ H;
    cbn [break_all_quick] in H; [discriminate|].
  apply bind_inv in H as (r & s1 & Hr & H).
  destruct rv as [|n].
  { apply bind_inv in H as (? & s2 & _ & H).
    apply bind_inv in H as (? & s3 & _ & H).
    apply bind_inv in H as (? & s4 & Hb & _).
    destruct (break_marker_fails _ _ _ _ Hb). }
  apply load_rv_inv in Hr as [Hr ->].
  apply bind_inv in H as (? & s2 & Hk & H).
  apply KASSERT_inv in Hk as [_ ->].
  apply bind_inv in H as (? & s2 & Hd & H).
  assert (HJ2 : listed s2).
  { destruct (negb _).
    - apply lru_dequeue_inv in Hd
        as (r0 & Hr0 & _ & _ & [(_ & _ & ->)|(_ & _ & ->)]);
        refine (listed_put n r0
                  (set_rv_flags (clear_partpop (rv_flags r0)) r0) s _ Hr0
                  _ _ _ HJ);
        first [reflexivity | destruct s; reflexivity].
    - apply ret_inv in Hd as [_ ->]. exact HJ. }
  apply bind_inv in H as (? & s3 & Hb & H).
  assert (HJ3 : listed s3).
  { apply break_none_inv in Hb
      as (r2 & r' & _ & _ & Ha & Ho & _ & _ & _ & Hobjs & _).
    exact (listed_unlink n r' s2 s3 Ho Ha Hobjs HJ2). }
  apply bind_inv in H as (next & s4 & Hn & H).
  apply LIST_FIRST_inv in Hn as [-> _].
  destruct next as [nx|].
  - destruct (same_lock nx (Rv n)).
    + exact (IH _ _ _ _ HJ3 H).
    + apply ret_inv in H as [_ ->]. exact HJ3.
  - apply ret_inv in H as [_ ->]. exact HJ3.
Qed.

Lemma lock_keeps rv s u s' :
  vm_reserv_lock rv s = Ok (u, s') ->
  vm_reserv_array s' = vm_reserv_array s /\ vm_objects s' = vm_objects s.
Proof.
  intros H. apply vm_reserv_lock_inv in H as (k & _ & _ & ->).
  destruct s; split; reflexivity.
Qed.

Lemma unlock_keeps rv s u s' :
  vm_reserv_unlock rv s = Ok (u, s') ->
  vm_reserv_array s' = vm_reserv_array s /\ vm_objects s' = vm_objects s.
Proof.
  intros H. apply vm_reserv_unlock_inv in H as (k & _ & _ & ->).
  destruct s; split; reflexivity.
Qed.

Lemma trylock_keeps rv s b s' :
  vm_reserv_trylock rv s = Ok (b, s') ->
  vm_reserv_array s' = vm_reserv_array s /\ vm_objects s' = vm_objects s.
Proof.
  unfold vm_reserv_trylock, load_lock. intros H.
  apply bind_inv in H as ([k m] & s0 & H1 & H2).
  destruct (RV_LOCKPTR rv) as [k'|]; [|discriminate].
  destruct (rv_lock s !! k') as [m'|]; [|discriminate].
  inversion H1; subst.
  apply bind_inv in H2 as (? & s2 & H2 & H3).
  apply modify_inv in H2. apply ret_inv in H3 as [_ ->]. subst s2.
  destruct s0; split; reflexivity.
Qed.

Lemma listed_break_all_loop fuel : forall s s',
  listed s ->
  break_all_loop fuel object s = Ok (tt, s') ->
  listed s' /\
  exists ob, vm_objects s' !! object = Some ob /\ o_rvq ob = [].
Proof.
  induction fuel as [|fuel IH]; intros s s' HJ H;
    cbn [break_all_loop] in H; [discriminate|].
  apply bind_inv in H as (first & s1 & Hf & H).
  apply LIST_FIRST_inv in Hf as [-> (ob & Hob & ->)].
  destruct (o_rvq ob) as [|rv l] eqn:El; cbn [head] in H.
  { apply ret_inv in H as [_ ->]. split; [exact HJ|]. eauto. }
  apply bind_inv in H as (ok & s1 & Ht & H).
  apply trylock_keeps in Ht as [Ha1 Ho1].
  pose proof (listed_same s s1 Ha1 Ho1 HJ) as HJ1.
  apply bind_inv in H as (sel & s2 & Hsel & H).
  assert (HJ2 : listed s2).
  { destruct ok.
    - apply ret_inv in Hsel as [_ ->]. exact HJ1.
    - apply bind_inv in Hsel as (? & s3 & Hu & Hsel).
      apply free_mtx_unlock_inv in Hu as [_ ->].
      apply bind_inv in Hsel as (? & s3 & Hl & Hsel).
      apply lock_keeps in Hl as [Ha3 Ho3].
      apply bind_inv in Hsel as (? & s4 & Hfl & Hsel).
      apply free_mtx_lock_inv in Hfl as [_ ->].
      apply bind_inv in Hsel as (next & s4 & Hn & Hsel).
      apply LIST_FIRST_inv in Hn as [-> _].
      assert (HJ3 : listed (set_vm_page_queue_free_mtx MtxOwned s3)).
      { refine (listed_same s1 _ _ _ HJ1);
          destruct s3, s1; cbn in *; congruence. }
      destruct (bool_decide _).
      + apply ret_inv in Hsel as [_ ->]. exact HJ3.
      + destruct next as [nx|]; [|discriminate].
        destruct (same_lock nx rv).
        * apply ret_inv in Hsel as [_ ->]. exact HJ3.
        * apply bind_inv in Hsel as (? & s5 & Hu & Hsel).
          apply unlock_keeps in Hu as [Ha5 Ho5].
          apply ret_inv in Hsel as [_ ->].
          exact (listed_same _ _ Ha5 Ho5 HJ3). }
  destruct sel as [rv1|].
  - apply bind_inv in H as (last & s3 & Hq & H).
    apply listed_break_all_quick in Hq; [|exact HJ2].
    apply bind_inv in H as (? & s4 & Hu & H).
    apply unlock_keeps in Hu as [Ha4 Ho4].
    exact (IH _ _ (listed_same _ _ Ha4 Ho4 Hq) H).
  - exact (IH _ _ HJ2 H).
Qed.

Lemma break_all_unbinds s s' :
  listed s ->
  vm_reserv_break_all object s = Ok (tt, s') ->
  (exists ob, vm_objects s' !! object = Some ob /\ o_rvq ob = []) /\
  (forall n r, vm_reserv_array s' !! n = Some r ->
     rv_object r <> Some object).
Proof.
  intros HJ H. unfold vm_reserv_break_all in H.
  apply bind_inv in H as (? & s1 & Hw & H).
  apply VM_OBJECT_ASSERT_WLOCKED_inv in Hw as [_ ->].
  apply bind_inv in H as (? & s1 & Hl & H).
  apply free_mtx_lock_inv in Hl as [_ ->].
  apply bind_inv in H as (ob & s1 & Hob & H).
  apply load_obj_inv in Hob as [_ ->].
  apply bind_inv in H as ([] & s1 & Hloop & H).
  apply free_mtx_unlock_inv in H as [_ ->].
  apply listed_break_all_loop in Hloop as [HJ1 (ob1 & Hob1 & Hnil)].
  - split.
    + exists ob1. split; [destruct s1; exact Hob1|exact Hnil].
    + intros n r Hr Hb.
      destruct (HJ1 n r) as (ob2 & Hob2 & Hin);
        [destruct s1; exact Hr|exact Hb|].
      assert (ob2 = ob1) by congruence. subst ob2.
      rewrite Hnil in Hin. destruct Hin.
  - refine (listed_same s _ _ _ HJ); destruct s; reflexivity.
Qed.

End BreakAll.

Lemma break_all_nothing object s s' ob :
  vm_reserv_break_all object s = Ok (tt, s') ->
  vm_objects s !! object = Some ob -> o_rvq ob = [] -> s' = s.
Proof.
  intros H Hob Hnil. unfold vm_reserv_break_all in H.
  apply bind_inv in H as (? & s1 & Hw & H).
  apply VM_OBJECT_ASSERT_WLOCKED_inv in Hw as [_ ->].
  apply bind_inv in H as (? & s1 & Hl & H).
  apply free_mtx_lock_inv in Hl as [Hfm ->].
  apply bind_inv in H as (ob1 & s1 & Hob1 & H).
  apply load_obj_inv in Hob1 as [Hob1 ->].
  assert (ob1 = ob) by (destruct s; cbn in Hob1, Hob; congruence). subst ob1.
  apply bind_inv in H as ([] & s1 & Hloop & H).
  apply free_mtx_unlock_inv in H as [_ ->].
  rewrite Hnil in Hloop. cbn [length break_all_loop] in Hloop.
  apply bind_inv in Hloop as (first & s2 & Hf & Hloop).
  apply LIST_FIRST_inv in Hf as [-> (ob2 & Hob2 & ->)].
  assert (ob2 = ob) by (destruct s; cbn in Hob2, Hob; congruence). subst ob2.
  rewrite Hnil in Hloop. apply ret_inv in Hloop as [_ ->].
  destruct s; cbn in *. subst. reflexivity.
Qed.

(** X20. If every reservation bound to object is linked on the
    object's list, then after vm_reserv_break_all(object) returns the list
    is empty and no reservation is bound to object; and if the list was
    empty the state is unchanged. *)
Theorem break_all_unbinds_the_object object s s' :
  (forall n r, vm_reserv_array s !! n = Some r ->
     rv_object r = Some object ->
     exists ob, vm_objects s !! object = Some ob /\ In (Rv n) (o_rvq ob)) ->
  vm_reserv_break_all object s = Ok (tt, s') ->
  (exists ob, vm_objects s' !! object = Some ob /\ o_rvq ob = []) /\
  (forall n r, vm_reserv_array s' !! n = Some r ->
     rv_object r <> Some object) /\
  (forall ob, vm_objects s !! object = Some ob -> o_rvq ob = [] -> s' = s).
Proof.
  intros HJ H.
  destruct (break_all_unbinds object s s' HJ H) as [H1 H2].
  split; [exact H1|]. split; [exact H2|].
  intros ob. apply break_all_nothing. exact H.
Qed.

(** X20 on a concrete state. *)
Lemma break_all_unbinds_the_object_witness :
  exists s',
    vm_reserv_break_all 0 s_full = Ok (tt, s') /\
    forall n r, vm_reserv_array s' !! n = Some r -> rv_object r <> Some 0%nat.
Proof.
  destruct (vm_reserv_break_all 0 s_full) as [[[] s']|] eqn:E;
    [|vm_compute in E; discriminate].
  exists s'. split; [reflexivity|].
  refine (proj1 (proj2 (break_all_unbinds_the_object 0 s_full s' _ E))).
  intros n r Hr Hb.
  destruct n as [|[|[|[|n]]]]; vm_compute in Hr; try discriminate Hr;
    injection Hr as <-; try discriminate Hb.
  eexists. split; [vm_compute; reflexivity|left; reflexivity].
Defined.
(** ** Initialisation *)

Lemma roundup2_spec x :
  0 <= x ->
  Z.land (x + (VM_LEVEL_0_SIZE - 1)) (Z.lnot (VM_LEVEL_0_SIZE - 1))
  = VM_LEVEL_0_SIZE * ((x + (VM_LEVEL_0_SIZE - 1)) / VM_LEVEL_0_SIZE).
Proof.
  intros Hx. change (VM_LEVEL_0_SIZE - 1) with (Z.ones 21).
  rewrite <- Z.ldiff_land, Z.ldiff_ones_r by lia.
  rewrite Z.shiftl_mul_pow2, Z.shiftr_div_pow2 by lia.
  change VM_LEVEL_0_SIZE with (2 ^ 21). lia.
Qed.

Lemma from_page_frame p :
  vm_reserv_from_page (Z.of_nat p * VM_LEVEL_0_SIZE) = Rv p.
Proof.
  unfold vm_reserv_from_page. f_equal.
  change VM_LEVEL_0_SHIFT with 21. change VM_LEVEL_0_SIZE with (2 ^ 21).
  rewrite Z.shiftr_div_pow2, Z.div_mul by lia. apply Nat2Z.id.
Qed.

(** The loop over one segment, entered at the frame p with enough fuel
    for every frame of the segment. *)
Lemma init_seg_spec n : forall p seg_end s s',
  (Z.to_nat ((seg_end - Z.of_nat p * VM_LEVEL_0_SIZE) / VM_LEVEL_0_SIZE)
   <= n)%nat ->
  init_seg n (Z.of_nat p * VM_LEVEL_0_SIZE) seg_end s = Ok (tt, s') ->
  exists arr',
    s' = set_vm_reserv_array arr' s /\
    length arr' = length (vm_reserv_array s) /\
    forall k r, vm_reserv_array s !! k = Some r ->
      arr' !! k
      = Some (if (Z.of_nat p <=? Z.of_nat k) &&
                 ((Z.of_nat k + 1) * VM_LEVEL_0_SIZE <=? seg_end)
              then set_rv_pages (Some (Z.of_nat k * VM_LEVEL_0_SIZE)) r
              else r).
Proof.
  assert (HS : VM_LEVEL_0_SIZE = 2097152) by reflexivity.
  induction n as [|n IH]; intros p seg_end s s' Hfuel H; cbn [init_seg] in H.
  - apply ret_inv in H as [_ ->].
    exists (vm_reserv_array s). split; [destruct s; reflexivity|].
    split; [reflexivity|]. intros k r Hr. rewrite Hr. f_equal.
    destruct (_ && _) eqn:E; [|reflexivity]. exfalso.
    apply andb_true_iff in E as [E1 E2]. zbool.
    assert ((seg_end - Z.of_nat p * VM_LEVEL_0_SIZE) / VM_LEVEL_0_SIZE <= 0)
      by lia.
    assert (seg_end - Z.of_nat p * VM_LEVEL_0_SIZE < VM_LEVEL_0_SIZE).
    { apply Z.nle_gt. intros Hge.
      assert (1 <= (seg_end - Z.of_nat p * VM_LEVEL_0_SIZE) / VM_LEVEL_0_SIZE)
        by (apply Z.div_le_lower_bound; lia).
      lia. }
    nia.
  - destruct (_ <=? seg_end) eqn:Ein; zbool.
    + rewrite from_page_frame in H. cbv zeta in H.
      apply bind_inv in H as (r0 & s1 & Hr0 & H).
      apply load_rv_inv in Hr0 as [Hr0 ->].
      apply bind_inv in H as (? & s1 & Hst & H).
      apply store_rv_inv in Hst as [Hlen ->].
      replace (Z.of_nat p * VM_LEVEL_0_SIZE + VM_LEVEL_0_SIZE)
        with (Z.of_nat (S p) * VM_LEVEL_0_SIZE) in H by lia.
      apply IH in H as (arr' & -> & Hl & Hall).
      * exists arr'. split; [destruct s; reflexivity|].
        split; [rewrite Hl; destruct s; cbn; apply length_insert|].
        intros k r Hr.
        destruct (decide (k = p)) as [->|Hne].
        -- assert (r = r0) by congruence. subst r0.
           rewrite (Hall p (set_rv_pages (Some (Z.of_nat p * VM_LEVEL_0_SIZE)) r))
             by (destruct s; cbn; apply list_lookup_insert_eq, Hlen).
           f_equal.
           replace (Z.of_nat (S p) <=? Z.of_nat p) with false
             by (symmetry; apply Z.leb_gt; lia).
           replace (Z.of_nat p <=? Z.of_nat p) with true
             by (symmetry; apply Z.leb_le; lia).
           replace ((Z.of_nat p + 1) * VM_LEVEL_0_SIZE <=? seg_end) with true
             by (symmetry; apply Z.leb_le; lia).
           reflexivity.
        -- rewrite (Hall k r)
             by (destruct s; cbn; rewrite list_lookup_insert_ne by congruence;
                 exact Hr).
           f_equal.
           replace (Z.of_nat (S p) <=? Z.of_nat k)
             with (Z.of_nat p <=? Z.of_nat k); [reflexivity|].
           destruct (Z.of_nat p <=? Z.of_nat k) eqn:E1;
             destruct (Z.of_nat (S p) <=? Z.of_nat k) eqn:E2; zbool;
             try reflexivity; lia.
      * replace (seg_end - Z.of_nat (S p) * VM_LEVEL_0_SIZE)
          with (seg_end - Z.of_nat p * VM_LEVEL_0_SIZE
                + (-1) * VM_LEVEL_0_SIZE) by lia.
        rewrite Z.div_add by lia. lia.
    + apply ret_inv in H as [_ ->].
      exists (vm_reserv_array s). split; [destruct s; reflexivity|].
      split; [reflexivity|]. intros k r Hr. rewrite Hr. f_equal.
      destruct (_ && _) eqn:E; [|reflexivity]. exfalso.
      apply andb_true_iff in E as [E1 E2]. zbool. nia.
Qed.

Lemma roundup2_frame_le a k :
  0 <= a ->
  (Z.of_nat (Z.to_nat ((a + (VM_LEVEL_0_SIZE - 1)) / VM_LEVEL_0_SIZE))
   <=? Z.of_nat k)
  = (a <=? Z.of_nat k * VM_LEVEL_0_SIZE).
Proof.
  intros Ha. assert (HS : VM_LEVEL_0_SIZE = 2097152) by reflexivity.
  rewrite Z2Nat.id by (apply Z.div_pos; lia).
  destruct (a <=? Z.of_nat k * VM_LEVEL_0_SIZE) eqn:E; zbool.
  - apply Z.leb_le.
    assert ((a + (VM_LEVEL_0_SIZE - 1)) / VM_LEVEL_0_SIZE < Z.of_nat k + 1)
      by (apply Z.div_lt_upper_bound; lia).
    lia.
  - apply Z.leb_gt.
    assert (Z.of_nat k + 1 <= (a + (VM_LEVEL_0_SIZE - 1)) / VM_LEVEL_0_SIZE)
      by (apply Z.div_le_lower_bound; lia).
    lia.
Qed.

Lemma init_segs_spec segs : forall s s',
  Forall (fun seg => 0 <= fst seg) segs ->
  init_segs segs s = Ok (tt, s') ->
  exists arr',
    s' = set_vm_reserv_array arr' s /\
    length arr' = length (vm_reserv_array s) /\
    forall k r, vm_reserv_array s !! k = Some r ->
      arr' !! k
      = Some (if existsb (frame_in_segment k) segs
              then set_rv_pages (Some (Z.of_nat k * VM_LEVEL_0_SIZE)) r
              else r).
Proof.
  induction segs as [|[a b] segs IH]; intros s s' Hs H; cbn [init_segs] in H.
  - apply ret_inv in H as [_ ->].
    exists (vm_reserv_array s). split; [destruct s; reflexivity|].
    split; [reflexivity|]. intros k r Hr. exact Hr.
  - inversion Hs as [|? ? Ha Hs']; subst. cbn [fst] in Ha.
    apply bind_inv in H as ([] & s1 & H1 & H).
    rewrite (roundup2_spec a Ha) in H1.
    set (q := (a + (VM_LEVEL_0_SIZE - 1)) / VM_LEVEL_0_SIZE) in *.
    assert (Hq : 0 <= q) by (apply Z.div_pos; [|reflexivity];
      change VM_LEVEL_0_SIZE with 2097152; lia).
    replace (VM_LEVEL_0_SIZE * q)
      with (Z.of_nat (Z.to_nat q) * VM_LEVEL_0_SIZE) in H1
      by (rewrite Z2Nat.id by exact Hq; ring).
    apply init_seg_spec in H1 as (arr1 & -> & Hl1 & Hall1); [|lia].
    apply IH in H as (arr2 & -> & Hl2 & Hall2); [|exact Hs'].
    exists arr2. split; [destruct s; reflexivity|].
    split; [rewrite Hl2; destruct s; exact Hl1|].
    intros k r Hr.
    rewrite (Hall2 k _ ltac:(destruct s; exact (Hall1 k r Hr))).
    f_equal. cbn [existsb].
    change (frame_in_segment k (a, b))
      with ((a <=? Z.of_nat k * VM_LEVEL_0_SIZE) &&
            ((Z.of_nat k + 1) * VM_LEVEL_0_SIZE <=? b)).
    unfold q. rewrite (roundup2_frame_le a k Ha).
    destruct (_ && _); cbn [orb]; [|reflexivity].
    destruct (existsb _ _); destruct r; reflexivity.
Qed.

Lemma init_seg_runs n : forall p seg_end s,
  seg_end <= Z.of_nat (length (vm_reserv_array s)) * VM_LEVEL_0_SIZE ->
  exists arr',
    init_seg n (Z.of_nat p * VM_LEVEL_0_SIZE) seg_end s
    = Ok (tt, set_vm_reserv_array arr' s) /\
    length arr' = length (vm_reserv_array s).
Proof.
  assert (HS : VM_LEVEL_0_SIZE = 2097152) by reflexivity.
  induction n as [|n IH]; intros p seg_end s Hend; cbn [init_seg].
  - exists (vm_reserv_array s). split; [destruct s; reflexivity|reflexivity].
  - destruct (_ <=? seg_end) eqn:Ein; zbool.
    + rewrite from_page_frame. cbv zeta.
      assert (Hp : (p < length (vm_reserv_array s))%nat) by nia.
      destruct (lookup_lt_is_Some_2 _ _ Hp) as [r Hr].
      unfold bind at 1. unfold load_rv. rewrite Hr.
      unfold bind at 1. unfold store_rv. rewrite Hr.
      replace (Z.of_nat p * VM_LEVEL_0_SIZE + VM_LEVEL_0_SIZE)
        with (Z.of_nat (S p) * VM_LEVEL_0_SIZE) by lia.
      destruct (IH (S p) seg_end
                  (set_vm_reserv_array
                     (<[p := set_rv_pages (Some (Z.of_nat p * VM_LEVEL_0_SIZE)) r]>
                        (vm_reserv_array s)) s))
        as (arr' & Hrun & Hl).
      { destruct s; cbn in *. rewrite length_insert. exact Hend. }
      exists arr'. rewrite Hrun.
      split; [destruct s; reflexivity|].
      rewrite Hl. destruct s; cbn. apply length_insert.
    + exists (vm_reserv_array s).
      split; [destruct s; reflexivity|reflexivity].
Qed.

Lemma init_segs_runs segs : forall s,
  Forall (fun seg =>
            0 <= fst seg /\
            snd seg <= Z.of_nat (length (vm_reserv_array s)) * VM_LEVEL_0_SIZE)
    segs ->
  exists arr',
    init_segs segs s = Ok (tt, set_vm_reserv_array arr' s) /\
    length arr' = length (vm_reserv_array s).
Proof.
  induction segs as [|[a b] segs IH]; intros s Hs; cbn [init_segs].
  - exists (vm_reserv_array s). split; [destruct s; reflexivity|reflexivity].
  - inversion Hs as [|? ? [Ha Hb] Hs']; subst. cbn [fst snd] in Ha, Hb.
    rewrite (roundup2_spec a Ha).
    set (q := (a + (VM_LEVEL_0_SIZE - 1)) / VM_LEVEL_0_SIZE) in *.
    assert (Hq : 0 <= q) by (apply Z.div_pos; [|reflexivity];
      change VM_LEVEL_0_SIZE with 2097152; lia).
    replace (VM_LEVEL_0_SIZE * q)
      with (Z.of_nat (Z.to_nat q) * VM_LEVEL_0_SIZE)
      by (rewrite Z2Nat.id by exact Hq; ring).
    destruct (init_seg_runs
                (Z.to_nat ((b - Z.of_nat (Z.to_nat q) * VM_LEVEL_0_SIZE)
                           / VM_LEVEL_0_SIZE))
                (Z.to_nat q) b s Hb) as (arr1 & Hrun1 & Hl1).
    unfold bind at 1. rewrite Hrun1.
    destruct (IH (set_vm_reserv_array arr1 s)) as (arr2 & Hrun2 & Hl2).
    { destruct s; cbn in *. rewrite Hl1. exact Hs'. }
    exists arr2. rewrite Hrun2. split; [destruct s; reflexivity|].
    rewrite Hl2. destruct s; exact Hl1.
Qed.

Lemma init_effect segs s :
  Forall (fun seg => 0 <= fst seg) segs ->
  (forall s',
      vm_reserv_init segs s = Ok (tt, s') ->
      length (vm_reserv_array s') = length (vm_reserv_array s) /\
      (forall k r, vm_reserv_array s !! k = Some r ->
         vm_reserv_array s' !! k
         = Some (if existsb (frame_in_segment k) segs
                 then set_rv_pages (Some (Z.of_nat k * VM_LEVEL_0_SIZE)) r
                 else r)) /\
      rv_lock s' = replicate (Z.to_nat RV_LOCK_COUNT) MtxUnowned /\
      scan_marker s'
      = set_rv_flags (Z.lor VM_RESERV_F_MARKER VM_RESERV_F_ACTIVE)
          (set_rv_object None (scan_marker s)) /\
      vm_rvlru_active s' = Marker :: vm_rvlru_active s /\
      vm_rvlru_inactive s' = vm_rvlru_inactive s /\
      vm_objects s' = vm_objects s /\ psind s' = psind s) /\
  (Forall (fun seg =>
             snd seg <= Z.of_nat (length (vm_reserv_array s)) * VM_LEVEL_0_SIZE)
     segs ->
   on_lru Marker s = false ->
   exists s', vm_reserv_init segs s = Ok (tt, s')).
Proof.
  intros Hs. split.
  - intros s' H. unfold vm_reserv_init in H.
    apply bind_inv in H as ([] & s1 & H1 & H).
    apply init_segs_spec in H1 as (arr' & -> & Hl & Hall); [|exact Hs].
    apply bind_inv in H as (? & s1 & Hm & H).
    apply modify_inv in Hm as ->.
    apply bind_inv in H as (m & s1 & Hld & H).
    unfold load_rv in Hld. inversion Hld; subst m s1. clear Hld.
    apply bind_inv in H as (? & s1 & Hst & H).
    unfold store_rv in Hst. inversion Hst; subst s1. clear Hst.
    unfold TAILQ_INSERT_HEAD in H.
    destruct (on_lru Marker _); [discriminate|].
    inversion H; subst s'. clear H.
    destruct s. unfold set_lru, lru. unfold_state.
    repeat (split; [first [reflexivity|assumption]|]). reflexivity.
  - intros Hend Hq.
    destruct (init_segs_runs segs s) as (arr' & Hrun & _).
    { apply Forall_forall. intros seg Hin. split.
      - exact (proj1 (Forall_forall _ _) Hs seg Hin).
      - exact (proj1 (Forall_forall _ _) Hend seg Hin). }
    unfold vm_reserv_init, bind. rewrite Hrun.
    unfold modify, load_rv, store_rv, TAILQ_INSERT_HEAD.
    destruct s. unfold on_lru in *. unfold_state. rewrite Hq.
    eexists. reflexivity.
Qed.

(** X21. vm_reserv_init over segments that start at non-negative
    addresses: when it returns, the pages field of element k is set to the
    first page of frame k exactly for the frames that lie wholly inside
    one of the segments, and nothing else of the array changes; the
    RV_LOCK_COUNT reservation locks are unowned, and the scan marker has
    no object, flags MARKER | ACTIVE, and is the head of the active
    queue.  It returns whenever the array reaches the end of every segment
    and the marker is on no queue. *)
Theorem init_binds_whole_frames segs s :
  Forall (fun seg => 0 <= fst seg) segs ->
  (forall s',
      vm_reserv_init segs s = Ok (tt, s') ->
      length (vm_reserv_array s') = length (vm_reserv_array s) /\
      (forall k r, vm_reserv_array s !! k = Some r ->
         vm_reserv_array s' !! k
         = Some (if existsb (frame_in_segment k) segs
                 then set_rv_pages (Some (Z.of_nat k * VM_LEVEL_0_SIZE)) r
                 else r)) /\
      rv_lock s' = replicate (Z.to_nat RV_LOCK_COUNT) MtxUnowned /\
      scan_marker s'
      = set_rv_flags (Z.lor VM_RESERV_F_MARKER VM_RESERV_F_ACTIVE)
          (set_rv_object None (scan_marker s)) /\
      vm_rvlru_active s' = Marker :: vm_rvlru_active s /\
      vm_rvlru_inactive s' = vm_rvlru_inactive s /\
      vm_objects s' = vm_objects s /\ psind s' = psind s) /\
  (Forall (fun seg =>
             snd seg <= Z.of_nat (length (vm_reserv_array s)) * VM_LEVEL_0_SIZE)
     segs ->
   on_lru Marker s = false ->
   exists s', vm_reserv_init segs s = Ok (tt, s')).
Proof. apply init_effect. Qed.

(** X21 on a concrete state. *)
Lemma init_binds_whole_frames_witness :
  exists s',
    vm_reserv_init [(4096, 3 * VM_LEVEL_0_SIZE + 5)] s_boot = Ok (tt, s') /\
    rv_pages <$> vm_reserv_array s'
    = [None; Some VM_LEVEL_0_SIZE; Some (2 * VM_LEVEL_0_SIZE); None].
Proof.
  destruct (init_binds_whole_frames [(4096, 3 * VM_LEVEL_0_SIZE + 5)] s_boot)
    as [_ Hrun]; [constructor; [cbn; lia|constructor]|].
  destruct Hrun as [s' E];
    [constructor; [vm_compute; discriminate|constructor] | reflexivity |].
  exists s'. split; [exact E|].
  vm_compute in E. injection E as <-. reflexivity.
Defined.

(** ** Reclaiming *)

Lemma trylock_true_inv rv s s1 :
  vm_reserv_trylock rv s = Ok (true, s1) ->
  exists k, RV_LOCKPTR rv = Some k /\ rv_lock s !! k = Some MtxUnowned /\
    s1 = set_rv_lock (<[k := MtxOwned]> (rv_lock s)) s.
Proof.
  unfold vm_reserv_trylock, load_lock. intros H.
  apply bind_inv in H as ([k m] & s0 & H1 & H2).
  destruct (RV_LOCKPTR rv) as [k'|]; [|discriminate].
  destruct (rv_lock s !! k') as [m'|] eqn:E; [|discriminate].
  inversion H1; subst.
  apply bind_inv in H2 as (? & s2 & H2 & H3).
  apply modify_inv in H2. apply ret_inv in H3 as [H3 ->]. subst s2.
  exists k. split; [reflexivity|].
  destruct m; cbn in *; try discriminate. split; [exact E|reflexivity].
Qed.

Lemma clear_partpop_queue_flags f : Z.land (clear_partpop f) VM_RESERV_F_PARTPOP = 0.
Proof.
  unfold clear_partpop, u8. change (2 ^ 8) with (2 ^ 8).
  rewrite <- Z.land_ones by lia.
  rewrite <- !Z.land_assoc.
  replace (Z.land (Z.ones 8) VM_RESERV_F_PARTPOP) with VM_RESERV_F_PARTPOP
    by reflexivity.
  rewrite Z.land_lnot_diag. apply Z.land_0_r.
Qed.

Lemma reclaim_inv n s u s' :
  vm_reserv_reclaim (Rv n) s = Ok (u, s') ->
  exists r r',
    vm_reserv_array s !! n = Some r /\
    vm_reserv_array s' !! n = Some r' /\
    one_partpop_flag (rv_flags r) = true /\
    rv_object r <> None /\
    rv_object r' = None /\ rv_popcnt r' = 0 /\
    Z.land (rv_flags r') VM_RESERV_F_PARTPOP = 0 /\
    rv_pages r' = rv_pages r /\
    (forall k, k <> n -> vm_reserv_array s' !! k = vm_reserv_array s !! k) /\
    (if Z.land (rv_flags r) VM_RESERV_F_INACTIVE =? 0
     then vm_rvlru_active s'
          = remove rvref_eq_dec (Rv n) (vm_rvlru_active s) /\
          vm_rvlru_inactive s' = vm_rvlru_inactive s
     else vm_rvlru_inactive s'
          = remove rvref_eq_dec (Rv n) (vm_rvlru_inactive s) /\
          vm_rvlru_active s' = vm_rvlru_active s) /\
    rv_lock s' = rv_lock s /\
    vm_page_queue_free_mtx s' = MtxOwned /\
    vm_page_queue_free_mtx s = MtxOwned /\
    vm_reserv_reclaimed s' = s64 (vm_reserv_reclaimed s + 1).
Proof.
  unfold vm_reserv_reclaim. intros H.
  apply bind_inv in H as (? & s1 & Ha & H).
  apply vm_reserv_assert_locked_inv in Ha as [_ ->].
  apply bind_inv in H as (r & s1 & Hr & H).
  apply load_rv_inv in Hr as [Hr ->].
  apply bind_inv in H as (? & s1 & Hk & H).
  apply KASSERT_inv in Hk as [_ ->].
  apply bind_inv in H as (? & s1 & Hd & H).
  apply bind_inv in H as (? & s2 & Hb & H).
  apply modify_inv in H as ->.
  apply lru_dequeue_inv in Hd as (r0 & Hr0 & Hone & _ & Hq).
  assert (r0 = r) by congruence. subst r0.
  apply break_none_inv in Hb
    as (r1 & r' & Hr1 & Hob & Harr & Ho' & Hc' & Hf' & Hp' & _ & Hlk & Hfm'
        & Hfm & Hact & Hin & _ & _ & Hrc & _).
  assert (Hlen : (n < length (vm_reserv_array s))%nat)
    by (eapply lookup_lt_Some, Hr).
  assert (Hs1 : vm_reserv_array s1
                = <[n := set_rv_flags (clear_partpop (rv_flags r)) r]>
                    (vm_reserv_array s) /\
                rv_lock s1 = rv_lock s /\
                vm_page_queue_free_mtx s1 = vm_page_queue_free_mtx s /\
                vm_reserv_reclaimed s1 = vm_reserv_reclaimed s).
  { destruct Hq as [(_ & _ & ->)|(_ & _ & ->)]; destruct s; cbn; auto. }
  destruct Hs1 as (Ha1 & Hl1 & Hf1 & Hrc1).
  assert (Hr1' : r1 = set_rv_flags (clear_partpop (rv_flags r)) r).
  { rewrite Ha1, list_lookup_insert_eq in Hr1 by exact Hlen. congruence. }
  subst r1. cbn in Hob, Hf', Hp'.
  exists r, r'. split; [exact Hr|].
  split.
  { destruct s2; cbn in *. rewrite Harr.
    apply list_lookup_insert_eq. rewrite Ha1, length_insert. exact Hlen. }
  split; [exact Hone|]. split; [exact Hob|]. split; [exact Ho'|].
  split; [exact Hc'|].
  split; [rewrite Hf'; apply clear_partpop_queue_flags|].
  split; [exact Hp'|].
  split.
  { intros k Hne. destruct s2; cbn in *. rewrite Harr, Ha1.
    rewrite !list_lookup_insert_ne by congruence. reflexivity. }
  split.
  { destruct Hq as [(Hz & _ & ->)|(Hz & _ & ->)].
    - rewrite (proj2 (Z.eqb_eq _ _) Hz).
      destruct s2, s; cbn in *. subst. split; reflexivity.
    - rewrite (proj2 (Z.eqb_neq _ _) Hz).
      destruct s2, s; cbn in *. subst. split; reflexivity. }
  destruct s2; cbn in *.
  split; [congruence|]. split; [congruence|]. split; [congruence|].
  congruence.
Qed.

Lemma reclaim_candidate_inv rv flag s b s' :
  reclaim_candidate rv flag s = Ok (b, s') ->
  exists s1 s2,
    vm_reserv_trylock rv s = Ok (true, s1) /\
    vm_reserv_reclaim rv s1 = Ok (tt, s2) /\
    vm_reserv_unlock rv s2 = Ok (tt, s').
Proof.
  unfold reclaim_candidate. intros H.
  apply bind_inv in H as (ok & s1 & Htry & H).
  apply bind_inv in H as (go & s2 & Hgo & H).
  destruct ok.
  - apply ret_inv in Hgo as [-> ->].
    apply bind_inv in H as ([] & s3 & Hrec & H).
    apply bind_inv in H as ([] & s4 & Hun & H).
    apply ret_inv in H as [_ ->]. eauto.
  - exfalso.
    apply trylock_false_inv in Htry as (k & m & Hk & Hm & Hne).
    apply bind_inv in Hgo as (? & s3 & Hu & Hgo).
    apply free_mtx_unlock_inv in Hu as [Hu ->].
    apply bind_inv in Hgo as (? & s4 & Hl & _).
    apply vm_reserv_lock_inv in Hl as (k' & Hk' & Hl & _).
    assert (k' = k) by congruence. subst k'.
    cbn in Hl. congruence.
Qed.

Lemma reclaim_candidate_effect rv flag s b s' :
  reclaim_candidate rv flag s = Ok (b, s') ->
  exists n r r',
    rv = Rv n /\
    vm_reserv_array s !! n = Some r /\
    vm_reserv_array s' !! n = Some r' /\
    one_partpop_flag (rv_flags r) = true /\
    rv_object r <> None /\
    rv_object r' = None /\ rv_popcnt r' = 0 /\
    Z.land (rv_flags r') VM_RESERV_F_PARTPOP = 0 /\
    rv_pages r' = rv_pages r /\
    (forall k, k <> n -> vm_reserv_array s' !! k = vm_reserv_array s !! k) /\
    (if Z.land (rv_flags r) VM_RESERV_F_INACTIVE =? 0
     then vm_rvlru_active s'
          = remove rvref_eq_dec (Rv n) (vm_rvlru_active s) /\
          vm_rvlru_inactive s' = vm_rvlru_inactive s
     else vm_rvlru_inactive s'
          = remove rvref_eq_dec (Rv n) (vm_rvlru_inactive s) /\
          vm_rvlru_active s' = vm_rvlru_active s) /\
    rv_lock s' = rv_lock s /\
    vm_page_queue_free_mtx s' = MtxOwned /\
    vm_reserv_reclaimed s' = s64 (vm_reserv_reclaimed s + 1).
Proof.
  intros H. apply reclaim_candidate_inv in H as (s1 & s2 & Ht & Hr & Hu).
  apply trylock_true_inv in Ht as (k & Hk & Hl & ->).
  destruct rv as [|n]; [discriminate|].
  apply reclaim_inv in Hr
    as (r & r' & Hr & Hr' & Hone & Hob & Ho' & Hc' & Hf' & Hp' & Hoth & Hq
        & Hlk & Hfm & _ & Hrc).
  apply vm_reserv_unlock_inv in Hu as (k' & Hk' & _ & ->).
  assert (k' = k) by congruence. subst k'.
  exists n, r, r'. split; [reflexivity|].
  destruct s2, s; cbn in *.
  repeat (split; [assumption|]).
  split; [|split; assumption].
  rewrite Hlk, list_insert_insert_eq. apply list_insert_id. exact Hl.
Qed.

(** X15. When vm_reserv_reclaim_inactive returns TRUE in a
    one-thread run, the reservation it took is the head of the inactive
    queue or, that queue being empty, the first entry of the active queue
    that is not a marker.  That reservation was bound and on one queue; it
    is now unbound with popcnt 0 and both queue flags clear, it is removed
    from the queue its flags named, no other reservation changed, the
    reservation locks are as before, the free-queue lock is held and the
    reclaimed counter is one higher. *)
Theorem reclaim_inactive_breaks_least_recent s s' :
  vm_reserv_reclaim_inactive s = Ok (true, s') ->
  exists n r r',
    (head (vm_rvlru_inactive s) = Some (Rv n) \/
     vm_rvlru_inactive s = [] /\
     head (List.filter (fun rv => negb (is_marker s rv)) (vm_rvlru_active s))
     = Some (Rv n)) /\
    vm_reserv_array s !! n = Some r /\
    vm_reserv_array s' !! n = Some r' /\
    one_partpop_flag (rv_flags r) = true /\
    rv_object r <> None /\
    rv_object r' = None /\ rv_popcnt r' = 0 /\
    Z.land (rv_flags r') VM_RESERV_F_PARTPOP = 0 /\
    rv_pages r' = rv_pages r /\
    (forall k, k <> n -> vm_reserv_array s' !! k = vm_reserv_array s !! k) /\
    (if Z.land (rv_flags r) VM_RESERV_F_INACTIVE =? 0
     then vm_rvlru_active s'
          = remove rvref_eq_dec (Rv n) (vm_rvlru_active s) /\
          vm_rvlru_inactive s' = vm_rvlru_inactive s
     else vm_rvlru_inactive s'
          = remove rvref_eq_dec (Rv n) (vm_rvlru_inactive s) /\
          vm_rvlru_active s' = vm_rvlru_active s) /\
    rv_lock s' = rv_lock s /\
    vm_page_queue_free_mtx s' = MtxOwned /\
    vm_reserv_reclaimed s' = s64 (vm_reserv_reclaimed s + 1).
Proof.
  intros H. unfold vm_reserv_reclaim_inactive in H.
  apply bind_inv in H as (? & s0 & Ha & H).
  apply free_mtx_assert_owned_inv in Ha as [_ ->].
  cbn [vm_reserv_reclaim_inactive_from] in H.
  apply bind_inv in H as (s0 & s1 & Hg & H).
  apply get_inv in Hg as [-> ->].
  destruct (vm_rvlru_inactive s) as [|rv l] eqn:Ei.
  - destruct (List.filter _ _) as [|rv l] eqn:Ef.
    + apply ret_inv in H as [H _]. discriminate.
    + apply bind_inv in H as (done & s2 & Hc & H).
      pose proof (reclaim_candidate_done _ _ _ _ _ Hc). subst done.
      apply ret_inv in H as [_ ->].
      apply reclaim_candidate_effect in Hc as (n & r & r' & -> & Hrest).
      exists n, r, r'. split; [right; split; reflexivity|].
      rewrite Ei in Hrest. exact Hrest.
  - apply bind_inv in H as (done & s2 & Hc & H).
    pose proof (reclaim_candidate_done _ _ _ _ _ Hc). subst done.
    apply ret_inv in H as [_ ->].
    apply reclaim_candidate_effect in Hc as (n & r & r' & -> & Hrest).
    exists n, r, r'. split; [left; reflexivity|].
    rewrite Ei in Hrest. exact Hrest.
Qed.

(** X15 on a concrete state. *)
Lemma reclaim_inactive_breaks_least_recent_witness :
  exists s' r',
    vm_reserv_reclaim_inactive (exec free_mtx_lock s_swept) = Ok (true, s') /\
    vm_reserv_array s' !! 1%nat = Some r' /\
    rv_object r' = None /\ rv_popcnt r' = 0.
Proof.
  destruct (vm_reserv_reclaim_inactive (exec free_mtx_lock s_swept))
    as [[[|] s']|] eqn:E; try (vm_compute in E; discriminate E).
  destruct (reclaim_inactive_breaks_least_recent _ _ E)
    as (n & r & r' & [Hh|[Hh _]] & _ & Hr' & _ & _ & Ho' & Hc' & _);
    vm_compute in Hh; try discriminate Hh.
  injection Hh as <-.
  exists s', r'. auto.
Defined.
(** ** Contiguous allocation *)

Lemma populate_others n index s u s' :
  vm_reserv_populate (Rv n) index s = Ok (u, s') ->
  forall k, k <> n -> vm_reserv_array s' !! k = vm_reserv_array s !! k.
Proof.
  intros Hp k Hne.
  apply populate_inv in Hp
    as (r & m & kp & pm & Hr & _ & _ & _ & _ & _ & _ & _ & Hup).
  cbv zeta in Hup.
  apply update_lru_population in Hup as (_ & Hl & Hpop).
  assert (Hmid : forall smid,
    smid = (if u16 (rv_popcnt r + 1) =? VM_LEVEL_0_NPAGES
            then set_trace (trace s ++ [EvStorePsind m 1])
                   (set_psind (<[kp := 1]> (psind s))
                      (put_rv n (set_rv_popcnt (u16 (rv_popcnt r + 1))
                                   (set_rv_popmap pm r)) s))
            else put_rv n (set_rv_popcnt (u16 (rv_popcnt r + 1))
                             (set_rv_popmap pm r)) s) ->
    vm_reserv_array smid
    = <[n := set_rv_popcnt (u16 (rv_popcnt r + 1)) (set_rv_popmap pm r)]>
        (vm_reserv_array s)).
  { intros smid ->. destruct (_ =? _); destruct s; reflexivity. }
  specialize (Hmid _ eq_refl). rewrite Hmid in Hl, Hpop.
  rewrite length_insert in Hl.
  destruct (vm_reserv_array s !! k) as [r0|] eqn:E.
  - destruct (Hpop k r0) as (r1 & Hr1 & _ & _ & _ & _ & Heq).
    { rewrite list_lookup_insert_ne by congruence. exact E. }
    rewrite Hr1. f_equal. apply Heq. exact Hne.
  - apply lookup_ge_None. rewrite Hl. apply lookup_ge_None. exact E.
Qed.

(** populate_range on record n: cnt clear bits from index on are set. *)
Lemma populate_range_binding cnt : forall n index s s' r,
  populate_range cnt (Rv n) index s = Ok (tt, s') ->
  vm_reserv_array s !! n = Some r ->
  rec_ok r ->
  exists r', vm_reserv_array s' !! n = Some r' /\
    rv_object r' = rv_object r /\
    rv_pindex r' = rv_pindex r /\
    rv_pages r' = rv_pages r /\
    rv_popcnt r' = rv_popcnt r + Z.of_nat cnt /\
    rec_ok r' /\
    (forall k, index <= k < index + Z.of_nat cnt ->
       0 <= k < VM_LEVEL_0_NPAGES /\
       popmap_bit (rv_popmap r) k = false /\
       popmap_bit (rv_popmap r') k = true) /\
    (forall k, ~ index <= k < index + Z.of_nat cnt ->
       popmap_bit (rv_popmap r') k = popmap_bit (rv_popmap r) k) /\
    (forall k, k <> n -> vm_reserv_array s' !! k = vm_reserv_array s !! k).
Proof.
  induction cnt as [|cnt IH]; intros n index s s' r H Hr Hok;
    cbn [populate_range] in H.
  - apply ret_inv in H as [_ ->]. exists r.
    split; [exact Hr|]. do 3 (split; [reflexivity|]).
    split; [cbn; lia|]. split; [exact Hok|].
    split; [intros k Hk; cbn in Hk; lia|].
    split; intros; reflexivity.
  - apply bind_inv in H as ([] & s1 & Hp & H).
    pose proof (populate_others _ _ _ _ _ Hp) as Hoth1.
    destruct (populate_binding _ _ _ _ _ r Hp Hr Hok)
      as (Hi & Hbit & r1 & Hr1 & Ho1 & _ & Hp1 & Hg1 & Hc1 & Hok1 & Hbits1).
    destruct (IH n (index + 1) s1 s' r1 H Hr1 Hok1)
      as (r' & Hr' & Ho' & Hp' & Hg' & Hc' & Hok' & Hset & Hkeep & Hoth).
    exists r'. split; [exact Hr'|]. split; [congruence|].
    split; [congruence|]. split; [congruence|]. split; [lia|].
    split; [exact Hok'|]. split; [|split].
    + intros k Hk. destruct (Z.eq_dec k index) as [->|Hne].
      * split; [exact Hi|]. split; [exact Hbit|].
        rewrite Hkeep by lia. rewrite Hbits1, Z.eqb_refl. reflexivity.
      * destruct (Hset k ltac:(lia)) as (Hr0 & Hb0 & Hb1).
        split; [exact Hr0|]. split; [|exact Hb1].
        rewrite Hbits1 in Hb0. apply orb_false_iff in Hb0 as [_ Hb0].
        exact Hb0.
    + intros k Hk. rewrite Hkeep by lia. rewrite Hbits1.
      destruct (k =? index) eqn:E; zbool; [lia|reflexivity].
    + intros k Hne. rewrite Hoth by exact Hne. apply Hoth1. exact Hne.
Qed.

Lemma array_inv_update (P : nat -> vm_reserv -> Prop) n r' s s' :
  array_inv P s ->
  vm_reserv_array s' !! n = Some r' -> P n r' ->
  (forall k, k <> n -> vm_reserv_array s' !! k = vm_reserv_array s !! k) ->
  array_inv P s'.
Proof.
  intros Hinv Hr' HP Hoth k r Hk.
  destruct (decide (k = n)) as [->|Hne].
  - assert (r = r') by congruence. subst r. exact HP.
  - rewrite Hoth in Hk by exact Hne. exact (Hinv k r Hk).
Qed.

(** The statements shared by both front-ends when a fresh frame is bound:
    record n, which was free, now belongs to (object, first). *)
Lemma bind_new_reserv_inv object first pa s rv s1 :
  bind_new_reserv object first pa s = Ok (rv, s1) ->
  exists n r,
    rv = Rv n /\ vm_reserv_from_page pa = Rv n /\
    vm_reserv_array s !! n = Some r /\
    rv_pages r = Some pa /\ rv_object r = None /\
    rv_popcnt r = 0 /\
    vm_reserv_array s1 !! n
    = Some (set_rv_seq (u32 (u32 (rv_seq r + 1) + 1))
              (set_rv_object (Some object) (set_rv_pindex first r))) /\
    (forall k, k <> n -> vm_reserv_array s1 !! k = vm_reserv_array s !! k).
Proof.
  intros Hbind.
  unfold bind_new_reserv, vm_reserv_from_page in Hbind. cbv zeta in Hbind.
  unfold vm_reserv_from_page.
  set (n := Z.to_nat (Z.shiftr pa VM_LEVEL_0_SHIFT)) in *.
  apply bind_inv in Hbind as (? & s3 & Hl & Hbind).
  apply vm_reserv_lock_inv in Hl as (k & _ & _ & ->).
  apply bind_inv in Hbind as (r & s3 & Hr & Hbind).
  apply load_rv_inv in Hr as [Hr ->].
  assert (Hr0 : vm_reserv_array s !! n = Some r) by (destruct s; exact Hr).
  apply bind_inv in Hbind as (? & s3 & Hpg & Hbind).
  apply KASSERT_inv in Hpg as [Hpg ->].
  apply bind_inv in Hbind as (? & s3 & Hnull & Hbind).
  apply KASSERT_inv in Hnull as [Hnull ->]. zbool.
  apply bind_inv in Hbind as (? & s3 & Hf1 & Hbind).
  apply free_mtx_lock_inv in Hf1 as [_ ->].
  apply bind_inv in Hbind as (? & s3 & Hins & Hbind).
  apply LIST_INSERT_HEAD_inv in Hins as (_ & ob1 & _ & ->).
  apply bind_inv in Hbind as (? & s3 & Hf2 & Hbind).
  apply free_mtx_unlock_inv in Hf2 as [_ ->].
  apply bind_inv in Hbind as (? & s3 & Hso & Hbind).
  apply set_object_some_inv in Hso as (r0 & Hr0' & ->).
  assert (r0 = r) by (destruct s; cbn in Hr0', Hr; congruence).
  subst r0.
  apply bind_inv in Hbind as (r1 & s3 & Hr1 & Hbind).
  apply load_rv_inv in Hr1 as [Hr1 ->].
  apply bind_inv in Hbind as (? & s3 & Hk1 & Hbind).
  apply KASSERT_inv in Hk1 as [Hk1 ->].
  apply bind_inv in Hbind as (? & s3 & Hk2 & Hbind).
  apply KASSERT_inv in Hk2 as [_ ->].
  apply bind_inv in Hbind as (? & s3 & Hz & Hbind).
  apply popmap_assert_zero_inv in Hz as ->.
  apply ret_inv in Hbind as [-> ->].
  assert (Hlen : (n < length (vm_reserv_array s))%nat)
    by (eapply lookup_lt_Some, Hr0).
  assert (E1 : r1 = set_rv_seq (u32 (u32 (rv_seq r + 1) + 1))
                      (set_rv_object (Some object)
                         (set_rv_pindex first r))).
  { destruct s. unfold put_rv in Hr1. unfold_state.
    rewrite list_lookup_insert_eq in Hr1 by exact Hlen. congruence. }
  subst r1. cbn in Hk1. zbool.
  exists n, r. split; [reflexivity|]. split; [reflexivity|].
  split; [exact Hr0|]. split; [exact Hpg|].
  split; [destruct (rv_object r); [discriminate|reflexivity]|].
  split; [exact Hk1|]. split; [exact Hr1|].
  intros k0 Hne. destruct s. unfold put_rv. unfold_state.
  apply list_lookup_insert_ne. congruence.
Qed.

Lemma frame_address n r m :
  frame_ok n r -> rv_pages r = Some m -> m = Z.of_nat n * VM_LEVEL_0_SIZE.
Proof. intros [H|H] Hm; congruence. Qed.

Lemma alloc_contig_fill_effect object : forall fuel m first npages allocpages
    idx m_ret s res s',
  alloc_contig_fill fuel object m first npages allocpages idx m_ret s
  = Ok (res, s') ->
  0 <= idx < VM_LEVEL_0_NPAGES -> 0 <= npages < 2 ^ 64 ->
  (m_ret <> None -> idx = 0) ->
  population_ok s -> array_inv frame_ok s ->
  res = Some (match m_ret with None => page_at m idx | Some x => x end) /\
  population_ok s' /\ array_inv frame_ok s' /\
  exists n,
    m = Z.of_nat n * VM_LEVEL_0_SIZE /\
    (forall k, (k < n)%nat ->
       vm_reserv_array s' !! k = vm_reserv_array s !! k) /\
    exists c, 1 <= c /\
      (VM_LEVEL_0_NPAGES <= allocpages < 2 ^ 64 ->
       c * VM_LEVEL_0_NPAGES <= allocpages < (c + 1) * VM_LEVEL_0_NPAGES) /\
      forall t, idx <= t < idx + npages -> t < c * VM_LEVEL_0_NPAGES ->
        exists r r',
          vm_reserv_array s !! (n + Z.to_nat (t / VM_LEVEL_0_NPAGES))%nat
          = Some r /\
          vm_reserv_array s' !! (n + Z.to_nat (t / VM_LEVEL_0_NPAGES))%nat
          = Some r' /\
          rv_object r = None /\ rv_object r' = Some object /\
          rv_pages r'
          = Some (Z.of_nat (n + Z.to_nat (t / VM_LEVEL_0_NPAGES))
                  * VM_LEVEL_0_SIZE) /\
          rec_ok r' /\
          popmap_bit (rv_popmap r') (t mod VM_LEVEL_0_NPAGES) = true.
Proof.
  assert (HN : VM_LEVEL_0_NPAGES = 512) by reflexivity.
  induction fuel as [|fuel IH];
    intros m first npages allocpages idx m_ret s res s' H Hidx Hnp Hret
      Hok Hfr; cbn [alloc_contig_fill] in H; [discriminate|].
  apply bind_inv in H as (rv & s1 & Hbind & H).
  apply bind_new_reserv_inv in Hbind
    as (n & r & -> & Hfrom & Hr & Hpg & Hnull & Hc0 & Hr1 & Hoth1).
  pose proof (frame_address n r m (Hfr n r Hr) Hpg) as Hm.
  destruct (Hok n r Hr) as [Ht Hc].
  apply bind_inv in H as ([] & s2 & Hpop & H).
  set (k0 := Z.min (VM_LEVEL_0_NPAGES - idx) npages) in *.
  assert (Hk0 : 0 <= k0 <= npages /\ k0 <= VM_LEVEL_0_NPAGES - idx)
    by (unfold k0; lia).
  eapply populate_range_binding in Hpop; [|exact Hr1|split; assumption].
  destruct Hpop
    as (r' & Hr' & Ho' & Hp' & Hg' & Hc' & Hok' & Hset & Hkeep & Hoth2).
  cbn in Ho', Hp', Hg', Hc'. rewrite Z2Nat.id in Hset, Hkeep by lia.
  apply bind_inv in H as ([] & s3 & Hun & H).
  apply unlock_keeps in Hun as [Ha3 _].
  assert (Hr3 : vm_reserv_array s3 !! n = Some r') by (rewrite Ha3; exact Hr').
  assert (Hoth3 : forall k, k <> n ->
            vm_reserv_array s3 !! k = vm_reserv_array s !! k).
  { intros k Hne. rewrite Ha3, Hoth2, Hoth1 by exact Hne. reflexivity. }
  assert (Hok3 : population_ok s3)
    by exact (array_inv_update _ n r' s s3 Hok Hr3 Hok' Hoth3).
  assert (Hfr3 : array_inv frame_ok s3).
  { refine (array_inv_update _ n r' s s3 Hfr Hr3 _ Hoth3).
    right. rewrite Hg', Hpg, Hm. reflexivity. }
  (* The slots of this frame. *)
  assert (Hhere : forall t, idx <= t < idx + npages ->
            t < VM_LEVEL_0_NPAGES ->
            t / VM_LEVEL_0_NPAGES = 0 /\ t mod VM_LEVEL_0_NPAGES = t /\
            popmap_bit (rv_popmap r') t = true).
  { intros t Ht1 Ht2.
    split; [apply Z.div_small; lia|]. split; [apply Z.mod_small; lia|].
    apply Hset. lia. }
  destruct (VM_LEVEL_0_NPAGES <=? _) eqn:Emore.
  - (* another frame *)
    assert (Hidx' : match m_ret with None => 0 | Some _ => idx end = 0)
      by (destruct m_ret; [apply Hret; discriminate|reflexivity]).
    rewrite Hidx' in H.
    assert (Hnp' : u64 (npages - k0) = npages - k0)
      by (unfold u64; apply Z.mod_small; lia).
    rewrite Hnp' in H.
    apply IH in H; [|lia|lia|reflexivity|exact Hok3|exact Hfr3].
    destruct H
      as (Hres & Hok4 & Hfr4 & n' & Hm' & Hlow & c & Hc1 & Hcnt & Hslots).
    assert (n' = S n).
    { apply Nat2Z.inj. unfold page_at in Hm'. rewrite Hm in Hm'.
      change PAGE_SIZE with 4096 in Hm'.
      change VM_LEVEL_0_SIZE with 2097152 in Hm'. lia. }
    subst n'.
    split; [rewrite Hres; destruct m_ret; reflexivity|].
    split; [exact Hok4|]. split; [exact Hfr4|].
    exists n. split; [exact Hm|]. split.
    { intros k Hk. rewrite Hlow by lia. apply Hoth3. lia. }
    exists (c + 1). split; [lia|]. split.
    { intros Ha. zbool.
      assert (Hu : u64 (allocpages - VM_LEVEL_0_NPAGES)
                   = allocpages - VM_LEVEL_0_NPAGES)
        by (unfold u64; apply Z.mod_small; lia).
      rewrite Hu in Emore, Hcnt. lia. }
    intros t Ht1 Ht2.
    destruct (Z.lt_ge_cases t VM_LEVEL_0_NPAGES) as [Hlt|Hge].
    + destruct (Hhere t Ht1 Hlt) as (Hq & Hmod & Hbit).
      rewrite Hq, Hmod. cbn [Z.to_nat]. rewrite Nat.add_0_r.
      exists r, r'. split; [exact Hr|].
      split; [rewrite Hlow by lia; exact Hr3|].
      split; [exact Hnull|]. split; [exact Ho'|].
      split; [rewrite Hg', Hpg, Hm; reflexivity|].
      split; [exact Hok'|exact Hbit].
    + assert (Hk0' : k0 = VM_LEVEL_0_NPAGES - idx) by (unfold k0; lia).
      destruct (Hslots (t - VM_LEVEL_0_NPAGES)) as (r2 & r2' & Hr2 & Hr2' & Hrest);
        [lia|lia|].
      assert (Hq : t / VM_LEVEL_0_NPAGES
                   = (t - VM_LEVEL_0_NPAGES) / VM_LEVEL_0_NPAGES + 1).
      { replace t with (t - VM_LEVEL_0_NPAGES + 1 * VM_LEVEL_0_NPAGES) at 1
          by lia.
        apply Z.div_add. lia. }
      assert (Hmod : t mod VM_LEVEL_0_NPAGES
                     = (t - VM_LEVEL_0_NPAGES) mod VM_LEVEL_0_NPAGES).
      { replace t with (t - VM_LEVEL_0_NPAGES + 1 * VM_LEVEL_0_NPAGES) at 1
          by lia.
        apply Z.mod_add. lia. }
      assert (Hq0 : 0 <= (t - VM_LEVEL_0_NPAGES) / VM_LEVEL_0_NPAGES)
        by (apply Z.div_pos; lia).
      assert (Hix : (n + Z.to_nat (t / VM_LEVEL_0_NPAGES)
                     = S n + Z.to_nat ((t - VM_LEVEL_0_NPAGES)
                                       / VM_LEVEL_0_NPAGES))%nat)
        by (rewrite Hq; lia).
      rewrite Hix, Hmod.
      exists r2, r2'. split; [|split; [exact Hr2'|exact Hrest]].
      rewrite <- Hoth3 by lia. exact Hr2.
  - apply ret_inv in H as [-> ->].
    split; [destruct m_ret; reflexivity|].
    split; [exact Hok3|]. split; [exact Hfr3|].
    exists n. split; [exact Hm|]. split.
    { intros k Hk. apply Hoth3. lia. }
    exists 1. split; [lia|]. split.
    { intros Ha. zbool.
      assert (Hu : u64 (allocpages - VM_LEVEL_0_NPAGES)
                   = allocpages - VM_LEVEL_0_NPAGES)
        by (unfold u64; apply Z.mod_small; lia).
      rewrite Hu in Emore. lia. }
    intros t Ht1 Ht2.
    destruct (Hhere t Ht1 ltac:(lia)) as (Hq & Hmod & Hbit).
    rewrite Hq, Hmod. cbn [Z.to_nat]. rewrite Nat.add_0_r.
    exists r, r'. split; [exact Hr|]. split; [exact Hr3|].
    split; [exact Hnull|]. split; [exact Ho'|].
    split; [rewrite Hg', Hpg, Hm; reflexivity|].
    split; [exact Hok'|exact Hbit].
Qed.

(** Slot t counted from the first page of frame n is page t mod N of
    frame n + t / N. *)
Lemma slot_not_free s' n t r' object :
  0 <= t ->
  vm_reserv_array s' !! (n + Z.to_nat (t / VM_LEVEL_0_NPAGES))%nat = Some r' ->
  rv_object r' = Some object ->
  rv_pages r'
  = Some (Z.of_nat (n + Z.to_nat (t / VM_LEVEL_0_NPAGES)) * VM_LEVEL_0_SIZE) ->
  rec_ok r' ->
  popmap_bit (rv_popmap r') (t mod VM_LEVEL_0_NPAGES) = true ->
  vm_reserv_from_page (page_at (Z.of_nat n * VM_LEVEL_0_SIZE) t)
  = Rv (n + Z.to_nat (t / VM_LEVEL_0_NPAGES)) /\
  vm_reserv_is_page_free (page_at (Z.of_nat n * VM_LEVEL_0_SIZE) t) s'
  = Ok (false, s').
Proof.
  intros Ht Hr' Ho' Hg' [Htyp _] Hbit.
  assert (HN : VM_LEVEL_0_NPAGES = 512) by reflexivity.
  set (k := (n + Z.to_nat (t / VM_LEVEL_0_NPAGES))%nat) in *.
  assert (Hmod : 0 <= t mod VM_LEVEL_0_NPAGES < VM_LEVEL_0_NPAGES)
    by (apply Z.mod_pos_bound; lia).
  assert (Hq : 0 <= t / VM_LEVEL_0_NPAGES) by (apply Z.div_pos; lia).
  assert (Hpage : page_at (Z.of_nat n * VM_LEVEL_0_SIZE) t
                  = page_at (Z.of_nat k * VM_LEVEL_0_SIZE)
                      (t mod VM_LEVEL_0_NPAGES)).
  { unfold page_at, k. rewrite Nat2Z.inj_add, Z2Nat.id by exact Hq.
    pose proof (Z.div_mod t VM_LEVEL_0_NPAGES ltac:(lia)) as Hdm.
    change VM_LEVEL_0_SIZE with (VM_LEVEL_0_NPAGES * PAGE_SIZE).
    rewrite Hdm at 1. ring. }
  rewrite Hpage.
  destruct (frame_page k r' _ (t mod VM_LEVEL_0_NPAGES)
              (or_intror Hg') Hg' Hmod) as (_ & Hfrom & Hdiff).
  split; [exact Hfrom|].
  unfold vm_reserv_is_page_free, bind. rewrite Hfrom.
  unfold load_rv. rewrite Hr', Ho'. cbn [is_null].
  rewrite Hg'. cbn [res_of_option lift]. rewrite Hdiff.
  rewrite (popmap_is_clear_typed _ _ Htyp Hmod), Hbit. reflexivity.
Qed.

Lemma alloc_contig_found_effect ob pindex npages low high alignment boundary
    n s1 m s' r object :
  vm_reserv_alloc_contig_found ob pindex npages low high alignment boundary
    (Rv n) s1 = Ok (Some m, s') ->
  0 <= npages < 2 ^ 64 ->
  vm_reserv_array s1 !! n = Some r ->
  rv_object r = Some object -> rec_ok r -> frame_ok n r ->
  m = page_at (Z.of_nat n * VM_LEVEL_0_SIZE) (VM_RESERV_INDEX ob pindex) /\
  (forall k, k <> n -> vm_reserv_array s' !! k = vm_reserv_array s1 !! k) /\
  exists r',
    vm_reserv_array s' !! n = Some r' /\
    rv_object r' = Some object /\
    rv_pages r' = Some (Z.of_nat n * VM_LEVEL_0_SIZE) /\
    rec_ok r' /\
    forall t, VM_RESERV_INDEX ob pindex <= t
              < VM_RESERV_INDEX ob pindex + npages ->
      0 <= t < VM_LEVEL_0_NPAGES /\
      popmap_bit (rv_popmap r) t = false /\
      popmap_bit (rv_popmap r') t = true.
Proof.
  intros H Hnp Hr Ho Hok Hfr.
  unfold vm_reserv_alloc_contig_found in H. cbv zeta in H.
  set (index := VM_RESERV_INDEX ob pindex) in *.
  destruct (VM_LEVEL_0_NPAGES <? _).
  { apply bind_inv in H as (? & ? & _ & H).
    apply ret_inv in H as [H _]. discriminate. }
  apply bind_inv in H as (r0 & s2 & Hr0 & H).
  apply load_rv_inv in Hr0 as [Hr0 ->].
  assert (r0 = r) by congruence. subst r0.
  apply bind_inv in H as (base & s2 & Hb & H).
  apply lift_inv in Hb as [Hb ->].
  destruct (rv_pages r) as [base'|] eqn:Eb; [|discriminate].
  injection Hb as ->.
  pose proof (frame_address n r base Hfr Eb) as Hbase.
  destruct (_ || _).
  { apply bind_inv in H as (? & ? & _ & H).
    apply ret_inv in H as [H _]. discriminate. }
  apply bind_inv in H as (b & s2 & Hany & H).
  apply lift_inv in Hany as [_ ->].
  destruct b.
  { apply bind_inv in H as (? & ? & _ & H).
    apply ret_inv in H as [H _]. discriminate. }
  apply bind_inv in H as ([] & s2 & Hpop & H).
  apply bind_inv in H as ([] & s3 & Hun & H).
  apply ret_inv in H as [Hm ->]. injection Hm as ->.
  apply unlock_keeps in Hun as [Ha3 _].
  destruct (populate_range_binding _ _ _ _ _ r Hpop Hr Hok)
    as (r' & Hr' & Ho' & _ & Hg' & _ & Hok' & Hset & _ & Hoth).
  rewrite Z2Nat.id in Hset by lia.
  split; [rewrite Hbase; reflexivity|].
  split; [intros k Hne; rewrite Ha3; apply Hoth; exact Hne|].
  exists r'. split; [rewrite Ha3; exact Hr'|].
  split; [congruence|]. split; [rewrite Hg', Eb, Hbase; reflexivity|].
  split; [exact Hok'|exact Hset].
Qed.

Lemma look_left_keeps_array object ob pindex first mpred s l s1 :
  look_left object ob pindex first mpred s = Ok (l, s1) ->
  vm_reserv_array s1 = vm_reserv_array s /\
  forall rv, l = StFound rv ->
    exists n r, rv = Rv n /\ vm_reserv_array s !! n = Some r /\
      rv_object r = Some object.
Proof.
  intros Hl. unfold look_left in Hl. destruct mpred as [mp|].
  - apply bind_inv in Hl as (? & s2 & Hk1 & Hl).
    apply KASSERT_inv in Hk1 as [_ ->].
    apply bind_inv in Hl as (? & s2 & Hk2 & Hl).
    apply KASSERT_inv in Hk2 as [_ ->].
    apply bind_inv in Hl as (st & s2 & Hp & Hl).
    pose proof (probe_mpred_array _ _ _ _ _ _ _ Hp) as Harr.
    destruct st as [rv| |[]].
    + apply ret_inv in Hl as [-> ->]. split; [exact Harr|].
      intros rv0 E. injection E as <-.
      apply probe_mpred_found in Hp as (n & r & -> & Hr & Ho & _).
      exists n, r. auto.
    + apply ret_inv in Hl as [-> ->]. split; [exact Harr|].
      intros rv0 E. discriminate.
    + apply bind_inv in Hl as (ms & s3 & Hms & Hl).
      apply lift_inv in Hms as [_ ->].
      apply ret_inv in Hl as [-> ->]. split; [exact Harr|].
      intros rv0 E. discriminate.
  - apply ret_inv in Hl as [-> ->]. split; [reflexivity|].
    intros rv0 E. discriminate.
Qed.

Lemma land_not_low x :
  0 <= x < 2 ^ 64 ->
  Z.land x (not64 (VM_LEVEL_0_NPAGES - 1))
  = VM_LEVEL_0_NPAGES * (x / VM_LEVEL_0_NPAGES).
Proof.
  intros Hx. rewrite VM_LEVEL_0_NPAGES_val.
  apply Z.bits_inj'. intros n Hn.
  rewrite Z.land_spec, not64_testbit by lia.
  change (512 - 1) with (Z.ones 9).
  replace (512 * (x / 512)) with (Z.shiftl (Z.shiftr x 9) 9)
    by (rewrite Z.shiftl_mul_pow2, Z.shiftr_div_pow2 by lia;
        change (2 ^ 9) with 512; lia).
  destruct (n <? 9) eqn:E9; zbool.
  - rewrite Z.ones_spec_low by lia.
    rewrite Z.shiftl_spec_low by lia.
    rewrite andb_false_r, andb_false_r. reflexivity.
  - rewrite Z.ones_spec_high by lia.
    rewrite Z.shiftl_spec, Z.shiftr_spec by lia.
    replace (n - 9 + 9) with n by lia.
    destruct (n <? 64) eqn:E64; zbool.
    + cbn [negb andb]. rewrite andb_true_r. reflexivity.
    + rewrite (word_testbit_high x n) by lia. reflexivity.
Qed.

Lemma alloc_contig_effect object pindex npages low high alignment boundary
    mpred phys s m s' :
  population_ok s ->
  array_inv frame_ok s ->
  0 <= npages < 2 ^ 63 ->
  vm_reserv_alloc_contig object pindex npages low high alignment boundary
    mpred phys s = Ok (Some m, s') ->
  exists ob n c,
    vm_objects s !! object = Some ob /\
    m = page_at (Z.of_nat n * VM_LEVEL_0_SIZE) (VM_RESERV_INDEX ob pindex) /\
    1 <= c /\
    VM_RESERV_INDEX ob pindex + npages < (c + 1) * VM_LEVEL_0_NPAGES /\
    forall j, 0 <= j < npages ->
      VM_RESERV_INDEX ob pindex + j < c * VM_LEVEL_0_NPAGES ->
      exists k r r',
        vm_reserv_from_page (page_at m j) = Rv k /\
        vm_reserv_array s !! k = Some r /\
        vm_reserv_array s' !! k = Some r' /\
        (rv_object r = None \/
         rv_object r = Some object /\
         popmap_bit (rv_popmap r)
           ((VM_RESERV_INDEX ob pindex + j) mod VM_LEVEL_0_NPAGES) = false) /\
        rv_object r' = Some object /\
        popmap_bit (rv_popmap r')
          ((VM_RESERV_INDEX ob pindex + j) mod VM_LEVEL_0_NPAGES) = true /\
        vm_reserv_is_page_free (page_at m j) s' = Ok (false, s').
Proof.
  intros Hok Hfr Hnp H. unfold vm_reserv_alloc_contig in H.
  assert (HN : VM_LEVEL_0_NPAGES = 512) by reflexivity.
  apply bind_inv in H as (? & s0 & Hw & H).
  apply VM_OBJECT_ASSERT_WLOCKED_inv in Hw as [_ ->].
  apply bind_inv in H as (? & s0 & Hk & H).
  apply KASSERT_inv in Hk as [Hnz ->]. zbool.
  apply bind_inv in H as (ob & s0 & Hob & H).
  apply load_obj_inv in Hob as [Hob ->].
  destruct (_ || _); [apply ret_inv in H as [H _]; discriminate|].
  cbv zeta in H.
  destruct (misaligned _ _); [apply ret_inv in H as [H _]; discriminate|].
  destruct (crosses _ _ _); [apply ret_inv in H as [H _]; discriminate|].
  pose proof (index_range ob pindex) as Hidx.
  set (index := VM_RESERV_INDEX ob pindex) in *.
  assert (Hmin : u64 (index + npages) = index + npages)
    by (unfold u64; apply Z.mod_small; lia).
  rewrite !Hmin in H.
  assert (Hmax1 : u64 (index + npages + (VM_LEVEL_0_NPAGES - 1))
                  = index + npages + (VM_LEVEL_0_NPAGES - 1))
    by (unfold u64; apply Z.mod_small; lia).
  rewrite !Hmax1 in H.
  rewrite !(land_not_low (index + npages + (VM_LEVEL_0_NPAGES - 1)))
    in H by lia.
  set (maxpages := VM_LEVEL_0_NPAGES
                   * ((index + npages + (VM_LEVEL_0_NPAGES - 1))
                      / VM_LEVEL_0_NPAGES)) in *.
  assert (Hmax : index + npages <= maxpages
                 < index + npages + VM_LEVEL_0_NPAGES /\
                 VM_LEVEL_0_NPAGES <= maxpages /\
                 (maxpages <> VM_LEVEL_0_NPAGES ->
                  2 * VM_LEVEL_0_NPAGES <= maxpages)).
  { unfold maxpages. rewrite HN.
    pose proof (Z.div_mod (index + npages + (512 - 1)) 512 ltac:(lia)).
    pose proof (Z.mod_pos_bound (index + npages + (512 - 1)) 512 ltac:(lia)).
    assert (1 <= (index + npages + (512 - 1)) / 512)
      by (apply Z.div_le_lower_bound; lia).
    lia. }
  assert (Hpg : forall n j,
    page_at (page_at (Z.of_nat n * VM_LEVEL_0_SIZE) index) j
    = page_at (Z.of_nat n * VM_LEVEL_0_SIZE) (index + j))
    by (intros; unfold page_at; ring).
  (* From the label found. *)
  match goal with
  | |- ?G =>
      assert (Hfound : forall n r s1,
        vm_reserv_array s !! n = Some r ->
        rv_object r = Some object ->
        vm_reserv_array s1 = vm_reserv_array s ->
        vm_reserv_alloc_contig_found ob pindex npages low high alignment
          boundary (Rv n) s1 = Ok (Some m, s') -> G)
  end.
  { intros n r s1 Hr Ho Harr Hf.
    apply (alloc_contig_found_effect _ _ _ _ _ _ _ _ _ _ _ r object) in Hf;
      [|lia|rewrite Harr; exact Hr|exact Ho|exact (Hok n r Hr)
       |exact (Hfr n r Hr)].
    destruct Hf as (-> & _ & r' & Hr' & Ho' & Hg' & Hok' & Hset).
    exists ob, n, 1. split; [exact Hob|]. split; [reflexivity|].
    split; [lia|]. fold index. split.
    { destruct (Hset (index + npages - 1) ltac:(lia)) as (Hr0 & _). lia. }
    intros j Hj Hlt.
    destruct (Hset (index + j) ltac:(lia)) as (Hr0 & Hb0 & Hb1).
    assert (Hq : (index + j) / VM_LEVEL_0_NPAGES = 0)
      by (apply Z.div_small; lia).
    assert (Hmod : (index + j) mod VM_LEVEL_0_NPAGES = index + j)
      by (apply Z.mod_small; lia).
    destruct (slot_not_free s' n (index + j) r' object) as [Hfrom Hfree];
      rewrite ?Hq, ?Hmod; cbn [Z.to_nat]; rewrite ?Nat.add_0_r;
      try assumption; [lia|].
    rewrite Hq in Hfrom. cbn [Z.to_nat] in Hfrom. rewrite Nat.add_0_r in Hfrom.
    exists n, r, r'. rewrite Hpg.
    split; [exact Hfrom|]. split; [exact Hr|]. split; [exact Hr'|].
    split; [right; split; assumption|]. split; [exact Ho'|].
    split; [exact Hb1|exact Hfree]. }
  apply bind_inv in H as (l & s1 & Hl & H).
  apply look_left_keeps_array in Hl as [Harr1 Hleft].
  destruct l as [rv| |msucc].
  - destruct (Hleft rv eq_refl) as (n & r & -> & Hr & Ho).
    exact (Hfound n r s1 Hr Ho Harr1 H).
  - apply ret_inv in H as [H _]. discriminate.
  - apply bind_inv in H as (st & s2 & Hright & H).
    assert (Hr2 : vm_reserv_array s2 = vm_reserv_array s /\
      (forall rv, st = StFound rv ->
         exists n r, rv = Rv n /\ vm_reserv_array s !! n = Some r /\
           rv_object r = Some object) /\
      (forall a, st = StGo a ->
         a = maxpages \/
         a = index + npages /\ maxpages <> VM_LEVEL_0_NPAGES)).
    { destruct msucc as [ms|].
      - apply bind_inv in Hright as (? & s3 & Hk & Hright).
        apply KASSERT_inv in Hk as [_ ->].
        apply bind_inv in Hright as (st1 & s3 & Hp & Hright).
        pose proof (probe_msucc_array _ _ _ _ _ _ Hp) as Harr.
        rewrite Harr1 in Harr.
        destruct st1 as [rv| |cap].
        + apply ret_inv in Hright as [-> ->]. split; [exact Harr|].
          split; [|intros a E; discriminate].
          intros rv0 E. injection E as <-.
          apply probe_msucc_found in Hp as (n & r & -> & Hr & Ho & _).
          rewrite Harr1 in Hr. exists n, r. auto.
        + apply ret_inv in Hright as [-> ->]. split; [exact Harr|].
          split; [intros rv0 E|intros a E]; discriminate.
        + destruct (cap <? _); [destruct (_ =? _) eqn:Emx|];
            apply ret_inv in Hright as [-> ->];
            (split; [exact Harr|]);
            (split; [intros rv0 E; discriminate|]);
            intros a E; try discriminate; injection E as <-; zbool; auto.
      - apply ret_inv in Hright as [-> ->]. split; [exact Harr1|].
        split; [intros rv0 E; discriminate|].
        intros a E. injection E as <-. auto. }
    destruct Hr2 as (Harr2 & Hr2 & Hgo).
    destruct st as [rv| |allocpages0].
    + destruct (Hr2 rv eq_refl) as (n & r & -> & Hr & Ho).
      exact (Hfound n r s2 Hr Ho Harr2 H).
    + apply ret_inv in H as [H _]. discriminate.
    + apply bind_inv in H as (vn & s3 & Hvn & H).
      assert (s3 = s2) as ->.
      { destruct (o_size ob <? _).
        - exact (vnode_backed_inv _ _ _ _ Hvn).
        - apply ret_inv in Hvn as [_ ->]. reflexivity. }
      destruct (vn && _) eqn:Evn;
        [apply ret_inv in H as [H _]; discriminate|].
      apply bind_inv in H as (? & s3 & Hf1 & H).
      apply free_mtx_lock_inv in Hf1 as [_ ->].
      apply bind_inv in H as (pg & s3 & Hphys & H).
      unfold vm_phys_alloc_contig in Hphys.
      apply bind_inv in Hphys as (? & s4 & He & Hphys).
      apply emit_inv in He as ->.
      apply ret_inv in Hphys as [-> ->].
      apply bind_inv in H as (? & s3 & Hf2 & H).
      apply free_mtx_unlock_inv in Hf2 as [_ ->].
      destruct phys as [pa|]; [|apply ret_inv in H as [H _]; discriminate].
      match type of H with
      | alloc_contig_fill _ _ _ _ _ _ _ _ ?sx = _ =>
          assert (Ha3 : forall k,
                    vm_reserv_array sx !! k = vm_reserv_array s !! k)
            by (intros k; rewrite <- Harr2; destruct s2; reflexivity)
      end.
      assert (Hall : VM_LEVEL_0_NPAGES
                     <= (if vn then index + npages else allocpages0) < 2 ^ 64 /\
                     index + npages
                     <= (if vn then index + npages else allocpages0)).
      { destruct vn.
        - cbn [andb] in Evn. zbool. lia.
        - destruct (Hgo allocpages0 eq_refl) as [->|[-> Hne]]; lia. }
      apply alloc_contig_fill_effect in H;
        [|exact Hidx|lia|intros E; congruence
         |intros k r Hk; rewrite Ha3 in Hk; exact (Hok k r Hk)
         |intros k r Hk; rewrite Ha3 in Hk; exact (Hfr k r Hk)].
      destruct H as (Hres & _ & _ & n & Hm & _ & c & Hc & Hcnt & Hslots).
      injection Hres as ->.
      exists ob, n, c. split; [exact Hob|].
      split; [rewrite Hm; reflexivity|]. split; [exact Hc|].
      fold index. split; [specialize (Hcnt (proj1 Hall)); lia|].
      intros j Hj Hlt.
      destruct (Hslots (index + j) ltac:(lia) Hlt)
        as (r & r' & Hr & Hr' & Hnull & Ho' & Hg' & Hok' & Hbit).
      rewrite Ha3 in Hr.
      destruct (slot_not_free s' n (index + j) r' object
                  ltac:(lia) Hr' Ho' Hg' Hok' Hbit) as [Hfrom Hfree].
      rewrite Hm, Hpg.
      eexists _, r, r'. split; [exact Hfrom|]. split; [exact Hr|].
      split; [exact Hr'|]. split; [left; exact Hnull|].
      split; [exact Ho'|]. split; [exact Hbit|exact Hfree].
Qed.

(** X19. When vm_reserv_alloc_contig(object, pindex, npages, ...)
    returns a page m (invariants as for X18, npages below 2^63), m is page
    VM_RESERV_INDEX(object, pindex) of a frame n, and for some c >= 1 with
    index + npages < (c + 1) * VM_LEVEL_0_NPAGES every page of the run
    that lies in the first c frames from n on belongs to a reservation
    that was unbound, or bound to object with the page's bit clear, and is
    now bound to object with the bit set; vm_reserv_is_page_free of the
    page is false. *)
Theorem alloc_contig_returns_populated_run
    object pindex npages low high alignment boundary mpred phys s m s' :
  population_ok s ->
  array_inv frame_ok s ->
  0 <= npages < 2 ^ 63 ->
  vm_reserv_alloc_contig object pindex npages low high alignment boundary
    mpred phys s = Ok (Some m, s') ->
  exists ob n c,
    vm_objects s !! object = Some ob /\
    m = page_at (Z.of_nat n * VM_LEVEL_0_SIZE) (VM_RESERV_INDEX ob pindex) /\
    1 <= c /\
    VM_RESERV_INDEX ob pindex + npages < (c + 1) * VM_LEVEL_0_NPAGES /\
    forall j, 0 <= j < npages ->
      VM_RESERV_INDEX ob pindex + j < c * VM_LEVEL_0_NPAGES ->
      exists k r r',
        vm_reserv_from_page (page_at m j) = Rv k /\
        vm_reserv_array s !! k = Some r /\
        vm_reserv_array s' !! k = Some r' /\
        (rv_object r = None \/
         rv_object r = Some object /\
         popmap_bit (rv_popmap r)
           ((VM_RESERV_INDEX ob pindex + j) mod VM_LEVEL_0_NPAGES) = false) /\
        rv_object r' = Some object /\
        popmap_bit (rv_popmap r')
          ((VM_RESERV_INDEX ob pindex + j) mod VM_LEVEL_0_NPAGES) = true /\
        vm_reserv_is_page_free (page_at m j) s' = Ok (false, s').
Proof. apply alloc_contig_effect. Qed.

(** X19 on a concrete state. *)
Lemma alloc_contig_returns_populated_run_witness :
  exists m s',
    vm_reserv_alloc_contig 0 7 600 0 (2 ^ 40) 1 0 None (Some 0) s_init
    = Ok (Some m, s') /\
    m = page_at 0 7 /\
    vm_reserv_is_page_free (page_at m 100) s' = Ok (false, s').
Proof.
  destruct (vm_reserv_alloc_contig 0 7 600 0 (2 ^ 40) 1 0 None (Some 0) s_init)
    as [[[m|] s']|] eqn:E; try (vm_compute in E; discriminate E).
  destruct (alloc_contig_returns_populated_run 0 7 600 0 (2 ^ 40) 1 0 None
              (Some 0) s_init m s' population_ok_init frames_ok_init
              ltac:(split; [discriminate|reflexivity]) E)
    as (ob & n & c & Hob & Hm & Hc & _ & Hrun).
  assert (Hi : VM_RESERV_INDEX ob 7 = 7)
    by (vm_compute in Hob; injection Hob as <-; reflexivity).
  destruct (Hrun 100) as (k & r & r' & _ & _ & _ & _ & _ & _ & Hfree);
    [lia|rewrite Hi; change VM_LEVEL_0_NPAGES with 512; lia|].
  exists m, s'. split; [reflexivity|]. split; [|exact Hfree].
  vm_compute in E. injection E as <- _. reflexivity.
Defined.
(** ** Who writes the size hint

    vm_reserv_populate and vm_reserv_depopulate are the only functions
    with a store to a size hint.  The operations that call neither leave
    the size hints alone (the [keeps] lemmas).  For the operations that
    call them, vm_reserv_alloc_page, vm_reserv_alloc_contig and
    vm_reserv_free_page, the stores are read off the reservation array:
    every step before and after the call is quiet, and the call itself
    stores exactly when the reservation becomes full, or stops being
    full. *)

Lemma stores_population f s s' :
  size_hint_stores f s s' = stores_of f (population s) (population s').
Proof.
  unfold size_hint_stores, stores_of, population.
  rewrite zip_with_fmap_l, zip_with_fmap_r. reflexivity.
Qed.

Lemma population_length s s' :
  population s' = population s ->
  length (vm_reserv_array s') = length (vm_reserv_array s).
Proof.
  unfold population. intros H.
  apply (f_equal length) in H. rewrite !length_fmap in H. exact H.
Qed.

Lemma population_lookup s k :
  population s !! k
  = (fun r => (rv_pages r, rv_popcnt r)) <$> vm_reserv_array s !! k.
Proof. unfold population. apply list_lookup_fmap. Qed.

(** Two states whose arrays agree on pages and popcnt at every index. *)
Lemma population_eq s s' :
  (forall k, match vm_reserv_array s' !! k, vm_reserv_array s !! k with
             | Some r', Some r =>
                 rv_pages r' = rv_pages r /\ rv_popcnt r' = rv_popcnt r
             | None, None => True
             | _, _ => False
             end) ->
  population s' = population s.
Proof.
  intros H. apply list_eq. intros k. rewrite !population_lookup.
  specialize (H k).
  destruct (vm_reserv_array s' !! k) as [r'|], (vm_reserv_array s !! k) as [r|];
    cbn; try contradiction; [|reflexivity].
  destruct H as [-> ->]. reflexivity.
Qed.

Section Stores.

Variable f : option Z -> Z -> Z -> list event.
Hypothesis f_same : forall pages c, f pages c c = [].

Lemma stores_of_same p : stores_of f p p = [].
Proof.
  unfold stores_of. induction p as [|v p IH]; [reflexivity|].
  cbn. rewrite f_same. exact IH.
Qed.

(** Only element n differs. *)
Lemma stores_of_single p n v v' :
  p !! n = Some v -> fst v' = fst v ->
  stores_of f p (<[n := v']> p) = f (fst v) (snd v) (snd v').
Proof.
  unfold stores_of. revert n. induction p as [|x p IH]; intros n Hn Hf;
    [discriminate|].
  destruct n as [|n]; cbn in *.
  - injection Hn as ->. fold (stores_of f p p). rewrite stores_of_same.
    apply app_nil_r.
  - rewrite f_same. cbn. apply IH; assumption.
Qed.

(** A first step that changes element n only, followed by steps that
    leave the elements up to n alone. *)
Lemma stores_of_split n : forall p0 p1 p2,
  length p1 = length p0 -> length p2 = length p0 ->
  (forall k, k <> n -> p1 !! k = p0 !! k) ->
  (forall k, (k <= n)%nat -> p2 !! k = p1 !! k) ->
  stores_of f p0 p2 = stores_of f p0 p1 ++ stores_of f p1 p2.
Proof.
  unfold stores_of.
  induction n as [|n IH]; intros p0 p1 p2 H1 H2 Hne Hle.
  - destruct p0 as [|x0 p0], p1 as [|x1 p1], p2 as [|x2 p2];
      try discriminate; [reflexivity|].
    assert (x2 = x1) by (specialize (Hle 0%nat ltac:(lia)); cbn in Hle; congruence).
    subst x2.
    assert (p1 = p0).
    { apply list_eq. intros k. exact (Hne (S k) ltac:(lia)). }
    subst p1. cbn. rewrite f_same. cbn.
    fold (stores_of f p0 p0). rewrite stores_of_same, app_nil_r. reflexivity.
  - destruct p0 as [|x0 p0], p1 as [|x1 p1], p2 as [|x2 p2];
      try discriminate; [reflexivity|].
    assert (x2 = x1) by (specialize (Hle 0%nat ltac:(lia)); cbn in Hle; congruence).
    assert (x1 = x0) by (specialize (Hne 0%nat ltac:(lia)); cbn in Hne; congruence).
    subst x2 x1. cbn. rewrite f_same. cbn.
    apply IH.
    + cbn in H1. lia.
    + cbn in H2. lia.
    + intros k Hk. exact (Hne (S k) ltac:(lia)).
    + intros k Hk. exact (Hle (S k) ltac:(lia)).
Qed.

End Stores.

(** *** Series of stores *)

Lemma stored_nil s s' : psind_frame s s' -> stored [] s s'.
Proof.
  intros [Hp Hw]. split; [rewrite app_nil_r; exact Hw|exact Hp].
Qed.

Lemma stored_app l1 l2 s s1 s2 :
  stored l1 s s1 -> stored l2 s1 s2 -> stored (l1 ++ l2) s s2.
Proof.
  intros [Hw1 Hp1] [Hw2 Hp2]. split.
  - rewrite Hw2, Hw1, app_assoc. reflexivity.
  - rewrite Hp2, Hp1. unfold psind_after. rewrite fold_left_app. reflexivity.
Qed.

Lemma stored_after_frame l s s1 s2 :
  psind_frame s s1 -> stored l s1 s2 -> stored l s s2.
Proof. intros H1 H2. exact (stored_app [] l _ _ _ (stored_nil _ _ H1) H2). Qed.

Lemma stored_then_frame l s s1 s2 :
  stored l s s1 -> psind_frame s1 s2 -> stored l s s2.
Proof.
  intros H1 H2. rewrite <- (app_nil_r l).
  exact (stored_app l [] _ _ _ H1 (stored_nil _ _ H2)).
Qed.

Lemma stored_one s m k v s1 s' :
  psind_index m = Some k ->
  psind_frame
    (set_trace (trace s ++ [EvStorePsind m v])
       (set_psind (<[k := v]> (psind s)) s1)) s' ->
  stored [EvStorePsind m v] s s'.
Proof.
  intros Hk [Hp Hw]. split.
  - rewrite Hw. apply psind_writes_store.
  - rewrite Hp. cbn. rewrite Hk. destruct s1; reflexivity.
Qed.

(** *** Steps that store to no size hint and change no population *)

Lemma quiet_array {A : Type} (m : M A) :
  keeps_psind m ->
  (forall s a s', m s = Ok (a, s') ->
     vm_reserv_array s' = vm_reserv_array s) ->
  quiet m.
Proof.
  intros Hk Ha s a s' H. split; [exact (Hk _ _ _ H)|].
  unfold population. rewrite (Ha _ _ _ H). reflexivity.
Qed.

Lemma quiet_state {A : Type} (m : M A) :
  (forall s a s', m s = Ok (a, s') -> s' = s) -> quiet m.
Proof.
  intros Hs s a s' H. rewrite (Hs _ _ _ H).
  split; [apply psind_frame_refl|reflexivity].
Qed.

Lemma quiet_ret {A : Type} (a : A) : quiet (ret a).
Proof.
  apply quiet_state. intros s b s' H. apply ret_inv in H as [_ ->].
  reflexivity.
Qed.

Lemma quiet_fail {A : Type} e : quiet (@fail A e).
Proof. intros s a s' H. discriminate. Qed.

Lemma quiet_lift {A : Type} (r : res A) : quiet (lift r).
Proof.
  apply quiet_state. intros s b s' H. apply lift_inv in H as [_ ->].
  reflexivity.
Qed.

Lemma quiet_KASSERT b : quiet (KASSERT b).
Proof.
  apply quiet_state. intros s a s' H. apply KASSERT_inv in H as [_ ->].
  reflexivity.
Qed.

Lemma quiet_load_rv rv : quiet (load_rv rv).
Proof.
  apply quiet_state. intros s a s' H. unfold load_rv in H.
  destruct rv; [|destruct (_ !! _)]; inversion H; reflexivity.
Qed.

Lemma quiet_load_obj o : quiet (load_obj o).
Proof.
  apply quiet_state. intros s a s' H. apply load_obj_inv in H as [_ ->].
  reflexivity.
Qed.

Lemma quiet_VM_OBJECT_ASSERT_WLOCKED o : quiet (VM_OBJECT_ASSERT_WLOCKED o).
Proof.
  apply quiet_state. intros s a s' H.
  apply VM_OBJECT_ASSERT_WLOCKED_inv in H as [_ ->]. reflexivity.
Qed.

Lemma quiet_vnode_backed ob : quiet (vnode_backed ob).
Proof.
  apply quiet_state. intros s a s' H. exact (vnode_backed_inv _ _ _ _ H).
Qed.

Lemma quiet_free_mtx_lock : quiet free_mtx_lock.
Proof.
  apply quiet_array; [apply keeps_free_mtx_lock|].
  intros s a s' H. apply free_mtx_lock_inv in H as [_ ->].
  destruct s; reflexivity.
Qed.

Lemma quiet_free_mtx_unlock : quiet free_mtx_unlock.
Proof.
  apply quiet_array; [apply keeps_free_mtx_unlock|].
  intros s a s' H. apply free_mtx_unlock_inv in H as [_ ->].
  destruct s; reflexivity.
Qed.

Lemma quiet_vm_reserv_lock rv : quiet (vm_reserv_lock rv).
Proof.
  apply quiet_array; [apply keeps_vm_reserv_lock|].
  intros s a s' H. apply vm_reserv_lock_inv in H as (k & _ & _ & ->).
  destruct s; reflexivity.
Qed.

Lemma quiet_vm_reserv_unlock rv : quiet (vm_reserv_unlock rv).
Proof.
  apply quiet_array; [apply keeps_vm_reserv_unlock|].
  intros s a s' H. apply vm_reserv_unlock_inv in H as (k & _ & _ & ->).
  destruct s; reflexivity.
Qed.

Lemma quiet_vm_phys_alloc_pages pool order m :
  quiet (vm_phys_alloc_pages pool order m).
Proof.
  apply quiet_array; [apply keeps_vm_phys_alloc_pages|].
  intros s a s' H. unfold vm_phys_alloc_pages in H.
  apply bind_inv in H as (? & s1 & He & H).
  apply emit_inv in He as ->. apply ret_inv in H as [_ ->].
  destruct s; reflexivity.
Qed.

Lemma quiet_vm_phys_alloc_contig npages low high alignment boundary m :
  quiet (vm_phys_alloc_contig npages low high alignment boundary m).
Proof.
  apply quiet_array; [apply keeps_vm_phys_alloc_contig|].
  intros s a s' H. unfold vm_phys_alloc_contig in H.
  apply bind_inv in H as (? & s1 & He & H).
  apply emit_inv in He as ->. apply ret_inv in H as [_ ->].
  destruct s; reflexivity.
Qed.

Lemma quiet_look_left object ob pindex first mpred :
  quiet (look_left object ob pindex first mpred).
Proof.
  apply quiet_array; [apply keeps_look_left|].
  intros s a s' H. exact (proj1 (look_left_keeps_array _ _ _ _ _ _ _ _ H)).
Qed.

Lemma quiet_probe_msucc object pindex msucc :
  quiet (probe_msucc object pindex msucc).
Proof.
  apply quiet_array; [apply keeps_probe_msucc|].
  intros s a s' H. exact (probe_msucc_array _ _ _ _ _ _ H).
Qed.

(** Binding a free reservation writes object, pindex and seq only. *)
Lemma quiet_bind_new_reserv object first m :
  quiet (bind_new_reserv object first m).
Proof.
  intros s rv s' H.
  split; [exact (keeps_bind_new_reserv _ _ _ _ _ _ H)|].
  apply bind_new_reserv_inv in H
    as (n & r & _ & _ & Hr & _ & _ & _ & Hr' & Hoth).
  apply population_eq. intros k.
  destruct (decide (k = n)) as [->|Hne].
  - rewrite Hr', Hr. split; reflexivity.
  - rewrite (Hoth k Hne).
    destruct (vm_reserv_array s !! k); [split; reflexivity|exact I].
Qed.

Lemma quiet_bind {A B : Type} (m : M A) (g : A -> M B) :
  quiet m -> (forall a, quiet (g a)) -> quiet (bind m g).
Proof.
  intros Hm Hg s b s' H. apply bind_inv in H as (a & s1 & H1 & H2).
  destruct (Hm _ _ _ H1) as [Hw1 Hp1], (Hg _ _ _ _ H2) as [Hw2 Hp2].
  split; [eapply psind_frame_trans; eassumption|congruence].
Qed.

Create HintDb quiet.

#[local] Hint Resolve quiet_ret quiet_fail quiet_lift quiet_KASSERT
  quiet_load_rv quiet_load_obj quiet_VM_OBJECT_ASSERT_WLOCKED
  quiet_vnode_backed quiet_free_mtx_lock quiet_free_mtx_unlock
  quiet_vm_reserv_lock quiet_vm_reserv_unlock quiet_vm_phys_alloc_pages
  quiet_vm_phys_alloc_contig quiet_look_left quiet_probe_msucc
  quiet_bind_new_reserv : quiet.

Ltac quiet_step :=
  match goal with
  | |- quiet (bind _ _) => apply quiet_bind; [|intros]
  | |- quiet (if ?b then _ else _) => destruct b
  | |- quiet (match ?x with _ => _ end) => destruct x
  | |- quiet _ => solve [auto with quiet]
  end.

Ltac quiet := repeat quiet_step.

(** *** Quiet steps around a call that stores *)

Section Rules.

Variable f : option Z -> Z -> Z -> list event.
Hypothesis f_same : forall pages c, f pages c c = [].
Variable G : state -> Prop.
Hypothesis G_population :
  forall s s', population s' = population s -> G s -> G s'.

Lemma stores_quiet {A : Type} (m : M A) : quiet m -> stores_by f G m.
Proof.
  intros Hq s a s' _ H. destruct (Hq _ _ _ H) as [Hw Hp].
  split; [|exact (population_length _ _ Hp)].
  rewrite stores_population, Hp, stores_of_same by exact f_same.
  apply stored_nil, Hw.
Qed.

Lemma stores_after_quiet {A B : Type} (m : M A) (g : A -> M B) :
  quiet m -> (forall a, stores_by f G (g a)) -> stores_by f G (bind m g).
Proof.
  intros Hm Hg s b s' HG H. apply bind_inv in H as (a & s1 & H1 & H2).
  destruct (Hm _ _ _ H1) as [Hw1 Hp1].
  destruct (Hg a s1 b s' (G_population _ _ Hp1 HG) H2) as [Hw2 Hl2].
  split; [|rewrite Hl2; exact (population_length _ _ Hp1)].
  rewrite stores_population, <- Hp1, <- stores_population.
  exact (stored_after_frame _ _ _ _ Hw1 Hw2).
Qed.

Lemma stores_then_quiet {A B : Type} (m : M A) (g : A -> M B) :
  stores_by f G m -> (forall a, quiet (g a)) -> stores_by f G (bind m g).
Proof.
  intros Hm Hg s b s' HG H. apply bind_inv in H as (a & s1 & H1 & H2).
  destruct (Hm _ _ _ HG H1) as [Hw1 Hl1].
  destruct (Hg a _ _ _ H2) as [Hw2 Hp2].
  split; [|rewrite (population_length _ _ Hp2); exact Hl1].
  rewrite stores_population, Hp2, <- stores_population.
  exact (stored_then_frame _ _ _ _ Hw1 Hw2).
Qed.

End Rules.

(** *** vm_reserv_populate and vm_reserv_depopulate *)

Lemma promotion_same pages c : promotion pages c c = [].
Proof.
  unfold promotion. destruct pages; [|reflexivity].
  destruct (c <? _) eqn:E1, (c =? _) eqn:E2; zbool; try reflexivity; lia.
Qed.

Lemma demotion_same pages c : demotion pages c c = [].
Proof.
  unfold demotion. destruct pages; [|reflexivity].
  destruct (c <? _) eqn:E1, (c =? _) eqn:E2; zbool; try reflexivity; lia.
Qed.

(** vm_reserv_populate changes reservation n only, and stores 1 exactly
    when the reservation, which was not full, is full now. *)
Lemma populate_stores n index s u s' :
  vm_reserv_populate (Rv n) index s = Ok (u, s') ->
  exists r r',
    vm_reserv_array s !! n = Some r /\
    vm_reserv_array s' !! n = Some r' /\
    rv_pages r' = rv_pages r /\
    rv_popcnt r < VM_LEVEL_0_NPAGES /\
    rv_popcnt r' = u16 (rv_popcnt r + 1) /\
    (forall k, k <> n -> vm_reserv_array s' !! k = vm_reserv_array s !! k) /\
    stored (promotion (rv_pages r) (rv_popcnt r) (rv_popcnt r')) s s'.
Proof.
  intros Hp. pose proof (populate_others _ _ _ _ _ Hp) as Hoth.
  apply populate_inv in Hp
    as (r & m & k & pm & Hr & _ & _ & Hlt & Hm & Hk & _ & _ & H).
  cbv zeta in H.
  pose proof (keeps_vm_reserv_update_lru _ _ _ _ _ H) as Hfr.
  apply update_lru_population in H as (_ & _ & Hpop).
  assert (Hlen : (n < length (vm_reserv_array s))%nat)
    by (eapply lookup_lt_Some; eassumption).
  destruct (Hpop n (set_rv_popcnt (u16 (rv_popcnt r + 1)) (set_rv_popmap pm r)))
    as (r' & Hr' & Hc & _ & Hpg & _).
  { destruct (_ =? _); unfold put_rv; cbn;
      apply list_lookup_insert_eq; exact Hlen. }
  cbn in Hc, Hpg.
  exists r, r'. split; [exact Hr|]. split; [exact Hr'|].
  split; [exact Hpg|]. split; [exact Hlt|]. split; [exact Hc|].
  split; [exact Hoth|].
  rewrite Hc, Hm. unfold promotion.
  rewrite (proj2 (Z.ltb_lt _ _) Hlt). cbn [andb].
  destruct (_ =? _).
  - eapply stored_one; eassumption.
  - apply stored_nil. destruct Hfr as [Hps Hw].
    split; [rewrite Hps|rewrite Hw]; destruct s; reflexivity.
Qed.

Lemma populate_marker index s u s' :
  vm_reserv_populate Marker index s = Ok (u, s') -> False.
Proof.
  unfold vm_reserv_populate. intros H.
  apply bind_inv in H as (? & s1 & Ha & _).
  apply vm_reserv_assert_locked_inv in Ha as [(k & Hk & _) _]. discriminate.
Qed.

Lemma depopulate_marker index s u s' :
  vm_reserv_depopulate Marker index s = Ok (u, s') -> False.
Proof.
  unfold vm_reserv_depopulate. intros H.
  apply bind_inv in H as (? & s1 & Ha & _).
  apply vm_reserv_assert_locked_inv in Ha as [(k & Hk & _) _]. discriminate.
Qed.

(** vm_reserv_depopulate changes reservation n only, and stores 0
    exactly when the reservation, which was full, no longer is. *)
Lemma depopulate_stores n index s u s' :
  vm_reserv_depopulate (Rv n) index s = Ok (u, s') ->
  exists r r',
    vm_reserv_array s !! n = Some r /\
    vm_reserv_array s' !! n = Some r' /\
    rv_pages r' = rv_pages r /\
    0 < rv_popcnt r /\
    rv_popcnt r' = u16 (rv_popcnt r - 1) /\
    (forall k, k <> n -> vm_reserv_array s' !! k = vm_reserv_array s !! k) /\
    stored (demotion (rv_pages r) (rv_popcnt r) (rv_popcnt r')) s s'.
Proof.
  intros Hp.
  apply depopulate_inv in Hp as (r & pm & Hr & _ & _ & Hgt & _ & Hf & Hn).
  cbv zeta in Hf, Hn.
  assert (Hlen : (n < length (vm_reserv_array s))%nat)
    by (eapply lookup_lt_Some; eassumption).
  set (r1 := set_rv_popcnt (u16 (rv_popcnt r - 1)) (set_rv_popmap pm r)) in *.
  assert (Hup : exists smid,
    vm_reserv_update_lru (Rv n) RV_DEPOP_STEP smid = Ok (u, s') /\
    vm_reserv_array smid = <[n := r1]> (vm_reserv_array s) /\
    forall s2, psind_frame smid s2 ->
      stored (demotion (rv_pages r) (rv_popcnt r) (rv_popcnt r1)) s s2).
  { destruct (Z.eq_dec (rv_popcnt r) VM_LEVEL_0_NPAGES) as [E|E].
    - destruct (Hf E) as (m & k & Hm & Hk & _ & _ & H).
      eexists. split; [exact H|]. split; [destruct s; reflexivity|].
      intros s2 Hfr.
      unfold demotion. subst r1. cbn [rv_popcnt set_rv_popcnt].
      rewrite Hm, E.
      change ((VM_LEVEL_0_NPAGES =? VM_LEVEL_0_NPAGES)
              && (u16 (VM_LEVEL_0_NPAGES - 1) <? VM_LEVEL_0_NPAGES))
        with true.
      eapply stored_one; eassumption.
    - eexists. split; [exact (Hn E)|]. split; [destruct s; reflexivity|].
      intros s2 [Hps Hw].
      unfold demotion. rewrite (proj2 (Z.eqb_neq _ _) E). cbn [andb].
      assert (stored [] s s2)
        by (apply stored_nil; split; [rewrite Hps|rewrite Hw];
            destruct s; reflexivity).
      destruct (rv_pages r); assumption. }
  destruct Hup as (smid & H & Hmid & Hwmid).
  pose proof (keeps_vm_reserv_update_lru _ _ _ _ _ H) as Hfr.
  apply update_lru_population in H as (_ & Hl & Hpop).
  rewrite Hmid in Hl, Hpop. rewrite length_insert in Hl.
  destruct (Hpop n r1) as (r' & Hr' & Hc & _ & Hpg & _).
  { apply list_lookup_insert_eq. exact Hlen. }
  exists r, r'. split; [exact Hr|]. split; [exact Hr'|].
  split; [rewrite Hpg; reflexivity|]. split; [exact Hgt|].
  split; [exact Hc|]. split.
  - intros k Hne.
    destruct (vm_reserv_array s !! k) as [r0|] eqn:E.
    + destruct (Hpop k r0) as (r0' & Hr0' & _ & _ & _ & _ & Heq).
      { rewrite list_lookup_insert_ne by congruence. exact E. }
      rewrite Hr0'. f_equal. apply Heq. exact Hne.
    + apply lookup_ge_None. rewrite Hl. apply lookup_ge_None. exact E.
  - rewrite Hc. apply Hwmid, Hfr.
Qed.

(** Between two states whose arrays differ at index n only, the stores
    are those of reservation n. *)
Lemma stores_single f s s' n r r' :
  (forall pages c, f pages c c = []) ->
  vm_reserv_array s !! n = Some r ->
  vm_reserv_array s' !! n = Some r' ->
  rv_pages r' = rv_pages r ->
  (forall k, k <> n -> vm_reserv_array s' !! k = vm_reserv_array s !! k) ->
  size_hint_stores f s s' = f (rv_pages r) (rv_popcnt r) (rv_popcnt r') /\
  length (vm_reserv_array s') = length (vm_reserv_array s).
Proof.
  intros Hf Hr Hr' Hpg Hoth.
  assert (Hp : population s'
               = <[n := (rv_pages r', rv_popcnt r')]> (population s)).
  { apply list_eq. intros k. destruct (decide (k = n)) as [->|Hne].
    - rewrite list_lookup_insert_eq, population_lookup, Hr'; [reflexivity|].
      unfold population. rewrite length_fmap. eapply lookup_lt_Some, Hr.
    - rewrite list_lookup_insert_ne by congruence.
      rewrite !population_lookup, (Hoth k Hne). reflexivity. }
  split.
  - rewrite stores_population, Hp.
    rewrite (stores_of_single f Hf _ n (rv_pages r, rv_popcnt r)).
    + reflexivity.
    + rewrite population_lookup, Hr. reflexivity.
    + exact Hpg.
  - apply (f_equal length) in Hp. unfold population in Hp.
    rewrite length_insert, !length_fmap in Hp. exact Hp.
Qed.

Lemma stores_populate G rv index :
  stores_by promotion G (vm_reserv_populate rv index).
Proof.
  intros s u s' _ H. destruct rv as [|n];
    [destruct (populate_marker _ _ _ _ H)|].
  apply populate_stores in H
    as (r & r' & Hr & Hr' & Hpg & _ & _ & Hoth & Hw).
  destruct (stores_single promotion s s' n r r' promotion_same)
    as [Hs Hl]; try assumption.
  split; [rewrite Hs; exact Hw|exact Hl].
Qed.

Lemma stores_depopulate G rv index :
  stores_by demotion G (vm_reserv_depopulate rv index).
Proof.
  intros s u s' _ H. destruct rv as [|n];
    [destruct (depopulate_marker _ _ _ _ H)|].
  apply depopulate_stores in H
    as (r & r' & Hr & Hr' & Hpg & _ & _ & Hoth & Hw).
  destruct (stores_single demotion s s' n r r' demotion_same)
    as [Hs Hl]; try assumption.
  split; [rewrite Hs; exact Hw|exact Hl].
Qed.

(** for (i = 0; i < n; i++) vm_reserv_populate(rv, index + i): the
    reservation is full after the last call at the earliest. *)
Lemma populate_range_stores cnt : forall n index s u s',
  populate_range cnt (Rv n) index s = Ok (u, s') ->
  (cnt = 0%nat /\ s' = s) \/
  exists r r',
    vm_reserv_array s !! n = Some r /\
    vm_reserv_array s' !! n = Some r' /\
    rv_pages r' = rv_pages r /\
    rv_popcnt r < VM_LEVEL_0_NPAGES /\
    (forall k, k <> n -> vm_reserv_array s' !! k = vm_reserv_array s !! k) /\
    stored (promotion (rv_pages r) (rv_popcnt r) (rv_popcnt r')) s s'.
Proof.
  induction cnt as [|cnt IH]; intros n index s u s' H;
    cbn [populate_range] in H.
  { apply ret_inv in H as [_ ->]. left. split; reflexivity. }
  right. apply bind_inv in H as ([] & s1 & Hp & H).
  apply populate_stores in Hp
    as (r & r1 & Hr & Hr1 & Hpg1 & Hlt & _ & Hoth1 & Hw1).
  apply IH in H as [[_ ->]|(r1' & r' & Hr1' & Hr' & Hpg & Hlt1 & Hoth & Hw)].
  { exists r, r1. auto 10. }
  assert (r1' = r1) by congruence. subst r1'.
  exists r, r'. split; [exact Hr|]. split; [exact Hr'|].
  split; [congruence|]. split; [exact Hlt|]. split.
  { intros k Hne. rewrite Hoth by exact Hne. apply Hoth1, Hne. }
  assert (E1 : promotion (rv_pages r) (rv_popcnt r) (rv_popcnt r1) = []).
  { unfold promotion. destruct (rv_pages r); [|reflexivity].
    rewrite (proj2 (Z.eqb_neq (rv_popcnt r1) _)) by lia.
    rewrite andb_false_r. reflexivity. }
  assert (E2 : promotion (rv_pages r1) (rv_popcnt r1) (rv_popcnt r')
               = promotion (rv_pages r) (rv_popcnt r) (rv_popcnt r')).
  { rewrite Hpg1. unfold promotion. destruct (rv_pages r); [|reflexivity].
    rewrite (proj2 (Z.ltb_lt _ _) Hlt), (proj2 (Z.ltb_lt _ _) Hlt1).
    reflexivity. }
  rewrite E1 in Hw1. rewrite E2 in Hw.
  exact (stored_app [] _ _ _ _ Hw1 Hw).
Qed.

Lemma stores_populate_range G cnt rv index :
  stores_by promotion G (populate_range cnt rv index).
Proof.
  intros s u s' _ H. destruct rv as [|n].
  { destruct cnt; cbn [populate_range] in H.
    - apply ret_inv in H as [_ ->].
      rewrite stores_population, stores_of_same by exact promotion_same.
      split; [apply stored_nil, psind_frame_refl|reflexivity].
    - apply bind_inv in H as (? & s1 & Hp & _).
      destruct (populate_marker _ _ _ _ Hp). }
  apply populate_range_stores in H
    as [[_ ->]|(r & r' & Hr & Hr' & Hpg & _ & Hoth & Hw)].
  { rewrite stores_population, stores_of_same by exact promotion_same.
    split; [apply stored_nil, psind_frame_refl|reflexivity]. }
  destruct (stores_single promotion s s' n r r' promotion_same)
    as [Hs Hl]; try assumption.
  split; [rewrite Hs; exact Hw|exact Hl].
Qed.

(** populate_range writes popcnt and popmap of reservation n only. *)
Lemma populate_range_population cnt n index s u s' :
  populate_range cnt (Rv n) index s = Ok (u, s') ->
  (forall k, k <> n -> population s' !! k = population s !! k) /\
  (forall k, fst <$> population s' !! k = fst <$> population s !! k).
Proof.
  intros H.
  apply populate_range_stores in H
    as [[_ ->]|(r & r' & Hr & Hr' & Hpg & _ & Hoth & _)];
    [split; reflexivity|].
  split.
  - intros k Hne. rewrite !population_lookup, (Hoth k Hne). reflexivity.
  - intros k. rewrite !population_lookup.
    destruct (decide (k = n)) as [->|Hne].
    + rewrite Hr, Hr'. cbn. rewrite Hpg. reflexivity.
    + rewrite (Hoth k Hne). reflexivity.
Qed.

(** *** The front-ends *)

Create HintDb stores.

#[local] Hint Resolve stores_populate stores_depopulate
  stores_populate_range promotion_same demotion_same : stores.

(** Splits a front-end along its binds and branches: the steps before
    and after the calls of vm_reserv_populate and vm_reserv_depopulate
    are quiet. *)
Ltac stores_step :=
  match goal with
  | |- stores_by _ _ (bind (vm_reserv_populate _ _) _) =>
      apply stores_then_quiet; [apply stores_populate|intros; quiet]
  | |- stores_by _ _ (bind (vm_reserv_depopulate _ _) _) =>
      apply stores_then_quiet; [apply stores_depopulate|intros; quiet]
  | |- stores_by _ _ (bind (populate_range _ _ _) _) =>
      apply stores_then_quiet; [apply stores_populate_range|intros; quiet]
  | |- stores_by _ _ (bind _ _) =>
      apply stores_after_quiet; [assumption|solve [quiet]|intros]
  | |- stores_by _ _ (if ?b then _ else _) => destruct b
  | |- stores_by _ _ (match ?x with _ => _ end) => destruct x
  | |- stores_by _ _ _ => solve [auto with stores]
  | |- stores_by _ _ _ =>
      apply stores_quiet; [solve [auto with stores]|solve [quiet]]
  end.

Ltac stores := cbv zeta; repeat stores_step.

Section FrontEnds.

Variable G : state -> Prop.
Hypothesis G_population :
  forall s s', population s' = population s -> G s -> G s'.

Lemma stores_alloc_page_found ob pindex rv :
  stores_by promotion G (vm_reserv_alloc_page_found ob pindex rv).
Proof. unfold vm_reserv_alloc_page_found. stores. Qed.

#[local] Hint Resolve stores_alloc_page_found : stores.

Lemma stores_alloc_page object pindex mpred phys :
  stores_by promotion G (vm_reserv_alloc_page object pindex mpred phys).
Proof. unfold vm_reserv_alloc_page. stores. Qed.

Lemma stores_alloc_contig_found ob pindex npages low high alignment boundary
    rv :
  stores_by promotion G
    (vm_reserv_alloc_contig_found ob pindex npages low high alignment
       boundary rv).
Proof. unfold vm_reserv_alloc_contig_found. stores. Qed.

Lemma stores_free_page m :
  stores_by demotion G (vm_reserv_free_page m).
Proof. unfold vm_reserv_free_page. stores. Qed.

End FrontEnds.

(** *** The loop of vm_reserv_alloc_contig over fresh frames

    The frames are bound in the order of their addresses, which is the
    order of the reservation array when every pages field is the address
    of its frame. *)

Lemma frame_ok_pages s s' :
  (forall k, fst <$> population s' !! k = fst <$> population s !! k) ->
  array_inv frame_ok s -> array_inv frame_ok s'.
Proof.
  intros Hp Hs k r' Hr'. specialize (Hp k).
  rewrite !population_lookup, Hr' in Hp. cbn in Hp.
  destruct (vm_reserv_array s !! k) as [r|] eqn:Hr; [|discriminate].
  cbn in Hp. injection Hp as Hpg.
  specialize (Hs k r Hr). unfold frame_ok in *. rewrite Hpg. exact Hs.
Qed.

Lemma frame_ok_population s s' :
  population s' = population s ->
  array_inv frame_ok s -> array_inv frame_ok s'.
Proof. intros Hp. apply frame_ok_pages. intros k. rewrite Hp. reflexivity. Qed.

Lemma next_frame n :
  Z.to_nat (Z.shiftr (page_at (Z.of_nat n * VM_LEVEL_0_SIZE) VM_LEVEL_0_NPAGES)
              VM_LEVEL_0_SHIFT) = S n.
Proof.
  unfold page_at.
  change (VM_LEVEL_0_NPAGES * PAGE_SIZE) with (1 * VM_LEVEL_0_SIZE).
  rewrite <- Z.mul_add_distr_r.
  replace (Z.of_nat n + 1) with (Z.of_nat (S n)) by lia.
  pose proof (from_page_frame (S n)) as H. unfold vm_reserv_from_page in H.
  injection H as H. exact H.
Qed.

Lemma alloc_contig_fill_stores object : forall fuel m first npages allocpages
    idx m_ret s res s',
  alloc_contig_fill fuel object m first npages allocpages idx m_ret s
  = Ok (res, s') ->
  array_inv frame_ok s ->
  stored (promotions s s') s s' /\
  length (vm_reserv_array s') = length (vm_reserv_array s) /\
  forall k, (k < Z.to_nat (Z.shiftr m VM_LEVEL_0_SHIFT))%nat ->
    population s' !! k = population s !! k.
Proof.
  induction fuel as [|fuel IH];
    intros m first npages allocpages idx m_ret s res s' H Hfr;
    cbn [alloc_contig_fill] in H; [discriminate|].
  apply bind_inv in H as (rv & s1 & Hb & H).
  destruct (quiet_bind_new_reserv _ _ _ _ _ _ Hb) as [Hw1 Hp1].
  apply bind_new_reserv_inv in Hb
    as (n & r & -> & Hfp & Hr & Hpg & _).
  pose proof (frame_address _ _ _ (Hfr n r Hr) Hpg) as Hm.
  assert (Hn : Z.to_nat (Z.shiftr m VM_LEVEL_0_SHIFT) = n)
    by (unfold vm_reserv_from_page in Hfp; congruence).
  rewrite Hn. cbv zeta in H.
  apply bind_inv in H as ([] & s2 & Hpr & H).
  destruct (stores_populate_range (fun _ => True) _ _ _ _ _ _ I Hpr)
    as [Hw2 Hl2].
  apply populate_range_population in Hpr as [Hoth2 Hpg2].
  apply bind_inv in H as ([] & s3 & Hu & H).
  destruct (quiet_vm_reserv_unlock _ _ _ _ Hu) as [Hw3 Hp3].
  assert (Hstep : stored (promotions s s3) s s3).
  { unfold promotions. rewrite stores_population, Hp3, <- Hp1.
    rewrite <- stores_population.
    eapply stored_then_frame; [|exact Hw3].
    eapply stored_after_frame; eassumption. }
  assert (Hl3 : length (population s3) = length (population s))
    by (rewrite Hp3, <- Hp1; unfold population; rewrite !length_fmap;
        exact Hl2).
  assert (Hoth3 : forall k, k <> n -> population s3 !! k = population s !! k)
    by (intros k Hne; rewrite Hp3, <- Hp1; apply Hoth2, Hne).
  assert (Hlen3 : length (vm_reserv_array s3) = length (vm_reserv_array s))
    by (unfold population in Hl3; rewrite !length_fmap in Hl3; exact Hl3).
  destruct (VM_LEVEL_0_NPAGES <=? _).
  - assert (Hfr3 : array_inv frame_ok s3).
    { eapply frame_ok_pages; [|exact Hfr].
      intros k. rewrite Hp3, <- Hp1. apply Hpg2. }
    destruct (IH _ _ _ _ _ _ _ _ _ H Hfr3) as (Hw & Hl & Hlow).
    rewrite Hm, next_frame in Hlow.
    split; [|split].
    + assert (E : promotions s s' = promotions s s3 ++ promotions s3 s').
      { unfold promotions. rewrite !stores_population.
        apply (stores_of_split promotion promotion_same n).
        - exact Hl3.
        - unfold population. rewrite !length_fmap. congruence.
        - exact Hoth3.
        - intros k Hk. apply Hlow. lia. }
      rewrite E. exact (stored_app _ _ _ _ _ Hstep Hw).
    + congruence.
    + intros k Hk. rewrite Hlow by lia. apply Hoth3. lia.
  - apply ret_inv in H as [_ ->].
    split; [exact Hstep|]. split; [exact Hlen3|].
    intros k Hk. apply Hoth3. lia.
Qed.

Lemma stores_alloc_contig_fill fuel object m first npages allocpages idx
    m_ret :
  stores_by promotion (array_inv frame_ok)
    (alloc_contig_fill fuel object m first npages allocpages idx m_ret).
Proof.
  intros s res s' HG H.
  destruct (alloc_contig_fill_stores _ _ _ _ _ _ _ _ _ _ _ H HG)
    as (Hw & Hl & _).
  split; assumption.
Qed.

Lemma stores_alloc_contig object pindex npages low high alignment boundary
    mpred phys :
  stores_by promotion (array_inv frame_ok)
    (vm_reserv_alloc_contig object pindex npages low high alignment boundary
       mpred phys).
Proof.
  pose proof frame_ok_population.
  pose proof (stores_alloc_contig_found (array_inv frame_ok)
                frame_ok_population).
  pose proof stores_alloc_contig_fill.
  unfold vm_reserv_alloc_contig. stores.
Qed.

(** C1. vm_reserv_populate stores 1 to the size hint of the reservation's
    first page exactly when it raises popcnt from N-1 to N, and
    vm_reserv_depopulate stores 0 to it exactly when it lowers popcnt from
    N to N-1; neither performs any other store to a size hint.  No other
    operation of the module (set_object, lru_dequeue, update_lru, break,
    break_all, reclaim, reclaim_inactive, rename, scan, init, the lock
    operations, is_page_free, level, level_iffullpop, reclaim_contig with
    or without its opening assertion) stores to a size hint or changes
    one.  The three operations that call the two functions store what the
    calls store and nothing else: the stores of vm_reserv_alloc_page and
    of vm_reserv_alloc_contig (on an array whose pages fields are NULL or
    the frame addresses) are one store of 1 for every reservation that
    the call made full, in the order of the reservation array, and the
    stores of vm_reserv_free_page are one store of 0 for every
    reservation that was full and no longer is; the size hints after the
    call are those before it with these stores applied. *)
Theorem psind_written_only_by_promotion_and_demotion :
  (forall n index s s' r r',
      vm_reserv_populate (Rv n) index s = Ok (tt, s') ->
      vm_reserv_array s !! n = Some r ->
      vm_reserv_array s' !! n = Some r' ->
      0 <= rv_popcnt r ->
      (rv_popcnt r = VM_LEVEL_0_NPAGES - 1 /\
       rv_popcnt r' = VM_LEVEL_0_NPAGES /\
       exists m, rv_pages r = Some m /\
         psind_writes s' = psind_writes s ++ [EvStorePsind m 1] /\
         psind s' = psind_after [EvStorePsind m 1] (psind s)) \/
      (rv_popcnt r <> VM_LEVEL_0_NPAGES - 1 /\
       rv_popcnt r' <> VM_LEVEL_0_NPAGES /\
       psind_frame s s')) /\
  (forall n index s s' r r',
      vm_reserv_depopulate (Rv n) index s = Ok (tt, s') ->
      vm_reserv_array s !! n = Some r ->
      vm_reserv_array s' !! n = Some r' ->
      (rv_popcnt r = VM_LEVEL_0_NPAGES /\
       rv_popcnt r' = VM_LEVEL_0_NPAGES - 1 /\
       exists m, rv_pages r = Some m /\
         psind_writes s' = psind_writes s ++ [EvStorePsind m 0] /\
         psind s' = psind_after [EvStorePsind m 0] (psind s)) \/
      (rv_popcnt r <> VM_LEVEL_0_NPAGES /\ psind_frame s s')) /\
  (forall rv object pindex, keeps_psind (vm_reserv_set_object rv object pindex)) /\
  (forall rv, keeps_psind (vm_reserv_lru_dequeue rv)) /\
  (forall rv advance, keeps_psind (vm_reserv_update_lru rv advance)) /\
  (forall rv m, keeps_psind (vm_reserv_break rv m)) /\
  (forall object, keeps_psind (vm_reserv_break_all object)) /\
  (forall rv, keeps_psind (vm_reserv_reclaim rv)) /\
  keeps_psind vm_reserv_reclaim_inactive /\
  (forall m new_object old_object old_object_offset,
      keeps_psind (vm_reserv_rename m new_object old_object old_object_offset)) /\
  (forall target, keeps_psind (vm_reserv_scan target)) /\
  (forall segs, keeps_psind (vm_reserv_init segs)) /\
  (forall rv, keeps_psind (vm_reserv_lock rv)) /\
  (forall rv, keeps_psind (vm_reserv_trylock rv)) /\
  (forall rv, keeps_psind (vm_reserv_unlock rv)) /\
  (forall rv, keeps_psind (vm_reserv_assert_locked rv)) /\
  (forall m, keeps_psind (vm_reserv_is_page_free m)) /\
  (forall m, keeps_psind (vm_reserv_level m)) /\
  (forall m, keeps_psind (vm_reserv_level_iffullpop m)) /\
  (forall npages low high alignment boundary,
      keeps_psind (reclaim_contig_scan npages low high alignment boundary)) /\
  (forall npages low high alignment boundary,
      keeps_psind
        (vm_reserv_reclaim_contig npages low high alignment boundary)) /\
  (forall object pindex mpred phys s a s',
      vm_reserv_alloc_page object pindex mpred phys s = Ok (a, s') ->
      psind_writes s' = psind_writes s ++ promotions s s' /\
      psind s' = psind_after (promotions s s') (psind s) /\
      length (vm_reserv_array s') = length (vm_reserv_array s)) /\
  (forall object pindex npages low high alignment boundary mpred phys s a s',
      array_inv frame_ok s ->
      vm_reserv_alloc_contig object pindex npages low high alignment
        boundary mpred phys s = Ok (a, s') ->
      psind_writes s' = psind_writes s ++ promotions s s' /\
      psind s' = psind_after (promotions s s') (psind s) /\
      length (vm_reserv_array s') = length (vm_reserv_array s)) /\
  (forall m s b s',
      vm_reserv_free_page m s = Ok (b, s') ->
      psind_writes s' = psind_writes s ++ demotions s s' /\
      psind s' = psind_after (demotions s s') (psind s) /\
      length (vm_reserv_array s') = length (vm_reserv_array s)).
Proof.
  split; [|split].
  - intros n index s s' r r' H Hr Hr' Hge.
    pose proof (populate_inv _ _ _ _ _ H)
      as (r1 & m & _ & _ & Hr1 & _ & _ & _ & Hm & _).
    apply populate_stores in H
      as (r0 & r0' & Hr0 & Hr0' & _ & Hlt & Hc & _ & Hst).
    assert (r0 = r) by congruence. assert (r0' = r') by congruence.
    assert (r1 = r) by congruence. subst r0 r0' r1.
    unfold promotion in Hst.
    rewrite Hm, (proj2 (Z.ltb_lt _ _) Hlt), Hc in Hst. cbn [andb] in Hst.
    rewrite VM_LEVEL_0_NPAGES_val in *.
    rewrite u16_small in Hc, Hst by lia.
    destruct (rv_popcnt r + 1 =? 512) eqn:E; zbool.
    + left. split; [lia|]. split; [lia|].
      exists m. split; [exact Hm|exact Hst].
    + right. split; [lia|]. split; [lia|].
      destruct Hst as [Hw Hps]. rewrite app_nil_r in Hw.
      split; assumption.
  - intros n index s s' r r' H Hr Hr'.
    pose proof (depopulate_inv _ _ _ _ _ H)
      as (r1 & pm & Hr1 & _ & _ & _ & _ & Hf & _).
    apply depopulate_stores in H
      as (r0 & r0' & Hr0 & Hr0' & _ & Hgt & Hc & _ & Hst).
    assert (r0 = r) by congruence. assert (r0' = r') by congruence.
    assert (r1 = r) by congruence. subst r0 r0' r1.
    unfold demotion in Hst.
    destruct (Z.eq_dec (rv_popcnt r) VM_LEVEL_0_NPAGES) as [E|E].
    + left. destruct (Hf E) as (m & _ & Hm & _).
      rewrite Hm, Hc, E in Hst.
      split; [exact E|]. split; [rewrite Hc, E; reflexivity|].
      exists m. split; [exact Hm|exact Hst].
    + right. split; [exact E|].
      rewrite (proj2 (Z.eqb_neq _ _) E) in Hst. cbn [andb] in Hst.
      assert (Hnil : stored [] s s') by (destruct (rv_pages r); exact Hst).
      destruct Hnil as [Hw Hps]. rewrite app_nil_r in Hw.
      split; assumption.
  - repeat apply conj; intros.
    + apply keeps_vm_reserv_set_object.
    + apply keeps_vm_reserv_lru_dequeue.
    + apply keeps_vm_reserv_update_lru.
    + apply keeps_vm_reserv_break.
    + apply keeps_vm_reserv_break_all.
    + apply keeps_vm_reserv_reclaim.
    + apply keeps_vm_reserv_reclaim_inactive.
    + apply keeps_vm_reserv_rename.
    + apply keeps_vm_reserv_scan.
    + apply keeps_vm_reserv_init.
    + apply keeps_vm_reserv_lock.
    + apply keeps_vm_reserv_trylock.
    + apply keeps_vm_reserv_unlock.
    + apply keeps_vm_reserv_assert_locked.
    + apply keeps_vm_reserv_is_page_free.
    + apply keeps_vm_reserv_level.
    + apply keeps_vm_reserv_level_iffullpop.
    + apply keeps_reclaim_contig_scan.
    + apply keeps_vm_reserv_reclaim_contig.
    + destruct (stores_alloc_page (fun _ => True) (fun _ _ _ _ => I)
                  _ _ _ _ _ _ _ I H) as [[Hw Hp] Hl].
      auto.
    + destruct (stores_alloc_contig _ _ _ _ _ _ _ _ _ _ _ _ H H0)
        as [[Hw Hp] Hl].
      auto.
    + destruct (stores_free_page (fun _ => True) (fun _ _ _ _ => I)
                  _ _ _ _ I H) as [[Hw Hp] Hl].
      auto.
Qed.

(** Populating the last clear slot of reservation 0 promotes it, and
    depopulating a slot of the full reservation demotes it.  Allocating
    the page at pindex 1 in the empty array stores nothing, allocating
    the last free page of reservation 0 stores 1, allocating 1024
    contiguous pages promotes reservations 0 and 1 in this order, and
    freeing a page of the full reservation 0 stores 0. *)
Lemma psind_written_only_by_promotion_and_demotion_witness :
  (exists s' r r',
     vm_reserv_populate (Rv 0) 511 s_almost_full = Ok (tt, s') /\
     vm_reserv_array s_almost_full !! 0%nat = Some r /\
     vm_reserv_array s' !! 0%nat = Some r' /\
     rv_popcnt r = VM_LEVEL_0_NPAGES - 1 /\
     rv_popcnt r' = VM_LEVEL_0_NPAGES /\
     psind_writes s' = psind_writes s_almost_full ++ [EvStorePsind 0 1]) /\
  (exists s' r r',
     vm_reserv_depopulate (Rv 0) 7 s_full_locked = Ok (tt, s') /\
     vm_reserv_array s_full_locked !! 0%nat = Some r /\
     vm_reserv_array s' !! 0%nat = Some r' /\
     rv_popcnt r = VM_LEVEL_0_NPAGES /\
     rv_popcnt r' = VM_LEVEL_0_NPAGES - 1 /\
     psind_writes s' = psind_writes s_full_locked ++ [EvStorePsind 0 0]) /\
  (exists m s',
     vm_reserv_alloc_page 0 1 None (Some 0) s_init = Ok (Some m, s') /\
     promotions s_init s' = [] /\
     psind_writes s' = psind_writes s_init /\
     psind s' = psind s_init) /\
  (let s := exec (vm_reserv_unlock (Rv 0)) s_almost_full in
   exists m s',
     vm_reserv_alloc_page 0 511
       (Some (mk_vm_page (page_at 0 510) (Some 0%nat) 510)) None s
     = Ok (Some m, s') /\
     promotions s s' = [EvStorePsind 0 1] /\
     psind_writes s' = psind_writes s ++ [EvStorePsind 0 1] /\
     psind s' = [1; 0; 0; 0]) /\
  (exists m s',
     vm_reserv_alloc_contig 0 0 1024 0 (2 ^ 40) 1 0 None (Some 0) s_init
     = Ok (Some m, s') /\
     promotions s_init s'
     = [EvStorePsind 0 1; EvStorePsind (page_at 0 VM_LEVEL_0_NPAGES) 1] /\
     psind_writes s'
     = psind_writes s_init
       ++ [EvStorePsind 0 1; EvStorePsind (page_at 0 VM_LEVEL_0_NPAGES) 1] /\
     psind s' = [1; 1; 0; 0]) /\
  (exists s',
     vm_reserv_free_page (mk_vm_page (page_at 0 7) (Some 0%nat) 7) s_full
     = Ok (true, s') /\
     demotions s_full s' = [EvStorePsind 0 0] /\
     psind_writes s' = psind_writes s_full ++ [EvStorePsind 0 0] /\
     psind s_full = [1; 0; 0; 0] /\ psind s' = [0; 0; 0; 0]).
Proof.
  pose proof psind_written_only_by_promotion_and_demotion as C.
  destruct C as (Cpop & Cdepop & C).
  do 19 apply proj2 in C. destruct C as (Cpage & Ccontig & Cfree).
  split; [|split; [|split; [|split; [|split]]]].
  - eexists _, _, _.
    split; [vm_compute; reflexivity|].
    split; [vm_compute; reflexivity|].
    split; [vm_compute; reflexivity|].
    destruct (Cpop 0%nat 511 s_almost_full _ _ _
                ltac:(vm_compute; reflexivity) ltac:(vm_compute; reflexivity)
                ltac:(vm_compute; reflexivity) ltac:(vm_compute; discriminate))
      as [(Hr & Hr' & m & Hm & Hw & _)|(Hr & _)].
    + split; [exact Hr|]. split; [exact Hr'|].
      injection Hm as <-. exact Hw.
    + exfalso. apply Hr. reflexivity.
  - eexists _, _, _.
    split; [vm_compute; reflexivity|].
    split; [vm_compute; reflexivity|].
    split; [vm_compute; reflexivity|].
    destruct (Cdepop 0%nat 7 s_full_locked _ _ _
                ltac:(vm_compute; reflexivity) ltac:(vm_compute; reflexivity)
                ltac:(vm_compute; reflexivity))
      as [(Hr & Hr' & m & Hm & Hw & _)|(Hr & _)].
    + split; [exact Hr|]. split; [exact Hr'|].
      injection Hm as <-. exact Hw.
    + exfalso. apply Hr. reflexivity.
  - destruct (vm_reserv_alloc_page 0 1 None (Some 0) s_init)
      as [[[m|] s']|e] eqn:E;
      [|vm_compute in E; discriminate E|vm_compute in E; discriminate E].
    exists m, s'. split; [reflexivity|].
    destruct (Cpage _ _ _ _ _ _ _ E) as (Hw & Hps & _).
    assert (Hp : promotions s_init s' = [])
      by (vm_compute in E; injection E as _ <-; vm_compute; reflexivity).
    split; [exact Hp|]. rewrite Hw, Hps, Hp.
    split; [apply app_nil_r|reflexivity].
  - intros s.
    destruct (vm_reserv_alloc_page 0 511
                (Some (mk_vm_page (page_at 0 510) (Some 0%nat) 510)) None s)
      as [[[m|] s']|e] eqn:E;
      [|vm_compute in E; discriminate E|vm_compute in E; discriminate E].
    exists m, s'. split; [reflexivity|].
    destruct (Cpage _ _ _ _ _ _ _ E) as (Hw & Hps & _).
    assert (Hp : promotions s s' = [EvStorePsind 0 1])
      by (vm_compute in E; injection E as _ <-; vm_compute; reflexivity).
    split; [exact Hp|]. rewrite Hw, Hps, Hp.
    split; [reflexivity|vm_compute; reflexivity].
  - destruct (vm_reserv_alloc_contig 0 0 1024 0 (2 ^ 40) 1 0 None (Some 0)
                s_init) as [[[m|] s']|e] eqn:E;
      [|vm_compute in E; discriminate E|vm_compute in E; discriminate E].
    exists m, s'. split; [reflexivity|].
    destruct (Ccontig _ _ _ _ _ _ _ _ _ _ _ _ frames_ok_init E)
      as (Hw & Hps & _).
    assert (Hp : promotions s_init s'
                 = [EvStorePsind 0 1;
                    EvStorePsind (page_at 0 VM_LEVEL_0_NPAGES) 1])
      by (vm_compute in E; injection E as _ <-; vm_compute; reflexivity).
    split; [exact Hp|]. rewrite Hw, Hps, Hp.
    split; [reflexivity|vm_compute; reflexivity].
  - destruct (vm_reserv_free_page (mk_vm_page (page_at 0 7) (Some 0%nat) 7)
                s_full) as [[[|] s']|e] eqn:E;
      [|vm_compute in E; discriminate E|vm_compute in E; discriminate E].
    exists s'. split; [reflexivity|].
    destruct (Cfree _ _ _ _ E) as (Hw & Hps & _).
    assert (Hp : demotions s_full s' = [EvStorePsind 0 0])
      by (vm_compute in E; injection E as <-; vm_compute; reflexivity).
    split; [exact Hp|]. rewrite Hw, Hps, Hp.
    split; [reflexivity|]. split; vm_compute; reflexivity.
Defined.
